(* ===== verification/_CoqProject ===== *)
-Q . S2P
Prelude.v
GoStrings.v
GoError.v
Api.v
Effects.v
Logic.v
StateLogic.v
Connection.v
SqlLexer.v
PgUtils.v
Dsn.v
GoPath.v
Base64.v
Pem.v
Certificates.v
Utils.v
PgConfig.v
Postgresql.v
Mysql.v
MysqlSql.v
Database.v
CertInputs.v
Controller.v
ControllerFacts.v
ControllerRuns.v
Ledger.v
SqlProps.v
World.v
Samples.v
EntryPoint.v
Healthy.v
ControllerTraces.v
Lifecycle.v
LifecycleProps.v
HealthyProps.v
Convergence.v
ControllerProps.v
UserProps.v
BackendProps.v
DatabaseProps.v
Panics.v
OperatorProps.v
GoHeap.v
DeepCopy.v
DeepCopyProps.v
Server.v
ServerDb.v
ServerPg.v
ServerMysql.v
ServerObjects.v
ServerRuns.v
ServerOutcome.v
ServerGuard.v
Orphans.v
ServerDemo.v
ServerProps.v
ServerUsers.v
ManyUsers.v
OrphansProps.v
ServerConvergence.v
Credits.v
Bounds.v
TestDouble.v
