(* ===== verification/Prelude.v ===== *)
(** * Verification of the database-users Kubernetes operator

    The operator reconciles [User] custom resources: for each database a user
    refers to it creates the user with its password, grants the referenced
    privileges and, for PostgreSQL with client certificates, stores the
    certificates in a secret; when the resource is deleted it revokes, drops
    and deletes again.  A finalizer keeps the resource until that is done.

    ** The parts and how they are modelled

    The reconciler (controllers/user_controller.go) reads the API, asks the
    database creator (pkg/database/database.go) for a database object,
    PostgreSQL (pkg/database/postgresql) or MySQL (pkg/database/mysql), and
    calls it; those write statements to a connection
    (pkg/database/connection).  Everything outside the repository (Kubernetes
    client, SQL driver, file system, certificate library, logger) is a request
    of a program, see [Effects]: a program is a finite tree of requests whose
    continuations take the answers, so

    - [runs p t o] says that [p], answered as the trace [t] says, ends with the
      outcome [o], a value or a Go panic; a theorem about all runs holds for
      every behaviour of the outside world;
    - [run h p w] executes [p] against a handler [h]; every program terminates
      with every handler ([run_runs]), no fuel is needed anywhere;
    - [finally] is a deferred call, [range_err] a loop that returns at the first
      error, [only] and [no_panic] are static bounds on the requests and panics.

    Foundations
    - [Prelude]: tactics, hints, lemmas on strings, lists and traces.
    - [GoStrings], [GoError], [GoPath]: what the code uses of Go's [strings],
      [errors] and [path/filepath]; [GoError] has the error values of the
      Kubernetes and PostgreSQL libraries that the code inspects.
    - [Base64], [Pem]: Go's [encoding/base64] and [encoding/pem] as functions; a
      block that is written is read back ([pem_roundtrip]).
    - [Effects]: requests, programs, their runs and their equivalence.
    - [Logic]: total correctness of programs under an assumption on the answers.
    - [StateLogic]: programs whose requests are answered along with a state, a
      server for instance: what holds at the end ([swp]), and that every request
      is permitted where it is made ([gwp]).
    - [Credits]: amortised upper bounds on what the runs of a program do.
    - [GoHeap]: Go's slices and pointers, and what a deep copy is.

    The code
    - [Api]: api/v1alpha1 (common.go, user_types.go, database_types.go,
      privileges_types.go), including the validation rule of [DatabaseSpec].
    - [Utils]: pkg/utils/utils.go.
    - [Connection]: pkg/database/connection; the interface is a class with laws
      ([ConnectionLaws]), [DefaultConnector] an instance, and the test double a
      shared object with atomic steps.
    - [PgUtils]: postgresql/utils.go, escaping and error classification.
    - [Certificates]: the PEM texts of pkg/utils/tests_utils/certificates.go.
    - [PgConfig]: postgresql/config.go, connection string and certificate files.
    - [Postgresql]: postgresql/postgresql.go over any connection.
    - [Mysql]: mysql/config.go and mysql/mysql.go over any connection.
    - [Database]: the interface of pkg/database/database.go as the class
      [DatabaseOps] with the laws [DatabaseLaws] its clients rely on; the
      interface value with its typed nil pointers, dispatch on it, and the
      creators [NewDatabase] and [DatabaseCreatorFunc] (the test double) with [CreatorLaws].
    - [Controller]: the reconciler of controllers/user_controller.go, every
      function; [OperatorReconcile] is the reconciler with the creator that
      main.go gives it.  Pointers to the [User] are threaded as values: an
      update returns the object as the client left it.
    - [EntryPoint]: main.go, the registration of the controller with the manager
      ([SetupWithManager]), and the one of the types with the scheme
      (groupversion_info.go and the [init] functions); flag, zap and the manager
      are requests, [main] returns the exit code.  The request that completes the
      controller carries the reconciler, whose creator is a name that
      [UserReconciler_Reconcile] resolves to the code.
    - [DeepCopy]: every method of zz_generated.deepcopy.go, over [GoHeap], with
      the objects laid out in memory as Go has them.

    Specifications
    - [SqlLexer]: the lexical rules of PostgreSQL for the operator's statements.
    - [Dsn]: the keyword/value format of connection strings.
    - [ControllerFacts.Reconciled]: a reconciliation as a relation with one
      constructor for each of its shapes, equivalent to its runs (a tool of the
      proofs).
    - [Ledger]: the databases in which something other than a revocation or a
      deletion was sent for a user since its last confirmed [DROP USER].
    - [Lifecycle]: the operator, the API server, the cache the operator reads
      and other clients as a step relation with resource versions, stale reads,
      lost answers, conflicts and crashes.
    - [Healthy]: a cluster without faults, and what a user needs in it; that a role
      exists already at its creation, or something does not exist any more when it
      is revoked or dropped, is no fault of a PostgreSQL server.
    - [CertInputs]: what making a client certificate needs, carried from the
      secrets to the database object.
    - [Server]: the PostgreSQL and MySQL servers as a parameter with the documented
      effect of the statements as laws ([ServerLaws]), and a parser of those for
      PostgreSQL; [MysqlSql] reads those for MySQL.
    - [ServerDb]: what a client of a database object can rely on at the servers, as
      a class; [ServerPg] and [ServerMysql] are instances, [ServerObjects] the one
      of the interface value that [NewDatabase] returns, and [ServerRuns] and
      [ServerOutcome] prove the reconciler against the class.
    - [ServerGuard]: the statements that a reconciliation may send over a
      connection, by the database that was read last; no others are sent.
    - [Orphans]: one user of [Lifecycle] with the servers: the ledger accounts for
      every role and account of the user; what this relies on, and what a step
      guarantees to other users.  [ManyUsers]: any number of users with one
      operator on the same servers, their requests in any order; each relies on
      what the steps of the others guarantee.

    Evaluation
    - [World], [Samples]: an executable cluster and sample objects, on which the
      hypotheses of the theorems are evaluated.
    - [ServerDemo]: an executable server with the laws of [ServerLaws].

    ** What is shown

    - [OrphansProps]: no orphaned roles; in every reachable state of [ManyUsers],
      where a role or account of a user exists on a server, its stored object
      carries the finalizer and refers to a database there.
    - [LifecycleProps]: no orphaned users, for every kind of database that has
      the laws, without a look at the servers; in every reachable state a database
      in which something may be left is referenced by the stored object, which
      carries the finalizer.
    - [HealthyProps]: in a cluster without faults every reconciliation of a live
      user ends with a ready user, and every one of a deleted user with its
      release.
    - [Convergence]: undisturbed attempts without faults in the system of
      [Lifecycle], and what they leave stored.
    - [ServerConvergence]: such an attempt at a deletion leaves no role and no
      account of the user on any server, whatever earlier attempts left there;
      such an attempt at a live user leaves it stored as ready, and as it asks on
      its servers.  An attempt at a deletion exists from every reachable state of
      [ManyUsers] when the servers answer what removes the user, as those of
      PostgreSQL do; a MySQL server has no such answers for an account that it
      has or misses already ([ServerUsers]).
    - [ServerProps]: what is on the servers when an attempt succeeds, when a user is
      reported ready and when it is released; applying a user only adds.
    - [ServerUsers]: a reconciliation touches nothing of other users but their
      memberships in the role of its user, so that ready users without any stay
      ready ([membership_revoked] is one that loses one); a MySQL user becomes
      ready only once and is released only when all its accounts are still there.
    - [ControllerProps]: when the finalizer is added and removed, when a user is
      reported ready, what each outcome of an attempt says of the databases before
      the one that failed and how it is reported, that the handles which [Connect]
      keeps are closed, and the steady state.  Proved for every database
      and creator with the laws; [ControllerFacts], [ControllerRuns] and
      [ControllerTraces] carry the proofs.
    - [UserProps]: creation, deletion and secrets in one database.
    - [SqlProps]: the statements are read by the server as they are meant, for
      every name that an identifier can spell and every password without zero
      characters, and where they are not (dotted names, zero characters,
      privilege texts).
    - [BackendProps]: the statements and results of the two database objects,
      their errors, the client certificates, and the clean-up of their files.
    - [DatabaseProps]: the choice of the database object, panics, passwords and
      connection settings.
    - [OperatorProps]: whole runs on the sample cluster; sequences of
      reconciliations, and what they leave behind after failures.
    - [Panics]: no run of the operator panics, up to two things it does not
      check, with an example of each.
    - [Bounds]: how many statements and requests a reconciliation can make, as a
      function of what it reads.
    - [TestDouble]: the controller over the test double and over the real
      connection have the same runs, seen from outside, when the server accepts
      what it is sent.  [Connection.fake_execs_order]: the record of the double.
    - [EntryPoint.manager_started]: what the process has set up when it starts the
      manager, and its exit codes.
    - [DeepCopyProps]: the generated copies are equal, end without a panic and
      share no memory with the original, however that is aliased.

    ** Assumptions and limits

    - The laws of [controllerutil] ([ControllerutilLaws]) are those of its
      documentation; the instance in [World] has them.
    - A reconciliation runs alone on its user, as the work queue of
      controller-runtime guarantees; two reconciliations of the same user are not
      interleaved ([overtaken_orphans] shows why; across operators this takes
      [--leader-elect], which main.go has off by default and deploy/ switches
      on), those of different users are in [ManyUsers].  In [Lifecycle]
      other clients do act between any two requests,
      and the cache may lag behind without bound; it is taken never to go back
      to an older version of the user, also over a restart
      ([cache_gone_back_orphans] shows why), no reference to a database is
      taken out of a user ([edited_reference_forgotten] shows why; it is an
      open item in README.md), and other clients leave the finalizer alone.
    - Outside the files on servers, these are seen through the answers to the
      statements, whose meaning is specified lexically.  The laws of [ServerLaws]
      that hold for every answer also cover connections that break during a
      statement; they say nothing of passwords that the server encrypts, nor of
      memberships in the role that a statement is about, which both systems revoke
      with the role.  A statement of PostgreSQL with a zero character in a literal
      is refused.  The laws tell all names apart, as a server does with names of
      at most 63 bytes; longer ones are cut by PostgreSQL.  The user of the
      operator has the grant options of what it grants: without them PostgreSQL
      only warns.
      Privileges of PostgreSQL are compared as their tokens, and a privilege whose
      text contains ON, TO or FROM is not read.  The placeholders of the MySQL
      statements mean their arguments, as the driver documents them; that a server
      may refuse what the driver makes of them is one of the answers.  [GRANT]
      creates no account, as from MySQL 8.0 on.  [dburl.GenMysql] is a function of
      the URL there.  In [Orphans] and [ManyUsers] the [Database] objects do not
      change (a user is not followed from one server to another), all connections
      of a specification lead to one server ([ServerPlaces]), and nobody else
      changes roles and accounts of the users.  [Ledger] counts a refused statement as having had an effect,
      and a drop only when it is confirmed.
    - Handles are those that [Connect] keeps.  [sqlx.ConnectContext] returns an
      open handle also with an error of its ping, and [Connect] drops it; "no
      connection is left open" does not speak of these
      ([ControllerProps.Reconcile_closes_handles], [OperatorProps.unreachable_server]).
    - Integers: the port and the serial number are [Z] within the range Go
      gives them; nothing is computed on them.  Times are [Z].
    - Bounds: the constants of [Bounds] are the largest numbers of requests of
      one database (35 with its creation, certificates and closing) and of one
      privilege (18, a PostgreSQL object in another database).  Every number of
      requests is that of the interface of [Effects].
    - The copies of Kubernetes' metadata are those of apimachinery: a class with
      its documented law ([MetaCopyLaws]), with an instance for the samples.
    - Not modelled: what the manager, the flag and the zap packages do; how often
      and for which objects the work queue calls the reconciler (but see
      [Lifecycle]); x509 and rsa, which are requests; the headers of PEM blocks
      beyond their presence, which the operator never reads; the tests and the
      deployment files. *)

From stdpp Require Export prelude gmap strings list pretty.
From Stdlib Require Export Ascii Lia.

(** ** Scope of the development's own notations *)

Declare Scope op_scope.
Delimit Scope op_scope with op.

(** ** Tactics *)

(** Destruct every conjunction, existential and pair equation in the context. *)
Ltac split_hyps :=
  repeat match goal with
  | H : _ ∧ _ |- _ => destruct H
  | H : ∃ _, _ |- _ => destruct H
  | H : (_, _) = (_, _) |- _ => injection H as ??; subst
  end; subst.

(** Case analysis on the scrutinee of some [match] or [if] of the goal. *)
Ltac case_scrutinee :=
  match goal with
  | |- context [match ?x with _ => _ end] => destruct x eqn:?
  end.

(** The closing tactic of routine goals. *)
Ltac crush := simpl in *; split_hyps; simplify_eq/=; eauto; try done; try lia.

(** Hint database of the shared lemmas. *)
Create HintDb operator discriminated.

(** ** Strings *)

(** Let [simpl] compute appends of literals. *)
#[global] Arguments String.append !s1 s2 / : simpl nomatch.

Section Strings.
Implicit Types (s t u : string) (a c : ascii) (P Q : ascii → bool).

Lemma string_app_nil_r s : s +:+ "" = s.
Proof. induction s as [|c s IH]; simpl; [done|by rewrite IH]. Qed.

Lemma string_app_assoc s t u : (s +:+ t) +:+ u = s +:+ (t +:+ u).
Proof. induction s as [|c s IH]; simpl; [done|by rewrite IH]. Qed.

Lemma string_app_cons c s t : String c s +:+ t = String c (s +:+ t).
Proof. done. Qed.

Lemma string_length_app s t : String.length (s +:+ t) = String.length s + String.length t.
Proof. induction s as [|c s IH]; simpl; [done|by rewrite IH]. Qed.

Lemma string_app_eq_nil s t : s +:+ t = "" → s = "" ∧ t = "".
Proof. by destruct s. Qed.

(** A predicate that holds of every character. *)
Fixpoint str_forallb P s : bool :=
  match s with
  | EmptyString => true
  | String c s' => P c && str_forallb P s'
  end.

Lemma str_forallb_app P s t :
  str_forallb P (s +:+ t) = str_forallb P s && str_forallb P t.
Proof. induction s as [|c s IH]; simpl; [done|]. by rewrite IH, andb_assoc. Qed.

Lemma str_forallb_impl P Q s :
  (∀ c, P c = true → Q c = true) → str_forallb P s = true → str_forallb Q s = true.
Proof.
  intros HPQ. induction s as [|c s IH]; simpl; [done|].
  rewrite !andb_true_iff. intros [??]. eauto.
Qed.

(** The string does not contain the character. *)
Definition str_free a s : bool := str_forallb (λ c, negb (Ascii.eqb c a)) s.

Lemma str_free_step a c s : str_free a (String c s) = negb (Ascii.eqb c a) && str_free a s.
Proof. done. Qed.

Lemma str_free_app a s t : str_free a (s +:+ t) = str_free a s && str_free a t.
Proof. apply str_forallb_app. Qed.

(** Number of occurrences of a character. *)
Fixpoint count_char a s : nat :=
  match s with
  | EmptyString => 0
  | String c s' => (if Ascii.eqb c a then 1 else 0) + count_char a s'
  end.

Lemma count_char_app a s t : count_char a (s +:+ t) = count_char a s + count_char a t.
Proof. induction s as [|c s IH]; simpl; [done|]. rewrite IH. lia. Qed.

Lemma concat_cons sep s l :
  l ≠ [] → String.concat sep (s :: l) = s +:+ (sep +:+ String.concat sep l).
Proof. by destruct l. Qed.

Lemma concat_snoc sep s l :
  l ≠ [] → String.concat sep (l ++ [s]) = String.concat sep l +:+ (sep +:+ s).
Proof.
  induction l as [|x l IH]; [done|intros _]. destruct l as [|y l]; [done|].
  rewrite <- app_comm_cons, concat_cons by done.
  rewrite IH by done. rewrite (concat_cons sep x (y :: l)) by done.
  by rewrite !string_app_assoc.
Qed.

(** Texts with the same number of occurrences part by part. *)
Lemma count_char_concat a sep l k :
  Forall2 (λ s t, count_char a s = count_char a t) l k →
  count_char a (String.concat sep l) = count_char a (String.concat sep k).
Proof.
  induction 1 as [|s t l k Hs Hl IH]; [done|].
  destruct Hl as [|s' t' l k]; [done|].
  rewrite (concat_cons sep s), (concat_cons sep t), !count_char_app by done.
  by rewrite IH, Hs.
Qed.

Lemma str_forallb_concat P sep l :
  str_forallb P sep = true →
  Forall (λ s, str_forallb P s = true) l →
  str_forallb P (String.concat sep l) = true.
Proof.
  intros Hsep. induction 1 as [|s l Hs Hl IH]; [done|].
  destruct l as [|t l]; [done|].
  rewrite concat_cons, !str_forallb_app, Hs, Hsep by done. by rewrite IH.
Qed.
End Strings.

#[export] Hint Rewrite string_app_nil_r string_app_assoc string_app_cons : operator.
#[export] Hint Resolve str_forallb_impl : operator.

(** ** Options and lists *)

(** [Some x] exactly when the predicate fails everywhere: used for first errors. *)
Lemma Forall_app_2 {A} (P : A → Prop) l k : Forall P l → Forall P k → Forall P (l ++ k).
Proof. intros ??. by apply Forall_app. Qed.

Lemma forallb_Forall {A} (f : A → bool) l : forallb f l = true → Forall (λ x, f x = true) l.
Proof. induction l as [|x l IH]; simpl; [by constructor|]. intros [? ?]%andb_true_iff. constructor; auto. Qed.

(** A contiguous part of a list. *)
Definition segment {A} (k l : list A) : Prop := ∃ l1 l2, l = l1 ++ k ++ l2.

Lemma segment_refl {A} (l : list A) : segment l l.
Proof. exists [], []. by rewrite app_nil_r. Qed.

Lemma segment_app_l {A} (k l l' : list A) : segment k l → segment k (l' ++ l).
Proof. intros (l1 & l2 & ->). exists (l' ++ l1), l2. by rewrite <- app_assoc. Qed.

Lemma segment_app_r {A} (k l l' : list A) : segment k l → segment k (l ++ l').
Proof. intros (l1 & l2 & ->). exists l1, (l2 ++ l'). by rewrite <- !app_assoc. Qed.

Lemma segment_trans {A} (j k l : list A) : segment j k → segment k l → segment j l.
Proof.
  intros (a & b & ->) (c & d & ->). exists (c ++ a), (b ++ d).
  by rewrite !app_assoc.
Qed.

Lemma segment_elem_of {A} (x : A) k l : segment k l → x ∈ k → x ∈ l.
Proof. intros (a & b & ->) Hx. rewrite !elem_of_app. auto. Qed.

(** The place of an element that satisfies [P] in a list that begins with
    elements that do not. *)
Lemma split_after {A} (P : A → Prop) (pre l l1 l2 : list A) x :
  Forall (λ y, ¬ P y) pre → P x → pre ++ l = l1 ++ x :: l2 →
  ∃ l1', l1 = pre ++ l1' ∧ l = l1' ++ x :: l2.
Proof.
  revert l1. induction pre as [|y pre IH]; intros l1 Hpre Hx E; simpl in *; [eauto|].
  inversion_clear Hpre as [|?? Hy Hpre']. destruct l1 as [|z l1]; simplify_eq/=; [done|].
  destruct (IH l1 Hpre' Hx) as (l1' & -> & ->); eauto.
Qed.

(** The place of an element that satisfies [P] in a list that ends with elements
    that do not. *)
Lemma split_before {A} (P : A → Prop) (l post l1 l2 : list A) x :
  Forall (λ y, ¬ P y) post → P x → l ++ post = l1 ++ x :: l2 →
  ∃ l2', l = l1 ++ x :: l2' ∧ l2 = l2' ++ post.
Proof.
  intros Hpost Hx. revert l1. induction l as [|y l IH]; intros l1 E; simpl in *.
  - subst. rewrite Forall_app, Forall_cons in Hpost. by destruct Hpost as (_ & [] & _).
  - destruct l1 as [|z l1]; simplify_eq/=; [eauto|].
    match goal with E : _ ++ _ = _ |- _ => destruct (IH _ E) as (l2' & -> & ->) end. eauto.
Qed.

(** An element of an append is in the first part or in the second. *)
Lemma app_place {A} (l k l1 l2 : list A) x :
  l ++ k = l1 ++ x :: l2 →
  (∃ l2', l = l1 ++ x :: l2') ∨ (∃ l1', l1 = l ++ l1' ∧ k = l1' ++ x :: l2).
Proof.
  revert l1. induction l as [|y l IH]; intros l1 E; simpl in E; [by right; exists l1|].
  destruct l1 as [|z l1]; injection E as -> E; [left; eauto|].
  destruct (IH _ E) as [[l2' ->]|(l1' & -> & ->)]; [left; eauto|right; eauto].
Qed.

(** The only element that satisfies [P]. *)
Lemma split_unique {A} (P : A → Prop) (pre post l1 l2 : list A) x y :
  Forall (λ z, ¬ P z) pre → Forall (λ z, ¬ P z) post → P x →
  pre ++ y :: post = l1 ++ x :: l2 → l1 = pre ∧ x = y ∧ l2 = post.
Proof.
  intros Hpre Hpost Hx E. destruct (split_after P _ _ _ _ _ Hpre Hx E) as (l1' & -> & E').
  destruct l1' as [|z l1']; simplify_eq/=.
  - by rewrite app_nil_r.
  - rewrite Forall_app in Hpost. destruct Hpost as [_ Hpost]. by inversion Hpost.
Qed.

#[export] Hint Resolve Forall_app_2 segment_refl segment_app_l segment_app_r : operator.

(** ** Machine integers *)

(** The value of a 64-bit [int] after wrap-around. *)
Definition wrap64 (z : Z) : Z := ((z + 2 ^ 63) mod 2 ^ 64 - 2 ^ 63)%Z.

Lemma wrap64_small z : (- 2 ^ 63 ≤ z < 2 ^ 63)%Z → wrap64 z = z.
Proof. intros H. unfold wrap64. rewrite Z.mod_small; lia. Qed.
