(* ===== verification/GoStrings.v ===== *)
(** * The part of Go's [strings] and [fmt] packages that the operator uses

    [strings.Split] and [strings.ReplaceAll] are only called with a separator or
    pattern of one byte, so the pattern is an [ascii] here. *)

From S2P Require Import Prelude.

Section GoStrings.
Implicit Types (s t : string) (sep old c : ascii).

(** [strings.Split(s, sep)]: never empty, keeps empty fields. *)
Fixpoint strings_Split s sep : list string :=
  match s with
  | EmptyString => [""]
  | String c s' =>
      if Ascii.eqb c sep then "" :: strings_Split s' sep
      else match strings_Split s' sep with
           | [] => [String c ""]
           | p :: ps => String c p :: ps
           end
  end.

(** [strings.ReplaceAll(s, old, new)]. *)
Fixpoint strings_ReplaceAll s old (new : string) : string :=
  match s with
  | EmptyString => ""
  | String c s' =>
      if Ascii.eqb c old then new +:+ strings_ReplaceAll s' old new
      else String c (strings_ReplaceAll s' old new)
  end.

(** [strings.Join(l, sep)]. *)
Definition strings_Join (l : list string) (sep : string) : string := String.concat sep l.

(** [%d] of an [int]. *)
Definition fmt_d (z : Z) : string := pretty z.

(** [%v] of a [[]interface{}] whose elements are strings. *)
Definition fmt_v_strings (l : list string) : string := "[" +:+ String.concat " " l +:+ "]".

(** [fmt.Sprint(args...)] when every operand is of string kind: no spaces are added. *)
Definition fmt_Sprint_strings (l : list string) : string := String.concat "" l.

Lemma strings_Split_ne s sep : strings_Split s sep ≠ [].
Proof.
  destruct s as [|c s]; simpl; [done|].
  destruct (Ascii.eqb c sep); [done|]. by destruct (strings_Split s sep).
Qed.

Lemma strings_Split_free s sep : Forall (λ p, str_free sep p = true) (strings_Split s sep).
Proof.
  induction s as [|c s IH]; simpl; [by repeat constructor|].
  destruct (Ascii.eqb c sep) eqn:E; [by constructor|].
  destruct (strings_Split s sep) as [|p ps]; inversion_clear IH;
    constructor; unfold str_free in *; simpl; rewrite ?E; done.
Qed.

(** Joining what [Split] returned gives the string back. *)
Lemma strings_Join_Split s sep : strings_Join (strings_Split s sep) (String sep "") = s.
Proof.
  unfold strings_Join. induction s as [|c s IH]; [done|]. simpl.
  pose proof (strings_Split_ne s sep) as Hne.
  destruct (Ascii.eqb c sep) eqn:E.
  - apply Ascii.eqb_eq in E as ->. rewrite concat_cons by done. by rewrite IH.
  - destruct (strings_Split s sep) as [|p ps]; [done|].
    rewrite <- IH. by destruct ps.
Qed.

Lemma strings_Split_free_id s sep : str_free sep s = true → strings_Split s sep = [s].
Proof.
  unfold str_free. induction s as [|c s IH]; simpl; [done|].
  rewrite andb_true_iff, negb_true_iff. intros [-> Hs]. by rewrite IH.
Qed.

Lemma strings_Split_app s t sep :
  strings_Split (s +:+ String sep t) sep = strings_Split s sep ++ strings_Split t sep.
Proof.
  induction s as [|c s IH]; simpl.
  - by rewrite Ascii.eqb_refl.
  - rewrite IH. destruct (Ascii.eqb c sep); [done|].
    pose proof (strings_Split_ne s sep). by destruct (strings_Split s sep).
Qed.

Lemma strings_ReplaceAll_app s t old new :
  strings_ReplaceAll (s +:+ t) old new =
  strings_ReplaceAll s old new +:+ strings_ReplaceAll t old new.
Proof.
  induction s as [|c s IH]; simpl; [done|]. rewrite IH.
  by destruct (Ascii.eqb c old); [rewrite string_app_assoc|].
Qed.

Lemma strings_ReplaceAll_free s old new :
  str_free old s = true → strings_ReplaceAll s old new = s.
Proof.
  unfold str_free. induction s as [|c s IH]; simpl; [done|].
  rewrite andb_true_iff, negb_true_iff. intros [-> Hs]. by rewrite IH.
Qed.

(** Removing a character leaves a string without it. *)
Lemma strings_ReplaceAll_removed s old : str_free old (strings_ReplaceAll s old "") = true.
Proof.
  unfold str_free. induction s as [|c s IH]; simpl; [done|].
  destruct (Ascii.eqb c old) eqn:E; simpl; [done|]. by rewrite E.
Qed.

(** A property of characters survives replacement by a text that has it. *)
Lemma strings_ReplaceAll_forallb P s old new :
  str_forallb P new = true → str_forallb P s = true →
  str_forallb P (strings_ReplaceAll s old new) = true.
Proof.
  intros Hnew. induction s as [|c s IH]; simpl; [done|].
  rewrite andb_true_iff. intros [Hc Hs].
  destruct (Ascii.eqb c old); rewrite ?str_forallb_app, ?Hnew; simpl; rewrite ?Hc; auto.
Qed.

(** Replacing another character by a text without [a] keeps the [a]s. *)
Lemma count_char_ReplaceAll a s old new :
  a ≠ old → count_char a new = 0 → count_char a (strings_ReplaceAll s old new) = count_char a s.
Proof.
  intros Ha Hn. induction s as [|c s IH]; simpl; [done|].
  destruct (Ascii.eqb_spec c old) as [->|Hc]; simpl.
  - rewrite count_char_app, Hn, IH. destruct (Ascii.eqb_spec old a); [by subst|done].
  - by rewrite IH.
Qed.

Lemma str_free_ReplaceAll a s old new :
  str_free a new = true → str_free a s = true →
  str_free a (strings_ReplaceAll s old new) = true.
Proof. apply strings_ReplaceAll_forallb. Qed.
End GoStrings.

(** ** The characters of a printed integer *)

Section FmtD.
Context (P : ascii → bool).
Hypothesis P_digit : ∀ x, P (pretty_N_char x) = true.

Lemma pretty_N_go_forallb x s : str_forallb P s = true → str_forallb P (pretty_N_go x s) = true.
Proof.
  revert s. induction (N.lt_wf_0 x) as [x _ IH]; intros s Hs.
  destruct (decide (x = 0)%N) as [->|Hx]; [by rewrite pretty_N_go_0|].
  rewrite pretty_N_go_step by lia. apply IH; [apply N.div_lt; lia|].
  simpl. by rewrite P_digit.
Qed.

Lemma fmt_d_forallb z : P "-" = true → str_forallb P (fmt_d z) = true.
Proof.
  intros Hm. unfold fmt_d. assert (∀ n : N, str_forallb P (pretty n) = true) as HN.
  { intros n. unfold pretty, pretty_N. case_decide.
    - simpl. rewrite andb_true_r. apply (P_digit 0).
    - by apply pretty_N_go_forallb. }
  destruct z as [|p|p]; simpl.
  - rewrite andb_true_r. apply (P_digit 0).
  - apply (HN (N.pos p)).
  - rewrite Hm. apply (HN (N.pos p)).
Qed.
End FmtD.

Lemma fmt_d_ne z : fmt_d z ≠ "".
Proof.
  unfold fmt_d. assert (∀ x s, s ≠ "" → pretty_N_go x s ≠ "") as Hgo.
  { intros x. induction (N.lt_wf_0 x) as [x _ IH]; intros s Hs.
    destruct (decide (x = 0)%N) as [->|Hx]; [by rewrite pretty_N_go_0|].
    rewrite pretty_N_go_step by lia. apply IH; [apply N.div_lt; lia|done]. }
  destruct z as [|p|p]; [done| |done]. change (pretty (N.pos p) ≠ "").
  unfold pretty, pretty_N. rewrite decide_False by done.
  rewrite pretty_N_go_step by lia. by apply Hgo.
Qed.

#[export] Hint Resolve strings_Split_ne strings_Split_free strings_ReplaceAll_removed
  str_free_ReplaceAll : operator.
