(* ===== verification/GoError.v ===== *)
(** * Go errors as values

    An [error] interface value is an [option error]: [None] is [nil].  Errors
    built by the libraries the operator calls carry the text their [Error]
    method returns. *)

From S2P Require Import Prelude.

(** Reason of a Kubernetes API status error. *)
Inductive StatusReason :=
| ReasonNotFound | ReasonAlreadyExists | ReasonConflict | ReasonInvalid | ReasonOther.

(** - [ErrorString]: [errors.New], or [fmt.Errorf] without [%w];
    - [JoinError]: [errors.Join] of two non-nil errors;
    - [WrapError]: an error with a text of its own and an [Unwrap] method;
    - [PgError]: [*pgconn.PgError], with its SQLSTATE;
    - [StatusError]: [*apierrors.StatusError]. *)
Inductive error :=
| ErrorString (text : string)
| JoinError (e1 e2 : error)
| WrapError (text : string) (e : error)
| PgError (code text : string)
| StatusError (reason : StatusReason) (text : string).

#[export] Instance StatusReason_eq_dec : EqDecision StatusReason.
Proof. solve_decision. Defined.

#[export] Instance error_eq_dec : EqDecision error.
Proof. solve_decision. Defined.

Definition newline : string := String (Ascii.ascii_of_nat 10) "".

(** The [Error] method. *)
Fixpoint Error (e : error) : string :=
  match e with
  | ErrorString s | WrapError s _ | PgError _ s | StatusError _ s => s
  | JoinError e1 e2 => Error e1 +:+ newline +:+ Error e2
  end.

(** [errors.Join(e1, e2)]: nil errors are dropped. *)
Definition errors_Join (e1 e2 : option error) : option error :=
  match e1, e2 with
  | Some a, Some b => Some (JoinError a b)
  | Some a, None => Some a
  | None, _ => e2
  end.

(** [errors.As(err, &pgErr)]: the first [*pgconn.PgError] of the tree, in
    pre-order; the result is its SQLSTATE. *)
Fixpoint errors_As_PgError (e : error) : option string :=
  match e with
  | PgError code _ => Some code
  | JoinError e1 e2 =>
      match errors_As_PgError e1 with
      | Some c => Some c
      | None => errors_As_PgError e2
      end
  | WrapError _ e' => errors_As_PgError e'
  | _ => None
  end.

(** [apierrors.IsNotFound(err)] of a non-nil error: the reason of the first API
    status error of the tree. *)
Fixpoint errors_As_StatusReason (e : error) : option StatusReason :=
  match e with
  | StatusError r _ => Some r
  | JoinError e1 e2 =>
      match errors_As_StatusReason e1 with
      | Some r => Some r
      | None => errors_As_StatusReason e2
      end
  | WrapError _ e' => errors_As_StatusReason e'
  | _ => None
  end.

Definition apierrors_IsNotFound (err : error) : bool :=
  bool_decide (errors_As_StatusReason err = Some ReasonNotFound).
