(* ===== verification/Api.v ===== *)
(** * The custom resources (api/v1alpha1)

    The Go structs of [common.go], [user_types.go], [database_types.go] and
    [privileges_types.go].  Of the Kubernetes metadata only the fields the
    operator reads or writes are kept.  A nil pointer to a struct is [None]. *)

From S2P Require Import Prelude.

(** [types.NamespacedName] and [metav1.ObjectMeta] of apimachinery. *)
Record ObjectMeta := mkObjectMeta {
  Meta_Name : string;
  Meta_Namespace : string;
  Meta_ResourceVersion : string;
  Meta_Finalizers : list string;
  Meta_DeletionTimestamp : option string
}.

Record types_NamespacedName := mkTypesNN {
  Nn_Namespace : string;
  Nn_Name : string
}.

(** ** common.go *)

Record NamespacedName := mkNamespacedName {
  NamespacedName_Namespace : string;
  NamespacedName_Name : string
}.

(** [func (n NamespacedName) ToNamespacedName()] *)
Definition NamespacedName_ToNamespacedName (n : NamespacedName) : types_NamespacedName :=
  mkTypesNN (NamespacedName_Namespace n) (NamespacedName_Name n).

Record Name := mkName { Name_Name : string }.

(** [func (n Name) ToNamespacedName()]: a cluster-scoped name. *)
Definition Name_ToNamespacedName (n : Name) : types_NamespacedName :=
  mkTypesNN "" (Name_Name n).

(** Reference to a key of a Kubernetes secret. *)
Record Secret := mkSecret {
  Secret_Secret : NamespacedName;
  Secret_Key : string
}.

Record StatusSummary := mkStatusSummary { Ready : bool; Message : string }.

(** ** user_types.go *)

Record DatabaseRef := mkDatabaseRef {
  DatabaseRef_Name : string;
  DatabaseRef_PasswordSecret : Secret;
  DatabaseRef_CreatedSecret : NamespacedName;
  DatabaseRef_Privileges : list Name
}.

Record UserSpec := mkUserSpec { Databases : list DatabaseRef }.

Record UserStatus := mkUserStatus { Summary : StatusSummary }.

Record User := mkUser {
  User_Meta : ObjectMeta;
  User_Spec : UserSpec;
  User_Status : UserStatus
}.

Definition User_Name (u : User) : string := Meta_Name (User_Meta u).
Definition Finalizers (u : User) : list string := Meta_Finalizers (User_Meta u).
Definition User_Databases (u : User) : list DatabaseRef := Databases (User_Spec u).
Definition User_Ready (u : User) : bool := Ready (Summary (User_Status u)).

(** [user.Status = status] *)
Definition set_User_Status (u : User) (s : UserStatus) : User :=
  mkUser (User_Meta u) (User_Spec u) s.

(** [user.Finalizers = fs] *)
Definition set_Finalizers (u : User) (fs : list string) : User :=
  mkUser
    (mkObjectMeta (Meta_Name (User_Meta u)) (Meta_Namespace (User_Meta u))
       (Meta_ResourceVersion (User_Meta u)) fs (Meta_DeletionTimestamp (User_Meta u)))
    (User_Spec u) (User_Status u).

(** ** privileges_types.go *)

Record PrivilegeSpec := mkPrivilegeSpec {
  Privilege : string;
  On : string;
  PrivilegeSpec_Database : string
}.

Record Privileges := mkPrivileges {
  Privileges_Meta : ObjectMeta;
  Privileges_Privileges : list PrivilegeSpec
}.

(** ** database_types.go *)

Definition PostgreSQL : string := "PostgreSQL".
Definition MySQL : string := "MySQL".

Definition SSLModeDISABLE : string := "disable".
Definition SSLModeALLOW : string := "allow".
Definition SSLModePREFER : string := "prefer".
Definition SSLModeREQUIRE : string := "require".
Definition SSLModeVERIFYCA : string := "verify-ca".
Definition SSLModeVERIFYFULL : string := "verify-full".

Record PostgreSQLConfig := mkPostgreSQLConfig {
  Pg_Host : string;
  Pg_Port : Z;
  Pg_User : string;
  Pg_SSLMode : string;
  Pg_DatabaseName : string;
  Pg_SSLCredentialsSecret : NamespacedName;
  Pg_SSLCAKey : Secret;
  Pg_PasswordSecret : Secret
}.

Record MySQLConfig := mkMySQLConfig {
  My_Host : string;
  My_Port : Z;
  My_DatabaseName : string;
  My_User : string;
  My_PasswordSecret : Secret;
  My_UsersHostname : string
}.

Record DatabaseSpec := mkDatabaseSpec {
  DatabaseSpec_Type : string;
  DatabaseSpec_PostgreSQL : option PostgreSQLConfig;
  DatabaseSpec_MySQL : option MySQLConfig
}.

Record Database := mkDatabase {
  Database_Meta : ObjectMeta;
  Database_Spec : DatabaseSpec
}.

(** The CEL rule of [DatabaseSpec] (the [XValidation] marker above the type),
    which the API server enforces before the operator sees the object. *)
Definition DatabaseSpec_XValidation (s : DatabaseSpec) : bool :=
  (bool_decide (DatabaseSpec_Type s = PostgreSQL)
     && bool_decide (is_Some (DatabaseSpec_PostgreSQL s))
     && negb (bool_decide (is_Some (DatabaseSpec_MySQL s))))
  || (bool_decide (DatabaseSpec_Type s = MySQL)
     && bool_decide (is_Some (DatabaseSpec_MySQL s))
     && negb (bool_decide (is_Some (DatabaseSpec_PostgreSQL s)))).

(** ** Core v1 [Secret], the fields the operator touches *)

Record K8sSecret := mkK8sSecret {
  K8sSecret_Name : string;
  K8sSecret_Namespace : string;
  K8sSecret_Owners : list string;
  K8sSecret_Data : gmap string (list Byte.byte);
  K8sSecret_StringData : gmap string string
}.

#[export] Instance NamespacedName_eq_dec : EqDecision NamespacedName.
Proof. solve_decision. Defined.
#[export] Instance types_NamespacedName_eq_dec : EqDecision types_NamespacedName.
Proof. solve_decision. Defined.
#[export] Instance Name_eq_dec : EqDecision Name.
Proof. solve_decision. Defined.
#[export] Instance Secret_eq_dec : EqDecision Secret.
Proof. solve_decision. Defined.
#[export] Instance StatusSummary_eq_dec : EqDecision StatusSummary.
Proof. solve_decision. Defined.
#[export] Instance DatabaseRef_eq_dec : EqDecision DatabaseRef.
Proof. solve_decision. Defined.
#[export] Instance UserSpec_eq_dec : EqDecision UserSpec.
Proof. solve_decision. Defined.
#[export] Instance UserStatus_eq_dec : EqDecision UserStatus.
Proof. solve_decision. Defined.
#[export] Instance ObjectMeta_eq_dec : EqDecision ObjectMeta.
Proof. solve_decision. Defined.
#[export] Instance User_eq_dec : EqDecision User.
Proof. solve_decision. Defined.
#[export] Instance PrivilegeSpec_eq_dec : EqDecision PrivilegeSpec.
Proof. solve_decision. Defined.
#[export] Instance Privileges_eq_dec : EqDecision Privileges.
Proof. solve_decision. Defined.
#[export] Instance PostgreSQLConfig_eq_dec : EqDecision PostgreSQLConfig.
Proof. solve_decision. Defined.
#[export] Instance MySQLConfig_eq_dec : EqDecision MySQLConfig.
Proof. solve_decision. Defined.
#[export] Instance DatabaseSpec_eq_dec : EqDecision DatabaseSpec.
Proof. solve_decision. Defined.
#[export] Instance Database_eq_dec : EqDecision Database.
Proof. solve_decision. Defined.
#[export] Instance byte_eq_dec : EqDecision Byte.byte.
Proof. exact Byte.byte_eq_dec. Defined.
#[export] Instance K8sSecret_eq_dec : EqDecision K8sSecret.
Proof. solve_decision. Defined.
#[export] Instance types_NamespacedName_countable : Countable types_NamespacedName.
Proof.
  apply (inj_countable' (λ n, (Nn_Namespace n, Nn_Name n)) (λ p, mkTypesNN p.1 p.2)).
  by intros [].
Defined.
