(* ===== verification/Effects.v ===== *)
(** * Programs that call the outside world

    Every call that leaves the repository is a request: the Kubernetes client,
    the SQL driver, the operating system, the certificate library, the logger.
    A program is a tree of requests whose continuation takes the answer, so a
    theorem about all the runs of a program holds for every behaviour of the
    outside world, failures included.  A Go panic is a leaf of its own, and a
    deferred call is [finally], which also runs on a panic. *)

From S2P Require Import Prelude GoError Api.

(** ** Arguments of the requests *)

(** [dburl.URL] with the [url.URL] and [url.Userinfo] it embeds. *)
Record Userinfo := mkUserinfo {
  Userinfo_username : string;
  Userinfo_password : option string
}.

Record DburlURL := mkDburlURL {
  Url_Scheme : string;
  Url_Host : string;
  Url_User : Userinfo;
  Url_Path : string;
  Url_RawQuery : string;
  Url_Transport : string
}.

(** The fields of [x509.Certificate] that the operator fills in; times are
    integers. *)
Record CertTemplate := mkCertTemplate {
  Cert_SerialNumber : Z;
  Cert_CommonName : string;
  Cert_NotBefore : Z;
  Cert_NotAfter : Z
}.

(** The two locked methods of the test double [connection.FakeConnection]. *)
Inductive fake_op :=
| FakeConnect (driver connString : string)
| FakeExec (query : string) (args : list string).

(** [ctrl.Options], the fields that main.go sets; the scheme is that of the
    program. *)
Record ManagerOptions := mkManagerOptions {
  MetricsBindAddress : string;
  Port : Z;
  HealthProbeBindAddress : string;
  LeaderElection : bool;
  LeaderElectionID : string
}.

(** A function of type [databaseCreator] (user_controller.go): [database.NewDatabase],
    or the one of a [FakeDatabase] with the test double at a location. *)
Inductive databaseCreator :=
| database_NewDatabase
| FakeDatabase_DatabaseCreatorFunc (conn : nat).

(** [UserReconciler]: its client and its scheme are those of a manager, and its
    recorder was got from a manager under a name. *)
Record UserReconciler := mkUserReconciler {
  Client : nat;
  Scheme : nat;
  DatabaseCreator : databaseCreator;
  Recorder : nat * string
}.

(** ** Requests *)

Inductive req :=
(* controller-runtime client, event recorder and controllerutil *)
| GetUser (nn : types_NamespacedName)
| GetDatabase (nn : types_NamespacedName)
| GetPrivileges (nn : types_NamespacedName)
| GetSecret (nn : types_NamespacedName)
| UpdateUser (u : User)
| UpdateUserStatus (u : User)
| CreateSecret (s : K8sSecret)
| DeleteSecret (s : K8sSecret)
| RecordEvent (u : User) (eventtype reason message : string)
| SetControllerReference (owner : User) (s : K8sSecret)
| NewInvalid (groupKind name path value : string)
(* logr *)
| LoggerInfo (msg : string)
| LoggerError (err : error) (msg : string)
(* sqlx *)
| SqlConnect (driver connString : string)
| SqlSetMaxIdleConns (db : nat) (n : Z)
| SqlSetMaxOpenConns (db : nat) (n : Z)
| SqlClose (db : nat)
| SqlExec (db : nat) (query : string) (args : list string)
(* dburl *)
| GenMysql (u : DburlURL)
(* os *)
| Getenv (key : string)
| MkdirAll (path : string) (perm : Z)
| WriteFile (path data : string) (perm : Z)
| Remove (path : string)
(* crypto and time *)
| ParsePKCS1PrivateKey (bytes : string)
| ParseCertificate (bytes : string)
| RandInt63
| TimeNow
| TimeAddDate (t years months days : Z)
| GenerateKey (bits : Z)
| CreateCertificate (template : CertTemplate) (parent pub priv : nat)
| MarshalPKCS1PrivateKey (key : nat)
(* flag, zap and the manager of controller-runtime *)
| FlagString (name value : string)
| FlagBool (name : string) (value : bool)
| BindZapFlags (development : bool)
| FlagParse
| SetLogger (development : bool)
| AddClientGoToScheme
| AddToScheme (group version : string) (kinds : list string)
| GetConfigOrDie
| NewManager (o : ManagerOptions)
| CompleteController (mgr : nat) (r : UserReconciler) (for_ : string) (owns : list string)
| AddHealthzCheck (mgr : nat) (name : string)
| AddReadyzCheck (mgr : nat) (name : string)
| StartManager (mgr : nat)
(* test double *)
| FakeCall (l : nat) (op : fake_op).

(** Answer of a request.  A client [Get] fills in an object and returns an
    error; the keys, certificates and database handles of the libraries are
    opaque pointers.  A flag answers with the value its variable has after
    [flag.Parse], which may end the process with an exit code: 2 for a wrong
    argument, 0 after printing the help.  [GetConfigOrDie] says whether it
    returned or ended the process. *)
Definition resp (r : req) : Type :=
  match r with
  | GetUser _ => User * option error
  | GetDatabase _ => Database * option error
  | GetPrivileges _ => Privileges * option error
  | GetSecret _ => K8sSecret * option error
  | UpdateUser _ | UpdateUserStatus _ => User * option error
  | CreateSecret _ | DeleteSecret _ => option error
  | RecordEvent _ _ _ _ => unit
  | SetControllerReference _ _ => K8sSecret * option error
  | NewInvalid _ _ _ _ => error
  | LoggerInfo _ | LoggerError _ _ => unit
  | SqlConnect _ _ => nat * option error
  | SqlSetMaxIdleConns _ _ | SqlSetMaxOpenConns _ _ => unit
  | SqlClose _ => option error
  | SqlExec _ _ _ => option error
  | GenMysql _ => string * option error
  | Getenv _ => string
  | MkdirAll _ _ | WriteFile _ _ _ | Remove _ => option error
  | ParsePKCS1PrivateKey _ | ParseCertificate _ => nat * option error
  | RandInt63 => Z
  | TimeNow | TimeAddDate _ _ _ _ => Z
  | GenerateKey _ => nat * option error
  | CreateCertificate _ _ _ _ => string * option error
  | MarshalPKCS1PrivateKey _ => string
  | FlagString _ _ => string
  | FlagBool _ _ => bool
  | BindZapFlags _ | SetLogger _ => unit
  | FlagParse => option Z
  | AddClientGoToScheme | AddToScheme _ _ _ => option error
  | GetConfigOrDie => bool
  | NewManager _ => nat * option error
  | CompleteController _ _ _ _ => option error
  | AddHealthzCheck _ _ | AddReadyzCheck _ _ | StartManager _ => option error
  | FakeCall _ _ => option string
  end.

(** ** Programs *)

Inductive prog (A : Type) :=
| Ret (a : A)
| Panic (msg : string)
| Call (r : req) (k : resp r → prog A).
Arguments Ret {A} a.
Arguments Panic {A} msg.
Arguments Call {A} r k.

Definition call (r : req) : prog (resp r) := Call r Ret.

Fixpoint bind {A B} (p : prog A) (f : A → prog B) : prog B :=
  match p with
  | Ret a => f a
  | Panic m => Panic m
  | Call r k => Call r (λ x, bind (k x) f)
  end.

Notation "'let!' x := p 'in' q" := (bind p (λ x, q))
  (at level 200, x pattern, p at level 100, q at level 200,
   format "'[v' 'let!'  x  :=  p  'in' '/' q ']'") : op_scope.
Notation "'do!' p 'in' q" := (bind p (λ _, q))
  (at level 200, p at level 100, q at level 200,
   format "'[v' 'do!'  p  'in' '/' q ']'") : op_scope.
Open Scope op_scope.

(** [defer fin] in the body [p]: [fin] runs after [p] has computed its results,
    and also when [p] panics. *)
Fixpoint finally {A} (p : prog A) (fin : prog unit) : prog A :=
  match p with
  | Ret a => do! fin in Ret a
  | Panic m => do! fin in Panic m
  | Call r k => Call r (λ x, finally (k x) fin)
  end.

(** [for _, x := range xs { if err := f(x); err != nil { return err } }; return nil] *)
Fixpoint range_err {A} (f : A → prog (option error)) (xs : list A) : prog (option error) :=
  match xs with
  | [] => Ret None
  | x :: xs' =>
      let! err := f x in
      match err with
      | Some e => Ret (Some e)
      | None => range_err f xs'
      end
  end.

(** ** Runs *)

Inductive outcome (A : Type) := Returned (a : A) | Panicked (msg : string).
Arguments Returned {A} a.
Arguments Panicked {A} msg.

Definition event : Type := { r : req & resp r }.
Definition ev (r : req) (x : resp r) : event := existT r x.

(** [runs p t o]: answered as the trace [t] says, [p] ends with the outcome [o]. *)
Fixpoint runs {A} (p : prog A) (t : list event) (o : outcome A) : Prop :=
  match p with
  | Ret a => t = [] ∧ o = Returned a
  | Panic m => t = [] ∧ o = Panicked m
  | Call r k => ∃ x t', t = ev r x :: t' ∧ runs (k x) t' o
  end.

(** Execution against a given world. *)
Fixpoint run {W A} (h : ∀ r, W → resp r * W) (p : prog A) (w : W) : list event * outcome A * W :=
  match p with
  | Ret a => ([], Returned a, w)
  | Panic m => ([], Panicked m, w)
  | Call r k =>
      let '(x, w1) := h r w in
      let '(t, o, w2) := run h (k x) w1 in (ev r x :: t, o, w2)
  end.

(** Every request [p] can make, whatever the answers, satisfies [P]. *)
Fixpoint only {A} (P : req → Prop) (p : prog A) : Prop :=
  match p with
  | Ret _ | Panic _ => True
  | Call r k => P r ∧ ∀ x, only P (k x)
  end.

(** [p] never panics. *)
Fixpoint no_panic {A} (p : prog A) : Prop :=
  match p with
  | Ret _ => True
  | Panic _ => False
  | Call r k => ∀ x, no_panic (k x)
  end.

(** ** Laws of [runs] *)

Section Runs.
Context {A B : Type}.
Implicit Types (p q : prog A) (f : A → prog B) (t : list event).

Lemma runs_call r t (o : outcome (resp r)) :
  runs (call r) t o ↔ ∃ x, t = [ev r x] ∧ o = Returned x.
Proof.
  simpl. split.
  - intros (x & t' & -> & -> & ->). eauto.
  - intros (x & -> & ->). eauto 6.
Qed.

Lemma runs_bind_ret p f t1 t2 a o :
  runs p t1 (Returned a) → runs (f a) t2 o → runs (bind p f) (t1 ++ t2) o.
Proof.
  revert t1. induction p as [a'|m|r k IH]; simpl; intros t1.
  - intros [-> [= ->]] Hf. done.
  - intros [-> [=]].
  - intros (x & t' & -> & Hk) Hf. exists x, (t' ++ t2). eauto.
Qed.

Lemma runs_bind_panic p f t m :
  runs p t (Panicked m) → runs (bind p f) t (Panicked m).
Proof.
  revert t. induction p as [a'|m'|r k IH]; simpl; intros t.
  - intros [-> [=]].
  - intros [-> [= ->]]. done.
  - intros (x & t' & -> & Hk). eauto.
Qed.

Lemma runs_bind_inv p f t o :
  runs (bind p f) t o →
  (∃ m, runs p t (Panicked m) ∧ o = Panicked m) ∨
  (∃ a t1 t2, t = t1 ++ t2 ∧ runs p t1 (Returned a) ∧ runs (f a) t2 o).
Proof.
  revert t. induction p as [a'|m'|r k IH]; simpl; intros t.
  - intros H. right. by exists a', [], t.
  - intros [-> ->]. left. eauto.
  - intros (x & t' & -> & Hk). apply IH in Hk as [(m & ? & ->)|(a & t1 & t2 & -> & ? & ?)].
    + left. eauto 6.
    + right. exists a, (ev r x :: t1), t2. eauto 8.
Qed.
End Runs.

Lemma runs_finally_inv {A} (p : prog A) (fin : prog unit) t o :
  runs (finally p fin) t o →
  ∃ o1 t1 t2, t = t1 ++ t2 ∧ runs p t1 o1 ∧
    ((runs fin t2 (Returned ()) ∧ o = o1) ∨ ∃ m, runs fin t2 (Panicked m) ∧ o = Panicked m).
Proof.
  revert t. induction p as [a|m|r k IH]; simpl; intros t H.
  - apply runs_bind_inv in H as [(m & ? & ->)|([] & t1 & t2 & -> & ? & [-> ->])].
    + exists (Returned a), [], t. split_and!; eauto.
    + exists (Returned a), [], t1. rewrite app_nil_r. split_and!; eauto.
  - apply runs_bind_inv in H as [(m' & ? & ->)|([] & t1 & t2 & -> & ? & [-> ->])].
    + exists (Panicked m), [], t. split_and!; eauto.
    + exists (Panicked m), [], t1. rewrite app_nil_r. split_and!; eauto.
  - destruct H as (x & t' & -> & Hk).
    apply IH in Hk as (o1 & t1 & t2 & -> & ? & ?).
    exists o1, (ev r x :: t1), t2. split_and!; eauto 6.
Qed.

Lemma runs_finally {A} (p : prog A) (fin : prog unit) t1 t2 o :
  runs p t1 o → runs fin t2 (Returned ()) → runs (finally p fin) (t1 ++ t2) o.
Proof.
  revert t1. induction p as [a|m|r k IH]; simpl; intros t1.
  - intros [-> ->] H. rewrite <- (app_nil_r ([] ++ t2)). by eapply runs_bind_ret.
  - intros [-> ->] H. rewrite <- (app_nil_r ([] ++ t2)). by eapply runs_bind_ret.
  - intros (x & t' & -> & Hk) Hf. exists x, (t' ++ t2). eauto.
Qed.

(** Execution is one of the runs, and every program terminates. *)
Lemma run_runs {W A} (h : ∀ r, W → resp r * W) (p : prog A) w :
  runs p (run h p w).1.1 (run h p w).1.2.
Proof.
  revert w. induction p as [a|m|r k IH]; simpl; intros w; [done..|].
  destruct (h r w) as [x w1]. specialize (IH x w1).
  destruct (run h (k x) w1) as [[t o] w2]. simpl in *. eauto.
Qed.

(** ** Loops that stop at the first error *)

Section RangeErr.
Context {A : Type} (f : A → prog (option error)).

(** A loop that returns [nil] ran its body on every element, each time with
    result [nil]. *)
Lemma range_err_ok xs t :
  runs (range_err f xs) t (Returned None) →
  ∀ x, x ∈ xs → ∃ t0, segment t0 t ∧ runs (f x) t0 (Returned None).
Proof.
  revert t. induction xs as [|y xs IH]; simpl; intros t H x Hx; [by inversion Hx|].
  apply runs_bind_inv in H as [(m & ? & [=])|(e & t1 & t2 & -> & Hy & H)].
  destruct e as [e|]; [by destruct H as [_ [=]]|].
  apply elem_of_cons in Hx as [->|Hx].
  - exists t1. eauto with operator.
  - destruct (IH _ H _ Hx) as (t0 & ? & ?). eauto with operator.
Qed.

(** The runs of the iterations, in order. *)
Lemma range_err_split xs t :
  runs (range_err f xs) t (Returned None) ↔
  ∃ ts, t = concat ts ∧ Forall2 (λ x t0, runs (f x) t0 (Returned None)) xs ts.
Proof.
  split.
  - revert t. induction xs as [|y xs IH]; simpl; intros t H.
    { destruct H as [-> _]. exists []. split; [done|constructor]. }
    apply runs_bind_inv in H as [(m & ? & [=])|(e & t1 & t2 & -> & Hy & H)].
    destruct e as [e|]; [by destruct H as [_ [=]]|].
    destruct (IH _ H) as (ts & -> & Hts). exists (t1 :: ts). split; [done|by constructor].
  - intros (ts & -> & Hts). induction Hts as [|x t0 xs ts Hx _ IH]; simpl; [done|].
    eapply runs_bind_ret; [exact Hx|exact IH].
Qed.

(** A loop that returns an error stopped at the first element whose body
    returned one. *)
Lemma range_err_error xs t e :
  runs (range_err f xs) t (Returned (Some e)) →
  ∃ xs1 x xs2 t1 t2, xs = xs1 ++ x :: xs2 ∧ t = t1 ++ t2 ∧
    runs (range_err f xs1) t1 (Returned None) ∧ runs (f x) t2 (Returned (Some e)).
Proof.
  revert t. induction xs as [|y xs IH]; simpl; intros t H; [by destruct H|].
  apply runs_bind_inv in H as [(m & ? & [=])|(e' & t1 & t2 & -> & Hy & H)].
  destruct e' as [e'|].
  - destruct H as [-> [= ->]]. exists [], y, xs, [], t1. rewrite app_nil_r. by split_and!.
  - destruct (IH _ H) as (xs1 & x & xs2 & t3 & t4 & -> & -> & H1 & H2).
    exists (y :: xs1), x, xs2, (t1 ++ t3), t4. rewrite <- app_assoc. split_and!; try done.
    simpl. by eapply runs_bind_ret.
Qed.
End RangeErr.

(** ** Static bounds on the requests *)

Lemma only_runs {A} P (p : prog A) t o :
  only P p → runs p t o → Forall (λ e, P (projT1 e)) t.
Proof.
  revert t. induction p as [a|m|r k IH]; simpl; intros t HP.
  - intros [-> _]. constructor.
  - intros [-> _]. constructor.
  - intros (x & t' & -> & Hk). destruct HP as [Hr Hall]. constructor; simpl; eauto.
Qed.

(** An observation that ignores the requests of [p] sees nothing of its runs. *)
Lemma only_omap {A B} (f : event → option B) P (p : prog A) t o :
  only P p → runs p t o → (∀ r x, P r → f (ev r x) = None) → omap f t = [].
Proof.
  intros Hp Ht Hf. eapply only_runs in Ht; [|done].
  induction Ht as [|[r x] t Hr _ IH]; [done|].
  change (match f (ev r x) with Some y => y :: omap f t | None => omap f t end = []).
  by rewrite Hf.
Qed.

Lemma only_bind {A B} P (p : prog A) (f : A → prog B) :
  only P p → (∀ a, only P (f a)) → only P (bind p f).
Proof. induction p as [a|m|r k IH]; simpl; intros H Hf; auto. destruct H; auto. Qed.

Lemma only_finally {A} P (p : prog A) fin : only P p → only P fin → only P (finally p fin).
Proof.
  induction p as [a|m|r k IH]; simpl; intros H Hf.
  - by apply only_bind.
  - by apply only_bind.
  - destruct H; auto.
Qed.

Lemma only_range_err {A} P (f : A → prog (option error)) xs :
  (∀ x, only P (f x)) → only P (range_err f xs).
Proof.
  intros Hf. induction xs as [|x xs IH]; simpl; [done|].
  apply only_bind; [done|]. by intros [e|].
Qed.

Lemma only_impl {A} (P Q : req → Prop) (p : prog A) :
  (∀ r, P r → Q r) → only P p → only Q p.
Proof. intros HPQ. induction p as [a|m|r k IH]; simpl; try done. intros []. auto. Qed.

Lemma no_panic_runs {A} (p : prog A) t m : no_panic p → ¬ runs p t (Panicked m).
Proof.
  revert t. induction p as [a|m'|r k IH]; simpl; intros t H; [by intros [_ [=]]|done|].
  intros (x & t' & -> & Hk). by eapply IH.
Qed.

Lemma no_panic_bind {A B} (p : prog A) (f : A → prog B) :
  no_panic p → (∀ a, no_panic (f a)) → no_panic (bind p f).
Proof. induction p as [a|m|r k IH]; simpl; auto. Qed.

Lemma no_panic_finally {A} (p : prog A) fin :
  no_panic p → no_panic fin → no_panic (finally p fin).
Proof.
  induction p as [a|m|r k IH]; simpl; intros ??; try done; [|by auto].
  by apply no_panic_bind.
Qed.

Lemma no_panic_range_err {A} (f : A → prog (option error)) xs :
  (∀ x, no_panic (f x)) → no_panic (range_err f xs).
Proof.
  intros Hf. induction xs as [|x xs IH]; simpl; [done|].
  apply no_panic_bind; [done|]. by intros [e|].
Qed.

#[export] Hint Resolve only_bind only_finally only_range_err
  no_panic_bind no_panic_finally no_panic_range_err : operator.

(** ** Equivalence of programs: the same runs *)

Definition prog_equiv {A} (p q : prog A) : Prop := ∀ t o, runs p t o ↔ runs q t o.
Infix "≈" := prog_equiv (at level 70) : op_scope.

#[export] Instance prog_equiv_equivalence A : Equivalence (@prog_equiv A).
Proof.
  split.
  - by intros p t o.
  - intros p q H t o. by symmetry.
  - intros p q r H1 H2 t o. by rewrite (H1 t o).
Qed.

#[export] Instance runs_proper A :
  Proper (prog_equiv ==> eq ==> eq ==> iff) (@runs A).
Proof. intros p q H t ? <- o ? <-. apply H. Qed.

#[export] Instance bind_proper A B :
  Proper (prog_equiv ==> pointwise_relation _ prog_equiv ==> prog_equiv) (@bind A B).
Proof.
  assert (∀ (p q : prog A) (f g : A → prog B) t o, p ≈ q → (∀ a, f a ≈ g a) →
    runs (bind p f) t o → runs (bind q g) t o) as Himp.
  { intros p q f g t o Hp Hf [(m & ? & ->)|(a & t1 & t2 & -> & ? & ?)]%runs_bind_inv.
    - apply runs_bind_panic. by apply Hp.
    - eapply runs_bind_ret; [by apply Hp|by apply Hf]. }
  intros p q Hp f g Hf t o. split; apply Himp; try done; intros; symmetry; auto.
Qed.

Lemma bind_ret_r {A} (p : prog A) : bind p Ret ≈ p.
Proof.
  induction p as [a|m|r k IH]; simpl; [done..|]. intros t o. simpl.
  split; intros (x & t' & -> & H); exists x, t'; (split; [done|]); by apply IH.
Qed.

Lemma bind_assoc {A B C} (p : prog A) (f : A → prog B) (g : B → prog C) :
  bind (bind p f) g ≈ bind p (λ a, bind (f a) g).
Proof.
  induction p as [a|m|r k IH]; simpl; [done..|]. intros t o. simpl.
  split; intros (x & t' & -> & H); exists x, t'; (split; [done|]); by apply IH.
Qed.

(** Split a hypothesis [runs p t o] along the constructors of [p]. *)
Ltac inv_runs H :=
  lazymatch type of H with
  | runs (Ret _) _ _ => destruct H as [? H]; simplify_eq/=
  | runs (Panic _) _ _ => destruct H as [? H]; simplify_eq/=
  | runs (Call ?r _) _ _ =>
      let x := fresh "x" in let t := fresh "t" in let E := fresh "E" in
      destruct H as (x & t & E & H); simpl in x; simpl in H; try (subst; clear E)
  | runs (bind _ _) _ _ =>
      let m := fresh "m" in let a := fresh "a" in let t1 := fresh "t" in
      let t2 := fresh "t" in let H1 := fresh "H" in let E := fresh "E" in
      apply runs_bind_inv in H as [(m & H1 & E)|(a & t1 & t2 & E & H1 & H)];
      simplify_eq/=
  end.

(** Close goals [only P p] and [no_panic p] of a program without calls to other
    components. *)
Ltac solve_only :=
  repeat first
    [ done
    | progress simpl
    | split
    | match goal with |- ∀ _, _ => intros ? end
    | match goal with x : _ * _ |- _ => destruct x end
    | match goal with |- only _ (match ?x with _ => _ end) => destruct x eqn:? end
    | match goal with |- no_panic (match ?x with _ => _ end) => destruct x eqn:? end
    | apply only_bind | apply no_panic_bind ].
