(* ===== verification/Logic.v ===== *)
(** * A logic of total correctness

    [wp G p Q]: when every answer satisfies [G], [p] ends without a panic and
    its result satisfies [Q].  Programs are finite trees, so this is a
    recursive function with one rule for each way of composing programs. *)

From S2P Require Import Prelude GoError Api Effects.

Fixpoint wp {A} (G : event → Prop) (p : prog A) (Q : A → Prop) : Prop :=
  match p with
  | Ret a => Q a
  | Panic _ => False
  | Call r k => ∀ x, G (ev r x) → wp G (k x) Q
  end.

(** The program returns no error. *)
Definition no_error {A} (x : A * option error) : Prop := x.2 = None.

Section Rules.
Context (G : event → Prop).

Lemma wp_mono {A} (p : prog A) (Q Q' : A → Prop) : wp G p Q → (∀ a, Q a → Q' a) → wp G p Q'.
Proof. intros Hp HQ. induction p as [a|m|r k IH]; simpl in *; auto. Qed.

Lemma wp_and {A} (p : prog A) (P Q : A → Prop) :
  wp G p P → wp G p Q → wp G p (λ a, P a ∧ Q a).
Proof. induction p as [a|m|r k IH]; simpl; auto. Qed.

Lemma wp_bind {A B} (p : prog A) (f : A → prog B) Q :
  wp G p (λ a, wp G (f a) Q) → wp G (bind p f) Q.
Proof. induction p as [a|m|r k IH]; simpl; auto. Qed.

(** The rule for a call of a function with a known specification. *)
Lemma wp_seq {A B} (p : prog A) (f : A → prog B) P Q :
  wp G p P → (∀ a, P a → wp G (f a) Q) → wp G (bind p f) Q.
Proof. intros Hp Hf. apply wp_bind. by eapply wp_mono. Qed.

Lemma wp_finally {A} (p : prog A) fin Q :
  wp G p Q → wp G fin (λ _, True) → wp G (finally p fin) Q.
Proof.
  intros Hp Hf. induction p as [a|m|r k IH]; simpl in *; auto; [|done].
  eapply wp_seq; [exact Hf|]. by intros [] _.
Qed.

Lemma wp_range_err {A} (Q : option error → Prop) (f : A → prog (option error)) xs :
  Q None → Forall (λ x, wp G (f x) Q) xs → wp G (range_err f xs) Q.
Proof.
  intros Hn. induction 1 as [|x xs Hx _ IH]; simpl; [done|].
  eapply wp_seq; [exact Hx|]. by intros [e|] He.
Qed.

(** Soundness: every run with such answers returns such a result. *)
Lemma wp_runs {A} (p : prog A) Q t o :
  wp G p Q → Forall G t → runs p t o → ∃ a, o = Returned a ∧ Q a.
Proof.
  revert t. induction p as [a|m|r k IH]; simpl; intros t Hp Ht Hr.
  - destruct Hr as [_ ->]. eauto.
  - done.
  - destruct Hr as (x & t' & -> & Hr). apply Forall_cons in Ht as [Hx Ht]. eauto.
Qed.

(** Such a run exists when every request can be answered so. *)
Lemma good_run {A} (p : prog A) :
  (∀ r, ∃ x, G (ev r x)) → ∃ t o, Forall G t ∧ runs p t o.
Proof.
  intros HG. induction p as [a|m|r k IH].
  - exists [], (Returned a). by repeat constructor.
  - exists [], (Panicked m). by repeat constructor.
  - destruct (HG r) as [x Hx]. destruct (IH x) as (t & o & Ht & Hr).
    exists (ev r x :: t), o. split; [by constructor|]. simpl. eauto.
Qed.
End Rules.

#[export] Hint Resolve wp_finally wp_range_err : operator.
