(* ===== verification/StateLogic.v ===== *)
(** * A logic of programs that act on a state

    The answers of a run can come from something with a state, a database server
    for instance.  [St] says how that state goes along with one answered
    request; [served] extends it to a trace.  [swp w p Q]: whenever [p] runs,
    answered along with the state from [w] on, its outcome and the state it
    leaves satisfy [Q].  Nothing is assumed of requests that the state does not
    answer. *)

From S2P Require Import Prelude GoError Api Effects.

Section StateLogic.
Context {W : Type} (St : W → event → W → Prop).

Inductive served : W → list event → W → Prop :=
| served_nil w : served w [] w
| served_cons w e w1 t w2 : St w e w1 → served w1 t w2 → served w (e :: t) w2.

Lemma served_app w t1 w1 t2 w2 : served w t1 w1 → served w1 t2 w2 → served w (t1 ++ t2) w2.
Proof. induction 1; [done|]. intros. econstructor; eauto. Qed.

Lemma served_app_inv w t1 t2 w2 :
  served w (t1 ++ t2) w2 → ∃ w1, served w t1 w1 ∧ served w1 t2 w2.
Proof.
  revert w. induction t1 as [|e t1 IH]; simpl; intros w H; [by exists w; split; [constructor|]|].
  inversion H as [|? ? w1 ? ? Hs Ht]; subst. destruct (IH _ Ht) as (w' & ? & ?).
  exists w'. split; [by econstructor|done].
Qed.

(** The same for the outcome and the state at the end of a run. *)
Fixpoint swp {A} (w : W) (p : prog A) (Q : outcome A → W → Prop) : Prop :=
  match p with
  | Ret a => Q (Returned a) w
  | Panic m => Q (Panicked m) w
  | Call r k => ∀ x w1, St w (ev r x) w1 → swp w1 (k x) Q
  end.

Lemma swp_sound {A} (p : prog A) w Q t o w' :
  swp w p Q → runs p t o → served w t w' → Q o w'.
Proof.
  revert w t. induction p as [a|m|r k IH]; simpl; intros w t Hp Hr Hs.
  1, 2: destruct Hr as [-> ->]; by inversion Hs; subst.
  destruct Hr as (x & t' & -> & Hr). inversion Hs; subst. eauto.
Qed.

Lemma swp_complete {A} (p : prog A) w Q :
  (∀ t o w', runs p t o → served w t w' → Q o w') → swp w p Q.
Proof.
  revert w. induction p as [a|m|r k IH]; simpl; intros w H.
  1, 2: apply (H []); [done|constructor].
  intros x w1 Hs. apply IH. intros t o w' Hr Ht. apply (H (ev r x :: t)); [by eauto|].
  by econstructor.
Qed.

Lemma swp_mono {A} (p : prog A) w (Q Q' : outcome A → W → Prop) :
  swp w p Q → (∀ o w', Q o w' → Q' o w') → swp w p Q'.
Proof. revert w. induction p as [a|m|r k IH]; simpl; intros w Hp HQ; eauto. Qed.

(** What holds of all runs can be added. *)
Lemma swp_runs {A} (p : prog A) w Q :
  swp w p Q → swp w p (λ o w', Q o w' ∧ ∃ t, runs p t o).
Proof.
  intros H. apply swp_complete. intros t o w' Hr Hs. split; [|by exists t].
  exact (swp_sound _ _ _ _ _ _ H Hr Hs).
Qed.

Lemma swp_bind {A B} (p : prog A) (f : A → prog B) w Q :
  swp w p (λ o w1, match o with
                   | Returned a => swp w1 (f a) Q
                   | Panicked m => Q (Panicked m) w1
                   end) → swp w (bind p f) Q.
Proof. revert w. induction p as [a|m|r k IH]; simpl; intros w H; eauto. Qed.

(** The rule for a call of a function with a known specification. *)
Lemma swp_seq {A B} (p : prog A) (f : A → prog B) w P Q :
  swp w p P →
  (∀ m w1, P (Panicked m) w1 → Q (Panicked m) w1) →
  (∀ a w1, P (Returned a) w1 → swp w1 (f a) Q) →
  swp w (bind p f) Q.
Proof.
  intros Hp Hm Hf. apply swp_bind. eapply swp_mono; [exact Hp|]. intros [a|m] w1; eauto.
Qed.

Lemma swp_finally {A} (p : prog A) fin w P Q :
  swp w p P →
  (∀ o w1, P o w1 → swp w1 fin (λ o' w2,
     match o' with Returned _ => Q o w2 | Panicked m => Q (Panicked m) w2 end)) →
  swp w (finally p fin) Q.
Proof.
  intros Hp Hf. revert w Hp. induction p as [a|m|r k IH]; simpl; intros w Hp; [| |eauto];
    apply Hf in Hp; apply swp_bind; (eapply swp_mono; [exact Hp|]); by intros [[]|m'] w'.
Qed.

(** A loop: [J] holds after every element, whatever its outcome, [I] of the
    elements that were done without an error. *)
Lemma swp_range_err {A} (f : A → prog (option error)) (J : W → Prop) (I : list A → W → Prop)
    (P : A → Prop) xs :
  (∀ done x w, P x → J w → I done w →
     swp w (f x) (λ o w', J w' ∧ (o = Returned None → I (done ++ [x]) w'))) →
  Forall P xs → ∀ done w, J w → I done w →
  swp w (range_err f xs) (λ o w', J w' ∧ (o = Returned None → I (done ++ xs) w')).
Proof.
  intros Hf HP. induction HP as [|x xs Hx HP IH]; simpl; intros done w HJ Hw.
  - by rewrite app_nil_r.
  - eapply swp_seq; [exact (Hf _ x _ Hx HJ Hw)|by intros m w1 [? _]|].
    intros [e|] w1 [HJ1 H1]; [done|]. specialize (H1 eq_refl).
    change (x :: xs) with ([x] ++ xs). rewrite app_assoc. by apply IH.
Qed.

(** Requests that leave the state alone. *)
Lemma swp_only {A} (P : req → Prop) (p : prog A) w :
  only P p → (∀ r x w w', P r → St w (ev r x) w' → w' = w) → swp w p (λ _ w', w' = w).
Proof.
  intros Hp HP. revert w Hp. induction p as [a|m|r k IH]; simpl; intros w Hp; [done..|].
  destruct Hp as [Hr Hk]. intros x w1 Hs. apply HP in Hs as ->; [|done]. by apply IH.
Qed.

End StateLogic.

(** Fewer answers, more programs. *)
Lemma swp_weaken {W A} (St St' : W → event → W → Prop) (p : prog A) w Q :
  (∀ w e w', St' w e w' → St w e w') → swp St w p Q → swp St' w p Q.
Proof. intros HS. revert w. induction p as [a|m|r k IH]; simpl; intros w Hp; eauto. Qed.

Lemma served_and {W} (St : W → event → W → Prop) (G : event → Prop) w t w' :
  served St w t w' → Forall G t → served (λ w e w', St w e w' ∧ G e) w t w'.
Proof.
  induction 1 as [|w e w1 t w2 He Ht IH]; intros HG; [constructor|].
  apply Forall_cons in HG as [??]. econstructor; eauto.
Qed.

(** ** Programs that stay within what is permitted

    [gwp w p Q]: in addition every request [p] makes on the way is permitted in
    the state it is made in; with this the state after any prefix of a run can
    be spoken of, where the program was stopped for instance. *)
Section Guarded.
Context {W : Type} (St : W → event → W → Prop) (permitted : W → req → Prop).

Fixpoint gwp {A} (w : W) (p : prog A) (Q : outcome A → W → Prop) : Prop :=
  match p with
  | Ret a => Q (Returned a) w
  | Panic m => Q (Panicked m) w
  | Call r k => permitted w r ∧ ∀ x w1, St w (ev r x) w1 → gwp w1 (k x) Q
  end.

Lemma gwp_mono {A} (p : prog A) w (Q Q' : outcome A → W → Prop) :
  gwp w p Q → (∀ o w', Q o w' → Q' o w') → gwp w p Q'.
Proof. revert w. induction p as [a|m|r k IH]; simpl; intros w Hp HQ; [auto..|]. destruct Hp. eauto. Qed.

Lemma gwp_bind {A B} (p : prog A) (f : A → prog B) w Q :
  gwp w p (λ o w1, match o with
                   | Returned a => gwp w1 (f a) Q
                   | Panicked m => Q (Panicked m) w1
                   end) → gwp w (bind p f) Q.
Proof. revert w. induction p as [a|m|r k IH]; simpl; intros w H; [auto..|]. destruct H. eauto. Qed.

Lemma gwp_seq {A B} (p : prog A) (f : A → prog B) w P Q :
  gwp w p P →
  (∀ m w1, P (Panicked m) w1 → Q (Panicked m) w1) →
  (∀ a w1, P (Returned a) w1 → gwp w1 (f a) Q) →
  gwp w (bind p f) Q.
Proof. intros Hp Hm Hf. apply gwp_bind. eapply gwp_mono; [exact Hp|]. intros [a|m] w1; eauto. Qed.

Lemma gwp_finally {A} (p : prog A) fin w P Q :
  gwp w p P →
  (∀ o w1, P o w1 → gwp w1 fin (λ o' w2,
     match o' with Returned _ => Q o w2 | Panicked m => Q (Panicked m) w2 end)) →
  gwp w (finally p fin) Q.
Proof.
  intros Hp Hf. revert w Hp. induction p as [a|m|r k IH]; simpl; intros w Hp; [| |destruct Hp; eauto];
    apply Hf in Hp; apply gwp_bind; (eapply gwp_mono; [exact Hp|]); by intros [[]|m'] w'.
Qed.

(** A loop whose elements all start and end in states with [J]. *)
Lemma gwp_range_err {A} (f : A → prog (option error)) (J : W → Prop) (P : A → Prop) xs :
  (∀ x w, P x → J w → gwp w (f x) (λ _ w', J w')) →
  Forall P xs → ∀ w, J w → gwp w (range_err f xs) (λ _ w', J w').
Proof.
  intros Hf HP. induction HP as [|x xs Hx HP IH]; simpl; intros w HJ; [done|].
  eapply gwp_seq; [exact (Hf x w Hx HJ)|done|]. intros [e|] w1 H1; [done|by apply IH].
Qed.

(** When every permitted request can be answered well, there is a run. *)
Lemma gwp_run {A} (G : event → Prop) (P : req → Prop) (p : prog A) w Q :
  gwp w p Q → only P p →
  (∀ w r, permitted w r → P r → ∃ x w', St w (ev r x) w' ∧ G (ev r x)) →
  ∃ t o w', runs p t o ∧ served St w t w' ∧ Forall G t.
Proof.
  intros Hp Ho Hx. revert w Hp. induction p as [a|m|r k IH]; simpl; intros w Hp.
  - exists [], (Returned a), w. by repeat constructor.
  - exists [], (Panicked m), w. by repeat constructor.
  - destruct Hp as [Hr Hk], Ho as [HP Ho]. destruct (Hx w r Hr HP) as (x & w1 & Hs & HG).
    destruct (IH x (Ho x) w1 (Hk x w1 Hs)) as (t & o & w' & Ht & Hw & Hg).
    exists (ev r x :: t), o, w'. split_and!; [eauto|by econstructor|by constructor].
Qed.
End Guarded.
