(* ===== verification/Connection.v ===== *)
(** * Database connections (pkg/database/connection)

    The interface [Connection] of [common.go] as a type class, with what its
    clients rely on in [ConnectionLaws]; the sqlx implementation of
    [default.go]; the test double of [fake.go]. *)

From S2P Require Import Prelude GoStrings GoError Api Effects.

(** ** common.go *)

Definition LogInfo : Type := Z.
Definition DisableLogger : LogInfo := 1%Z.
Definition EnableLogger : LogInfo := 0%Z.

(** A connection is a Go pointer; [Connect] also returns the pointee's new value. *)
Class Connection (C : Type) := {
  Copy : C → prog C;
  Close : C → prog (option error);
  Connect : C → string → string → prog (C * option error);
  Exec : C → LogInfo → string → list string → prog (option error)
}.

(** ** What a run shows of the connection *)

(** A statement sent to the server: text, arguments, answer. *)
Definition stmt : Type := string * list string * option error.

Definition stmt_of (e : event) : option stmt :=
  match e with
  | existT r x =>
      match r return resp r → option stmt with
      | SqlExec _ q args => λ x, Some (q, args, x)
      | FakeCall _ (FakeExec q args) => λ x,
          match x with None => Some (q, args, None) | Some _ => None end
      | _ => λ _, None
      end x
  end.

Definition statements (t : list event) : list stmt := omap stmt_of t.

(** The text of the statement that a request sends. *)
Definition sends (r : req) : option string :=
  match r with SqlExec _ q _ | FakeCall _ (FakeExec q _) => Some q | _ => None end.

Definition sends_only (P : string → Prop) (r : req) : Prop :=
  match sends r with Some q => P q | None => True end.

Lemma only_sends_none {A} (P : string → Prop) (p : prog A) :
  only (sends_only (λ _, False)) p → only (sends_only P) p.
Proof. apply only_impl. intros r. unfold sends_only. by destruct (sends r). Qed.

Lemma stmt_of_sends e s : stmt_of e = Some s → sends (projT1 e) = Some s.1.1.
Proof.
  destruct e as [[] x]; simpl; try done; [by intros [= <-]|].
  destruct op; simpl; [done|]. by destruct x; intros [= <-].
Qed.

(** A text written to the log. *)
Definition log_of (e : event) : option string :=
  match projT1 e with
  | LoggerInfo m => Some m
  | LoggerError err m => Some (m +:+ Error err)
  | _ => None
  end.

Definition logged (t : list event) : list string := omap log_of t.

Lemma statements_app t1 t2 : statements (t1 ++ t2) = statements t1 ++ statements t2.
Proof. apply omap_app. Qed.

Lemma logged_app t1 t2 : logged (t1 ++ t2) = logged t1 ++ logged t2.
Proof. apply omap_app. Qed.

#[export] Hint Rewrite statements_app logged_app : operator.

(** A database handle that [Connect] keeps, from a connection that was made
    ([true]), and the closing of a handle ([false]).  [sqlx.ConnectContext]
    returns the handle that it opened along with the error when the server does
    not answer; [Connect] drops it there without closing it, so that such a
    handle is not among these.  [connect_answers] has all attempts. *)
Definition handle_of (e : event) : option (bool * nat) :=
  match e with
  | existT r x =>
      match r return resp r → option (bool * nat) with
      | SqlConnect _ _ => λ x, match x.2 with None => Some (true, x.1) | Some _ => None end
      | SqlClose h => λ _, Some (false, h)
      | _ => λ _, None
      end x
  end.

Definition handles (t : list event) : list (bool * nat) := omap handle_of t.

Lemma handles_app t1 t2 : handles (t1 ++ t2) = handles t1 ++ handles t2.
Proof. apply omap_app. Qed.

#[export] Hint Rewrite handles_app : operator.

(** The answers to the attempts to connect, and the number of closings. *)
Definition connect_of (e : event) : option (option error) :=
  match e with
  | existT r x =>
      match r return resp r → option (option error) with
      | SqlConnect _ _ => λ x, Some x.2
      | _ => λ _, None
      end x
  end.

Definition connect_answers (t : list event) : list (option error) := omap connect_of t.
Definition closings (t : list event) : nat := length (filter (λ h, h.1 = false) (handles t)).

Lemma connects_opened t :
  length (filter (λ r, r = None) (connect_answers t)) = length (filter (λ h, h.1 = true) (handles t)).
Proof.
  unfold connect_answers, handles. induction t as [|[r x] t IH]; [done|]. simpl.
  destruct r; try exact IH. destruct x as [h [e|]]; [exact IH|exact (f_equal S IH)].
Qed.

(** Every handle of these is closed again, the last one first. *)
Inductive bracketed : list (bool * nat) → Prop :=
| bracketed_nil : bracketed []
| bracketed_app l1 l2 : bracketed l1 → bracketed l2 → bracketed (l1 ++ l2)
| bracketed_wrap h l : bracketed l → bracketed ((true, h) :: l ++ [(false, h)]).

Lemma bracketed_balanced l :
  bracketed l → length (filter (λ h, h.1 = true) l) = length (filter (λ h, h.1 = false) l).
Proof.
  induction 1 as [|l1 l2 _ IH1 _ IH2|h l _ IH]; [done|by rewrite !filter_app, !length_app, IH1, IH2|].
  rewrite filter_cons_True, (filter_cons_False _ (true, h)), !filter_app by done. simpl.
  rewrite !length_app, IH. simpl. lia.
Qed.

Lemma filter_partition (l : list (option error)) :
  length l = length (filter (λ r, r = None) l) + length (filter is_Some l).
Proof.
  induction l as [|[e|] l IH]; [done|..].
  - rewrite filter_cons_False, filter_cons_True by done. simpl. lia.
  - rewrite filter_cons_True, filter_cons_False by (done || by intros [? [=]]). simpl. lia.
Qed.

(** Where the handles are closed, every attempt that succeeded has its closing
    and none that failed has one. *)
Lemma bracketed_connects t :
  bracketed (handles t) →
  length (connect_answers t) = closings t + length (filter is_Some (connect_answers t)).
Proof.
  intros H%bracketed_balanced. unfold closings. rewrite <- H, <- connects_opened. apply filter_partition.
Qed.

(** Requests that belong to a connection. *)
Definition conn_req (r : req) : Prop :=
  match r with
  | SqlConnect _ _ | SqlSetMaxIdleConns _ _ | SqlSetMaxOpenConns _ _ | SqlClose _
  | SqlExec _ _ _ | FakeCall _ _ | LoggerInfo _ => True
  | _ => False
  end.

(** What an implementation promises to its clients: it stays within its
    requests, [Exec] sends exactly the statement it was given and returns the
    server's answer, nothing else sends a statement, with [DisableLogger] nothing
    is logged, and the handle [Connect] opened is the one [Close] closes. *)
Class ConnectionLaws (C : Type) `{Connection C} := {
  Copy_only c : only conn_req (Copy c);
  Close_only c : only conn_req (Close c);
  Connect_only c d s : only conn_req (Connect c d s);
  Exec_only c l q args : only conn_req (Exec c l q args);
  Copy_statements c t o : runs (Copy c) t o → statements t = [];
  Close_statements c t o : runs (Close c) t o → statements t = [];
  Connect_statements c d s t o : runs (Connect c d s) t o → statements t = [];
  Exec_statements c l q args t r :
    runs (Exec c l q args) t (Returned r) → statements t = [(q, args, r)];
  Exec_quiet c q args t o :
    runs (Exec c DisableLogger q args) t o → logged t = [];
  Copy_sends c : only (sends_only (λ _, False)) (Copy c);
  Close_sends c : only (sends_only (λ _, False)) (Close c);
  Connect_sends c d s : only (sends_only (λ _, False)) (Connect c d s);
  Exec_sends c l q args : only (sends_only (eq q)) (Exec c l q args);
  conn_handle : C → option nat;
  Copy_handles c t o : runs (Copy c) t o → handles t = [];
  Connect_handles c d s t c' err :
    runs (Connect c d s) t (Returned (c', err)) →
    handles t = match err, conn_handle c' with None, Some h => [(true, h)] | _, _ => [] end;
  Connect_panic_handles c d s t m : runs (Connect c d s) t (Panicked m) → handles t = [];
  Exec_handles c l q args t o : runs (Exec c l q args) t o → handles t = [];
  Close_handles c t o :
    runs (Close c) t o →
    handles t = match conn_handle c with Some h => [(false, h)] | None => [] end
}.

(** ** default.go *)

(** The field [db *sqlx.DB]; [None] is the nil pointer. *)
Record DefaultConnector := mkDefaultConnector { DefaultConnector_db : option nat }.

Definition NewDefaultConnector : DefaultConnector := mkDefaultConnector None.

Definition DefaultConnector_Copy (d : DefaultConnector) : prog DefaultConnector :=
  Ret NewDefaultConnector.

Definition DefaultConnector_Connect (d : DefaultConnector) (driver connString : string)
    : prog (DefaultConnector * option error) :=
  let! (db, err) := call (SqlConnect driver connString) in
  match err with
  | Some _ => Ret (d, err)
  | None =>
      do! call (SqlSetMaxIdleConns db 0) in
      do! call (SqlSetMaxOpenConns db 1) in
      Ret (mkDefaultConnector (Some db), None)
  end.

Definition nil_deref : string :=
  "runtime error: invalid memory address or nil pointer dereference".

Definition DefaultConnector_Close (d : DefaultConnector) : prog (option error) :=
  match DefaultConnector_db d with
  | None => Panic nil_deref
  | Some db => call (SqlClose db)
  end.

Definition exec_log_line (query : string) (args : list string) : string :=
  "Executing statement '" +:+ query +:+ "' with values " +:+ fmt_v_strings args.

Definition DefaultConnector_infoLog (d : DefaultConnector) (disableLog : LogInfo)
    (query : string) (args : list string) : prog unit :=
  if bool_decide (disableLog = DisableLogger) then Ret ()
  else call (LoggerInfo (exec_log_line query args)).

Definition DefaultConnector_Exec (d : DefaultConnector) (disableLog : LogInfo)
    (query : string) (args : list string) : prog (option error) :=
  do! DefaultConnector_infoLog d disableLog query args in
  match DefaultConnector_db d with
  | None => Panic nil_deref
  | Some db => call (SqlExec db query args)
  end.

#[export] Instance DefaultConnector_Connection : Connection DefaultConnector := {
  Copy := DefaultConnector_Copy;
  Close := DefaultConnector_Close;
  Connect := DefaultConnector_Connect;
  Exec := DefaultConnector_Exec
}.

(** ** fake.go *)

(** The lock is held for the whole of each method, so a method is one atomic
    step on this state; [None] is a nil map. *)
Record FakeConnection := mkFakeConnection {
  queries : option (gmap string Z);
  count : Z;
  connections : option (gmap string bool)
}.

Definition NewFakeConnection : FakeConnection := mkFakeConnection None 0 None.

Definition FakeConnection_Connect (m : FakeConnection) (driver connString : string)
    : FakeConnection :=
  let q := default ∅ (queries m) in
  let c := default ∅ (connections m) in
  mkFakeConnection (Some q) (count m) (Some (<[driver +:+ ":" +:+ connString := true]> c)).

(** The result is the new state and, when the method panics, the message. *)
Definition FakeConnection_Exec (m : FakeConnection) (query : string) (args : list string)
    : FakeConnection * option string :=
  let q := fmt_Sprint_strings (query :: args) in
  let n := wrap64 (count m + 1) in
  match queries m with
  | None => (mkFakeConnection None n (connections m), Some "assignment to entry in nil map")
  | Some qs => (mkFakeConnection (Some (<[q := n]> qs)) n (connections m), None)
  end.

Definition FakeConnection_Queries (m : FakeConnection) : gmap string Z := default ∅ (queries m).

Definition FakeConnection_Connections (m : FakeConnection) : gmap string bool :=
  default ∅ (connections m).

Definition FakeConnection_ResetDB (m : FakeConnection) : FakeConnection :=
  mkFakeConnection (Some ∅) (count m) (Some ∅).

(** The step of the shared object that answers a [FakeCall]. *)
Definition fake_step (op : fake_op) (m : FakeConnection) : option string * FakeConnection :=
  match op with
  | FakeConnect d s => (None, FakeConnection_Connect m d s)
  | FakeExec q args => let '(m', p) := FakeConnection_Exec m q args in (p, m')
  end.

(** A [*FakeConnection]: the location of the shared object.  [Copy] returns the
    receiver itself. *)
Record FakePtr := mkFakePtr { FakePtr_loc : nat }.

Definition FakeConnection_Copy (p : FakePtr) : prog FakePtr := Ret p.

Definition FakeConnection_Close (p : FakePtr) : prog (option error) := Ret None.

Definition fake_call (p : FakePtr) (op : fake_op) : prog (option error) :=
  let! r := call (FakeCall (FakePtr_loc p) op) in
  match r with
  | Some m => Panic m
  | None => Ret None
  end.

#[export] Instance FakePtr_Connection : Connection FakePtr := {
  Copy := FakeConnection_Copy;
  Close := FakeConnection_Close;
  Connect p d s := let! err := fake_call p (FakeConnect d s) in Ret (p, err);
  Exec p _ q args := fake_call p (FakeExec q args)
}.

(** ** The implementations keep the promises *)

Ltac conn_crush :=
  repeat first
    [ progress simplify_eq/=
    | match goal with
      | H : ∃ _, _ |- _ => destruct H
      | H : _ ∧ _ |- _ => destruct H
      | x : _ * _ |- _ => destruct x
      end ];
  try done.

#[export] Instance DefaultConnector_laws : ConnectionLaws DefaultConnector.
Proof.
  refine {| conn_handle := DefaultConnector_db |}; intros c.
  - done.
  - simpl. unfold DefaultConnector_Close. solve_only.
  - solve_only.
  - intros l q args. simpl. unfold DefaultConnector_Exec, DefaultConnector_infoLog.
    case_bool_decide; solve_only.
  - intros t o. by intros [-> _].
  - intros t o. simpl. unfold DefaultConnector_Close.
    destruct (DefaultConnector_db c); simpl; intros; conn_crush.
  - intros d s t o. simpl. intros (x & t' & -> & H). destruct x as [db [e|]]; conn_crush.
  - intros l q args t r. simpl. unfold DefaultConnector_Exec, DefaultConnector_infoLog.
    case_bool_decide; simpl; destruct (DefaultConnector_db c); simpl; intros; conn_crush.
  - intros q args t o. simpl. unfold DefaultConnector_Exec, DefaultConnector_infoLog.
    rewrite bool_decide_eq_true_2 by done.
    simpl; destruct (DefaultConnector_db c); simpl; intros; conn_crush.
  - done.
  - simpl. unfold DefaultConnector_Close. solve_only.
  - solve_only.
  - intros l q args. simpl. unfold DefaultConnector_Exec, DefaultConnector_infoLog.
    case_bool_decide; solve_only.
  - by intros t o [-> _].
  - intros d s t c' err. simpl. intros (x & t' & -> & H). destruct x as [db [e|]]; conn_crush.
  - intros d s t m. simpl. intros (x & t' & -> & H). destruct x as [db [e|]]; conn_crush.
  - intros l q args t o. simpl. unfold DefaultConnector_Exec, DefaultConnector_infoLog.
    case_bool_decide; simpl; destruct (DefaultConnector_db c); simpl; intros; conn_crush.
  - intros t o. simpl. unfold DefaultConnector_Close.
    destruct (DefaultConnector_db c); simpl; intros; conn_crush.
Defined.

#[export] Instance FakePtr_laws : ConnectionLaws FakePtr.
Proof.
  refine {| conn_handle := λ _, None |}; intros c; simpl; unfold fake_call.
  - done.
  - done.
  - solve_only.
  - solve_only.
  - by intros t o [-> _].
  - by intros t o [-> _].
  - intros d s t o. simpl. intros ([m|] & t' & -> & H); simpl in H; conn_crush.
  - intros l q args t r. simpl. intros ([m|] & t' & -> & H); simpl in H; conn_crush.
  - intros q args t o. simpl. intros ([m|] & t' & -> & H); simpl in H; conn_crush.
  - done.
  - done.
  - solve_only.
  - solve_only.
  - by intros t o [-> _].
  - intros d s t c' err. simpl. intros ([m|] & t' & -> & H); simpl in H; conn_crush.
  - intros d s t m. simpl. intros ([m'|] & t' & -> & H); simpl in H; conn_crush.
  - intros l q args t o. simpl. intros ([m|] & t' & -> & H); simpl in H; conn_crush.
  - by intros t o [-> _].
Defined.

#[export] Hint Resolve Copy_only Close_only Connect_only Exec_only : operator.

(** Every run of [Exec] on a connected [DefaultConnector]: the statement is
    logged first unless logging is disabled, then executed once. *)
Theorem DefaultConnector_Exec_runs h (l : LogInfo) q args t o :
  runs (DefaultConnector_Exec (mkDefaultConnector (Some h)) l q args) t o ↔
  ∃ r, o = Returned r ∧
    t = (if bool_decide (l = DisableLogger) then [] else [ev (LoggerInfo (exec_log_line q args)) ()])
        ++ [ev (SqlExec h q args) r].
Proof.
  unfold DefaultConnector_Exec, DefaultConnector_infoLog. case_bool_decide; simpl; split.
  - intros (x & t' & -> & -> & ->). eauto.
  - intros (r & -> & ->). eauto 6.
  - intros ([] & t' & -> & x & t'' & -> & -> & ->). eauto.
  - intros (r & -> & ->). exists (), [ev (SqlExec h q args) r]. eauto 8.
Qed.

(** ** The test double records the order of the statements *)

Definition fake_execs (m : FakeConnection) (l : list (string * list string)) : FakeConnection :=
  foldl (λ m p, (FakeConnection_Exec m p.1 p.2).1) m l.

Definition fake_key (p : string * list string) : string := fmt_Sprint_strings (p.1 :: p.2).

Section FakeOrder.
Local Open Scope Z_scope.

Lemma FakeConnection_Exec_queries m q args qs :
  queries m = Some qs → - 2 ^ 63 ≤ count m + 1 < 2 ^ 63 →
  (FakeConnection_Exec m q args).1 =
    mkFakeConnection (Some (<[fake_key (q, args) := count m + 1]> qs)) (count m + 1)
      (connections m).
Proof. intros Hq Hc. unfold FakeConnection_Exec. by rewrite Hq, wrap64_small. Qed.

Lemma fake_execs_other l m qs k :
  queries m = Some qs → 0 ≤ count m → count m + Z.of_nat (length l) < 2 ^ 63 →
  (∀ p, p ∈ l → fake_key p ≠ k) →
  FakeConnection_Queries (fake_execs m l) !! k = qs !! k.
Proof.
  revert m qs. induction l as [|[q args] l IH]; intros m qs Hq H0 Hlen Hk; simpl in *.
  - unfold FakeConnection_Queries. by rewrite Hq.
  - rewrite (FakeConnection_Exec_queries m q args qs) by (done || lia).
    rewrite (IH _ (<[fake_key (q, args) := count m + 1]> qs)); simpl; try done; try lia.
    + rewrite lookup_insert_ne; [done|]. apply Hk. by left.
    + intros p Hp. apply Hk. by right.
Qed.

(** After a sequence of statements the entry of a statement is the position
    of its last execution, counted from the connection's counter. *)
Theorem fake_execs_order l m qs i p :
  queries m = Some qs → 0 ≤ count m → count m + Z.of_nat (length l) < 2 ^ 63 →
  l !! i = Some p →
  (∀ j p', (i < j)%nat → l !! j = Some p' → fake_key p' ≠ fake_key p) →
  FakeConnection_Queries (fake_execs m l) !! fake_key p = Some (count m + Z.of_nat i + 1).
Proof.
  revert m qs i. induction l as [|[q args] l IH]; intros m qs i Hq H0 Hlen Hi Hlast;
    simpl in *; [done|].
  rewrite (FakeConnection_Exec_queries m q args qs) by (done || lia).
  destruct i as [|i]; simplify_eq/=.
  - rewrite (fake_execs_other _ _ (<[fake_key (q, args) := count m + 1]> qs)); simpl; try lia; try done.
    + rewrite lookup_insert_eq. f_equal. lia.
    + intros p' [j Hj]%list_elem_of_lookup. apply (Hlast (S j)); [lia|done].
  - rewrite (IH _ (<[fake_key (q, args) := count m + 1]> qs) i); simpl; try done; try lia.
    + f_equal. lia.
    + intros j p' Hj Hp'. apply (Hlast (S j)); [lia|done].
Qed.
End FakeOrder.

Definition fake_sample : list (string * list string) :=
  [("CREATE", []); ("GRANT", ["a"]); ("CREATE", [])].

Lemma fake_execs_order_witness :
  FakeConnection_Queries
    (fake_execs (FakeConnection_Connect NewFakeConnection "pgx" "host=h") fake_sample)
    !! fake_key ("CREATE", []) = Some (0 + Z.of_nat 2 + 1)%Z.
Proof.
  apply (fake_execs_order fake_sample (FakeConnection_Connect NewFakeConnection "pgx" "host=h") ∅ 2).
  - reflexivity.
  - by vm_compute.
  - by vm_compute.
  - reflexivity.
  - intros j p' Hj Hp. apply lookup_lt_Some in Hp. simpl in Hp. lia.
Defined.
