(* ===== verification/SqlLexer.v ===== *)
(** * A lexer for the SQL the operator writes (specification)

    The lexical rules of PostgreSQL for the fragment the operator's statements
    are meant to stay in: keywords, delimited identifiers with doubled quotes,
    string literals with doubled quotes (standard_conforming_strings), dots,
    stars, commas and parentheses.  Any other character outside quotes is
    rejected, so a text that this lexer accepts contains no semicolon and no
    comment.  The character with code zero is rejected everywhere, also between
    quotes, as PostgreSQL does not allow it there. *)

From S2P Require Import Prelude GoStrings.

Definition dquote : ascii := "034"%char.
Definition squote : ascii := "039"%char.
Definition nul : ascii := "000"%char.

Inductive token :=
| TWord (w : string)
| TIdent (s : string)
| TString (s : string)
| TDot
| TStar
| TPunct (c : ascii).

#[export] Instance token_eq_dec : EqDecision token.
Proof. solve_decision. Defined.

Inductive lstate :=
| LNormal
| LWord (w : string)
| LIdent (s : string)
| LIdentQ (s : string)
| LStr (s : string)
| LStrQ (s : string)
| LBad.

Definition in_range (lo hi : nat) (c : ascii) : bool :=
  Nat.leb lo (Ascii.nat_of_ascii c) && Nat.leb (Ascii.nat_of_ascii c) hi.

(** Letters, digits and the underscore. *)
Definition is_word_char (c : ascii) : bool :=
  in_range 48 57 c || in_range 65 90 c || in_range 97 122 c || Ascii.eqb c "_".

Definition is_space_char (c : ascii) : bool :=
  Ascii.eqb c " " || in_range 9 13 c.

Definition is_punct_char (c : ascii) : bool :=
  Ascii.eqb c "," || Ascii.eqb c "(" || Ascii.eqb c ")".

Definition snoc (s : string) (c : ascii) : string := s +:+ String c "".

Definition step_normal (c : ascii) : lstate * list token :=
  if is_space_char c then (LNormal, [])
  else if Ascii.eqb c dquote then (LIdent "", [])
  else if Ascii.eqb c squote then (LStr "", [])
  else if Ascii.eqb c "." then (LNormal, [TDot])
  else if Ascii.eqb c "*" then (LNormal, [TStar])
  else if is_punct_char c then (LNormal, [TPunct c])
  else if is_word_char c then (LWord (String c ""), [])
  else (LBad, []).

Definition after (t : token) (p : lstate * list token) : lstate * list token := (p.1, t :: p.2).

(** A quote directly after a word would start another kind of literal
    ([E'..'], [U&".."]), so it is rejected. *)
Definition lex_step (st : lstate) (c : ascii) : lstate * list token :=
  match st with
  | LNormal => step_normal c
  | LWord w =>
      if is_word_char c then (LWord (snoc w c), [])
      else if Ascii.eqb c dquote || Ascii.eqb c squote then (LBad, [])
      else after (TWord w) (step_normal c)
  | LIdent s =>
      if Ascii.eqb c nul then (LBad, [])
      else if Ascii.eqb c dquote then (LIdentQ s, []) else (LIdent (snoc s c), [])
  | LIdentQ s =>
      if Ascii.eqb c dquote then (LIdent (snoc s c), []) else after (TIdent s) (step_normal c)
  | LStr s =>
      if Ascii.eqb c nul then (LBad, [])
      else if Ascii.eqb c squote then (LStrQ s, []) else (LStr (snoc s c), [])
  | LStrQ s =>
      if Ascii.eqb c squote then (LStr (snoc s c), []) else after (TString s) (step_normal c)
  | LBad => (LBad, [])
  end.

Fixpoint lex_from (st : lstate) (s : string) : lstate * list token :=
  match s with
  | EmptyString => (st, [])
  | String c s' =>
      let '(st1, ts1) := lex_step st c in
      let '(st2, ts2) := lex_from st1 s' in (st2, ts1 ++ ts2)
  end.

(** The tokens still pending at the end of the text; an open quote is an error. *)
Definition finish (st : lstate) : option (list token) :=
  match st with
  | LNormal => Some []
  | LWord w => Some [TWord w]
  | LIdentQ s => Some [TIdent s]
  | LStrQ s => Some [TString s]
  | LIdent _ | LStr _ | LBad => None
  end.

Definition lex (s : string) : option (list token) :=
  let '(st, ts) := lex_from LNormal s in app ts <$> finish st.

(** ** Composition *)

Lemma lex_from_app st s1 s2 :
  lex_from st (s1 +:+ s2) =
    let '(st1, ts1) := lex_from st s1 in
    let '(st2, ts2) := lex_from st1 s2 in (st2, ts1 ++ ts2).
Proof.
  revert st. induction s1 as [|c s1 IH]; intros st; simpl.
  - by destruct (lex_from st s2).
  - destruct (lex_step st c) as [st1 ts1]. rewrite IH.
    destruct (lex_from st1 s1) as [st2 ts2]. destruct (lex_from st2 s2) as [st3 ts3].
    by rewrite app_assoc.
Qed.

Lemma step_space st ts : finish st = Some ts → lex_step st " " = (LNormal, ts).
Proof. by destruct st; intros [= <-]. Qed.

Lemma step_dot st ts : finish st = Some ts → lex_step st "." = (LNormal, ts ++ [TDot]).
Proof. by destruct st; intros [= <-]. Qed.

Lemma lex_Some s ts :
  lex s = Some ts ↔
  ∃ st ts1 ts2, lex_from LNormal s = (st, ts1) ∧ finish st = Some ts2 ∧ ts = ts1 ++ ts2.
Proof.
  unfold lex. destruct (lex_from LNormal s) as [st ts1]. split.
  - intros (ts2 & F & ->)%fmap_Some. eauto 10.
  - intros (? & ? & ? & [= <- <-] & -> & ->). done.
Qed.

(** Texts separated by a blank lex independently. *)
Lemma lex_space s1 s2 ts1 ts2 :
  lex s1 = Some ts1 → lex s2 = Some ts2 → lex (s1 +:+ String " " s2) = Some (ts1 ++ ts2).
Proof.
  rewrite !lex_Some. intros (st1 & a1 & b1 & H1 & F1 & ->) (st2 & a2 & b2 & H2 & F2 & ->).
  exists st2, (a1 ++ b1 ++ a2), b2. rewrite lex_from_app, H1. simpl.
  rewrite (step_space _ _ F1), H2. by rewrite !app_assoc.
Qed.

(** Texts separated by a dot lex independently. *)
Lemma lex_dot s1 s2 ts1 ts2 :
  lex s1 = Some ts1 → lex s2 = Some ts2 →
  lex (s1 +:+ String "." s2) = Some (ts1 ++ TDot :: ts2).
Proof.
  rewrite !lex_Some. intros (st1 & a1 & b1 & H1 & F1 & ->) (st2 & a2 & b2 & H2 & F2 & ->).
  exists st2, (a1 ++ b1 ++ TDot :: a2), b2. rewrite lex_from_app, H1. simpl.
  rewrite (step_dot _ _ F1), H2. rewrite <- !app_assoc. by simpl.
Qed.

(** ** Words and quoted texts *)

Lemma lex_from_word w acc :
  str_forallb is_word_char w = true → lex_from (LWord acc) w = (LWord (acc +:+ w), []).
Proof.
  revert acc. induction w as [|c w IH]; intros acc; simpl.
  - by rewrite string_app_nil_r.
  - rewrite andb_true_iff. intros [Hc Hw]. rewrite Hc, IH by done.
    unfold snoc. by rewrite string_app_assoc.
Qed.

Lemma step_normal_word c : is_word_char c = true → step_normal c = (LWord (String c ""), []).
Proof. destruct c as [[] [] [] [] [] [] [] []]; by vm_compute. Qed.

Lemma lex_word w : w ≠ "" → str_forallb is_word_char w = true → lex w = Some [TWord w].
Proof.
  destruct w as [|c w]; [done|]. simpl. rewrite andb_true_iff. intros _ [Hc Hw].
  unfold lex. simpl. by rewrite step_normal_word, lex_from_word by done.
Qed.

(** The text written between double quotes: embedded quotes are doubled. *)
Definition double (q : ascii) (s : string) : string :=
  strings_ReplaceAll s q (String q (String q "")).

Lemma lex_from_ident s acc :
  str_free nul s = true → lex_from (LIdent acc) (double dquote s) = (LIdent (acc +:+ s), []).
Proof.
  unfold double. revert acc. induction s as [|c s IH]; intros acc; simpl.
  - by rewrite string_app_nil_r.
  - intros [Hc%negb_true_iff Hs]%andb_true_iff.
    destruct (Ascii.eqb c dquote) eqn:E; simpl; [apply Ascii.eqb_eq in E as ->|rewrite Hc, E];
      rewrite IH by done; unfold snoc; by rewrite string_app_assoc.
Qed.

Lemma lex_from_str s acc :
  str_free nul s = true → lex_from (LStr acc) (double squote s) = (LStr (acc +:+ s), []).
Proof.
  unfold double. revert acc. induction s as [|c s IH]; intros acc; simpl.
  - by rewrite string_app_nil_r.
  - intros [Hc%negb_true_iff Hs]%andb_true_iff.
    destruct (Ascii.eqb c squote) eqn:E; simpl; [apply Ascii.eqb_eq in E as ->|rewrite Hc, E];
      rewrite IH by done; unfold snoc; by rewrite string_app_assoc.
Qed.

Lemma lex_ident s :
  str_free nul s = true →
  lex (String dquote "" +:+ double dquote s +:+ String dquote "") = Some [TIdent s].
Proof. intros Hs. unfold lex. simpl. by rewrite lex_from_app, lex_from_ident. Qed.

Lemma lex_string s :
  str_free nul s = true →
  lex (String squote "" +:+ double squote s +:+ String squote "") = Some [TString s].
Proof. intros Hs. unfold lex. simpl. by rewrite lex_from_app, lex_from_str. Qed.

(** Characters that never leave the fragment nor open a quote. *)
Definition is_plain_char (c : ascii) : bool :=
  is_word_char c || is_space_char c || is_punct_char c.

Lemma step_plain c st :
  is_plain_char c = true → (∃ w, st = LWord w) ∨ st = LNormal →
  ∃ st' ts, lex_step st c = (st', ts) ∧ ((∃ w, st' = LWord w) ∨ st' = LNormal).
Proof.
  intros Hc [[w ->]| ->];
    destruct c as [[] [] [] [] [] [] [] []]; vm_compute in Hc; try discriminate Hc;
    cbn; eauto 6.
Qed.

(** A semicolon outside quotes is rejected: an accepted text is one statement. *)
Lemma lex_bad s : lex_from LBad s = (LBad, []).
Proof. induction s as [|c s IH]; simpl; [done|]. by rewrite IH. Qed.

(** ** Zero characters *)

(** The text before the first zero character. *)
Fixpoint before_nul (s : string) : string :=
  match s with
  | EmptyString => ""
  | String c s' => if Ascii.eqb c nul then "" else String c (before_nul s')
  end.

(** The first zero character is in a string literal. *)
Definition nul_in_literal (s : string) : bool :=
  negb (str_free nul s) &&
  match (lex_from LNormal (before_nul s)).1 with LStr _ => true | _ => false end.

Lemma before_nul_split s : str_free nul s = false → ∃ s', s = before_nul s +:+ String nul s'.
Proof.
  induction s as [|c s IH]; [done|]. cbn [before_nul]. rewrite str_free_step.
  destruct (Ascii.eqb c nul) eqn:E; simpl.
  - apply Ascii.eqb_eq in E as ->. eauto.
  - intros [s' Es]%IH. exists s'. by rewrite <- Es.
Qed.

Lemma before_nul_free s : str_free nul (before_nul s) = true.
Proof.
  induction s as [|c s IH]; [done|]. cbn [before_nul]. destruct (Ascii.eqb c nul) eqn:E; [done|].
  by rewrite str_free_step, E.
Qed.

Lemma before_nul_app s t : str_free nul s = true → before_nul (s +:+ t) = s +:+ before_nul t.
Proof.
  induction s as [|c s IH]; [done|]. rewrite str_free_step. intros [Hc%negb_true_iff Hs]%andb_true_iff.
  simpl. by rewrite Hc, IH.
Qed.

Lemma nul_in_literal_bad s : nul_in_literal s = true → lex s = None.
Proof.
  unfold nul_in_literal. intros [[s' Es]%negb_true_iff%before_nul_split Hl]%andb_true_iff.
  unfold lex. rewrite Es, lex_from_app. destruct (lex_from LNormal (before_nul s)) as [[] ts]; try done.
  cbn [lex_from lex_step Ascii.eqb]. simpl. by rewrite lex_bad.
Qed.

#[export] Hint Resolve lex_space lex_dot lex_word lex_ident lex_string : operator.
