(* ===== verification/PgUtils.v ===== *)
(** * Escaping and error classification (pkg/database/postgresql/utils.go) *)

From S2P Require Import Prelude GoStrings GoError SqlLexer.

(** ** Escaping *)

(** One iteration of the loop of [escapeLiteral]: [parts[i]] from [ident[i]]. *)
Definition escapeLiteral_part (ident : string) : string :=
  let part :=
    strings_ReplaceAll (strings_ReplaceAll ident nul "") dquote
      (String dquote (String dquote "")) in
  if bool_decide (part ≠ "*") then String dquote "" +:+ part +:+ String dquote "" else part.

Definition escapeLiteral (str : string) : string :=
  let ident := strings_Split str "." in
  strings_Join (escapeLiteral_part <$> ident) ".".

Definition escapeString (str : string) : string :=
  String squote ""
    +:+ strings_ReplaceAll str squote (String squote (String squote ""))
    +:+ String squote "".

(** One iteration of the loop of [escapeLiteralWithoutQuotes]: [parts[i]] is
    assigned twice, both times from [tmp]. *)
Definition escapeLiteralWithoutQuotes_part (ident : string) : string :=
  let tmp := strings_ReplaceAll ident nul "" in
  let tmp := strings_ReplaceAll tmp dquote (String dquote (String dquote "")) in
  let parts_i := strings_ReplaceAll tmp "#" "" in
  let parts_i := strings_ReplaceAll tmp ";" "" in
  parts_i.

Definition escapeLiteralWithoutQuotes (str : string) : string :=
  let ident := strings_Split str "." in
  strings_Join (escapeLiteralWithoutQuotes_part <$> ident) ".".

(** ** Errors *)

Definition notAPostgresError : string := "Not a postgres error".

Definition ProcessToPostgressError (err : option error) : string :=
  match err with
  | Some e =>
      match errors_As_PgError e with
      | Some code => code
      | None => notAPostgresError
      end
  | None => ""
  end.

Definition isAlreadyExists (err : option error) : bool :=
  bool_decide (ProcessToPostgressError err = "42710").

Definition ignoreAlreadyExists (err : option error) : option error :=
  if isAlreadyExists err then None else err.

Definition isNotExists (err : option error) : bool :=
  bool_decide (ProcessToPostgressError err = "42704").

Definition ignoreNotExists (err : option error) : option error :=
  if isNotExists err then None else err.

(** ** What the escaped texts mean to the server *)

(** The token a part of a dotted name becomes. *)
Definition part_token (p : string) : token :=
  let q := strings_ReplaceAll p nul "" in
  if bool_decide (q = "*") then TStar else TIdent q.

Fixpoint dotted (l : list token) : list token :=
  match l with
  | [] => []
  | [t] => [t]
  | t :: l' => t :: TDot :: dotted l'
  end.

(** The tokens of a dotted name. *)
Definition qualified (s : string) : list token := dotted (part_token <$> strings_Split s ".").

Definition token_text (t : token) : string :=
  match t with
  | TWord s | TIdent s | TString s => s
  | TDot => "."
  | TStar => "*"
  | TPunct c => String c ""
  end.

Definition tokens_text (l : list token) : string := String.concat "" (token_text <$> l).

Lemma double_star_inv s : double dquote s = "*" → s = "*".
Proof.
  unfold double. destruct s as [|c s]; simpl; [done|].
  destruct (Ascii.eqb c dquote) eqn:E; simpl; [done|].
  intros [= -> Hs]. destruct s as [|d s]; [done|]. simpl in Hs.
  by destruct (Ascii.eqb d dquote).
Qed.

Lemma escapeLiteral_part_lex p : lex (escapeLiteral_part p) = Some [part_token p].
Proof.
  unfold escapeLiteral_part, part_token. fold (double dquote (strings_ReplaceAll p nul "")).
  set (q := strings_ReplaceAll p nul ""). simpl.
  destruct (decide (q = "*")) as [E|E].
  - rewrite (bool_decide_eq_true_2 (q = "*")), E by done. done.
  - rewrite (bool_decide_eq_false_2 (q = "*")) by done.
    rewrite bool_decide_eq_true_2; [apply lex_ident, strings_ReplaceAll_removed|]. by intros ?%double_star_inv.
Qed.

Lemma lex_join_dots l :
  l ≠ [] →
  lex (strings_Join (escapeLiteral_part <$> l) ".") = Some (dotted (part_token <$> l)).
Proof.
  unfold strings_Join. induction l as [|p l IH]; [done|intros _].
  destruct l as [|q l]; [apply escapeLiteral_part_lex|].
  rewrite !fmap_cons, concat_cons by done. rewrite <- fmap_cons.
  change ("." +:+ ?x) with (String "." x).
  by rewrite (lex_dot _ _ _ _ (escapeLiteral_part_lex p) (IH ltac:(done))).
Qed.

(** The escaped text of any string reads as one dotted name: each part between
    dots is one delimited identifier with the part's text, NUL bytes removed,
    or a star. *)
Lemma escapeLiteral_lex s : lex (escapeLiteral s) = Some (qualified s).
Proof. apply lex_join_dots, strings_Split_ne. Qed.

Lemma escapeString_lex s : str_free nul s = true → lex (escapeString s) = Some [TString s].
Proof. apply lex_string. Qed.

(** A name without dots is one identifier. *)
Lemma qualified_single s :
  str_free "." s = true → str_free nul s = true → s ≠ "*" → qualified s = [TIdent s].
Proof.
  intros Hd Hn Hs. unfold qualified. rewrite strings_Split_free_id by done. simpl.
  unfold part_token. rewrite strings_ReplaceAll_free by done.
  by rewrite bool_decide_eq_false_2.
Qed.

Lemma tokens_text_cons t l : tokens_text (t :: l) = token_text t +:+ tokens_text l.
Proof. unfold tokens_text. destruct l; simpl; by rewrite ?string_app_nil_r. Qed.

Lemma dotted_cons t l : l ≠ [] → dotted (t :: l) = t :: TDot :: dotted l.
Proof. by destruct l. Qed.

Lemma tokens_text_dotted l :
  Forall (λ p, str_free nul p = true) l →
  tokens_text (dotted (part_token <$> l)) = strings_Join l ".".
Proof.
  unfold strings_Join.
  assert (∀ p, str_free nul p = true → token_text (part_token p) = p) as Hp.
  { intros p Hn. unfold part_token. rewrite strings_ReplaceAll_free by done.
    by case_bool_decide. }
  induction 1 as [|p l Hn Hl IH]; [done|]. rewrite fmap_cons. destruct l as [|q l].
  - simpl. rewrite tokens_text_cons, Hp by done. apply string_app_nil_r.
  - rewrite dotted_cons, !tokens_text_cons, Hp, IH by done. by rewrite (concat_cons "." p).
Qed.

Lemma str_free_Split a s sep :
  str_free a s = true → Forall (λ p, str_free a p = true) (strings_Split s sep).
Proof.
  unfold str_free. induction s as [|c s IH]; simpl; [by repeat constructor|].
  rewrite andb_true_iff. intros [Hc Hs]. specialize (IH Hs).
  destruct (Ascii.eqb c sep); [by constructor|].
  destruct (strings_Split s sep) as [|p ps]; inversion_clear IH;
    constructor; simpl; rewrite ?Hc; done.
Qed.

(** Reading the escaped text back gives the string. *)
Lemma escapeLiteral_roundtrip s :
  str_free nul s = true → tokens_text <$> lex (escapeLiteral s) = Some s.
Proof.
  intros Hn. rewrite escapeLiteral_lex. simpl. unfold qualified.
  rewrite tokens_text_dotted by (by apply str_free_Split).
  by rewrite strings_Join_Split.
Qed.

(** ** What [escapeLiteralWithoutQuotes] removes *)

Lemma escapeLiteralWithoutQuotes_free a s :
  a = ";"%char ∨ a = nul → str_free a (escapeLiteralWithoutQuotes s) = true.
Proof.
  intros Ha. unfold escapeLiteralWithoutQuotes, strings_Join.
  apply str_forallb_concat; [by destruct Ha as [-> | ->]|].
  apply Forall_fmap, Forall_true. intros p. simpl.
  unfold escapeLiteralWithoutQuotes_part. destruct Ha as [-> | ->].
  - apply strings_ReplaceAll_removed.
  - apply str_free_ReplaceAll; [done|]. apply str_free_ReplaceAll; [done|].
    apply strings_ReplaceAll_removed.
Qed.

(** Text without NUL, quotes and semicolons passes unchanged. *)
Lemma escapeLiteralWithoutQuotes_id s :
  str_free nul s = true → str_free dquote s = true → str_free ";" s = true →
  escapeLiteralWithoutQuotes s = s.
Proof.
  intros Hn Hq Hs. unfold escapeLiteralWithoutQuotes.
  replace (escapeLiteralWithoutQuotes_part <$> strings_Split s ".") with (strings_Split s ".").
  { apply strings_Join_Split. }
  symmetry. apply list_eq. intros i. rewrite list_lookup_fmap.
  destruct (strings_Split s "." !! i) as [p|] eqn:E; [simpl|done]. f_equal.
  pose proof (Forall_lookup_1 _ _ _ _ (str_free_Split _ _ "." Hn) E) as Hn'.
  pose proof (Forall_lookup_1 _ _ _ _ (str_free_Split _ _ "." Hq) E) as Hq'.
  pose proof (Forall_lookup_1 _ _ _ _ (str_free_Split _ _ "." Hs) E) as Hs'.
  unfold escapeLiteralWithoutQuotes_part. simpl in *.
  rewrite (strings_ReplaceAll_free p nul) by done.
  rewrite (strings_ReplaceAll_free p dquote) by done.
  by rewrite strings_ReplaceAll_free.
Qed.

Lemma escapeLiteral_free s : str_free nul (escapeLiteral s) = true.
Proof.
  unfold escapeLiteral, strings_Join. apply str_forallb_concat; [done|].
  apply Forall_fmap, Forall_true. intros p. simpl. unfold escapeLiteral_part.
  pose proof (str_free_ReplaceAll nul (strings_ReplaceAll p nul "") dquote (String dquote (String dquote ""))
    eq_refl (strings_ReplaceAll_removed p nul)) as Hp.
  case_bool_decide; [|exact Hp]. unfold str_free in *. by rewrite !str_forallb_app, Hp.
Qed.

(** ** Classification of errors *)

Lemma ignoreAlreadyExists_None err :
  ignoreAlreadyExists err = None ↔ err = None ∨ ProcessToPostgressError err = "42710".
Proof.
  unfold ignoreAlreadyExists, isAlreadyExists. case_bool_decide as E; [by split; auto|].
  split; [by auto|]. by intros [->|?].
Qed.

#[export] Hint Resolve escapeLiteral_lex escapeString_lex : operator.
#[export] Hint Rewrite escapeLiteral_lex escapeString_lex : operator.
