(* ===== verification/Dsn.v ===== *)
(** * The keyword/value connection string (specification)

    The format of libpq and pgx, without its quoting: [key=value] settings
    separated by blanks; blanks after the equals sign are skipped, so an empty
    value swallows the next setting; quotes and backslashes are outside the
    fragment and rejected. *)

From S2P Require Import Prelude GoStrings SqlLexer.

Inductive dstate :=
| DKey (k : string)
| DEq (k : string)
| DVal (k v : string)
| DBad.

Definition backslash : ascii := "092"%char.

Definition dsn_step (st : dstate) (c : ascii) : dstate * list (string * string) :=
  match st with
  | DKey k =>
      if Ascii.eqb c "=" then (if bool_decide (k = "") then DBad else DEq k, [])
      else if is_space_char c then (if bool_decide (k = "") then DKey "" else DBad, [])
      else (DKey (snoc k c), [])
  | DEq k =>
      if is_space_char c then (DEq k, [])
      else if Ascii.eqb c squote || Ascii.eqb c backslash then (DBad, [])
      else (DVal k (String c ""), [])
  | DVal k v =>
      if is_space_char c then (DKey "", [(k, v)])
      else if Ascii.eqb c squote || Ascii.eqb c backslash then (DBad, [])
      else (DVal k (snoc v c), [])
  | DBad => (DBad, [])
  end.

Fixpoint dsn_from (st : dstate) (s : string) : dstate * list (string * string) :=
  match s with
  | EmptyString => (st, [])
  | String c s' =>
      let '(st1, l1) := dsn_step st c in
      let '(st2, l2) := dsn_from st1 s' in (st2, l1 ++ l2)
  end.

Definition dsn_finish (st : dstate) : option (list (string * string)) :=
  match st with
  | DKey k => if bool_decide (k = "") then Some [] else None
  | DEq k => Some [(k, "")]
  | DVal k v => Some [(k, v)]
  | DBad => None
  end.

(** The settings in the order of the text. *)
Definition dsn_parse (s : string) : option (list (string * string)) :=
  let '(st, l) := dsn_from (DKey "") s in app l <$> dsn_finish st.

(** A setting that occurs twice takes its last value. *)
Definition dsn_get (l : list (string * string)) (k : string) : option string :=
  foldl (λ r kv, if bool_decide (kv.1 = k) then Some kv.2 else r) None l.

(** ** Texts that need no quoting *)

Definition plain_value_char (c : ascii) : bool :=
  negb (is_space_char c) && negb (Ascii.eqb c squote) && negb (Ascii.eqb c backslash).

Definition plain_value (v : string) : bool :=
  bool_decide (v ≠ "") && str_forallb plain_value_char v.

Definition plain_key_char (c : ascii) : bool := negb (is_space_char c) && negb (Ascii.eqb c "=").

Definition plain_key (k : string) : bool :=
  bool_decide (k ≠ "") && str_forallb plain_key_char k.

Lemma dsn_from_app st s1 s2 :
  dsn_from st (s1 +:+ s2) =
    let '(st1, l1) := dsn_from st s1 in
    let '(st2, l2) := dsn_from st1 s2 in (st2, l1 ++ l2).
Proof.
  revert st. induction s1 as [|c s1 IH]; intros st; simpl.
  - by destruct (dsn_from st s2).
  - destruct (dsn_step st c) as [st1 l1]. rewrite IH.
    destruct (dsn_from st1 s1) as [st2 l2]. destruct (dsn_from st2 s2) as [st3 l3].
    by rewrite app_assoc.
Qed.

Lemma dsn_from_key k acc :
  str_forallb plain_key_char k = true → dsn_from (DKey acc) k = (DKey (acc +:+ k), []).
Proof.
  revert acc. induction k as [|c k IH]; intros acc; simpl.
  - by rewrite string_app_nil_r.
  - unfold plain_key_char. rewrite !andb_true_iff, !negb_true_iff. intros [[Hs He] Hk].
    rewrite He, Hs, IH by done. unfold snoc. by rewrite string_app_assoc.
Qed.

Lemma dsn_from_val k v acc :
  str_forallb plain_value_char v = true →
  dsn_from (DVal k acc) v = (DVal k (acc +:+ v), []).
Proof.
  revert acc. induction v as [|c v IH]; intros acc; simpl.
  - by rewrite string_app_nil_r.
  - unfold plain_value_char. rewrite !andb_true_iff, !negb_true_iff. intros [[[Hs Hq] Hb] Hv].
    rewrite Hs, Hq, Hb. simpl. rewrite IH by done. unfold snoc. by rewrite string_app_assoc.
Qed.

Lemma dsn_setting k v :
  plain_key k = true → plain_value v = true →
  dsn_from (DKey "") (k +:+ "=" +:+ v) = (DVal k v, []).
Proof.
  unfold plain_key, plain_value. rewrite !andb_true_iff, !bool_decide_eq_true.
  intros [Hk Hkc] [Hv Hvc]. rewrite dsn_from_app, dsn_from_key by done. simpl.
  rewrite bool_decide_eq_false_2 by done. destruct v as [|c v]; [done|]. simpl in *.
  apply andb_true_iff in Hvc as [Hc Hvc]. revert Hc. unfold plain_value_char.
  rewrite !andb_true_iff, !negb_true_iff. intros [[Hs Hq] Hb].
  rewrite Hs, Hq, Hb. simpl. by rewrite dsn_from_val.
Qed.

(** Plain settings joined by blanks are read back as they were written. *)
Lemma dsn_parse_join (l : list (string * string)) :
  Forall (λ kv, plain_key kv.1 = true ∧ plain_value kv.2 = true) l →
  dsn_parse (strings_Join ((λ kv, kv.1 +:+ "=" +:+ kv.2) <$> l) " ") = Some l.
Proof.
  unfold dsn_parse, strings_Join. destruct l as [|kv l]; [done|]. intros H.
  assert (∀ l kv, Forall (λ kv, plain_key kv.1 = true ∧ plain_value kv.2 = true) (kv :: l) →
    ∃ k v l0, dsn_from (DKey "") (String.concat " " ((λ kv, kv.1 +:+ "=" +:+ kv.2) <$> kv :: l))
                = (DVal k v, l0) ∧ l0 ++ [(k, v)] = kv :: l) as Hgen.
  { clear. induction l as [|kv' l IH]; intros [k v] Hall; inversion_clear Hall as [|?? [Hk Hv] Hl].
    - exists k, v, []. split; [|done]. by apply dsn_setting.
    - destruct (IH kv' Hl) as (k' & v' & l0 & E & Hl0).
      exists k', v', ((k, v) :: l0). split; [|by rewrite <- Hl0].
      rewrite fmap_cons, concat_cons by done. rewrite dsn_from_app. cbn [fst snd].
      rewrite dsn_setting by done. rewrite string_app_cons. cbn [dsn_from dsn_step].
      change (is_space_char " ") with true. cbv iota. change ("" +:+ ?x) with x. by rewrite E. }
  destruct (Hgen l kv H) as (k & v & l0 & -> & <-). done.
Qed.
