(* ===== verification/GoPath.v ===== *)
(** * The part of Go's [path/filepath] that the operator uses (Unix) *)

From S2P Require Import Prelude GoStrings.

(** One component of the path; the stack holds the components kept so far, last
    first. *)
Definition clean_step (rooted : bool) (stack : list string) (comp : string) : list string :=
  if bool_decide (comp = "" ∨ comp = ".") then stack
  else if bool_decide (comp = "..") then
    match stack with
    | x :: st => if bool_decide (x = "..") then comp :: stack else st
    | [] => if rooted then [] else [comp]
    end
  else comp :: stack.

Definition is_rooted (path : string) : bool :=
  match path with String c _ => Ascii.eqb c "/" | EmptyString => false end.

(** [filepath.Clean(path)] *)
Definition filepath_Clean (path : string) : string :=
  let rooted := is_rooted path in
  let stack := foldl (clean_step rooted) [] (strings_Split path "/") in
  let out := strings_Join (rev stack) "/" in
  if rooted then String "/" out else if bool_decide (out = "") then "." else out.

(** [filepath.Join(elem...)] *)
Fixpoint filepath_Join (elem : list string) : string :=
  match elem with
  | [] => ""
  | e :: es => if bool_decide (e = "") then filepath_Join es
               else filepath_Clean (strings_Join elem "/")
  end.

(** The text up to and including the last slash. *)
Fixpoint upto_last_slash (s : string) : string :=
  match s with
  | EmptyString => ""
  | String c s' =>
      match upto_last_slash s' with
      | EmptyString => if Ascii.eqb c "/" then "/" else ""
      | u => String c u
      end
  end.

(** [filepath.Dir(path)] *)
Definition filepath_Dir (path : string) : string := filepath_Clean (upto_last_slash path).

(** ** The last character of a cleaned path *)

Lemma string_snoc_inj s t c d : s +:+ String c "" = t +:+ String d "" → s = t ∧ c = d.
Proof.
  revert t. induction s as [|x s IH]; intros [|y t]; simpl; intros E; simplify_eq.
  - done.
  - by destruct t.
  - by destruct s.
  - by destruct (IH _ H) as [-> ->].
Qed.

Lemma strings_Split_snoc s c sep :
  c ≠ sep → ∃ l p, strings_Split (s +:+ String c "") sep = l ++ [p +:+ String c ""].
Proof.
  intros Hc. induction s as [|x s (l & p & IH)]; simpl.
  - rewrite (proj2 (Ascii.eqb_neq c sep)) by done. by exists [], "".
  - rewrite IH. destruct (Ascii.eqb x sep).
    + by exists ("" :: l), p.
    + destruct l as [|q l]; simpl; [by exists [], (String x p)|by exists (String x q :: l), p].
Qed.

Lemma clean_step_keep rooted stack p c :
  c ≠ "."%char → clean_step rooted stack (p +:+ String c "") = (p +:+ String c "") :: stack.
Proof.
  intros Hc. unfold clean_step.
  rewrite bool_decide_eq_false_2; [rewrite bool_decide_eq_false_2; [done|]|].
  - change ".." with ("." +:+ String "." ""). by intros [_ ?]%string_snoc_inj.
  - intros [E|E]; [by destruct p|].
    change "." with ("" +:+ String "." "") in E. by apply string_snoc_inj in E as [_ ?].
Qed.

(** Cleaning a path that ends in a character other than a slash or a dot keeps
    that last character. *)
Lemma filepath_Clean_snoc s c :
  c ≠ "/"%char → c ≠ "."%char →
  ∃ pre, filepath_Clean (s +:+ String c "") = pre +:+ String c "".
Proof.
  intros Hs Hd. unfold filepath_Clean.
  destruct (strings_Split_snoc s c "/" Hs) as (l & p & ->).
  rewrite foldl_app. simpl. rewrite clean_step_keep by done.
  set (st := foldl _ _ l). simpl. unfold strings_Join.
  assert (∃ pre, String.concat "/" (rev st ++ [p +:+ String c ""]) = pre +:+ String c "")
    as (pre & E).
  { destruct (decide (rev st = [])) as [->|Hne]; [by exists p|].
    rewrite concat_snoc by done. exists (String.concat "/" (rev st) +:+ ("/" +:+ p)).
    by rewrite !string_app_assoc. }
  rewrite E. destruct (is_rooted _).
  - by exists (String "/" pre).
  - rewrite bool_decide_eq_false_2; [by exists pre|]. by destruct pre.
Qed.

Lemma filepath_Join_snoc elems s c :
  c ≠ "/"%char → c ≠ "."%char →
  ∃ pre, filepath_Join (elems ++ [s +:+ String c ""]) = pre +:+ String c "".
Proof.
  intros Hs Hd. induction elems as [|e es IH]; cbn [filepath_Join app].
  - rewrite bool_decide_eq_false_2 by (by destruct s). by apply filepath_Clean_snoc.
  - case_bool_decide; [done|]. unfold strings_Join.
    rewrite app_comm_cons, (concat_snoc _ _ (e :: es)) by done.
    rewrite <- string_app_assoc, <- (string_app_assoc _ _ (String c "")).
    by apply filepath_Clean_snoc.
Qed.
