(* ===== verification/Base64.v ===== *)
(** * Base64 (Go's [encoding/base64], [StdEncoding])

    The standard alphabet with padding.  The decoder skips line ends, reads
    groups of four characters, accepts padding at the end of the last group
    only, ignores the unused bits of a padded group and rejects everything
    else, as [Decode] does. *)

From S2P Require Import Prelude.

Definition base64_alphabet : string :=
  "ABCDEFGHIJKLMNOPQRSTUVWXYZabcdefghijklmnopqrstuvwxyz0123456789+/".

Definition sextet_char (n : N) : ascii := default "="%char (String.get (N.to_nat n) base64_alphabet).

(** The position of a character in the alphabet: [decodeMap]. *)
Definition char_sextet (c : ascii) : option N :=
  let n := N_of_ascii c in
  if bool_decide (65 ≤ n ≤ 90)%N then Some (n - 65)%N
  else if bool_decide (97 ≤ n ≤ 122)%N then Some (n - 71)%N
  else if bool_decide (48 ≤ n ≤ 57)%N then Some (n + 4)%N
  else if Ascii.eqb c "+" then Some 62%N
  else if Ascii.eqb c "/" then Some 63%N
  else None.

Section Groups.
Local Open Scope N_scope.
Local Notation byte := N_of_ascii.

(** ** Encoding *)

Fixpoint base64_Encode (s : string) : string :=
  match s with
  | EmptyString => ""
  | String a EmptyString =>
      String (sextet_char (byte a / 4)) (String (sextet_char (byte a mod 4 * 16)) "==")
  | String a (String b EmptyString) =>
      String (sextet_char (byte a / 4))
        (String (sextet_char (byte a mod 4 * 16 + byte b / 16))
           (String (sextet_char (byte b mod 16 * 4)) "="))
  | String a (String b (String c s')) =>
      String (sextet_char (byte a / 4))
        (String (sextet_char (byte a mod 4 * 16 + byte b / 16))
           (String (sextet_char (byte b mod 16 * 4 + byte c / 64))
              (String (sextet_char (byte c mod 64)) (base64_Encode s'))))
  end.

(** ** Decoding *)

Definition first_byte (w x : N) : ascii := ascii_of_N (w * 4 + x / 16).
Definition second_byte (x y : N) : ascii := ascii_of_N (x mod 16 * 16 + y / 4).
Definition third_byte (y z : N) : ascii := ascii_of_N (y mod 4 * 64 + z).

(** Groups of four characters, line ends already removed. *)
Fixpoint decode_groups (s : string) : option string :=
  match s with
  | EmptyString => Some ""
  | String c1 (String c2 (String c3 (String c4 s'))) =>
      match char_sextet c1, char_sextet c2 with
      | Some w, Some x =>
          match char_sextet c3, char_sextet c4 with
          | Some y, Some z =>
              (λ r, String (first_byte w x) (String (second_byte x y) (String (third_byte y z) r)))
                <$> decode_groups s'
          | Some y, None =>
              if Ascii.eqb c4 "=" && String.eqb s' ""
              then Some (String (first_byte w x) (String (second_byte x y) "")) else None
          | None, _ =>
              if Ascii.eqb c3 "=" && Ascii.eqb c4 "=" && String.eqb s' ""
              then Some (String (first_byte w x) "") else None
          end
      | _, _ => None
      end
  | _ => None
  end.
End Groups.

Fixpoint str_filter (P : ascii → bool) (s : string) : string :=
  match s with
  | EmptyString => ""
  | String c s' => if P c then String c (str_filter P s') else str_filter P s'
  end.

Definition is_newline (c : ascii) : bool := Ascii.eqb c "010" || Ascii.eqb c "013".

Definition base64_Decode (s : string) : option string :=
  decode_groups (str_filter (λ c, negb (is_newline c)) s).

(** ** Facts *)

Lemma str_filter_app P s t : str_filter P (s +:+ t) = str_filter P s +:+ str_filter P t.
Proof. induction s as [|c s IH]; simpl; [done|]. rewrite IH. by destruct (P c). Qed.

Lemma byte_bound a : (N_of_ascii a < 256)%N.
Proof. apply N_ascii_bounded. Qed.

Lemma sextet_cases (P : N → Prop) n :
  (n < 64)%N → Forall P (N.of_nat <$> seq 0 64) → P n.
Proof.
  intros Hn HP. rewrite Forall_fmap, Forall_forall in HP. rewrite <- (N2Nat.id n).
  apply (HP (N.to_nat n)), elem_of_seq. lia.
Qed.

(** The characters of an encoding. *)
Definition is_base64 (c : ascii) : bool := bool_decide (is_Some (char_sextet c)) || Ascii.eqb c "=".

Lemma char_sextet_char n : (n < 64)%N → char_sextet (sextet_char n) = Some n.
Proof. intros Hn. pattern n. apply sextet_cases; [done|]. by repeat constructor. Qed.

Lemma sextet_char_base64 n : (n < 64)%N → is_base64 (sextet_char n) = true.
Proof. intros Hn. unfold is_base64. by rewrite char_sextet_char. Qed.

(** Induction by groups of three bytes. *)
Lemma string_ind3 (P : string → Prop) :
  P "" → (∀ a, P (String a "")) → (∀ a b, P (String a (String b ""))) →
  (∀ a b c s, P s → P (String a (String b (String c s)))) → ∀ s, P s.
Proof.
  intros H0 H1 H2 H3. fix IH 1. intros [|a [|b [|c s]]]; [done..|]. apply H3, IH.
Qed.

Section Round.
Local Open Scope N_scope.
Context (a b c : ascii).
Local Notation byte := N_of_ascii.

Lemma group_bounds :
  byte a / 4 < 64 ∧ byte a mod 4 * 16 < 64 ∧ byte a mod 4 * 16 + byte b / 16 < 64 ∧
  byte b mod 16 * 4 < 64 ∧ byte b mod 16 * 4 + byte c / 64 < 64 ∧ byte c mod 64 < 64.
Proof.
  pose proof (byte_bound a). pose proof (byte_bound b). pose proof (byte_bound c).
  split_and!; zify; Z.to_euclidean_division_equations; lia.
Qed.

Lemma group_bytes :
  first_byte (byte a / 4) (byte a mod 4 * 16 + byte b / 16) = a ∧
  first_byte (byte a / 4) (byte a mod 4 * 16) = a ∧
  second_byte (byte a mod 4 * 16 + byte b / 16) (byte b mod 16 * 4 + byte c / 64) = b ∧
  second_byte (byte a mod 4 * 16 + byte b / 16) (byte b mod 16 * 4) = b ∧
  third_byte (byte b mod 16 * 4 + byte c / 64) (byte c mod 64) = c.
Proof.
  pose proof (byte_bound a). pose proof (byte_bound b). pose proof (byte_bound c).
  unfold first_byte, second_byte, third_byte.
  split_and!; (etrans; [|apply ascii_N_embedding]); f_equal;
    zify; Z.to_euclidean_division_equations; lia.
Qed.
End Round.

Lemma base64_Encode_chars s : str_forallb is_base64 (base64_Encode s) = true.
Proof.
  induction s as [|a|a b|a b c s IH] using string_ind3; simpl; rewrite ?andb_true_r; [done| | |].
  - destruct (group_bounds a a a) as (? & ? & _). by rewrite !sextet_char_base64.
  - destruct (group_bounds a b b) as (? & ? & ? & ? & _). by rewrite !sextet_char_base64.
  - destruct (group_bounds a b c) as (? & ? & ? & ? & ? & ?). by rewrite !sextet_char_base64, IH.
Qed.

Lemma decode_groups_Encode s : decode_groups (base64_Encode s) = Some s.
Proof.
  induction s as [|a|a b|a b c s IH] using string_ind3; [done| | |]; cbn [base64_Encode decode_groups].
  - destruct (group_bounds a a a) as (? & ? & _). destruct (group_bytes a a a) as (_ & E & _).
    rewrite !char_sextet_char by done. cbn. by rewrite E.
  - destruct (group_bounds a b b) as (? & ? & ? & ? & _).
    destruct (group_bytes a b b) as (E1 & _ & _ & E2 & _).
    rewrite !char_sextet_char by done. cbn. by rewrite E1, E2.
  - destruct (group_bounds a b c) as (? & ? & ? & ? & ? & ?).
    destruct (group_bytes a b c) as (E1 & _ & E2 & _ & E3).
    rewrite !char_sextet_char by done. rewrite IH. cbn. by rewrite E1, E2, E3.
Qed.

Lemma is_base64_plain c : is_base64 c = true →
  is_newline c = false ∧ Ascii.eqb c " " = false ∧ Ascii.eqb c "009" = false ∧
  Ascii.eqb c ":" = false ∧ Ascii.eqb c "-" = false.
Proof. by destruct c as [[] [] [] [] [] [] [] []]. Qed.

(** Decoding an encoding, with line ends anywhere in it, gives the bytes back. *)
Lemma base64_Decode_Encode s t :
  str_filter (λ c, negb (is_newline c)) t = base64_Encode s → base64_Decode t = Some s.
Proof. intros E. unfold base64_Decode. by rewrite E, decode_groups_Encode. Qed.
