(* ===== verification/Pem.v ===== *)
(** * PEM text (Go's [encoding/pem])

    [Decode] finds the first well-formed block of a text and [EncodeToMemory]
    writes one without headers.  A block is its type and its bytes: the
    operator reads and writes no header, so only whether a block has any is
    kept, which decides where its end line may stand.  The remaining text that
    [Decode] also returns is ignored by the operator. *)

From S2P Require Import Prelude Base64.

Record Block := mkBlock {
  Block_Type : string;
  Block_Bytes : string
}.

(** ** Texts *)

Definition nl : string := String "010" "".
Definition cr : ascii := "013".

(** [bytes.HasPrefix] with what follows the prefix. *)
Fixpoint strip_prefix (p s : string) : option string :=
  match p, s with
  | EmptyString, _ => Some s
  | String a p', String b s' => if Ascii.eqb a b then strip_prefix p' s' else None
  | String _ _, EmptyString => None
  end.

(** [bytes.HasSuffix] with what stands before the suffix. *)
Fixpoint strip_suffix (p s : string) : option string :=
  if String.eqb s p then Some ""
  else match s with
       | EmptyString => None
       | String c s' => String c <$> strip_suffix p s'
       end.

(** [bytes.Cut]: around the first occurrence of [sep]; [bytes.Index] with the
    texts around it. *)
Fixpoint bytes_Cut (s sep : string) : option (string * string) :=
  match strip_prefix sep s with
  | Some rest => Some ("", rest)
  | None =>
      match s with
      | EmptyString => None
      | String c s' => prod_map (String c) id <$> bytes_Cut s' sep
      end
  end.

Definition is_blank (c : ascii) : bool := Ascii.eqb c " " || Ascii.eqb c "009".

Fixpoint trim_blanks (s : string) : string :=
  match s with
  | EmptyString => ""
  | String c s' =>
      match trim_blanks s' with
      | EmptyString => if is_blank c then "" else String c ""
      | t => String c t
      end
  end.

Fixpoint drop_cr (s : string) : string :=
  match s with
  | EmptyString => ""
  | String c EmptyString => if Ascii.eqb c cr then "" else s
  | String c s' => String c (drop_cr s')
  end.

(** [getLine]: the first line without its end and trailing blanks, and what
    follows it. *)
Definition getLine (data : string) : string * string :=
  match bytes_Cut data nl with
  | Some (l, rest) => (trim_blanks (drop_cr l), rest)
  | None => (trim_blanks data, "")
  end.

(** ** Decoding *)

Definition pemStart : string := "-----BEGIN ".
Definition pemEnd : string := "-----END ".
Definition pemEndOfLine : string := "-----".

(** The lines with a colon after the first line; [None] when the text ends
    with them. The result tells whether there were any. *)
Fixpoint pem_headers (fuel : nat) (some : bool) (rest : string) : option (bool * string) :=
  match fuel with
  | 0 => None
  | S fuel' =>
      if String.eqb rest "" then None
      else let '(line, next) := getLine rest in
           match bytes_Cut line ":" with
           | None => Some (some, rest)
           | Some _ => pem_headers fuel' true next
           end
  end.

(** The texts before and after the start of the end line: it may follow at once
    when there are no headers. *)
Definition pem_end (some : bool) (rest : string) : option (string * string) :=
  match (if some then None else strip_prefix pemEnd rest) with
  | Some trailer => Some ("", trailer)
  | None => bytes_Cut rest (nl +:+ pemEnd)
  end.

(** The rest of a block of the given type; [None] where the code goes on with
    the text after the first line. *)
Definition pem_block (type : string) (some : bool) (rest : string) : option Block :=
  match pem_end some rest with None => None | Some (body, trailer) =>
  match strip_prefix (type +:+ pemEndOfLine) trailer with None => None | Some after =>
  if String.eqb (getLine after).1 "" then
    mkBlock type <$> base64_Decode (str_filter (λ c, negb (is_blank c)) body)
  else None
  end end.

(** Where the text after the next start of a block begins. *)
Definition pem_start (rest : string) : option string :=
  match strip_prefix pemStart rest with
  | Some after => Some after
  | None => snd <$> bytes_Cut rest (nl +:+ pemStart)
  end.

Fixpoint pem_loop (fuel : nat) (rest : string) : option Block :=
  match fuel with
  | 0 => None
  | S fuel' =>
      match pem_start rest with None => None | Some after =>
      let '(typeLine, rest) := getLine after in
      match strip_suffix pemEndOfLine typeLine with None => pem_loop fuel' rest | Some type =>
      match pem_headers (S (String.length rest)) false rest with None => None | Some (some, rest) =>
      match pem_block type some rest with
      | Some b => Some b
      | None => pem_loop fuel' rest
      end end end end
  end.

(** Every round takes at least the start of a block out of the text, so its
    length is enough fuel. *)
Definition pem_Decode (data : string) : option Block := pem_loop (S (String.length data)) data.
Arguments pem_Decode data : simpl never.

(** ** Encoding *)

(** [lineBreaker]: a line end after every 64 characters and after the last
    line, when it is not empty; [n] is the room left in the line. *)
Fixpoint break_lines (n : nat) (s : string) : string :=
  match s with
  | EmptyString => if bool_decide (n = 64) then "" else nl
  | String c s' =>
      match n with
      | S (S n') => String c (break_lines (S n') s')
      | _ => String c (nl +:+ break_lines 64 s')
      end
  end.

Definition pem_EncodeToMemory (b : Block) : string :=
  pemStart +:+ Block_Type b +:+ pemEndOfLine +:+ nl
    +:+ break_lines 64 (base64_Encode (Block_Bytes b))
    +:+ pemEnd +:+ Block_Type b +:+ pemEndOfLine +:+ nl.
Arguments pem_EncodeToMemory b : simpl never.

(** ** Cutting texts *)

Lemma strip_prefix_app p s : strip_prefix p (p +:+ s) = Some s.
Proof. induction p as [|a p IH]; simpl; [by destruct s|]. by rewrite Ascii.eqb_refl. Qed.

Lemma strip_prefix_Some p s r : strip_prefix p s = Some r → s = p +:+ r.
Proof.
  revert s. induction p as [|a p IH]; intros [|b s]; simpl; try (by intros [= ->]).
  destruct (Ascii.eqb_spec a b) as [->|]; [|done]. by intros ->%IH.
Qed.

Lemma strip_prefix_head x p c s : c ≠ x → strip_prefix (String x p) (String c s) = None.
Proof. intros Hc. simpl. destruct (Ascii.eqb_spec x c) as [->|]; done. Qed.

Lemma strip_suffix_app p s : strip_suffix p (s +:+ p) = Some s.
Proof.
  induction s as [|c s IH]; cbn [String.app].
  - destruct p as [|a p]; [done|]. cbn [strip_suffix]. by rewrite String.eqb_refl.
  - cbn [strip_suffix]. destruct (String.eqb_spec (String c (s +:+ p)) p) as [E|_]; [|by rewrite IH].
    apply (f_equal String.length) in E. simpl in E. rewrite string_length_app in E. lia.
Qed.

Lemma str_free_cons a c s : str_free a (String c s) = true → c ≠ a ∧ str_free a s = true.
Proof.
  unfold str_free. simpl. intros [H ?]%andb_true_iff. split; [|done].
  intros ->. by rewrite Ascii.eqb_refl in H.
Qed.

Lemma bytes_Cut_cons c s sep :
  strip_prefix sep (String c s) = None →
  bytes_Cut (String c s) sep = prod_map (String c) id <$> bytes_Cut s sep.
Proof. intros E. cbn [bytes_Cut]. by rewrite E. Qed.

Lemma bytes_Cut_head sep b : bytes_Cut (sep +:+ b) sep = Some ("", b).
Proof.
  pose proof (strip_prefix_app sep b) as E. destruct (sep +:+ b); cbn [bytes_Cut]; by rewrite E.
Qed.

(** The separator cannot start in a text without its first character. *)
Lemma bytes_Cut_first x sep a b :
  str_free x a = true → bytes_Cut (a +:+ String x sep +:+ b) (String x sep) = Some (a, b).
Proof.
  induction a as [|c a IH]; [intros _; exact (bytes_Cut_head (String x sep) b)|].
  intros [Hc Ha]%str_free_cons.
  by rewrite string_app_cons, bytes_Cut_cons, IH by (try apply strip_prefix_head; done).
Qed.

Lemma bytes_Cut_free x sep s : str_free x s = true → bytes_Cut s (String x sep) = None.
Proof.
  induction s as [|c s IH]; [done|]. intros [Hc Hs]%str_free_cons.
  by rewrite bytes_Cut_cons, IH by (try apply strip_prefix_head; done).
Qed.

(** Nor in one without its second character, when the first two differ. *)
Lemma bytes_Cut_second x y sep a b :
  x ≠ y → str_free y a = true →
  bytes_Cut (a +:+ String x (String y sep) +:+ b) (String x (String y sep)) = Some (a, b).
Proof.
  intros Hxy. induction a as [|c a IH].
  { intros _. exact (bytes_Cut_head (String x (String y sep)) b). }
  intros [Hc Ha]%str_free_cons. rewrite string_app_cons, bytes_Cut_cons; [by rewrite IH|].
  cbn [strip_prefix]. destruct (Ascii.eqb_spec x c) as [->|]; [|done].
  destruct a as [|d a].
  - simpl. by rewrite (proj2 (Ascii.eqb_neq y c)).
  - apply str_free_cons in Ha as [Hd _]. simpl. by rewrite (proj2 (Ascii.eqb_neq y d)).
Qed.

Lemma bytes_Cut_length s sep a b :
  bytes_Cut s sep = Some (a, b) → String.length b + String.length sep ≤ String.length s.
Proof.
  revert a. induction s as [|c s IH]; intros a; cbn [bytes_Cut];
    destruct (strip_prefix _ _) as [r|] eqn:E.
  1, 3: intros [= <- <-]; apply strip_prefix_Some in E; rewrite E, string_length_app; lia.
  - done.
  - destruct (bytes_Cut s sep) as [[a' b']|] eqn:Ec; [|done]. intros [= <- <-].
    specialize (IH a' eq_refl). simpl. lia.
Qed.

Lemma getLine_length s : String.length (getLine s).2 ≤ String.length s.
Proof.
  unfold getLine. destruct (bytes_Cut s nl) as [[l r]|] eqn:E; simpl; [|lia].
  apply bytes_Cut_length in E. lia.
Qed.

Lemma getLine_shorter s : s ≠ "" → String.length (getLine s).2 < String.length s.
Proof.
  unfold getLine. destruct (bytes_Cut s nl) as [[l r]|] eqn:E; simpl.
  - intros _. apply bytes_Cut_length in E. simpl in E. lia.
  - destruct s; simpl; [done|lia].
Qed.

(** ** Fuel *)

Lemma pem_headers_fuel n m some s :
  String.length s < n → String.length s < m → pem_headers n some s = pem_headers m some s.
Proof.
  revert m some s. induction n as [|n IH]; intros [|m] some s Hn Hm; [lia..|]. cbn [pem_headers].
  destruct (String.eqb_spec s "") as [|Hs]; [done|].
  pose proof (getLine_shorter s Hs). destruct (getLine s) as [line next]. simpl in *.
  destruct (bytes_Cut line ":"); [|done]. apply IH; lia.
Qed.

Lemma pem_headers_length n some s b r :
  pem_headers n some s = Some (b, r) → String.length r ≤ String.length s.
Proof.
  revert some s. induction n as [|n IH]; intros some s; cbn [pem_headers]; [done|].
  case_match; [done|]. pose proof (getLine_length s). destruct (getLine s) as [line next]. simpl in *.
  case_match; [|by intros [= _ ->]]. intros ?%IH. lia.
Qed.

Lemma pem_start_shorter s r : pem_start s = Some r → String.length r < String.length s.
Proof.
  unfold pem_start. destruct (strip_prefix pemStart s) as [a|] eqn:E.
  - intros [= <-]. apply strip_prefix_Some in E as ->. rewrite string_length_app. simpl. lia.
  - destruct (bytes_Cut s _) as [[a b]|] eqn:Ec; [|done]. intros [= <-].
    apply bytes_Cut_length in Ec. simpl in *. lia.
Qed.

Lemma pem_loop_fuel n m s :
  String.length s < n → String.length s < m → pem_loop n s = pem_loop m s.
Proof.
  revert m s. induction n as [|n IH]; intros [|m] s Hn Hm; [lia..|]. cbn [pem_loop].
  destruct (pem_start s) as [a|] eqn:Es; [|done]. apply pem_start_shorter in Es.
  pose proof (getLine_length a). destruct (getLine a) as [line r]. cbn [snd] in *.
  destruct (strip_suffix pemEndOfLine line) as [ty|]; [|apply IH; lia].
  destruct (pem_headers (S (String.length r)) false r) as [[b r']|] eqn:Eh; [|done].
  apply pem_headers_length in Eh. destruct (pem_block ty b r'); [done|]. apply IH; lia.
Qed.

(** The recursion of [Decode], without fuel. *)
Lemma pem_Decode_unfold data :
  pem_Decode data =
    match pem_start data with None => None | Some after =>
    let '(typeLine, rest) := getLine after in
    match strip_suffix pemEndOfLine typeLine with None => pem_Decode rest | Some type =>
    match pem_headers (S (String.length rest)) false rest with None => None | Some (some, rest) =>
    match pem_block type some rest with
    | Some b => Some b
    | None => pem_Decode rest
    end end end end.
Proof.
  unfold pem_Decode at 1. cbn [pem_loop]. unfold pem_Decode.
  destruct (pem_start data) as [a|] eqn:Es; [|done]. apply pem_start_shorter in Es.
  pose proof (getLine_length a). destruct (getLine a) as [line r]. cbn [snd] in *.
  destruct (strip_suffix pemEndOfLine line) as [ty|]; [|apply pem_loop_fuel; lia].
  destruct (pem_headers (S (String.length r)) false r) as [[b r']|] eqn:Eh; [|done].
  apply pem_headers_length in Eh. destruct (pem_block ty b r'); [done|]. apply pem_loop_fuel; lia.
Qed.

(** ** Reading what was written *)

Lemma str_free_forallb a P s :
  P a = false → str_forallb P s = true → str_free a s = true.
Proof.
  intros Ha. apply str_forallb_impl. intros c Hc. destruct (Ascii.eqb_spec c a) as [->|]; [|done].
  by rewrite Ha in Hc.
Qed.

(** The name of a block: one line without a colon. *)
Definition plain_type (t : string) : bool :=
  str_forallb (λ c, negb (is_newline c || Ascii.eqb c ":")) t.

Lemma trim_blanks_app s t : trim_blanks t ≠ "" → trim_blanks (s +:+ t) = s +:+ trim_blanks t.
Proof.
  intros Ht. induction s as [|c s IH]; simpl; [done|]. rewrite IH.
  by destruct s; simpl; [destruct (trim_blanks t)|].
Qed.

Lemma drop_cr_app s t : t ≠ "" → drop_cr (s +:+ t) = s +:+ drop_cr t.
Proof.
  intros Ht. induction s as [|c s IH]; [done|]. rewrite string_app_cons. cbn [drop_cr].
  destruct (s +:+ t) as [|d u] eqn:E; [by apply string_app_eq_nil in E as [_ ->]|]. by rewrite IH.
Qed.

(** The first line of a text that begins with it. *)
Lemma getLine_dashes s rest :
  str_free "010" s = true →
  getLine (s +:+ pemEndOfLine +:+ nl +:+ rest) = (s +:+ pemEndOfLine, rest).
Proof.
  intros Hs. unfold getLine. rewrite <- string_app_assoc.
  unfold nl at 1 2. rewrite bytes_Cut_first by (by rewrite str_free_app, Hs).
  by rewrite drop_cr_app, trim_blanks_app.
Qed.

Lemma break_lines_filter P n s :
  P "010"%char = false → str_forallb P s = true → str_filter P (break_lines n s) = s.
Proof.
  intros Hn. revert n. induction s as [|c s IH]; intros n; cbn [break_lines].
  - intros _. case_bool_decide; simpl; [done|by rewrite Hn].
  - intros [Hc Hs]%andb_true_iff.
    destruct n as [|[|n]]; simpl; rewrite Hc, ?Hn; f_equal; by apply IH.
Qed.

(** The lines end with a line end, unless there are none. *)
Lemma break_lines_end n s :
  n ≤ 64 → str_forallb is_base64 s = true →
  (n = 64 ∧ s = "" ∧ break_lines n s = "") ∨
  ∃ l, break_lines n s = l +:+ nl ∧ str_free "-" l = true ∧ str_free ":" l = true.
Proof.
  revert n. induction s as [|c s IH]; intros n Hn; cbn [break_lines].
  - intros _. case_bool_decide; [by left|right]. by exists "".
  - intros [Hc Hs]%andb_true_iff. right.
    destruct (is_base64_plain c Hc) as (_ & _ & _ & Ec & Ed).
    assert (∀ l, str_free "-" l = true → str_free ":" l = true →
      str_free "-" (String c l) = true ∧ str_free ":" (String c l) = true) as Hl.
    { unfold str_free. simpl. by rewrite Ec, Ed. }
    destruct n as [|[|n]].
    1, 2: destruct (IH 64 ltac:(lia) Hs) as [(_ & -> & ->)|(l & -> & Hd & H9)];
      [exists (String c "")|exists (String c (nl +:+ l))]; (split; [done|]); apply Hl; done.
    destruct (IH (S n) ltac:(lia) Hs) as [(? & _)|(l & -> & Hd & H9)]; [lia|].
    exists (String c l). split; [done|]. by apply Hl.
Qed.

Lemma str_forallb_trim P s : str_forallb P s = true → str_forallb P (trim_blanks s) = true.
Proof.
  induction s as [|c s IH]; [done|]. intros [Hc Hs]%andb_true_iff. specialize (IH Hs). simpl.
  destruct (trim_blanks s) as [|d u]; [destruct (is_blank c); simpl; by rewrite ?Hc|].
  cbn [str_forallb]. by rewrite Hc.
Qed.

Lemma str_forallb_drop_cr P s : str_forallb P s = true → str_forallb P (drop_cr s) = true.
Proof.
  induction s as [|c s IH]; [done|]. intros [Hc Hs]%andb_true_iff. specialize (IH Hs). cbn [drop_cr].
  destruct s as [|d s]; [destruct (Ascii.eqb c cr); simpl; by rewrite ?Hc|].
  cbn [str_forallb]. by rewrite Hc.
Qed.

Lemma bytes_Cut_Some s sep a b : bytes_Cut s sep = Some (a, b) → s = a +:+ sep +:+ b.
Proof.
  revert a. induction s as [|c s IH]; intros a; cbn [bytes_Cut];
    destruct (strip_prefix _ _) as [r|] eqn:E.
  1, 3: intros [= <- <-]; by apply strip_prefix_Some in E.
  - done.
  - destruct (bytes_Cut s sep) as [[a' b']|] eqn:Ec; [|done]. intros [= <- <-].
    by rewrite (IH a' eq_refl).
Qed.

Lemma getLine_forallb P s : str_forallb P s = true → str_forallb P (getLine s).1 = true.
Proof.
  intros Hs. unfold getLine. destruct (bytes_Cut s nl) as [[l r]|] eqn:E.
  - apply bytes_Cut_Some in E as ->. rewrite str_forallb_app in Hs.
    apply andb_true_iff in Hs as [Hs _]. by apply str_forallb_trim, str_forallb_drop_cr.
  - by apply str_forallb_trim.
Qed.

Lemma str_filter_filter P Q s : str_filter P (str_filter Q s) = str_filter (λ c, Q c && P c) s.
Proof.
  induction s as [|c s IH]; simpl; [done|].
  destruct (Q c); simpl; [|done]. by destruct (P c); rewrite IH.
Qed.

(** The body of an encoded block is found, whatever follows the end line. *)
Lemma pem_end_encoded b trailer :
  ∃ body, pem_end false (break_lines 64 (base64_Encode b) +:+ pemEnd +:+ trailer) = Some (body, trailer)
    ∧ base64_Decode (str_filter (λ c, negb (is_blank c)) body) = Some b.
Proof.
  pose proof (base64_Encode_chars b) as Hb.
  assert (str_filter (λ c, negb (is_blank c) && negb (is_newline c)) (break_lines 64 (base64_Encode b))
          = base64_Encode b) as Hf.
  { apply break_lines_filter; [done|]. revert Hb. apply str_forallb_impl.
    intros c (E1 & E2 & E3 & _)%is_base64_plain. unfold is_blank. by rewrite E1, E2, E3. }
  destruct (break_lines_end 64 _ ltac:(lia) Hb) as [(_ & E & E')|(l & E & Hd & _)].
  - exists "". rewrite E'. split; [|by apply base64_Decode_Encode].
    change ("" +:+ ?x) with x. unfold pem_end. by rewrite strip_prefix_app.
  - exists l. rewrite E in *. split.
    + unfold pem_end. rewrite string_app_assoc.
      assert (strip_prefix pemEnd (l +:+ nl +:+ pemEnd +:+ trailer) = None) as ->.
      { destruct l as [|c l]; [done|]. apply str_free_cons in Hd as [Hd _].
        by apply (strip_prefix_head "-" "----END "). }
      exact (bytes_Cut_second "010" "-" "----END " l trailer ltac:(done) Hd).
    + apply base64_Decode_Encode. rewrite str_filter_filter.
      rewrite str_filter_app in Hf. by rewrite <- Hf, string_app_nil_r.
Qed.

(** A block that was written is read back, whatever its bytes. *)
Lemma pem_roundtrip b :
  plain_type (Block_Type b) = true → pem_Decode (pem_EncodeToMemory b) = Some b.
Proof.
  destruct b as [t b]. unfold pem_EncodeToMemory. cbn [Block_Type Block_Bytes]. intros Ht.
  assert (str_free "010" t = true ∧ str_free ":" t = true) as [Hnl Hcolon].
  { split; (eapply str_free_forallb; [|exact Ht]); done. }
  rewrite pem_Decode_unfold. unfold pem_start. rewrite strip_prefix_app, getLine_dashes by done.
  rewrite strip_suffix_app. set (rest := break_lines 64 _ +:+ _).
  assert (pem_headers (S (String.length rest)) false rest = Some (false, rest)) as ->.
  { cbn [pem_headers]. destruct (String.eqb_spec rest "") as [E|_].
    { apply (f_equal String.length) in E. unfold rest in E.
      rewrite string_length_app in E. simpl in E. lia. }
    destruct (getLine rest) as [line next] eqn:El.
    rewrite (bytes_Cut_free ":"); [done|].
    change (str_forallb (λ c, negb (Ascii.eqb c ":")) (line, next).1 = true). rewrite <- El.
    apply getLine_forallb. change (str_free ":" rest = true). unfold rest.
    rewrite !str_free_app, Hcolon.
    destruct (break_lines_end 64 _ ltac:(lia) (base64_Encode_chars b)) as [(_ & _ & ->)|(l & -> & _ & Hl)];
      [done|]. by rewrite str_free_app, Hl. }
  unfold pem_block. destruct (pem_end_encoded b (t +:+ pemEndOfLine +:+ nl)) as (body & Eb & Ed).
  fold rest in Eb. rewrite Eb, <- string_app_assoc, strip_prefix_app. simpl (String.eqb _ _).
  by rewrite Ed.
Qed.
