(* ===== verification/Utils.v ===== *)
(** * Helpers shared by the packages (pkg/utils/utils.go) *)

From S2P Require Import Prelude GoStrings GoPath GoError Api Effects.

(** [utils.Secret(ctx, nn, client)] *)
Definition utils_Secret (nn : types_NamespacedName) : prog (K8sSecret * option error) :=
  call (GetSecret nn).

(** [string(value)] of a [[]byte] *)
Definition string_of_bytes (b : list Byte.byte) : string := String.string_of_list_byte b.

(** [utils.DecodeSecretData(ctx, nn, client)]; a nil map is the empty map. *)
Definition DecodeSecretData (nn : types_NamespacedName)
    : prog (gmap string string * option error) :=
  let! (secret, err) := utils_Secret nn in
  match err with
  | Some _ => Ret (∅, err)
  | None => Ret (string_of_bytes <$> K8sSecret_Data secret, None)
  end.

(** [utils.PathFromHome(paths...)] *)
Definition PathFromHome (paths : list string) : prog string :=
  let! home := call (Getenv "HOME") in
  Ret (filepath_Join (home :: paths)).

(** [data[key]]: the zero value for a missing key. *)
Definition map_get (m : gmap string string) (key : string) : string := default "" (m !! key).
