(* ===== verification/PgConfig.v ===== *)
(** * PostgreSQL connection settings (pkg/database/postgresql/config.go)

    [ConnString] with the certificate files it writes, [Close] that removes
    them, and the keyword/value format the result is read back in. *)

From S2P Require Import Prelude GoStrings SqlLexer Dsn GoPath GoError Api Effects Utils.

(** ** The code *)

Record Config := mkConfig {
  cfg_Host : string;
  cfg_User : string;
  cfg_Password : string;
  cfg_DatabaseName : string;
  cfg_Port : Z;
  cfg_SSLMode : string;
  cfg_SSLCACert : string;
  cfg_SSLUserCert : string;
  cfg_SSLUserKey : string;
  cfg_SSLCAKey : string;
  cfg_createCertificates : bool;
  cfg_sslCACertFile : string;
  cfg_sslUserCertFile : string;
  cfg_sslUserKeyFile : string
}.

Definition NewConfig (host : string) (port : Z) (user pass dbname sslmode
    sslCaCert sslUserCert sslUserKey sslCAKey : string) : Config :=
  mkConfig host user pass dbname port sslmode sslCaCert sslUserCert sslUserKey sslCAKey
    false "" "" "".

(** The assignments to the three file fields. *)
Definition set_files (c : Config) (ca crt key : string) : Config :=
  mkConfig (cfg_Host c) (cfg_User c) (cfg_Password c) (cfg_DatabaseName c) (cfg_Port c)
    (cfg_SSLMode c) (cfg_SSLCACert c) (cfg_SSLUserCert c) (cfg_SSLUserKey c) (cfg_SSLCAKey c)
    (cfg_createCertificates c) ca crt key.

(** [c.createCertificates = true] *)
Definition set_createCertificates (c : Config) : Config :=
  mkConfig (cfg_Host c) (cfg_User c) (cfg_Password c) (cfg_DatabaseName c) (cfg_Port c)
    (cfg_SSLMode c) (cfg_SSLCACert c) (cfg_SSLUserCert c) (cfg_SSLUserKey c) (cfg_SSLCAKey c)
    true (cfg_sslCACertFile c) (cfg_sslUserCertFile c) (cfg_sslUserKeyFile c).

(** [newconf.DatabaseName = dbname] *)
Definition set_DatabaseName (c : Config) (dbname : string) : Config :=
  mkConfig (cfg_Host c) (cfg_User c) (cfg_Password c) dbname (cfg_Port c)
    (cfg_SSLMode c) (cfg_SSLCACert c) (cfg_SSLUserCert c) (cfg_SSLUserKey c) (cfg_SSLCAKey c)
    (cfg_createCertificates c) (cfg_sslCACertFile c) (cfg_sslUserCertFile c)
    (cfg_sslUserKeyFile c).

Definition createCertFile (path data : string) : prog (option error) :=
  let dir := filepath_Dir path in
  let! err := call (MkdirAll dir 493) in
  match err with
  | Some _ => Ret err
  | None => call (WriteFile path data 384)
  end.

(** The argument of [utils.PathFromHome] in [ConnString], for an extension. *)
Definition cert_name (c : Config) (ext : string) : string :=
  "postgres-certs/" +:+ cfg_Host c +:+ "/" +:+ cfg_DatabaseName c +:+ "_" +:+ cfg_User c +:+ ext.

Definition add_if (b : bool) (l : list string) (s : string) : list string :=
  if b then l ++ [s] else l.

Definition nonempty (s : string) : bool := bool_decide (s ≠ "").

(** The settings written before the certificates. *)
Definition connSlice_plain (c : Config) : list string :=
  let connSlice :=
    [ "host=" +:+ cfg_Host c; "user=" +:+ cfg_User c; "port=" +:+ fmt_d (cfg_Port c) ] in
  let connSlice := add_if (nonempty (cfg_DatabaseName c)) connSlice ("dbname=" +:+ cfg_DatabaseName c) in
  let connSlice := add_if (nonempty (cfg_Password c)) connSlice ("password=" +:+ cfg_Password c) in
  add_if (nonempty (cfg_SSLMode c)) connSlice ("sslmode=" +:+ cfg_SSLMode c).

(** One certificate: nothing when the data is empty, else the file is written
    and the setting added. *)
Definition connSlice_cert (data file key : string) (connSlice : list string)
    : prog (list string * option error) :=
  if nonempty data then
    let! err := createCertFile file data in
    match err with
    | Some _ => Ret (connSlice, err)
    | None => Ret (connSlice ++ [key +:+ file], None)
    end
  else Ret (connSlice, None).

(** The part of [ConnString] after the file names are known: three stages, each
    of which may stop with an error. *)
Definition ConnString_certs (c : Config) (connSlice : list string)
    : prog (Config * (string * option error)) :=
  let! (connSlice, err) :=
    connSlice_cert (cfg_SSLCACert c) (cfg_sslCACertFile c) "sslrootcert=" connSlice in
  match err with Some _ => Ret (c, ("", err)) | None =>
  let c := if nonempty (cfg_SSLUserCert c) then set_createCertificates c else c in
  let! (connSlice, err) :=
    connSlice_cert (cfg_SSLUserCert c) (cfg_sslUserCertFile c) "sslcert=" connSlice in
  match err with Some _ => Ret (c, ("", err)) | None =>
  let c := if nonempty (cfg_SSLUserKey c) then set_createCertificates c else c in
  let! (connSlice, err) :=
    connSlice_cert (cfg_SSLUserKey c) (cfg_sslUserKeyFile c) "sslkey=" connSlice in
  match err with Some _ => Ret (c, ("", err)) | None =>
  Ret (c, (strings_Join connSlice " ", None))
  end end end.

(** [func (c *Config) ConnString() (string, error)]; the first result is the
    value of [*c] afterwards. *)
Definition ConnString (c : Config) : prog (Config * (string * option error)) :=
  let connSlice := connSlice_plain c in
  let! ca := PathFromHome [cert_name c ".ca"] in
  let! crt := PathFromHome [cert_name c ".crt"] in
  let! key := PathFromHome [cert_name c ".key"] in
  ConnString_certs (set_files c ca crt key) connSlice.

Definition os_Remove (path : string) : prog unit :=
  let! _err := call (Remove path) in Ret ().

(** [func (c *Config) Close() error]: three deferred calls, last one first. *)
Definition Config_Close (c : Config) : prog (option error) :=
  finally
    (finally
      (finally (Ret None)
        (os_Remove (cfg_sslUserKeyFile c)))
      (os_Remove (cfg_sslUserCertFile c)))
    (os_Remove (cfg_sslCACertFile c)).

Definition Config_Copy (c : Config) : Config := c.

Definition CreateCerts (c : Config) : bool := cfg_createCertificates c.

(** ** What a run does to the file system *)

Definition write_of (e : event) : option (string * string * option error) :=
  match e with
  | existT r x =>
      match r return resp r → option (string * string * option error) with
      | WriteFile p d _ => λ x, Some (p, d, x)
      | _ => λ _, None
      end x
  end.

(** The files written, in order, with the answers. *)
Definition written (t : list event) : list (string * string * option error) := omap write_of t.

Definition remove_of (e : event) : option string :=
  match projT1 e with Remove p => Some p | _ => None end.

Definition removed (t : list event) : list string := omap remove_of t.

Definition file_req (r : req) : Prop :=
  match r with
  | Getenv _ | MkdirAll _ _ | WriteFile _ _ _ | Remove _ => True
  | _ => False
  end.

Lemma written_app t1 t2 : written (t1 ++ t2) = written t1 ++ written t2.
Proof. apply omap_app. Qed.

Lemma removed_app t1 t2 : removed (t1 ++ t2) = removed t1 ++ removed t2.
Proof. apply omap_app. Qed.

#[export] Hint Rewrite written_app removed_app : operator.

Lemma connSlice_cert_only d f k l : only file_req (connSlice_cert d f k l).
Proof. unfold connSlice_cert, createCertFile. solve_only. Qed.

Lemma ConnString_only c : only file_req (ConnString c).
Proof.
  unfold ConnString, PathFromHome, ConnString_certs.
  repeat first [apply connSlice_cert_only | progress solve_only].
Qed.

Lemma ConnString_removed c t o : runs (ConnString c) t o → removed t = [].
Proof.
  intros Ht. eapply (only_omap _ (λ r, file_req r ∧ ∀ p, r ≠ Remove p)); [|exact Ht|].
  - unfold ConnString, PathFromHome, ConnString_certs, connSlice_cert, createCertFile.
    repeat (solve_only; try case_match).
  - intros [] x [? Hne]; try done. by destruct (Hne path).
Qed.

Lemma Config_Close_runs c t o :
  runs (Config_Close c) t o →
  o = Returned None ∧
  removed t = [cfg_sslUserKeyFile c; cfg_sslUserCertFile c; cfg_sslCACertFile c] ∧
  written t = [].
Proof. simpl. intros (x & t1 & -> & y & t2 & -> & z & t3 & -> & -> & ->). done. Qed.

Lemma Config_Close_only c : only file_req (Config_Close c).
Proof. solve_only. Qed.

(** ** The settings and the files of a successful [ConnString] *)

Definition opt {A} (v : string) (x : A) : list A := if nonempty v then [x] else [].

(** The settings a configuration stands for. *)
Definition conn_settings (c : Config) : list (string * string) :=
  [ ("host", cfg_Host c); ("user", cfg_User c); ("port", fmt_d (cfg_Port c)) ]
  ++ opt (cfg_DatabaseName c) ("dbname", cfg_DatabaseName c)
  ++ opt (cfg_Password c) ("password", cfg_Password c)
  ++ opt (cfg_SSLMode c) ("sslmode", cfg_SSLMode c)
  ++ opt (cfg_SSLCACert c) ("sslrootcert", cfg_sslCACertFile c)
  ++ opt (cfg_SSLUserCert c) ("sslcert", cfg_sslUserCertFile c)
  ++ opt (cfg_SSLUserKey c) ("sslkey", cfg_sslUserKeyFile c).

Definition setting_text (kv : string * string) : string := kv.1 +:+ "=" +:+ kv.2.

(** The files a configuration needs, with their contents. *)
Definition conn_files (c : Config) : list (string * string * option error) :=
  opt (cfg_SSLCACert c) (cfg_sslCACertFile c, cfg_SSLCACert c, None)
  ++ opt (cfg_SSLUserCert c) (cfg_sslUserCertFile c, cfg_SSLUserCert c, None)
  ++ opt (cfg_SSLUserKey c) (cfg_sslUserKeyFile c, cfg_SSLUserKey c, None).

(** The configuration after [ConnString]: the fields it was built with are
    unchanged and the files are named after the home directory. *)
Definition after_ConnString (c c' : Config) (home1 home2 home3 : string) : Prop :=
  c' = set_files (if nonempty (cfg_SSLUserCert c) || nonempty (cfg_SSLUserKey c)
                  then set_createCertificates c else c)
         (filepath_Join [home1; cert_name c ".ca"])
         (filepath_Join [home2; cert_name c ".crt"])
         (filepath_Join [home3; cert_name c ".key"]).

Lemma connSlice_plain_settings c :
  connSlice_plain c = setting_text <$>
    [ ("host", cfg_Host c); ("user", cfg_User c); ("port", fmt_d (cfg_Port c)) ]
    ++ opt (cfg_DatabaseName c) ("dbname", cfg_DatabaseName c)
    ++ opt (cfg_Password c) ("password", cfg_Password c)
    ++ opt (cfg_SSLMode c) ("sslmode", cfg_SSLMode c).
Proof.
  unfold connSlice_plain, add_if, opt.
  destruct (nonempty (cfg_DatabaseName c)), (nonempty (cfg_Password c)), (nonempty (cfg_SSLMode c));
    reflexivity.
Qed.

Lemma connSlice_cert_runs data file key l t l' err :
  runs (connSlice_cert data file (key +:+ "=") l) t (Returned (l', err)) →
  (err = None →
     l' = l ++ (setting_text <$> opt data (key, file)) ∧ written t = opt data (file, data, None)) ∧
  Forall (λ w, w.1.1 = file) (written t).
Proof.
  unfold connSlice_cert, createCertFile, opt. destruct (nonempty data) eqn:E; simpl.
  - intros ([e|] & t1 & -> & H); simpl in H.
    + destruct H as [-> [= -> ->]]. split; [done|]. by repeat constructor.
    + destruct H as ([e|] & t2 & -> & -> & [= -> ->]); (split; [|by repeat constructor]);
        try done.
      intros _. unfold setting_text. simpl. by rewrite string_app_assoc.
  - intros [-> [= -> ->]]. split; [|constructor]. intros _. by rewrite app_nil_r.
Qed.

(** Equal but possibly for the flag [createCertificates]. *)
Definition same_files (c c' : Config) : Prop :=
  c' = c ∨ c' = set_createCertificates c.

Lemma same_files_if c c' b :
  same_files c c' → same_files c (if b : bool then set_createCertificates c' else c').
Proof. destruct b; [|done]. intros [-> | ->]; by right. Qed.

Lemma opt_in_files {A} v (P : A → Prop) x : P x → Forall P (opt v x).
Proof. intros H. unfold opt. destruct (nonempty v); by repeat constructor. Qed.

(** The flag does not affect the other fields. *)
Lemma flag_field {A} (f : Config → A) (b : bool) c :
  (∀ c, f (set_createCertificates c) = f c) →
  f (if b then set_createCertificates c else c) = f c.
Proof. by destruct b. Qed.

Ltac strip_flags H :=
  rewrite ?(flag_field cfg_SSLUserCert), ?(flag_field cfg_SSLUserKey),
    ?(flag_field cfg_sslUserCertFile), ?(flag_field cfg_sslUserKeyFile) in H by done.

Lemma cert_paths_in c t f :
  Forall (λ w, w.1.1 = f) (written t) →
  f ∈ [cfg_sslCACertFile c; cfg_sslUserCertFile c; cfg_sslUserKeyFile c] →
  Forall (λ w, w.1.1 ∈ [cfg_sslCACertFile c; cfg_sslUserCertFile c; cfg_sslUserKeyFile c])
    (written t).
Proof. intros Hf Hm. eapply Forall_impl; [done|]. by intros w ->. Qed.

Lemma ConnString_certs_runs c l t c' s err :
  runs (ConnString_certs c l) t (Returned (c', (s, err))) →
  (err = None →
     c' = (if nonempty (cfg_SSLUserCert c) || nonempty (cfg_SSLUserKey c)
           then set_createCertificates c else c) ∧
     s = strings_Join (l ++ (setting_text <$>
           opt (cfg_SSLCACert c) ("sslrootcert", cfg_sslCACertFile c)
           ++ opt (cfg_SSLUserCert c) ("sslcert", cfg_sslUserCertFile c)
           ++ opt (cfg_SSLUserKey c) ("sslkey", cfg_sslUserKeyFile c))) " " ∧
     written t = conn_files c) ∧
  (err ≠ None → s = "") ∧
  same_files c c' ∧
  Forall (λ w, w.1.1 ∈ [cfg_sslCACertFile c; cfg_sslUserCertFile c; cfg_sslUserKeyFile c])
    (written t).
Proof.
  unfold ConnString_certs. intros H.
  apply runs_bind_inv in H as [(m & _ & [=])|([l1 e1] & t1 & t2 & -> & H1 & H)].
  apply (connSlice_cert_runs _ _ "sslrootcert") in H1 as [G1 F1].
  apply (cert_paths_in c) in F1; [|set_solver].
  destruct e1 as [e1|].
  { destruct H as [-> ?]; simplify_eq. rewrite app_nil_r. split_and!; try done. by left. }
  destruct (G1 eq_refl) as [-> W1]. strip_flags H.
  apply runs_bind_inv in H as [(m & _ & [=])|([l2 e2] & t3 & t4 & -> & H2 & H)].
  apply (connSlice_cert_runs _ _ "sslcert") in H2 as [G2 F2].
  apply (cert_paths_in c) in F2; [|set_solver].
  destruct e2 as [e2|].
  { destruct H as [-> ?]; simplify_eq. rewrite app_nil_r, written_app.
    split_and!; try done; auto with operator. apply same_files_if. by left. }
  destruct (G2 eq_refl) as [-> W2].
  apply runs_bind_inv in H as [(m & _ & [=])|([l3 e3] & t5 & t6 & -> & H3 & H)].
  strip_flags H3.
  apply (connSlice_cert_runs _ _ "sslkey") in H3 as [G3 F3].
  apply (cert_paths_in c) in F3; [|set_solver].
  rewrite !written_app. destruct e3 as [e3|]; destruct H as [-> ?]; simplify_eq.
  { rewrite app_nil_r. split_and!; try done; auto with operator.
    apply same_files_if, same_files_if. by left. }
  destruct (G3 eq_refl) as [-> W3]. rewrite app_nil_r. split_and!; auto with operator.
  - intros _. rewrite W1, W2, W3, !fmap_app, <- !app_assoc. split_and!; try done.
    by destruct (nonempty (cfg_SSLUserCert c)), (nonempty (cfg_SSLUserKey c)).
  - done.
  - apply same_files_if, same_files_if. by left.
Qed.

(** The complete description of a [ConnString] that returns: on success the
    text lists the settings of the configuration and the certificate files have
    been written with their contents; on an error the text is empty; in both
    cases only the three certificate files were touched. *)
Lemma ConnString_runs c t c' s err :
  runs (ConnString c) t (Returned (c', (s, err))) →
  ∃ h1 h2 h3,
    same_files (set_files c (filepath_Join [h1; cert_name c ".ca"])
      (filepath_Join [h2; cert_name c ".crt"]) (filepath_Join [h3; cert_name c ".key"])) c' ∧
    (err = None →
       after_ConnString c c' h1 h2 h3 ∧
       s = strings_Join (setting_text <$> conn_settings c') " " ∧
       written t = conn_files c') ∧
    (err ≠ None → s = "") ∧
    Forall (λ w, w.1.1 ∈ [cfg_sslCACertFile c'; cfg_sslUserCertFile c'; cfg_sslUserKeyFile c'])
      (written t).
Proof.
  unfold ConnString, PathFromHome. cbn [bind call runs].
  intros (h1 & t1 & -> & h2 & t2 & -> & h3 & t3 & -> & H).
  apply ConnString_certs_runs in H as (Hok & Herr & Hsame & Hf).
  exists h1, h2, h3. split; [done|]. split; [|split; [done|]].
  - intros He. destruct (Hok He) as (-> & -> & Hw). rewrite connSlice_plain_settings.
    rewrite <- fmap_app. unfold after_ConnString. split_and!.
    + by destruct (nonempty _ || nonempty _).
    + unfold conn_settings. rewrite <- !app_assoc. by destruct (nonempty _ || nonempty _).
    + transitivity (written t3); [done|]. rewrite Hw. by destruct (nonempty _ || nonempty _).
  - destruct Hsame as [-> | ->]; done.
Qed.

(** The three certificate files of a configuration are different files. *)
Lemma ConnString_files_distinct c t c' r :
  runs (ConnString c) t (Returned (c', r)) →
  NoDup [cfg_sslCACertFile c'; cfg_sslUserCertFile c'; cfg_sslUserKeyFile c'].
Proof.
  destruct r as [s err]. intros (h1 & h2 & h3 & Hsame & _)%ConnString_runs.
  assert (∀ h e a, a ≠ "/"%char → a ≠ "."%char →
    ∃ pre, filepath_Join [h; cert_name c (e +:+ String a "")] = pre +:+ String a "") as Hend.
  { intros h e a Hs Hd. unfold cert_name.
    rewrite <- !string_app_assoc. by apply (filepath_Join_snoc [h]). }
  destruct (Hend h1 ".c" "a"%char) as (p1 & E1); [done..|].
  destruct (Hend h2 ".cr" "t"%char) as (p2 & E2); [done..|].
  destruct (Hend h3 ".ke" "y"%char) as (p3 & E3); [done..|].
  simpl in E1, E2, E3.
  assert (cfg_sslCACertFile c' = p1 +:+ "a" ∧ cfg_sslUserCertFile c' = p2 +:+ "t" ∧
    cfg_sslUserKeyFile c' = p3 +:+ "y") as (-> & -> & ->).
  { destruct Hsame as [-> | ->]; simpl; by rewrite E1, E2, E3. }
  repeat constructor; rewrite ?elem_of_cons, ?elem_of_nil;
    naive_solver (try match goal with H : _ +:+ _ = _ +:+ _ |- _ => by apply string_snoc_inj in H as [_ ?] end).
Qed.

(** [Close] removes every certificate file that [ConnString] tried to write,
    also when [ConnString] failed half way. *)
Lemma ConnString_Close_cleanup c t1 c' r t2 o path :
  runs (ConnString c) t1 (Returned (c', r)) → runs (Config_Close c') t2 o →
  path ∈ (λ w, w.1.1) <$> written t1 → path ∈ removed t2.
Proof.
  destruct r as [s err]. intros (h1 & h2 & h3 & _ & _ & _ & Hf)%ConnString_runs H2 Hp.
  apply Config_Close_runs in H2 as (_ & -> & _).
  apply list_elem_of_fmap in Hp as (w & -> & Hw).
  rewrite Forall_forall in Hf. specialize (Hf w Hw). revert Hf. rewrite !elem_of_cons. tauto.
Qed.

(** ** Reading the connection string back *)

(** Every value needs no quoting: neither empty nor with blanks, quotes or
    backslashes. *)
Definition plain_config (c : Config) : Prop :=
  Forall (λ kv, plain_value kv.2 = true) (conn_settings c).

Lemma conn_settings_keys c : Forall (λ kv, plain_key kv.1 = true) (conn_settings c).
Proof.
  unfold conn_settings. repeat apply Forall_app_2; try (by apply opt_in_files).
  by repeat constructor.
Qed.

Lemma dsn_parse_settings c :
  plain_config c →
  dsn_parse (strings_Join (setting_text <$> conn_settings c) " ") = Some (conn_settings c).
Proof.
  intros Hv. apply (dsn_parse_join (conn_settings c)), Forall_and.
  split; [apply conn_settings_keys|done].
Qed.
