(* ===== verification/Postgresql.v ===== *)
(** * The PostgreSQL database (pkg/database/postgresql/postgresql.go)

    Users, privileges and client certificates, over any [Connection]. *)

From S2P Require Import Prelude GoStrings SqlLexer GoError Api Effects Connection PgUtils.
From S2P Require Import PgConfig Pem.

(** ** Statements *)

Definition createUserQuery (username password : string) : string * LogInfo :=
  let logInfo := EnableLogger in
  let stmtBuilder := "CREATE USER " +:+ escapeLiteral username in
  if nonempty password then
    (stmtBuilder +:+ " WITH PASSWORD " +:+ escapeString password, DisableLogger)
  else (stmtBuilder, logInfo).

Definition deleteUserQuery (username : string) : string :=
  "DROP USER " +:+ escapeLiteral username.

Definition prepareStatementForPrivilege
    (statement arg username dbname on privilege : string) : string :=
  let stmtBuilder := statement +:+ " " +:+ escapeLiteralWithoutQuotes privilege in
  let stmtBuilder :=
    if nonempty on then stmtBuilder +:+ " ON " +:+ escapeLiteral on
    else if nonempty dbname then stmtBuilder +:+ " ON DATABASE " +:+ escapeLiteral dbname
    else stmtBuilder in
  stmtBuilder +:+ " " +:+ arg +:+ " " +:+ escapeLiteral username.

(** ** The database object *)

Record Postgresql (C : Type) := mkPostgresql {
  pg_db : C;
  pg_config : Config
}.
Arguments mkPostgresql {C} pg_db pg_config.
Arguments pg_db {C} p.
Arguments pg_config {C} p.

Section Code.
Context {C : Type} `{Connection C}.
Implicit Types (p : Postgresql C).

Definition NewPostgresql (c : C) (config : Config) : Postgresql C := mkPostgresql c config.

Definition Postgresql_Connect p : prog (Postgresql C * option error) :=
  let! (config, (connString, err)) := ConnString (pg_config p) in
  match err with
  | Some _ => Ret (mkPostgresql (pg_db p) config, err)
  | None =>
      let! (db, err) := Connect (pg_db p) "pgx" connString in
      Ret (mkPostgresql db config, err)
  end.

Definition Postgresql_Close p : prog (option error) :=
  let! _err := Config_Close (pg_config p) in
  Close (pg_db p).

Definition genPostgresCertFromCA p (userName : string)
    : prog (gmap string string * option error) :=
  match pem_Decode (cfg_SSLCAKey (pg_config p)) with None => Panic nil_deref | Some caKeyBlock =>
  let! (caPrivKey, err) := call (ParsePKCS1PrivateKey (Block_Bytes caKeyBlock)) in
  match err with Some _ => Ret (∅, err) | None =>
  match pem_Decode (cfg_SSLCACert (pg_config p)) with None => Panic nil_deref | Some caCertBlock =>
  let! (caCert, err) := call (ParseCertificate (Block_Bytes caCertBlock)) in
  match err with Some _ => Ret (∅, err) | None =>
  let! serial := call RandInt63 in
  let! notBefore := call TimeNow in
  let! now := call TimeNow in
  let! notAfter := call (TimeAddDate now 1 0 0) in
  let cert := mkCertTemplate serial userName notBefore notAfter in
  let! (privKey, err) := call (GenerateKey 4096) in
  match err with Some _ => Ret (∅, err) | None =>
  let! (certBytes, err) := call (CreateCertificate cert caCert privKey caPrivKey) in
  match err with Some _ => Ret (∅, err) | None =>
  let certPEM := pem_EncodeToMemory (mkBlock "CERTIFICATE" certBytes) in
  let! privKeyBytes := call (MarshalPKCS1PrivateKey privKey) in
  let privKeyPEM := pem_EncodeToMemory (mkBlock "RSA PRIVATE KEY" privKeyBytes) in
  Ret (<["tls.crt" := certPEM]> (<["tls.key" := privKeyPEM]>
        {["ca.crt" := cfg_SSLCACert (pg_config p)]}), None)
  end end end end end end.

Definition Postgresql_CreateUser p (username password : string)
    : prog (gmap string string * option error) :=
  let '(query, logInfo) := createUserQuery username password in
  let! err := Exec (pg_db p) logInfo query [] in
  if CreateCerts (pg_config p) && negb (isAlreadyExists err) then
    let! (sslCertificates, err') := genPostgresCertFromCA p username in
    match err' with
    | Some _ => Ret (∅, err')
    | None => Ret (sslCertificates, ignoreAlreadyExists err)
    end
  else Ret (∅, ignoreAlreadyExists err).

Definition Postgresql_DeleteUser p (username : string) : prog (option error) :=
  let query := deleteUserQuery username in
  let! err := Exec (pg_db p) EnableLogger query [] in
  Ret (ignoreNotExists err).

Definition inDatabasePrivilege p (username dbname on privilege statement arg : string)
    : prog (option error) :=
  let newconf := set_DatabaseName (Config_Copy (pg_config p)) dbname in
  let! conn := Copy (pg_db p) in
  let newP := NewPostgresql conn newconf in
  let! (newP, err) := Postgresql_Connect newP in
  match err with
  | Some _ => Ret err
  | None =>
      finally
        (let query := prepareStatementForPrivilege statement arg username dbname on privilege in
         Exec (pg_db newP) EnableLogger query [])
        (let! _err := Postgresql_Close newP in Ret ())
  end.

Definition databasePrivilege p (username dbname privilege statement arg : string)
    : prog (option error) :=
  let query := prepareStatementForPrivilege statement arg username dbname "" privilege in
  Exec (pg_db p) EnableLogger query [].

Definition privilege_ p (username privilege statement arg : string) : prog (option error) :=
  let query := prepareStatementForPrivilege statement arg username "" "" privilege in
  Exec (pg_db p) EnableLogger query [].

(** The body of the loop of [privilegesProcessor]. *)
Definition privilege_step p (username statement arg : string) (privilege : PrivilegeSpec)
    : prog (option error) :=
  let dbname := PrivilegeSpec_Database privilege in
  let on := On privilege in
  let priv := Privilege privilege in
  if nonempty dbname && nonempty on && nonempty priv then
    inDatabasePrivilege p username dbname on priv statement arg
  else if nonempty dbname && nonempty priv then
    databasePrivilege p username dbname priv statement arg
  else if nonempty priv then
    privilege_ p username priv statement arg
  else Ret (Some (ErrorString "can't use this type of privilege")).

Definition Postgresql_privilegesProcessor p (username : string)
    (privileges : list PrivilegeSpec) (statement arg : string) : prog (option error) :=
  range_err (privilege_step p username statement arg) privileges.

Definition Postgresql_ApplyPrivileges p (username : string)
    (privileges : list PrivilegeSpec) : prog (option error) :=
  Postgresql_privilegesProcessor p username privileges "GRANT" "TO".

Definition Postgresql_RevokePrivileges p (username : string)
    (privileges : list PrivilegeSpec) : prog (option error) :=
  let! err := Postgresql_privilegesProcessor p username privileges "REVOKE" "FROM" in
  Ret (ignoreNotExists err).
End Code.

(** ** The statements, read by the server *)

Lemma nonempty_true s : nonempty s = true ↔ s ≠ "".
Proof. unfold nonempty. apply bool_decide_eq_true. Qed.

Lemma nonempty_false s : nonempty s = false ↔ s = "".
Proof. unfold nonempty. rewrite bool_decide_eq_false. split; [apply dec_stable|by intros -> []]. Qed.

Lemma lex_two_words w1 w2 s ts :
  lex (w1 +:+ " " +:+ w2) = Some [TWord w1; TWord w2] → lex s = Some ts →
  lex ((w1 +:+ " " +:+ w2) +:+ " " +:+ s) = Some (TWord w1 :: TWord w2 :: ts).
Proof. intros H1 H2. exact (lex_space _ s _ _ H1 H2). Qed.

(** [CREATE USER] reads as exactly one statement that creates the dotted name
    with the given password, whatever the strings are but for zero characters in
    the password. *)
Lemma createUserQuery_lex u pw :
  str_free nul pw = true →
  lex (createUserQuery u pw).1 = Some (
    [TWord "CREATE"; TWord "USER"] ++ qualified u ++
    (if nonempty pw then [TWord "WITH"; TWord "PASSWORD"; TString pw] else [])).
Proof.
  intros Hpw. unfold createUserQuery.
  assert (lex ("CREATE USER " +:+ escapeLiteral u) =
    Some ([TWord "CREATE"; TWord "USER"] ++ qualified u)) as Hc.
  { apply (lex_two_words "CREATE" "USER"); [done|]. apply escapeLiteral_lex. }
  destruct (nonempty pw); cbn [fst]; [|by rewrite app_nil_r].
  change (" WITH PASSWORD " +:+ ?x) with (String " " (("WITH" +:+ " " +:+ "PASSWORD") +:+ " " +:+ x)).
  rewrite app_assoc. apply lex_space; [done|].
  apply lex_two_words; [done|]. by apply escapeString_lex.
Qed.

Lemma before_nul_double s t :
  str_free nul s = false → before_nul (double squote s +:+ t) = double squote (before_nul s).
Proof.
  unfold double. induction s as [|c s IH]; [done|]. rewrite str_free_step.
  destruct (Ascii.eqb c nul) eqn:E; [intros _; apply Ascii.eqb_eq in E as ->; done|]. intros Hs.
  cbn [strings_ReplaceAll]. destruct (Ascii.eqb c squote) eqn:Eq.
  - apply Ascii.eqb_eq in Eq as ->. simpl. by rewrite IH.
  - simpl. rewrite E. simpl. by rewrite Eq, IH.
Qed.

(** A zero character in the password is in the literal. *)
Lemma createUserQuery_nul u pw :
  str_free nul pw = false → nul_in_literal (createUserQuery u pw).1 = true.
Proof.
  intros Hpw. assert (nonempty pw = true) as Hne by (by destruct pw).
  set (X := ("CREATE USER " +:+ escapeLiteral u) +:+ " WITH PASSWORD '").
  assert ((createUserQuery u pw).1 = X +:+ double squote pw +:+ String squote "") as E.
  { unfold createUserQuery, X. rewrite Hne. cbn [fst]. by rewrite !string_app_assoc. }
  assert (str_free nul X = true) as HX.
  { pose proof (escapeLiteral_free u) as Hu. unfold str_free in *. unfold X.
    by rewrite !str_forallb_app, Hu. }
  assert ((lex_from LNormal X).1 = LStr "") as HL.
  { assert (lex ("CREATE USER " +:+ escapeLiteral u) = Some ([TWord "CREATE"; TWord "USER"] ++ qualified u)) as Hc.
    { apply (lex_two_words "CREATE" "USER"); [done|]. apply escapeLiteral_lex. }
    apply lex_Some in Hc as (st & ts1 & ts2 & Hc & Hf & _). unfold X. rewrite lex_from_app, Hc.
    change (" WITH PASSWORD '") with (String " " "WITH PASSWORD '"). cbn [lex_from].
    by rewrite (step_space _ _ Hf). }
  clearbody X. unfold nul_in_literal. rewrite E, before_nul_app, before_nul_double, lex_from_app by done.
  destruct (lex_from LNormal X) as [st ts]. simpl in HL. subst st.
  rewrite lex_from_str by apply before_nul_free. simpl. rewrite andb_true_r, negb_true_iff.
  unfold str_free in *. rewrite !str_forallb_app, HX. simpl. rewrite andb_true_r.
  clear - Hpw. unfold double. induction pw as [|c s IH]; simpl in *; [done|].
  destruct (Ascii.eqb c squote) eqn:Eq; simpl; [apply Ascii.eqb_eq in Eq as ->; by apply IH|].
  destruct (Ascii.eqb c nul); [done|]. by apply IH.
Qed.

Lemma deleteUserQuery_lex u :
  lex (deleteUserQuery u) = Some ([TWord "DROP"; TWord "USER"] ++ qualified u).
Proof. apply (lex_two_words "DROP" "USER"); [done|]. apply escapeLiteral_lex. Qed.

(** The object a privilege is granted on. *)
Definition privilege_object (dbname on : string) : list token :=
  if nonempty on then TWord "ON" :: qualified on
  else if nonempty dbname then TWord "ON" :: TWord "DATABASE" :: qualified dbname
  else [].

Definition keyword (w : string) : Prop := w ≠ "" ∧ str_forallb is_word_char w = true.

(** When the text of the privilege reads as the tokens [ptoks], the whole
    statement reads as keyword, privilege, object, keyword, user. *)
Lemma prepareStatementForPrivilege_lex statement arg username dbname on privilege ptoks :
  keyword statement → keyword arg →
  lex (escapeLiteralWithoutQuotes privilege) = Some ptoks →
  lex (prepareStatementForPrivilege statement arg username dbname on privilege) =
    Some ((TWord statement :: ptoks) ++ privilege_object dbname on ++ TWord arg :: qualified username).
Proof.
  intros [Hs1 Hs2] [Ha1 Ha2] Hp. unfold prepareStatementForPrivilege, privilege_object.
  assert (lex (statement +:+ " " +:+ escapeLiteralWithoutQuotes privilege) =
    Some (TWord statement :: ptoks)) as H1.
  { exact (lex_space _ _ _ _ (lex_word _ Hs1 Hs2) Hp). }
  assert (lex (arg +:+ " " +:+ escapeLiteral username) = Some (TWord arg :: qualified username)) as H2.
  { exact (lex_space _ _ _ _ (lex_word _ Ha1 Ha2) (escapeLiteral_lex username)). }
  rewrite app_assoc. apply lex_space; [|done].
  destruct (nonempty on); [|destruct (nonempty dbname); [|by rewrite app_nil_r]].
  - change (" ON " +:+ ?x) with (String " " ("ON" +:+ " " +:+ x)).
    apply lex_space; [done|]. exact (lex_space "ON" _ [TWord "ON"] _ eq_refl (escapeLiteral_lex on)).
  - change (" ON DATABASE " +:+ ?x) with (String " " (("ON" +:+ " " +:+ "DATABASE") +:+ " " +:+ x)).
    apply lex_space; [done|]. apply lex_two_words; [done|]. apply escapeLiteral_lex.
Qed.

(** ** The runs *)

Section Facts.
Context {C : Type} `{ConnectionLaws C}.
Implicit Types (p : Postgresql C) (t : list event).

Definition crypto_req (r : req) : Prop :=
  match r with
  | ParsePKCS1PrivateKey _ | ParseCertificate _ | RandInt63 | TimeNow
  | TimeAddDate _ _ _ _ | GenerateKey _ | CreateCertificate _ _ _ _
  | MarshalPKCS1PrivateKey _ => True
  | _ => False
  end.

(** The requests a PostgreSQL object makes. *)
Definition pg_req (r : req) : Prop := conn_req r ∨ file_req r ∨ crypto_req r.

Lemma only_conn_pg {A} (q : prog A) : only conn_req q → only pg_req q.
Proof. apply only_impl. unfold pg_req. auto. Qed.
Lemma only_file_pg {A} (q : prog A) : only file_req q → only pg_req q.
Proof. apply only_impl. unfold pg_req. auto. Qed.
Lemma only_crypto_pg {A} (q : prog A) : only crypto_req q → only pg_req q.
Proof. apply only_impl. unfold pg_req. auto. Qed.

Lemma genPostgresCertFromCA_only p u : only crypto_req (genPostgresCertFromCA p u).
Proof. unfold genPostgresCertFromCA. solve_only. Qed.

Lemma Postgresql_Connect_only p : only pg_req (Postgresql_Connect p).
Proof.
  unfold Postgresql_Connect. apply only_bind; [apply only_file_pg, ConnString_only|].
  intros (c & s & [e|]); [done|]. apply only_bind; [apply only_conn_pg, Connect_only|].
  by intros [db [e|]].
Qed.

Lemma Postgresql_Close_only p : only pg_req (Postgresql_Close p).
Proof.
  unfold Postgresql_Close. apply only_bind; [apply only_file_pg, Config_Close_only|].
  intros _. apply only_conn_pg, Close_only.
Qed.

Lemma Postgresql_CreateUser_only p u pw : only pg_req (Postgresql_CreateUser p u pw).
Proof.
  unfold Postgresql_CreateUser. destruct (createUserQuery u pw) as [q l].
  apply only_bind; [apply only_conn_pg, Exec_only|]. intros err.
  case_match; [|done]. apply only_bind; [apply only_crypto_pg, genPostgresCertFromCA_only|].
  by intros [m [e|]].
Qed.

Lemma Postgresql_DeleteUser_only p u : only pg_req (Postgresql_DeleteUser p u).
Proof. unfold Postgresql_DeleteUser. apply only_bind; [apply only_conn_pg, Exec_only|done]. Qed.

Lemma inDatabasePrivilege_only p u d on pr st a : only pg_req (inDatabasePrivilege p u d on pr st a).
Proof.
  unfold inDatabasePrivilege. apply only_bind; [apply only_conn_pg, Copy_only|]. intros c.
  apply only_bind; [apply Postgresql_Connect_only|]. intros [np [e|]]; [done|].
  apply only_finally; [apply only_conn_pg, Exec_only|].
  apply only_bind; [apply Postgresql_Close_only|done].
Qed.

Lemma privilege_step_only p u st a pr : only pg_req (privilege_step p u st a pr).
Proof.
  unfold privilege_step. case_match; [apply inDatabasePrivilege_only|].
  unfold databasePrivilege, privilege_.
  repeat (case_match; [apply only_conn_pg, Exec_only|]). done.
Qed.

Lemma Postgresql_ApplyPrivileges_only p u l : only pg_req (Postgresql_ApplyPrivileges p u l).
Proof. apply only_range_err. intros. apply privilege_step_only. Qed.

Lemma Postgresql_RevokePrivileges_only p u l : only pg_req (Postgresql_RevokePrivileges p u l).
Proof. apply only_bind; [apply only_range_err; intros; apply privilege_step_only|done]. Qed.
End Facts.

(** ** The texts that are sent *)

Section Sends.
Context {C : Type} `{ConnectionLaws C} (P : string → Prop).
Implicit Types (p : Postgresql C).

Lemma file_sends {A} (q : prog A) : only file_req q → only (sends_only P) q.
Proof. apply only_impl. by intros []. Qed.
Lemma Exec_sends_only (c : C) l q args : P q → only (sends_only P) (Exec c l q args).
Proof.
  intros Hq. eapply only_impl; [|apply Exec_sends]. intros r. unfold sends_only.
  destruct (sends r); [by intros <-|done].
Qed.

Lemma Postgresql_Connect_sends p : only (sends_only P) (Postgresql_Connect p).
Proof.
  unfold Postgresql_Connect. apply only_bind; [apply file_sends, ConnString_only|].
  intros (c & s & [e|]); [done|]. apply only_bind; [apply only_sends_none, Connect_sends|].
  by intros [db err].
Qed.

Lemma Postgresql_Close_sends p : only (sends_only P) (Postgresql_Close p).
Proof.
  apply only_bind; [apply file_sends, Config_Close_only|]. intros _.
  apply only_sends_none, Close_sends.
Qed.

Lemma Postgresql_DeleteUser_sends p u :
  P (deleteUserQuery u) → only (sends_only P) (Postgresql_DeleteUser p u).
Proof. intros Hq. apply only_bind; [by apply Exec_sends_only|done]. Qed.

Lemma Postgresql_privileges_sends p u l st a :
  (∀ d on pv, P (prepareStatementForPrivilege st a u d on pv)) →
  only (sends_only P) (Postgresql_privilegesProcessor p u l st a).
Proof.
  intros HP. apply only_range_err. intros pr.
  unfold privilege_step, databasePrivilege, privilege_.
  case_match; [|by repeat (case_match; [by apply Exec_sends_only|])].
  apply only_bind; [apply only_sends_none, Copy_sends|]. intros c.
  apply only_bind; [apply Postgresql_Connect_sends|]. intros [p' [e|]]; [done|].
  apply only_finally; [by apply Exec_sends_only|].
  apply only_bind; [apply Postgresql_Close_sends|done].
Qed.
End Sends.

(** ** Statements, handles and files of the runs *)

Lemma file_obs {A} (q : prog A) t o :
  only file_req q → runs q t o → statements t = [] ∧ handles t = [] ∧ logged t = [].
Proof.
  intros Hq Ht. split_and!; (eapply only_omap; [exact Hq|exact Ht|]); by intros [].
Qed.

Lemma crypto_obs {A} (q : prog A) t o :
  only crypto_req q → runs q t o →
  statements t = [] ∧ handles t = [] ∧ logged t = [] ∧ written t = [] ∧ removed t = [].
Proof.
  intros Hq Ht. split_and!; (eapply only_omap; [exact Hq|exact Ht|]); by intros [].
Qed.

Lemma conn_obs {A} (q : prog A) t o :
  only conn_req q → runs q t o → written t = [] ∧ removed t = [].
Proof.
  intros Hq Ht. split_and!; (eapply only_omap; [exact Hq|exact Ht|]); by intros [].
Qed.

Ltac app_obs :=
  rewrite ?statements_app, ?handles_app, ?logged_app, ?written_app, ?removed_app.

Section Runs.
Context {C : Type} `{ConnectionLaws C}.
Implicit Types (p : Postgresql C) (t : list event).

Definition open_handle (c : C) : list (bool * nat) :=
  match conn_handle c with Some h => [(true, h)] | None => [] end.
Definition close_handle (c : C) : list (bool * nat) :=
  match conn_handle c with Some h => [(false, h)] | None => [] end.

Lemma bracketed_handle c l : bracketed l → bracketed (open_handle c ++ l ++ close_handle c).
Proof.
  unfold open_handle, close_handle. destruct (conn_handle c); intros Hl.
  - by apply bracketed_wrap.
  - by rewrite app_nil_r.
Qed.

Lemma Postgresql_Connect_runs p t p' err :
  runs (Postgresql_Connect p) t (Returned (p', err)) →
  statements t = [] ∧
  handles t = (if bool_decide (err = None) then open_handle (pg_db p') else []) ∧
  removed t = [] ∧
  Forall (λ w, w.1.1 ∈ [cfg_sslCACertFile (pg_config p');
                        cfg_sslUserCertFile (pg_config p');
                        cfg_sslUserKeyFile (pg_config p')]) (written t).
Proof.
  unfold Postgresql_Connect. intros Ht.
  apply runs_bind_inv in Ht as [(m & _ & [=])|([c [s e]] & t1 & t2 & -> & H1 & Ht)].
  pose proof (ConnString_runs _ _ _ _ _ H1) as (h1 & h2 & h3 & _ & _ & _ & Hw).
  destruct (file_obs _ _ _ (ConnString_only _) H1) as (S1 & L1 & _).
  pose proof (ConnString_removed _ _ _ H1) as R1. app_obs. rewrite S1, L1, R1.
  destruct e as [e|]; [destruct Ht as [-> ?]; simplify_eq/=; by rewrite app_nil_r|].
  apply runs_bind_inv in Ht as [(m & _ & [=])|([db err'] & t3 & t4 & -> & H2 & [-> ?])].
  simplify_eq/=. rewrite app_nil_r.
  destruct (conn_obs _ _ _ (Connect_only _ _ _) H2) as [-> ->]. rewrite app_nil_r.
  rewrite (Connect_statements _ _ _ _ _ H2), (Connect_handles _ _ _ _ _ _ H2).
  split_and!; try done. by destruct err'.
Qed.

Lemma Postgresql_Connect_distinct p t p' err :
  runs (Postgresql_Connect p) t (Returned (p', err)) →
  NoDup [cfg_sslCACertFile (pg_config p'); cfg_sslUserCertFile (pg_config p');
         cfg_sslUserKeyFile (pg_config p')].
Proof.
  unfold Postgresql_Connect. intros Ht.
  apply runs_bind_inv in Ht as [(m & _ & [=])|([c r] & t1 & t2 & -> & H1 & Ht)].
  apply ConnString_files_distinct in H1. destruct r as [s [e|]].
  - by destruct Ht as [_ [= -> _]].
  - by apply runs_bind_inv in Ht as [(m & _ & [=])|([db err'] & t3 & t4 & -> & H2 & [-> [= -> _]])].
Qed.

Lemma Postgresql_Connect_panics p t m :
  runs (Postgresql_Connect p) t (Panicked m) → statements t = [] ∧ handles t = [].
Proof.
  unfold Postgresql_Connect. intros Ht.
  apply runs_bind_inv in Ht as [(m' & H1 & _)|([c [s e]] & t1 & t2 & -> & H1 & Ht)].
  { by destruct (file_obs _ _ _ (ConnString_only _) H1) as (? & ? & _). }
  destruct (file_obs _ _ _ (ConnString_only _) H1) as (S1 & L1 & _). app_obs. rewrite S1, L1.
  destruct e as [e|]; [by destruct Ht|].
  apply runs_bind_inv in Ht as [(m' & H2 & _)|([db err'] & t3 & t4 & -> & H2 & [_ [=]])].
  by rewrite (Connect_statements _ _ _ _ _ H2), (Connect_panic_handles _ _ _ _ _ H2).
Qed.

Lemma Postgresql_Close_runs p t o :
  runs (Postgresql_Close p) t o →
  statements t = [] ∧ handles t = close_handle (pg_db p) ∧ written t = [] ∧
  removed t = [cfg_sslUserKeyFile (pg_config p); cfg_sslUserCertFile (pg_config p);
               cfg_sslCACertFile (pg_config p)].
Proof.
  unfold Postgresql_Close. intros Ht.
  apply runs_bind_inv in Ht as [(m & H1 & _)|(e & t1 & t2 & -> & H1 & Ht)].
  { by apply Config_Close_runs in H1 as [[=] _]. }
  destruct (file_obs _ _ _ (Config_Close_only _) H1) as (S1 & L1 & _).
  destruct (Config_Close_runs _ _ _ H1) as (_ & R1 & W1).
  destruct (conn_obs _ _ _ (Close_only _) Ht) as [W2 R2]. app_obs.
  rewrite S1, L1, R1, W1, W2, R2, (Close_statements _ _ _ Ht), (Close_handles _ _ _ Ht). done.
Qed.

(** The certificate of a user: the result names the three files and the CA is
    the configured one. *)
Lemma genPostgresCertFromCA_runs p u t m err :
  runs (genPostgresCertFromCA p u) t (Returned (m, err)) →
  (err ≠ None ∧ m = ∅) ∨
  (err = None ∧ dom m = {["tls.crt"; "tls.key"; "ca.crt"]} ∧
   m !! "ca.crt" = Some (cfg_SSLCACert (pg_config p))).
Proof.
  unfold genPostgresCertFromCA. cbn [bind call]. intros Ht.
  repeat first
    [ destruct Ht as (? & ? & -> & Ht)
    | match type of Ht with runs (match ?x with _ => _ end) _ _ => destruct x; cbn [bind call] in Ht end
    | match type of Ht with runs (Panic _) _ _ => by destruct Ht as [_ [=]] end
    | match type of Ht with runs (Ret (∅, _)) _ _ => destruct Ht as [_ [= -> ->]]; by left end ].
  destruct Ht as [_ [= -> ->]]. right. split_and!; [done| |].
  - rewrite !dom_insert_L, dom_singleton_L. set_solver.
  - by rewrite !lookup_insert_ne, lookup_singleton_eq by done.
Qed.

(** [CreateUser] sends one statement. Without certificates, or when the user
    exists already, the answer alone decides; otherwise the certificates are
    made first and their failure hides the answer. *)
Lemma Postgresql_CreateUser_runs p u pw t m err :
  runs (Postgresql_CreateUser p u pw) t (Returned (m, err)) →
  ∃ r, statements t = [((createUserQuery u pw).1, [], r)] ∧
    (if CreateCerts (pg_config p) && negb (isAlreadyExists r) then
       (err ≠ None ∧ m = ∅) ∨
       (err = ignoreAlreadyExists r ∧ dom m = {["tls.crt"; "tls.key"; "ca.crt"]} ∧
        m !! "ca.crt" = Some (cfg_SSLCACert (pg_config p)))
     else m = ∅ ∧ err = ignoreAlreadyExists r).
Proof.
  unfold Postgresql_CreateUser. destruct (createUserQuery u pw) as [q l]. cbn [fst]. intros Ht.
  apply runs_bind_inv in Ht as [(m' & _ & [=])|(r & t1 & t2 & -> & H1 & Ht)].
  exists r. app_obs. rewrite (Exec_statements _ _ _ _ _ _ H1).
  destruct (CreateCerts (pg_config p) && negb (isAlreadyExists r)).
  - apply runs_bind_inv in Ht as [(m' & _ & [=])|([m' e'] & t3 & t4 & -> & H2 & Ht)].
    destruct (crypto_obs _ _ _ (genPostgresCertFromCA_only _ _) H2) as (S2 & _).
    app_obs. rewrite S2.
    destruct (genPostgresCertFromCA_runs _ _ _ _ _ H2) as [[He ->]|(-> & Hd & Hca)].
    + destruct e' as [e'|]; [|done]. destruct Ht as [-> [= -> ->]]. eauto.
    + destruct Ht as [-> [= -> ->]]. auto 6.
  - destruct Ht as [-> [= -> ->]]. auto.
Qed.

(** A statement that carries a password is never logged. *)
Lemma Postgresql_CreateUser_quiet p u pw t o :
  pw ≠ "" → runs (Postgresql_CreateUser p u pw) t o → logged t = [].
Proof.
  intros Hpw. unfold Postgresql_CreateUser, createUserQuery.
  rewrite (proj2 (nonempty_true pw) Hpw). intros Ht.
  apply runs_bind_inv in Ht as [(m & H1 & _)|(r & t1 & t2 & -> & H1 & Ht)].
  - by apply Exec_quiet in H1.
  - app_obs. rewrite (Exec_quiet _ _ _ _ _ H1). revert Ht. case_match; intros Ht.
    + apply runs_bind_inv in Ht as [(m' & Hg & _)|([m' e'] & t3 & t4 & -> & Hg & Ht)];
        app_obs; destruct (crypto_obs _ _ _ (genPostgresCertFromCA_only _ _) Hg) as (_ & _ & -> & _);
        [done|]. destruct e'; by destruct Ht as [-> _].
    + by destruct Ht as [-> _].
Qed.

Lemma Postgresql_DeleteUser_runs p u t err :
  runs (Postgresql_DeleteUser p u) t (Returned err) →
  ∃ r, statements t = [(deleteUserQuery u, [], r)] ∧ err = ignoreNotExists r.
Proof.
  unfold Postgresql_DeleteUser. intros Ht.
  apply runs_bind_inv in Ht as [(m & _ & [=])|(r & t1 & t2 & -> & H1 & [-> [= ->]])].
  exists r. app_obs. by rewrite (Exec_statements _ _ _ _ _ _ H1).
Qed.
End Runs.

(** ** Privileges *)

(** The statement a privilege stands for: without a database the object is
    ignored. *)
Definition privilege_query (st a u : string) (pr : PrivilegeSpec) : string :=
  prepareStatementForPrivilege st a u (PrivilegeSpec_Database pr)
    (if nonempty (PrivilegeSpec_Database pr) then On pr else "") (Privilege pr).

Lemma discard_runs {A} (q : prog A) t o :
  runs (let! _ := q in Ret ()) t o → ∃ o', runs q t o'.
Proof.
  intros [(m & ? & _)|(a & t1 & t2 & -> & ? & [-> _])]%runs_bind_inv; [eauto|].
  rewrite app_nil_r. eauto.
Qed.

Section Privileges.
Context {C : Type} `{ConnectionLaws C}.
Implicit Types (p : Postgresql C) (t : list event) (pr : PrivilegeSpec).

Lemma inDatabasePrivilege_runs p u d on pv st a t o :
  runs (inDatabasePrivilege p u d on pv st a) t o →
  bracketed (handles t) ∧
  (∀ err, o = Returned err →
     statements t = [(prepareStatementForPrivilege st a u d on pv, [], err)] ∧
       (∀ w, w ∈ written t → w.1.1 ∈ removed t)
     ∨ err ≠ None ∧ statements t = []).
Proof.
  unfold inDatabasePrivilege. intros Ht.
  apply runs_bind_inv in Ht as [(m & H1 & ->)|(c & t1 & t2 & -> & H1 & Ht)].
  { rewrite (Copy_handles _ _ _ H1). split; [constructor|done]. }
  app_obs. rewrite (Copy_handles _ _ _ H1), (Copy_statements _ _ _ H1).
  destruct (conn_obs _ _ _ (Copy_only _) H1) as [-> ->]. clear t1 H1. simpl app.
  apply runs_bind_inv in Ht as [(m & H1 & ->)|([np e] & t1 & t3 & -> & H1 & Ht)].
  { destruct (Postgresql_Connect_panics _ _ _ H1) as [_ ->]. split; [constructor|done]. }
  destruct (Postgresql_Connect_runs _ _ _ _ H1) as (S1 & L1 & R1 & W1). app_obs.
  rewrite S1, L1, R1. simpl app.
  destruct e as [e|].
  { destruct Ht as [-> ->]. split; [constructor|]. intros err [= <-]. by right. }
  apply runs_finally_inv in Ht as (o1 & t2 & t4 & -> & H2 & Hfin).
  assert (∃ o', runs (Postgresql_Close np) t4 o') as [o' H4].
  { destruct Hfin as [[Hf _]|(m & Hf & _)]; by apply discard_runs in Hf. }
  destruct (Postgresql_Close_runs _ _ _ H4) as (S4 & L4 & W4 & R4).
  destruct (conn_obs _ _ _ (Exec_only _ _ _ _) H2) as [W2 R2].
  app_obs. rewrite S4, L4, R4, W2, R2, W4, (Exec_handles _ _ _ _ _ _ H2), !app_nil_r. simpl app.
  split; [apply (bracketed_handle _ []); constructor|].
  intros err ->. left. destruct Hfin as [[_ <-]|(m & _ & [=])].
  rewrite (Exec_statements _ _ _ _ _ _ H2). split; [done|].
  intros w Hw. rewrite Forall_forall in W1. specialize (W1 w Hw).
  revert W1. rewrite !elem_of_cons. tauto.
Qed.

Lemma privilege_step_runs p u st a pr t o :
  runs (privilege_step p u st a pr) t o →
  bracketed (handles t) ∧
  (∀ err, o = Returned err →
     (Privilege pr ≠ "" ∧ statements t = [(privilege_query st a u pr, [], err)])
     ∨ err ≠ None ∧ statements t = []) ∧
  (o = Returned None → ∀ w, w ∈ written t → w.1.1 ∈ removed t).
Proof.
  unfold privilege_step, privilege_query, databasePrivilege, privilege_.
  destruct (nonempty (PrivilegeSpec_Database pr)) eqn:Ed, (nonempty (Privilege pr)) eqn:Ep;
    rewrite ?andb_false_r, ?andb_true_r; simpl.
  1: destruct (nonempty (On pr)) eqn:Eo; simpl.
  1: { intros Ht%inDatabasePrivilege_runs. destruct Ht as [Hb Ht].
       apply nonempty_true in Ep. split; [done|]. split.
       - intros err Ho. destruct (Ht err Ho) as [[]|?]; auto.
       - intros Ho. destruct (Ht None Ho) as [[_ Hw]|[[] _]]; [exact Hw|done]. }
  2, 4: intros [-> ->]; split_and!; [constructor| |done]; intros err [= <-]; by right.
  all: intros Ht; rewrite (Exec_handles _ _ _ _ _ _ Ht); apply nonempty_true in Ep;
    destruct (conn_obs _ _ _ (Exec_only _ _ _ _) Ht) as [-> _];
    split_and!; [constructor| |by intros _ w ?%elem_of_nil]; intros err ->; left;
    rewrite (Exec_statements _ _ _ _ _ _ Ht); split; [done|].
  - apply nonempty_false in Eo. by rewrite Eo.
  - apply nonempty_false in Ed. by rewrite Ed.
Qed.

(** Handles stay bracketed through a loop. *)
Lemma range_err_bracketed {A} (f : A → prog (option error)) l t o :
  (∀ x t o, runs (f x) t o → bracketed (handles t)) →
  runs (range_err f l) t o → bracketed (handles t).
Proof.
  intros Hf. revert t. induction l as [|x l IH]; simpl; intros t Ht.
  { destruct Ht as [-> _]. constructor. }
  apply runs_bind_inv in Ht as [(m & ? & ->)|(e & t1 & t2 & -> & ? & Ht)]; [eauto|].
  app_obs. apply bracketed_app; [eauto|]. destruct e; [|eauto].
  destruct Ht as [-> _]. constructor.
Qed.

Lemma privilegesProcessor_ok p u l st a t :
  runs (Postgresql_privilegesProcessor p u l st a) t (Returned None) →
  Forall (λ pr, Privilege pr ≠ "") l ∧
  statements t = (λ pr, (privilege_query st a u pr, [], None)) <$> l ∧
  (∀ w, w ∈ written t → w.1.1 ∈ removed t).
Proof.
  unfold Postgresql_privilegesProcessor. revert t. induction l as [|pr l IH]; simpl; intros t Ht.
  { destruct Ht as [-> _]. split_and!; [constructor|done|]. by intros w ?%elem_of_nil. }
  apply runs_bind_inv in Ht as [(m & ? & [=])|([e|] & t1 & t2 & -> & H1 & Ht)];
    [by destruct Ht|].
  destruct (privilege_step_runs _ _ _ _ _ _ _ H1) as (_ & Hs & Hw).
  destruct (Hs None eq_refl) as [[Hp S1]|[]]; [|done].
  destruct (IH _ Ht) as (Hl & S2 & W2). app_obs. rewrite S1, S2.
  split_and!; [by constructor|done|]. intros w. rewrite !elem_of_app. intros [?|?]; auto.
Qed.

Lemma privilegesProcessor_error p u l st a t e :
  runs (Postgresql_privilegesProcessor p u l st a) t (Returned (Some e)) →
  ∃ l1 pr l2, l = l1 ++ pr :: l2 ∧
    (statements t = ((λ pr, (privilege_query st a u pr, [], None)) <$> l1) ∨
     statements t = ((λ pr, (privilege_query st a u pr, [], None)) <$> l1)
       ++ [(privilege_query st a u pr, [], Some e)]).
Proof.
  intros (l1 & pr & l2 & t1 & t2 & -> & -> & H1 & H2)%range_err_error.
  apply privilegesProcessor_ok in H1 as (_ & S1 & _).
  destruct (privilege_step_runs _ _ _ _ _ _ _ H2) as (_ & Hs & _).
  exists l1, pr, l2. split; [done|]. app_obs. rewrite S1.
  destruct (Hs _ eq_refl) as [[_ ->]|[_ ->]]; [by right|left; by rewrite app_nil_r].
Qed.

Lemma privilegesProcessor_bracketed p u l st a t o :
  runs (Postgresql_privilegesProcessor p u l st a) t o → bracketed (handles t).
Proof.
  apply range_err_bracketed. intros pr t' o' Ht. by apply privilege_step_runs in Ht as [? _].
Qed.
End Privileges.
