(* ===== verification/Mysql.v ===== *)
(** * The MySQL database (pkg/database/mysql: config.go and mysql.go) *)

From S2P Require Import Prelude GoStrings GoError Api Effects Connection.

(** ** config.go *)

Record MysqlConfig := mkMysqlConfig {
  mcfg_Host : string;
  mcfg_Port : Z;
  mcfg_User : string;
  mcfg_Password : string;
  mcfg_DatabaseName : string;
  mcfg_usersHostname : string
}.

Definition MysqlNewConfig (host : string) (port : Z) (user pass dbname usersHostname : string)
    : MysqlConfig :=
  mkMysqlConfig host port user pass dbname usersHostname.

(** [url.User] and [url.UserPassword] *)
Definition url_User (username : string) : Userinfo := mkUserinfo username None.
Definition url_UserPassword (username password : string) : Userinfo :=
  mkUserinfo username (Some password).

Definition MysqlConnString (c : MysqlConfig) : prog (string * option error) :=
  let userInfo :=
    if bool_decide (mcfg_Password c ≠ "") then url_UserPassword (mcfg_User c) (mcfg_Password c)
    else url_User (mcfg_User c) in
  call (GenMysql (mkDburlURL "mysql" (mcfg_Host c +:+ ":" +:+ fmt_d (mcfg_Port c)) userInfo
                    (mcfg_DatabaseName c) "interpolateParams=true" "tcp")).

Definition UsersHostname (c : MysqlConfig) : string :=
  if bool_decide (mcfg_usersHostname c = "") then "*" else mcfg_usersHostname c.

(** ** mysql.go *)

(** Statement text and arguments of one privilege. *)
Definition MysqlPrepareStatementForPrivilege
    (statement arg username dbname on privilege : string) : string * list string :=
  let stmtBuilder := statement +:+ " " +:+ "?" in
  let args := [privilege] in
  let '(stmtBuilder, args) :=
    if bool_decide (on ≠ "") && bool_decide (dbname ≠ "") then
      (stmtBuilder +:+ " ON " +:+ "?.?", args ++ [dbname; on])
    else if bool_decide (dbname ≠ "") then
      (stmtBuilder +:+ " ON " +:+ "?.*", args ++ [dbname])
    else (stmtBuilder, args) in
  (stmtBuilder +:+ " " +:+ arg +:+ " ?", args ++ [username]).

Record Mysql (C : Type) := mkMysql {
  my_db : C;
  my_config : MysqlConfig
}.
Arguments mkMysql {C} my_db my_config.
Arguments my_db {C} m.
Arguments my_config {C} m.

Section Code.
Context {C : Type} `{Connection C}.
Implicit Types (m : Mysql C).

Definition NewMysql (conn : C) (config : MysqlConfig) : Mysql C := mkMysql conn config.

Definition Mysql_Connect m : prog (Mysql C * option error) :=
  let! (connString, err) := MysqlConnString (my_config m) in
  match err with
  | Some _ => Ret (m, err)
  | None =>
      let! (db, err) := Connect (my_db m) "mysql" connString in
      Ret (mkMysql db (my_config m), err)
  end.

Definition Mysql_Close m : prog (option error) := Close (my_db m).

Definition Mysql_CreateUser m (username password : string)
    : prog (gmap string string * option error) :=
  let query := "CREATE USER ?@? IDENTIFIED BY ?" in
  let! err := Exec (my_db m) DisableLogger query
                [username; UsersHostname (my_config m); password] in
  Ret (∅, err).

Definition Mysql_DeleteUser m (username : string) : prog (option error) :=
  let query := "DROP USER ?@?" in
  Exec (my_db m) EnableLogger query [username; UsersHostname (my_config m)].

(** The body of the loop of [privilegesProcessor]. *)
Definition Mysql_privilege_step m (username statement arg : string)
    (privilege : PrivilegeSpec) : prog (option error) :=
  let '(query, args) :=
    MysqlPrepareStatementForPrivilege statement arg username
      (PrivilegeSpec_Database privilege) (On privilege) (Privilege privilege) in
  Exec (my_db m) EnableLogger query args.

Definition Mysql_privilegesProcessor m (username : string)
    (privileges : list PrivilegeSpec) (statement arg : string) : prog (option error) :=
  range_err (Mysql_privilege_step m username statement arg) privileges.

Definition Mysql_ApplyPrivileges m (username : string) (privileges : list PrivilegeSpec)
    : prog (option error) :=
  Mysql_privilegesProcessor m username privileges "GRANT" "TO".

Definition Mysql_RevokePrivileges m (username : string) (privileges : list PrivilegeSpec)
    : prog (option error) :=
  Mysql_privilegesProcessor m username privileges "REVOKE" "FROM".
End Code.

(** ** Statements: placeholders and arguments *)

(** A statement with one argument for each placeholder. *)
Definition well_formed (q : string) (args : list string) : Prop :=
  count_char "?" q = length args.

Lemma MysqlPrepareStatement_well_formed st a u d on pv :
  count_char "?" st = 0 → count_char "?" a = 0 →
  let '(q, args) := MysqlPrepareStatementForPrivilege st a u d on pv in well_formed q args.
Proof.
  intros Hs Ha. unfold MysqlPrepareStatementForPrivilege, well_formed.
  destruct (bool_decide (on ≠ "")), (bool_decide (d ≠ "")); simpl;
    rewrite !count_char_app, Hs; simpl; rewrite count_char_app, Ha; done.
Qed.

Section Facts.
Context {C : Type} `{ConnectionLaws C}.
Implicit Types (m : Mysql C) (t : list event) (pr : PrivilegeSpec).

Definition my_req (r : req) : Prop :=
  conn_req r ∨ match r with GenMysql _ => True | _ => False end.

Lemma only_conn_my {A} (q : prog A) : only conn_req q → only my_req q.
Proof. apply only_impl. unfold my_req. auto. Qed.

Lemma Mysql_Connect_only m : only my_req (Mysql_Connect m).
Proof.
  unfold Mysql_Connect. apply only_bind; [split; [by right|done]|].
  intros [s [e|]]; [done|]. apply only_bind; [apply only_conn_my, Connect_only|].
  by intros [db err].
Qed.

Lemma Mysql_CreateUser_only m u pw : only my_req (Mysql_CreateUser m u pw).
Proof. apply only_bind; [apply only_conn_my, Exec_only|done]. Qed.

Lemma Mysql_privilege_step_only m u st a pr : only my_req (Mysql_privilege_step m u st a pr).
Proof.
  unfold Mysql_privilege_step. destruct (MysqlPrepareStatementForPrivilege _ _ _ _ _ _).
  apply only_conn_my, Exec_only.
Qed.

Lemma Mysql_privilegesProcessor_only m u l st a :
  only my_req (Mysql_privilegesProcessor m u l st a).
Proof. apply only_range_err. intros. apply Mysql_privilege_step_only. Qed.

(** Statement of a privilege. *)
Definition mysql_privilege_stmt (st a u : string) pr : string * list string :=
  MysqlPrepareStatementForPrivilege st a u (PrivilegeSpec_Database pr) (On pr) (Privilege pr).

Lemma mysql_stmt_args st a u pr : (mysql_privilege_stmt st a u pr).2 ≠ [].
Proof.
  unfold mysql_privilege_stmt, MysqlPrepareStatementForPrivilege.
  by destruct (bool_decide (On pr ≠ "")), (bool_decide (PrivilegeSpec_Database pr ≠ "")).
Qed.

Lemma Mysql_Connect_handles m t m' err :
  runs (Mysql_Connect m) t (Returned (m', err)) →
  handles t = match err, conn_handle (my_db m') with None, Some h => [(true, h)] | _, _ => [] end ∧
  statements t = [].
Proof.
  unfold Mysql_Connect. intros Ht. simpl in Ht.
  destruct Ht as ([s [e|]] & t1 & -> & Ht); [by destruct Ht as [-> ?]; simplify_eq|].
  apply runs_bind_inv in Ht as [(m0 & _ & [=])|([db err'] & t3 & t4 & -> & H2 & [-> ?])].
  simplify_eq/=. rewrite app_nil_r.
  by rewrite <- (Connect_handles _ _ _ _ _ _ H2), <- (Connect_statements _ _ _ _ _ H2).
Qed.

Lemma Mysql_Connect_panics m t msg :
  runs (Mysql_Connect m) t (Panicked msg) → handles t = [] ∧ statements t = [].
Proof.
  unfold Mysql_Connect. intros Ht. simpl in Ht.
  destruct Ht as ([s [e|]] & t1 & -> & Ht); [by destruct Ht|].
  apply runs_bind_inv in Ht as [(m0 & H2 & _)|([db err'] & t3 & t4 & -> & H2 & [_ [=]])].
  by rewrite <- (Connect_panic_handles _ _ _ _ _ H2), <- (Connect_statements _ _ _ _ _ H2).
Qed.

Lemma Mysql_CreateUser_runs m u pw t r err :
  runs (Mysql_CreateUser m u pw) t (Returned (r, err)) →
  statements t = [("CREATE USER ?@? IDENTIFIED BY ?",
                   [u; UsersHostname (my_config m); pw], err)] ∧ r = ∅.
Proof.
  unfold Mysql_CreateUser. intros Ht.
  apply runs_bind_inv in Ht as [(m0 & _ & [=])|(e & t1 & t2 & -> & H1 & [-> [= -> ->]])].
  rewrite app_nil_r. by rewrite (Exec_statements _ _ _ _ _ _ H1).
Qed.

Lemma Mysql_CreateUser_quiet m u pw t o :
  runs (Mysql_CreateUser m u pw) t o → logged t = [].
Proof.
  unfold Mysql_CreateUser. intros Ht.
  apply runs_bind_inv in Ht as [(m0 & H1 & _)|(e & t1 & t2 & -> & H1 & [-> _])].
  - by apply Exec_quiet in H1.
  - rewrite app_nil_r. by apply Exec_quiet in H1.
Qed.

Lemma Mysql_CreateUser_handles m u pw t o :
  runs (Mysql_CreateUser m u pw) t o → handles t = [].
Proof.
  unfold Mysql_CreateUser. intros Ht.
  apply runs_bind_inv in Ht as [(m0 & H1 & _)|(e & t1 & t2 & -> & H1 & [-> _])].
  - by apply Exec_handles in H1.
  - rewrite app_nil_r. by apply Exec_handles in H1.
Qed.

Lemma Mysql_privilege_step_runs m u st a pr t o :
  runs (Mysql_privilege_step m u st a pr) t o →
  handles t = [] ∧
  (∀ err, o = Returned err →
     statements t = [((mysql_privilege_stmt st a u pr).1, (mysql_privilege_stmt st a u pr).2, err)]).
Proof.
  unfold Mysql_privilege_step, mysql_privilege_stmt.
  destruct (MysqlPrepareStatementForPrivilege _ _ _ _ _ _) as [q args]. intros Ht.
  split; [by apply Exec_handles in Ht|]. intros err ->. by apply Exec_statements in Ht.
Qed.

Lemma Mysql_privilegesProcessor_ok m u l st a t :
  runs (Mysql_privilegesProcessor m u l st a) t (Returned None) →
  statements t =
    (λ pr, ((mysql_privilege_stmt st a u pr).1, (mysql_privilege_stmt st a u pr).2, None)) <$> l.
Proof.
  unfold Mysql_privilegesProcessor. revert t. induction l as [|pr l IH]; simpl; intros t Ht.
  { by destruct Ht as [-> _]. }
  apply runs_bind_inv in Ht as [(m0 & ? & [=])|([e|] & t1 & t2 & -> & H1 & Ht)];
    [by destruct Ht|].
  apply Mysql_privilege_step_runs in H1 as [_ H1]. rewrite statements_app.
  by rewrite (H1 None eq_refl), (IH _ Ht).
Qed.

Lemma Mysql_privilegesProcessor_error m u l st a t e :
  runs (Mysql_privilegesProcessor m u l st a) t (Returned (Some e)) →
  ∃ l1 pr l2, l = l1 ++ pr :: l2 ∧
    statements t =
      ((λ pr, ((mysql_privilege_stmt st a u pr).1, (mysql_privilege_stmt st a u pr).2, None)) <$> l1)
      ++ [((mysql_privilege_stmt st a u pr).1, (mysql_privilege_stmt st a u pr).2, Some e)].
Proof.
  intros (l1 & pr & l2 & t1 & t2 & -> & -> & H1 & H2)%range_err_error.
  apply Mysql_privilegesProcessor_ok in H1. apply Mysql_privilege_step_runs in H2 as [_ H2].
  exists l1, pr, l2. by rewrite statements_app, H1, (H2 _ eq_refl).
Qed.
End Facts.
