(* ===== verification/MysqlSql.v ===== *)
(** * The operator's MySQL statements

    What a statement with placeholders and its arguments ask for, as MySQL's
    manual has it: an account is a user name and a host name, and an account
    name without a host name stands for the host name ["%"].  How the driver
    puts the arguments into the text is not modelled; the meaning of what is
    asked for is that of [Server]. *)

From S2P Require Import Prelude GoStrings GoError Api Effects Connection Mysql.

(** User name and host name. *)
Definition account : Type := string * string.

Definition any_host : string := "%".

(** The object of a privilege: a table, all tables of a database, or nothing
    for a role. *)
Inductive my_object :=
| MNoObject
| MDatabase (db : string)
| MTable (db table : string).

#[export] Instance my_object_eq_dec : EqDecision my_object.
Proof. solve_decision. Defined.

Inductive my_sql :=
| MCreateUser (a : account) (password : string)
| MDropUser (a : account)
| MGrant (privilege : string) (object : my_object) (a : account)
| MRevoke (privilege : string) (object : my_object) (a : account).

(** The account a statement is about. *)
Definition my_about (st : my_sql) : account :=
  match st with
  | MCreateUser a _ | MDropUser a | MGrant _ _ a | MRevoke _ _ a => a
  end.

(** The object that [words] after the privilege describe, with its arguments. *)
Definition my_read_object (words args : list string) : option my_object :=
  match args with
  | [] => if bool_decide (words = []) then Some MNoObject else None
  | [db] => if bool_decide (words = ["ON"; "?.*"]) then Some (MDatabase db) else None
  | [db; table] => if bool_decide (words = ["ON"; "?.?"]) then Some (MTable db table) else None
  | _ => None
  end.

(** A GRANT or REVOKE, split around its object. *)
Definition my_read_privilege (kw : string) (words args : list string)
    : option (string * my_object * account) :=
  match words, args with
  | q :: rest, privilege :: args' =>
      match reverse rest, reverse args' with
      | q' :: kw' :: on, user :: object =>
          if bool_decide (q = "?") && bool_decide (q' = "?") && bool_decide (kw' = kw) then
            o ← my_read_object (reverse on) (reverse object); Some (privilege, o, (user, any_host))
          else None
      | _, _ => None
      end
  | _, _ => None
  end.

Definition my_read (q : string) (args : list string) : option my_sql :=
  match strings_Split q " " with
  | kw :: words =>
      if bool_decide (kw = "GRANT") then
        (λ '(p, o, a), MGrant p o a) <$> my_read_privilege "TO" words args
      else if bool_decide (kw = "REVOKE") then
        (λ '(p, o, a), MRevoke p o a) <$> my_read_privilege "FROM" words args
      else if bool_decide (kw :: words = ["CREATE"; "USER"; "?@?"; "IDENTIFIED"; "BY"; "?"]) then
        match args with [u; h; pw] => Some (MCreateUser (u, h) pw) | _ => None end
      else if bool_decide (kw :: words = ["DROP"; "USER"; "?@?"]) then
        match args with [u; h] => Some (MDropUser (u, h)) | _ => None end
      else None
  | [] => None
  end.

(** ** What the operator asks for *)

Lemma create_query_read u h pw :
  my_read "CREATE USER ?@? IDENTIFIED BY ?" [u; h; pw] = Some (MCreateUser (u, h) pw).
Proof. done. Qed.

Lemma drop_query_read u h : my_read "DROP USER ?@?" [u; h] = Some (MDropUser (u, h)).
Proof. done. Qed.

(** A table needs a database: [on] alone names nothing. *)
Definition object_of (pr : PrivilegeSpec) : my_object :=
  if bool_decide (PrivilegeSpec_Database pr = "") then MNoObject
  else if bool_decide (On pr = "") then MDatabase (PrivilegeSpec_Database pr)
  else MTable (PrivilegeSpec_Database pr) (On pr).

Lemma grant_stmt_read u pr :
  let '(q, args) := mysql_privilege_stmt "GRANT" "TO" u pr in
  my_read q args = Some (MGrant (Privilege pr) (object_of pr) (u, any_host)).
Proof.
  unfold mysql_privilege_stmt, MysqlPrepareStatementForPrivilege, object_of.
  repeat case_bool_decide; try done.
Qed.

Lemma revoke_stmt_read u pr :
  let '(q, args) := mysql_privilege_stmt "REVOKE" "FROM" u pr in
  my_read q args = Some (MRevoke (Privilege pr) (object_of pr) (u, any_host)).
Proof.
  unfold mysql_privilege_stmt, MysqlPrepareStatementForPrivilege, object_of.
  repeat case_bool_decide; try done.
Qed.
