(* ===== verification/Database.v ===== *)
(** * Choice of the database (pkg/database: database.go and fake.go)

    The interface [Database] as a type class, the interface value
    [newDatabase] builds, and the instance that dispatches on it. *)

From S2P Require Import Prelude GoStrings GoError Api Effects Utils Connection PgUtils.
From S2P Require Import PgConfig Postgresql Mysql.

(** ** The interface *)

Class DatabaseOps (D : Type) := {
  db_Close : D → prog (option error);
  db_CreateUser : D → string → string → prog (gmap string string * option error);
  db_DeleteUser : D → string → prog (option error);
  db_ApplyPrivileges : D → string → list PrivilegeSpec → prog (option error);
  db_RevokePrivileges : D → string → list PrivilegeSpec → prog (option error)
}.

#[export] Instance Postgresql_Database C `{Connection C} : DatabaseOps (Postgresql C) := {
  db_Close := Postgresql_Close;
  db_CreateUser := Postgresql_CreateUser;
  db_DeleteUser := Postgresql_DeleteUser;
  db_ApplyPrivileges := Postgresql_ApplyPrivileges;
  db_RevokePrivileges := Postgresql_RevokePrivileges
}.

#[export] Instance Mysql_Database C `{Connection C} : DatabaseOps (Mysql C) := {
  db_Close := Mysql_Close;
  db_CreateUser := Mysql_CreateUser;
  db_DeleteUser := Mysql_DeleteUser;
  db_ApplyPrivileges := Mysql_ApplyPrivileges;
  db_RevokePrivileges := Mysql_RevokePrivileges
}.

(** An interface value: nil, or one of the two dynamic types with a pointer that
    may itself be nil. *)
Inductive iface (C : Type) :=
| IfaceNil
| IfacePostgresql (p : option (Postgresql C))
| IfaceMysql (m : option (Mysql C)).
Arguments IfaceNil {C}.
Arguments IfacePostgresql {C} p.
Arguments IfaceMysql {C} m.

Section Dispatch.
Context {C : Type} `{Connection C}.

(** A method call on a nil interface panics; through a nil pointer it panics
    at the first read of a field of the receiver. *)
Definition dispatch {R} (fp : Postgresql C → prog R) (fm : Mysql C → prog R) (db : iface C)
    : prog R :=
  match db with
  | IfacePostgresql (Some p) => fp p
  | IfaceMysql (Some m) => fm m
  | IfaceNil | IfacePostgresql None | IfaceMysql None => Panic nil_deref
  end.

(** [privilegesProcessor] on a nil receiver: the field is first read inside
    the loop, after the choice of the privilege's kind. *)
Definition nil_Postgresql_privileges (privileges : list PrivilegeSpec)
    : prog (option error) :=
  match privileges with
  | [] => Ret None
  | pr :: _ =>
      if nonempty (Privilege pr) then Panic nil_deref
      else Ret (Some (ErrorString "can't use this type of privilege"))
  end.

Definition nil_Mysql_privileges (privileges : list PrivilegeSpec) : prog (option error) :=
  match privileges with [] => Ret None | _ :: _ => Panic nil_deref end.

Definition dispatch_privileges (fp : Postgresql C → prog (option error))
    (fm : Mysql C → prog (option error)) (l : list PrivilegeSpec) (db : iface C)
    : prog (option error) :=
  match db with
  | IfacePostgresql None => nil_Postgresql_privileges l
  | IfaceMysql None => nil_Mysql_privileges l
  | _ => dispatch fp fm db
  end.

#[local] Instance iface_Database : DatabaseOps (iface C) := {
  db_Close := dispatch db_Close db_Close;
  db_CreateUser d u pw := dispatch (λ p, db_CreateUser p u pw) (λ m, db_CreateUser m u pw) d;
  db_DeleteUser d u := dispatch (λ p, db_DeleteUser p u) (λ m, db_DeleteUser m u) d;
  db_ApplyPrivileges d u l :=
    dispatch_privileges (λ p, db_ApplyPrivileges p u l) (λ m, db_ApplyPrivileges m u l) l d;
  db_RevokePrivileges d u l :=
    dispatch_privileges (λ p, db_RevokePrivileges p u l) (λ m, db_RevokePrivileges m u l) l d
}.

(** ** Construction *)

Definition passwordFromSecret (secretNN : Secret) : prog (string * option error) :=
  if bool_decide (Secret_Key secretNN ≠ "")
     && bool_decide (NamespacedName_Name (Secret_Secret secretNN) ≠ "")
     && bool_decide (NamespacedName_Namespace (Secret_Secret secretNN) ≠ "") then
    let! (data, err) :=
      DecodeSecretData (NamespacedName_ToNamespacedName (Secret_Secret secretNN)) in
    match err with
    | Some _ => Ret ("", err)
    | None => Ret (map_get data (Secret_Key secretNN), None)
    end
  else Ret ("", None).

Definition ssl_required (mode : string) : bool :=
  bool_decide (mode = SSLModeREQUIRE) || bool_decide (mode = SSLModeVERIFYCA)
  || bool_decide (mode = SSLModeVERIFYFULL).

(** The block of [newPostgresql] that reads the certificates: [sslData] and
    [sslCAKey]. *)
Definition readSSL (c : PostgreSQLConfig)
    : prog (gmap string string * string * option error) :=
  if ssl_required (Pg_SSLMode c) then
    let! (sslData, err) :=
      DecodeSecretData (NamespacedName_ToNamespacedName (Pg_SSLCredentialsSecret c)) in
    match err with Some _ => Ret (∅, "", err) | None =>
    let! (sslCAData, err) :=
      DecodeSecretData (NamespacedName_ToNamespacedName (Secret_Secret (Pg_SSLCAKey c))) in
    match err with Some _ => Ret (∅, "", err) | None =>
    Ret (sslData, map_get sslCAData (Secret_Key (Pg_SSLCAKey c)), None)
    end end
  else Ret (∅, "", None).

Definition newPostgresql (conn : C) (c : option PostgreSQLConfig)
    : prog (option (Postgresql C) * option error) :=
  match c with None => Panic nil_deref | Some c =>
  let! (sslData, sslCAKey, err) := readSSL c in
  match err with Some _ => Ret (None, err) | None =>
  let! (password, err) := passwordFromSecret (Pg_PasswordSecret c) in
  match err with Some _ => Ret (None, err) | None =>
  let cfg := NewConfig (Pg_Host c) (Pg_Port c) (Pg_User c) password (Pg_DatabaseName c)
               (Pg_SSLMode c) (map_get sslData "ca.crt") (map_get sslData "tls.crt")
               (map_get sslData "tls.key") sslCAKey in
  let p := NewPostgresql conn cfg in
  let! (p, err) := Postgresql_Connect p in
  Ret (Some p, err)
  end end end.

Definition newMysql (conn : C) (c : option MySQLConfig)
    : prog (option (Mysql C) * option error) :=
  match c with None => Panic nil_deref | Some c =>
  let! (password, err) := passwordFromSecret (My_PasswordSecret c) in
  match err with Some _ => Ret (None, err) | None =>
  let cfg := MysqlNewConfig (My_Host c) (My_Port c) (My_User c) password
               (My_DatabaseName c) (My_UsersHostname c) in
  let m := NewMysql conn cfg in
  let! (m, err) := Mysql_Connect m in
  Ret (Some m, err)
  end end.

Definition newDatabase (conn : C) (s : DatabaseSpec) : prog (iface C * option error) :=
  if bool_decide (DatabaseSpec_Type s = PostgreSQL) then
    let! (p, err) := newPostgresql conn (DatabaseSpec_PostgreSQL s) in
    Ret (IfacePostgresql p, err)
  else if bool_decide (DatabaseSpec_Type s = MySQL) then
    let! (m, err) := newMysql conn (DatabaseSpec_MySQL s) in
    Ret (IfaceMysql m, err)
  else
    Ret (IfaceNil, Some (ErrorString
      ("can't find supported DB type '" +:+ DatabaseSpec_Type s +:+ "'"))).
End Dispatch.

#[export] Existing Instance iface_Database.

(** [NewDatabase]: over a fresh sqlx connection. *)
Definition NewDatabase (s : DatabaseSpec) : prog (iface DefaultConnector * option error) :=
  let conn := NewDefaultConnector in
  newDatabase conn s.

(** [FakeDatabase]: every database shares one [FakeConnection]. *)
Record FakeDatabase := mkFakeDatabase { FakeDatabase_Conn : FakePtr }.

(** With the location that [NewFakeConnection] returns. *)
Definition NewFakeDatabase (conn : FakePtr) : FakeDatabase := mkFakeDatabase conn.

Definition DatabaseCreatorFunc (f : FakeDatabase) (s : DatabaseSpec)
    : prog (iface FakePtr * option error) :=
  newDatabase (FakeDatabase_Conn f) s.

(** ** What the controller relies on *)

(** Requests a database object makes: none of them is a call to the cluster. *)
Definition db_req (r : req) : Prop :=
  pg_req r ∨ match r with GenMysql _ => True | _ => False end.

(** [s] removes the user [u] on the server: the PostgreSQL statement, answered
    with success or with "undefined object", or the MySQL statement, answered
    with success. *)
Definition drops_user (u : string) (s : stmt) : Prop :=
  (∃ r, s = (deleteUserQuery u, [], r) ∧ ignoreNotExists r = None) ∨
  (∃ host, s = ("DROP USER ?@?", [u; host], None)).

(** [s] creates the user [u] with the password [pw]: the PostgreSQL statement,
    answered with success or with "duplicate object", or the MySQL statement,
    answered with success. *)
Definition creates_user (u pw : string) (s : stmt) : Prop :=
  (∃ r, s = ((createUserQuery u pw).1, [], r) ∧ ignoreAlreadyExists r = None) ∨
  (∃ host, s = ("CREATE USER ?@? IDENTIFIED BY ?", [u; host; pw], None)).

(** [s] gives the privilege [pr] to [u], and succeeded. *)
Definition grants_privilege (u : string) (pr : PrivilegeSpec) (s : stmt) : Prop :=
  s = (privilege_query "GRANT" "TO" u pr, [], None) ∨
  s = ((mysql_privilege_stmt "GRANT" "TO" u pr).1, (mysql_privilege_stmt "GRANT" "TO" u pr).2, None).

(** The text of a statement that gives nothing to a user: a revocation or a
    deletion. *)
Definition removal (q : string) : bool := String.prefix "REVOKE " q || String.prefix "DROP USER " q.

Definition removal_req : req → Prop := sends_only (λ q, removal q = true).

(** An implementation of [DatabaseOps] stays within the database's requests,
    closes what its operations open, never logs the password of a new user, sends
    nothing but revocations and deletions when it revokes, deletes or closes, and
    reports a creation, a grant or a deletion only when the server confirmed it. *)
Class DatabaseLaws (D : Type) `{DatabaseOps D} := {
  db_Close_only d : only db_req (db_Close d);
  db_CreateUser_only d u pw : only db_req (db_CreateUser d u pw);
  db_DeleteUser_only d u : only db_req (db_DeleteUser d u);
  db_ApplyPrivileges_only d u l : only db_req (db_ApplyPrivileges d u l);
  db_RevokePrivileges_only d u l : only db_req (db_RevokePrivileges d u l);
  db_handle : D → option nat;
  db_Close_handles d t o :
    runs (db_Close d) t o →
    handles t = match db_handle d with Some h => [(false, h)] | None => [] end;
  db_Close_statements d t o : runs (db_Close d) t o → statements t = [];
  db_CreateUser_bracketed d u pw t o : runs (db_CreateUser d u pw) t o → bracketed (handles t);
  db_DeleteUser_bracketed d u t o : runs (db_DeleteUser d u) t o → bracketed (handles t);
  db_ApplyPrivileges_bracketed d u l t o :
    runs (db_ApplyPrivileges d u l) t o → bracketed (handles t);
  db_RevokePrivileges_bracketed d u l t o :
    runs (db_RevokePrivileges d u l) t o → bracketed (handles t);
  db_CreateUser_quiet d u pw t o :
    pw ≠ "" → runs (db_CreateUser d u pw) t o → logged t = [];
  db_DeleteUser_drops d u t :
    runs (db_DeleteUser d u) t (Returned None) →
    ∃ s, statements t = [s] ∧ drops_user u s;
  db_CreateUser_one d u pw t r :
    runs (db_CreateUser d u pw) t (Returned r) → length (statements t) = 1;
  db_CreateUser_creates d u pw t m :
    runs (db_CreateUser d u pw) t (Returned (m, None)) →
    ∃ s, statements t = [s] ∧ creates_user u pw s;
  db_ApplyPrivileges_grants d u l t :
    runs (db_ApplyPrivileges d u l) t (Returned None) →
    Forall2 (grants_privilege u) l (statements t);
  db_Close_removal d : only removal_req (db_Close d);
  db_DeleteUser_removal d u : only removal_req (db_DeleteUser d u);
  db_RevokePrivileges_removal d u l : only removal_req (db_RevokePrivileges d u l)
}.

Lemma only_pg_db {A} (q : prog A) : only pg_req q → only db_req q.
Proof. apply only_impl. unfold db_req. auto. Qed.

Lemma only_my_db {A} (q : prog A) : only my_req q → only db_req q.
Proof. apply only_impl. unfold db_req, my_req, pg_req. intros r [?|?]; auto. Qed.

Lemma prefix_nil s : String.prefix "" s = true.
Proof. by destruct s. Qed.

Lemma delete_removal u : removal (deleteUserQuery u) = true.
Proof. unfold removal. cbn. by rewrite prefix_nil. Qed.

Lemma prepare_revoke_removal a u d on pv :
  removal (prepareStatementForPrivilege "REVOKE" a u d on pv) = true.
Proof.
  unfold prepareStatementForPrivilege, removal.
  destruct (nonempty on), (nonempty d); cbn; by rewrite prefix_nil.
Qed.

Lemma mysql_revoke_removal u d on pv :
  removal (MysqlPrepareStatementForPrivilege "REVOKE" "FROM" u d on pv).1 = true.
Proof.
  unfold MysqlPrepareStatementForPrivilege.
  by destruct (bool_decide (on ≠ "") && bool_decide (d ≠ "")), (bool_decide (d ≠ "")).
Qed.

Section Laws.
Context {C : Type} `{ConnectionLaws C}.

Lemma Postgresql_CreateUser_handles (p : Postgresql C) u pw t o :
  runs (Postgresql_CreateUser p u pw) t o → handles t = [].
Proof.
  unfold Postgresql_CreateUser. destruct (createUserQuery u pw) as [q l]. intros Ht.
  apply runs_bind_inv in Ht as [(m & H1 & _)|(r & t1 & t2 & -> & H1 & Ht)];
    [by apply Exec_handles in H1|].
  rewrite handles_app, (Exec_handles _ _ _ _ _ _ H1).
  destruct (CreateCerts (pg_config p) && negb (isAlreadyExists r)); [|by destruct Ht as [-> _]].
  apply runs_bind_inv in Ht as [(m & Hg & _)|([m e] & t3 & t4 & -> & Hg & Ht)];
    destruct (crypto_obs _ _ _ (genPostgresCertFromCA_only _ _) Hg) as (_ & Hh & _); [done|].
  rewrite handles_app, Hh. destruct e; by destruct Ht as [-> _].
Qed.

Lemma Postgresql_DeleteUser_handles (p : Postgresql C) u t o :
  runs (Postgresql_DeleteUser p u) t o → handles t = [].
Proof.
  unfold Postgresql_DeleteUser. intros Ht.
  apply runs_bind_inv in Ht as [(m & H1 & _)|(r & t1 & t2 & -> & H1 & [-> _])];
    rewrite ?app_nil_r; by apply Exec_handles in H1.
Qed.

#[local] Instance Postgresql_DatabaseLaws : DatabaseLaws (Postgresql C).
Proof.
  refine {| db_handle p := conn_handle (pg_db p) |};
    cbn [db_Close db_CreateUser db_DeleteUser db_ApplyPrivileges db_RevokePrivileges
         Postgresql_Database Mysql_Database].
  - intros. apply only_pg_db, Postgresql_Close_only.
  - intros. apply only_pg_db, Postgresql_CreateUser_only.
  - intros. apply only_pg_db, Postgresql_DeleteUser_only.
  - intros. apply only_pg_db, Postgresql_ApplyPrivileges_only.
  - intros. apply only_pg_db, Postgresql_RevokePrivileges_only.
  - intros d t o (_ & -> & _)%Postgresql_Close_runs. done.
  - intros d t o (-> & _)%Postgresql_Close_runs. done.
  - intros d u pw t o ->%Postgresql_CreateUser_handles. constructor.
  - intros d u t o ->%Postgresql_DeleteUser_handles. constructor.
  - intros d u l t o. apply privilegesProcessor_bracketed.
  - intros d u l t o Ht. unfold Postgresql_RevokePrivileges in Ht.
    apply runs_bind_inv in Ht as [(m & H1 & _)|(r & t1 & t2 & -> & H1 & [-> _])];
      rewrite ?app_nil_r; by apply privilegesProcessor_bracketed in H1.
  - intros d u pw t o. apply Postgresql_CreateUser_quiet.
  - intros d u t (r & -> & Hr)%Postgresql_DeleteUser_runs. eexists. split; [done|].
    left. eauto.
  - by intros d u pw t [m e] (r & -> & _)%Postgresql_CreateUser_runs.
  - intros d u pw t m (r & -> & Hr)%Postgresql_CreateUser_runs. eexists. split; [done|].
    left. exists r. split; [done|]. destruct (CreateCerts _ && _); [|by destruct Hr].
    by destruct Hr as [[[]]|[<- _]].
  - intros d u l t (_ & -> & _)%privilegesProcessor_ok. apply Forall2_fmap_r, Forall_Forall2_diag.
    apply Forall_true. intros pr. by left.
  - intros d. apply Postgresql_Close_sends.
  - intros d u. apply Postgresql_DeleteUser_sends, delete_removal.
  - intros d u l. apply only_bind; [|done]. apply Postgresql_privileges_sends.
    intros db on pv. apply prepare_revoke_removal.
Defined.

#[local] Instance Mysql_DatabaseLaws : DatabaseLaws (Mysql C).
Proof.
  refine {| db_handle m := conn_handle (my_db m) |};
    cbn [db_Close db_CreateUser db_DeleteUser db_ApplyPrivileges db_RevokePrivileges
         Postgresql_Database Mysql_Database].
  - intros. apply only_my_db, only_conn_my, Close_only.
  - intros. apply only_my_db, Mysql_CreateUser_only.
  - intros. apply only_my_db, only_conn_my, Exec_only.
  - intros. apply only_my_db, Mysql_privilegesProcessor_only.
  - intros. apply only_my_db, Mysql_privilegesProcessor_only.
  - intros d t o. apply Close_handles.
  - intros d t o. apply Close_statements.
  - intros d u pw t o ->%Mysql_CreateUser_handles. constructor.
  - intros d u t o ->%Exec_handles. constructor.
  - intros d u l t o. apply range_err_bracketed. intros x t' o' [-> _]%Mysql_privilege_step_runs.
    constructor.
  - intros d u l t o. apply range_err_bracketed. intros x t' o' [-> _]%Mysql_privilege_step_runs.
    constructor.
  - intros d u pw t o _. apply Mysql_CreateUser_quiet.
  - intros d u t Ht%Exec_statements. eexists. split; [exact Ht|]. right. eauto.
  - by intros d u pw t [m e] [-> _]%Mysql_CreateUser_runs.
  - intros d u pw t m [-> _]%Mysql_CreateUser_runs. eexists. split; [done|]. right. eauto.
  - intros d u l t Ht%Mysql_privilegesProcessor_ok. rewrite Ht.
    apply Forall2_fmap_r, Forall_Forall2_diag. apply Forall_true. intros pr. by right.
  - intros d. apply only_sends_none, Close_sends.
  - intros d u. by apply Exec_sends_only.
  - intros d u l. apply only_range_err. intros pr. unfold Mysql_privilege_step.
    pose proof (mysql_revoke_removal u (PrivilegeSpec_Database pr) (On pr) (Privilege pr)) as Hr.
    destruct (MysqlPrepareStatementForPrivilege _ _ _ _ _ _). by apply Exec_sends_only.
Defined.
End Laws.

Section Iface.
Context {C : Type} `{ConnectionLaws C}.

#[local] Existing Instance Postgresql_DatabaseLaws.
#[local] Existing Instance Mysql_DatabaseLaws.

Lemma dispatch_only {R} (fp : Postgresql C → prog R) (fm : Mysql C → prog R) d :
  (∀ p, only db_req (fp p)) → (∀ m, only db_req (fm m)) → only db_req (dispatch fp fm d).
Proof. intros Hp Hm. destruct d as [|[p|]|[m|]]; simpl; auto. Qed.

Lemma dispatch_privileges_only (fp : Postgresql C → prog (option error)) fm l d :
  (∀ p, only db_req (fp p)) → (∀ m, only db_req (fm m)) →
  only db_req (dispatch_privileges fp fm l d).
Proof.
  intros Hp Hm. destruct d as [|[p|]|[m|]]; simpl; auto;
    unfold nil_Postgresql_privileges, nil_Mysql_privileges; solve_only.
Qed.

Lemma dispatch_removal {R} (fp : Postgresql C → prog R) (fm : Mysql C → prog R) d :
  (∀ p, only removal_req (fp p)) → (∀ m, only removal_req (fm m)) → only removal_req (dispatch fp fm d).
Proof. intros Hp Hm. destruct d as [|[p|]|[m|]]; simpl; auto. Qed.

(** A property of the traces that holds of the empty trace passes through
    [dispatch]. *)
Lemma dispatch_runs {R} (P : list event → outcome R → Prop) fp fm (d : iface C) t o :
  (∀ m, P [] (Panicked m)) →
  (∀ p, d = IfacePostgresql (Some p) → runs (fp p) t o → P t o) →
  (∀ m, d = IfaceMysql (Some m) → runs (fm m) t o → P t o) →
  runs (dispatch fp fm d) t o → P t o.
Proof.
  intros Hn Hp Hm. destruct d as [|[p|]|[m|]]; simpl; eauto; by intros [-> ->].
Qed.

Lemma dispatch_privileges_bracketed (fp : Postgresql C → prog (option error)) fm l d t o :
  (∀ p, runs (fp p) t o → bracketed (handles t)) →
  (∀ m, runs (fm m) t o → bracketed (handles t)) →
  runs (dispatch_privileges fp fm l d) t o → bracketed (handles t).
Proof.
  intros Hp Hm. destruct d as [|[p|]|[m|]]; simpl; eauto;
    unfold nil_Postgresql_privileges, nil_Mysql_privileges; repeat case_match;
    intros [-> ->]; constructor.
Qed.

Definition iface_handle (d : iface C) : option nat :=
  match d with
  | IfacePostgresql (Some p) => db_handle p
  | IfaceMysql (Some m) => db_handle m
  | _ => None
  end.

#[local] Instance iface_DatabaseLaws : DatabaseLaws (iface C).
Proof.
  refine {| db_handle := iface_handle |}.
  - intros. apply dispatch_only; intros; apply db_Close_only.
  - intros. apply dispatch_only; intros; apply db_CreateUser_only.
  - intros. apply dispatch_only; intros; apply db_DeleteUser_only.
  - intros. apply dispatch_privileges_only; intros; apply db_ApplyPrivileges_only.
  - intros. apply dispatch_privileges_only; intros; apply db_RevokePrivileges_only.
  - intros d t o. destruct d as [|[p|]|[m|]];
      cbn [iface_handle db_Close iface_Database dispatch];
      first [apply db_Close_handles|by intros [-> _]].
  - intros d t o. apply (dispatch_runs (λ t _, statements t = []));
      [done|intros ? _; apply db_Close_statements..].
  - intros d u pw t o. apply (dispatch_runs (λ t _, bracketed (handles t)));
      [constructor|intros ? _; apply db_CreateUser_bracketed..].
  - intros d u t o. apply (dispatch_runs (λ t _, bracketed (handles t)));
      [constructor|intros ? _; apply db_DeleteUser_bracketed..].
  - intros d u l t o. apply dispatch_privileges_bracketed; intros ?;
      apply db_ApplyPrivileges_bracketed.
  - intros d u l t o. apply dispatch_privileges_bracketed; intros ?;
      apply db_RevokePrivileges_bracketed.
  - intros d u pw t o Hpw. apply (dispatch_runs (λ t _, logged t = []));
      [done|intros ? _; by apply db_CreateUser_quiet..].
  - intros d u t. destruct d as [|[p|]|[m|]];
      cbn [db_DeleteUser iface_Database dispatch];
      first [apply db_DeleteUser_drops|by intros [_ [=]]].
  - intros d u pw t r. destruct d as [|[p|]|[m|]];
      cbn [db_CreateUser iface_Database dispatch];
      first [apply db_CreateUser_one|by intros [_ [=]]].
  - intros d u pw t m. destruct d as [|[p|]|[m'|]];
      cbn [db_CreateUser iface_Database dispatch];
      first [apply db_CreateUser_creates|by intros [_ [=]]].
  - intros d u l t. destruct d as [|[p|]|[m|]];
      cbn [db_ApplyPrivileges iface_Database dispatch_privileges dispatch];
      first [apply db_ApplyPrivileges_grants|idtac].
    + by intros [_ [=]].
    + destruct l as [|pr l]; simpl; [by intros [-> _]|]. destruct (nonempty _); by intros [_ [=]].
    + destruct l as [|pr l]; simpl; [by intros [-> _]|]. by intros [_ [=]].
  - intros d. apply dispatch_removal; intros; apply db_Close_removal.
  - intros d u. apply dispatch_removal; intros; apply db_DeleteUser_removal.
  - intros d u l. destruct d as [|[p|]|[m|]]; [done|exact (db_RevokePrivileges_removal p u l)| |
      exact (db_RevokePrivileges_removal m u l)|];
      simpl; unfold nil_Postgresql_privileges, nil_Mysql_privileges; solve_only.
Defined.
End Iface.

#[export] Existing Instance Postgresql_DatabaseLaws.
#[export] Existing Instance Mysql_DatabaseLaws.
#[export] Existing Instance iface_DatabaseLaws.

(** ** The creators *)

Definition creator_req (r : req) : Prop :=
  db_req r ∨ match r with GetSecret _ => True | _ => False end.

(** What the controller relies on of its [DatabaseCreator]: it reads secrets and
    makes database requests, keeps a handle exactly when it succeeds, and gives
    nothing to a user. *)
Class CreatorLaws {D} `{DatabaseLaws D} (creator : DatabaseSpec → prog (D * option error)) := {
  creator_only s : only creator_req (creator s);
  creator_handles s t d err :
    runs (creator s) t (Returned (d, err)) →
    handles t = match err, db_handle d with None, Some h => [(true, h)] | _, _ => [] end;
  creator_panic_handles s t m : runs (creator s) t (Panicked m) → handles t = [];
  creator_removal s : only removal_req (creator s)
}.

Definition secret_req (r : req) : Prop := match r with GetSecret _ => True | _ => False end.

Lemma secret_obs {A} (q : prog A) t o :
  only secret_req q → runs q t o → statements t = [] ∧ handles t = [].
Proof.
  intros Hq Ht. split_and!; (eapply only_omap; [exact Hq|exact Ht|]); by intros [].
Qed.

Lemma DecodeSecretData_only nn : only secret_req (DecodeSecretData nn).
Proof. unfold DecodeSecretData, utils_Secret. solve_only. Qed.

Lemma passwordFromSecret_only s : only secret_req (passwordFromSecret s).
Proof.
  unfold passwordFromSecret. case_match; [|done].
  apply only_bind; [apply DecodeSecretData_only|]. by intros [d [e|]].
Qed.

Lemma readSSL_only c : only secret_req (readSSL c).
Proof.
  unfold readSSL. case_match; [|done]. apply only_bind; [apply DecodeSecretData_only|].
  intros [d [e|]]; [done|]. apply only_bind; [apply DecodeSecretData_only|]. by intros [d' [e|]].
Qed.

Lemma only_secret_creator {A} (q : prog A) : only secret_req q → only creator_req q.
Proof. apply only_impl. intros [] []. by right. Qed.

Section Creators.
Context {C : Type} `{ConnectionLaws C}.
Variable conn : C.

(** The part of [newPostgresql] after the secrets: the handle of the result. *)
Lemma newPostgresql_runs c t o :
  runs (newPostgresql conn c) t o →
  match o with
  | Returned (Some p, None) => handles t = open_handle (pg_db p)
  | Returned (None, None) => False
  | _ => handles t = []
  end.
Proof.
  unfold newPostgresql. destruct c as [c|]; [|by intros [-> ->]]. intros Ht.
  apply runs_bind_inv in Ht as [(m & H1 & ->)|([[d k] [e|]] & t1 & t2 & -> & H1 & Ht)];
    destruct (secret_obs _ _ _ (readSSL_only c) H1) as [_ L1]; [done| |];
    rewrite handles_app, L1; [by destruct Ht as [-> ->]|].
  apply runs_bind_inv in Ht as [(m & H2 & ->)|([pw [e|]] & t3 & t4 & -> & H2 & Ht)];
    destruct (secret_obs _ _ _ (passwordFromSecret_only _) H2) as [_ L2]; [done| |];
    rewrite handles_app, L2; [by destruct Ht as [-> ->]|].
  apply runs_bind_inv in Ht as [(m & H3 & ->)|([p err] & t5 & t6 & -> & H3 & [-> ->])].
  - by apply Postgresql_Connect_panics in H3 as [_ ->].
  - apply Postgresql_Connect_runs in H3 as (_ & L3 & _).
    rewrite app_nil_r. simpl. rewrite L3. by destruct err.
Qed.

Lemma newMysql_runs c t o :
  runs (newMysql conn c) t o →
  match o with
  | Returned (Some m, None) => handles t = open_handle (my_db m)
  | Returned (None, None) => False
  | _ => handles t = []
  end.
Proof.
  unfold newMysql. destruct c as [c|]; [|by intros [-> ->]]. intros Ht.
  apply runs_bind_inv in Ht as [(m & H2 & ->)|([pw [e|]] & t3 & t4 & -> & H2 & Ht)];
    destruct (secret_obs _ _ _ (passwordFromSecret_only _) H2) as [_ L2]; [done| |];
    rewrite handles_app, L2; [by destruct Ht as [-> ->]|].
  apply runs_bind_inv in Ht as [(m & H3 & ->)|([p err] & t5 & t6 & -> & H3 & [-> ->])].
  - by apply Mysql_Connect_panics in H3 as [-> _].
  - apply Mysql_Connect_handles in H3 as [L3 _].
    rewrite app_nil_r. simpl. rewrite L3. unfold open_handle. by destruct err.
Qed.

Lemma newDatabase_runs s t o :
  runs (newDatabase conn s) t o →
  match o with
  | Returned (d, None) =>
      handles t = match db_handle d with Some h => [(true, h)] | None => [] end ∧
      ((∃ p, d = IfacePostgresql (Some p)) ∨ (∃ m, d = IfaceMysql (Some m)))
  | _ => handles t = []
  end.
Proof.
  unfold newDatabase. case_bool_decide; [|case_bool_decide]; intros Ht.
  - apply runs_bind_inv in Ht as [(m & Hc & ->)|([p err] & t1 & t2 & -> & Hc & [-> ->])];
      apply newPostgresql_runs in Hc; [done|]. rewrite app_nil_r.
    destruct p as [p|], err; try done. split; [exact Hc|eauto].
  - apply runs_bind_inv in Ht as [(m & Hc & ->)|([p err] & t1 & t2 & -> & Hc & [-> ->])];
      apply newMysql_runs in Hc; [done|]. rewrite app_nil_r.
    destruct p as [p|], err; try done. split; [exact Hc|eauto].
  - by destruct Ht as [-> ->].
Qed.

Lemma newDatabase_only s : only creator_req (newDatabase conn s).
Proof.
  assert (∀ A (q : prog A), only db_req q → only creator_req q) as Hdb.
  { intros A q. apply only_impl. by left. }
  unfold newDatabase, newPostgresql, newMysql. case_bool_decide; [|case_bool_decide; [|done]].
  - apply only_bind; [|by intros [p e]]. case_match; [|done].
    apply only_bind; [apply only_secret_creator, readSSL_only|]. intros [[d k] [e|]]; [done|].
    apply only_bind; [apply only_secret_creator, passwordFromSecret_only|]. intros [pw [e|]]; [done|].
    apply only_bind; [apply Hdb, only_pg_db, Postgresql_Connect_only|]. by intros [? ?].
  - apply only_bind; [|by intros [p e]]. case_match; [|done].
    apply only_bind; [apply only_secret_creator, passwordFromSecret_only|]. intros [pw [e|]]; [done|].
    apply only_bind; [apply Hdb, only_my_db, Mysql_Connect_only|]. by intros [? ?].
Qed.

(** Opening a database object sends no statement. *)
Lemma newDatabase_removal s : only removal_req (newDatabase conn s).
Proof.
  assert (∀ A (q : prog A), only secret_req q → only removal_req q) as Hsecret.
  { intros A q. apply only_impl. by intros []. }
  unfold newDatabase, newPostgresql, newMysql. case_bool_decide; [|case_bool_decide; [|done]].
  - apply only_bind; [|by intros [p e]]. case_match; [|done].
    apply only_bind; [apply Hsecret, readSSL_only|]. intros [[d k] [e|]]; [done|].
    apply only_bind; [apply Hsecret, passwordFromSecret_only|]. intros [pw [e|]]; [done|].
    apply only_bind; [apply Postgresql_Connect_sends|]. by intros [? ?].
  - apply only_bind; [|by intros [p e]]. case_match; [|done].
    apply only_bind; [apply Hsecret, passwordFromSecret_only|]. intros [pw [e|]]; [done|].
    apply only_bind; [|by intros [? ?]]. apply only_bind; [done|]. intros [str [e|]]; [done|].
    apply only_bind; [apply only_sends_none, Connect_sends|]. by intros [? ?].
Qed.

#[local] Instance newDatabase_CreatorLaws : CreatorLaws (newDatabase conn).
Proof.
  split.
  - apply newDatabase_only.
  - intros s t d err Ht%newDatabase_runs. destruct err; [done|]. by destruct Ht.
  - by intros s t m Ht%newDatabase_runs.
  - apply newDatabase_removal.
Qed.
End Creators.

#[export] Existing Instance newDatabase_CreatorLaws.

#[export] Instance NewDatabase_CreatorLaws : CreatorLaws NewDatabase.
Proof. apply newDatabase_CreatorLaws. Qed.
