(* ===== verification/CertInputs.v ===== *)
(** * What making a client certificate needs

    [genPostgresCertFromCA] dereferences the PEM blocks of the configured CA
    key and certificate.  They are there when the secrets a [Database] names
    hold PEM text; here this condition is stated on a configuration
    ([pem_ready]) and carried from the secrets to the database object. *)

From S2P Require Import Prelude GoStrings GoError Api Effects Logic Utils Connection PgUtils.
From S2P Require Import GoPath PgConfig Pem Postgresql Mysql Database.

Definition is_pem (s : string) : bool := bool_decide (is_Some (pem_Decode s)).

(** Whether [ConnString] makes [CreateCerts] true, or it was already. *)
Definition certs_wanted (c : Config) : bool :=
  nonempty (cfg_SSLUserCert c) || nonempty (cfg_SSLUserKey c) || CreateCerts c.

Definition pem_ready (c : Config) : Prop :=
  certs_wanted c = true → is_pem (cfg_SSLCAKey c) = true ∧ is_pem (cfg_SSLCACert c) = true.

(** What [readSSL] gives: nothing, or a CA certificate and key as PEM text. *)
Definition ssl_given (sslData : gmap string string) (sslCAKey : string) : Prop :=
  sslData = ∅ ∨ is_pem sslCAKey = true ∧ is_pem (map_get sslData "ca.crt") = true.

Lemma NewConfig_pem_ready host port user pass dbname mode d k :
  ssl_given d k →
  pem_ready (NewConfig host port user pass dbname mode
              (map_get d "ca.crt") (map_get d "tls.crt") (map_get d "tls.key") k).
Proof. by intros [->|H] Hw. Qed.

Lemma pem_ready_files c ca crt key : pem_ready c → pem_ready (set_files c ca crt key).
Proof. done. Qed.

(** Setting the flag where the code sets it changes nothing. *)
Lemma pem_ready_set c (b : bool) :
  (b = true → certs_wanted c = true) →
  pem_ready c → pem_ready (if b then set_createCertificates c else c).
Proof. destruct b; [|done]. intros Hb Hc _. by apply Hc, Hb. Qed.

Section Certs.
Context (G : event → Prop).

Lemma connSlice_cert_total data file key l : wp G (connSlice_cert data file key l) (λ _, True).
Proof.
  unfold connSlice_cert. destruct (nonempty data); [|done].
  intros [e|] _; [done|]. by intros [e|] _.
Qed.

Lemma ConnString_certs_pem_ready c l : pem_ready c → wp G (ConnString_certs c l) (λ x, pem_ready x.1).
Proof.
  intros Hc. unfold ConnString_certs.
  eapply wp_seq; [apply connSlice_cert_total|]. intros [l1 [e|]] _; [done|].
  apply (pem_ready_set _ (nonempty (cfg_SSLUserCert c))) in Hc; [|by unfold certs_wanted; intros ->].
  revert Hc. generalize (if nonempty (cfg_SSLUserCert c) then set_createCertificates c else c).
  intros c2 Hc. eapply wp_seq; [apply connSlice_cert_total|]. intros [l2 [e|]] _; [done|].
  apply (pem_ready_set _ (nonempty (cfg_SSLUserKey c2))) in Hc;
    [|unfold certs_wanted; intros ->; by rewrite orb_true_r].
  eapply wp_seq; [apply connSlice_cert_total|]. by intros [l3 [e|]] _.
Qed.

Lemma ConnString_pem_ready c : pem_ready c → wp G (ConnString c) (λ x, pem_ready x.1).
Proof. intros Hc h1 _ h2 _ h3 _. by apply ConnString_certs_pem_ready, pem_ready_files. Qed.

Context {C : Type} `{Connection C}.

(** Connecting keeps the condition. *)
Lemma Postgresql_Connect_pem_ready (p : Postgresql C) (Q : Postgresql C * option error → Prop) :
  pem_ready (pg_config p) → wp G (Postgresql_Connect p) Q →
  wp G (Postgresql_Connect p) (λ x, Q x ∧ pem_ready (pg_config x.1)).
Proof.
  intros Hc HQ. apply wp_and; [done|]. revert HQ. unfold Postgresql_Connect.
  generalize (ConnString_pem_ready _ Hc). induction (ConnString (pg_config p)) as [[c [s [e|]]]|m|r k IH];
    simpl; auto.
  intros Hc' HQ. clear Hc. revert HQ. induction (Connect (pg_db p) "pgx" s) as [[d e]|m|r k IH]; simpl; auto.
Qed.

(** The blocks are there when certificates are made. *)
Lemma pem_ready_decode (p : Postgresql C) :
  pem_ready (pg_config p) → CreateCerts (pg_config p) = true →
  ∃ key cert, pem_Decode (cfg_SSLCAKey (pg_config p)) = Some key ∧
    pem_Decode (cfg_SSLCACert (pg_config p)) = Some cert.
Proof.
  intros Hc Hcr. destruct Hc as [[key Hk]%bool_decide_eq_true [cert Hcert]%bool_decide_eq_true].
  - unfold certs_wanted. by rewrite Hcr, orb_true_r.
  - eauto.
Qed.
End Certs.
