(* ===== verification/Controller.v ===== *)
(** * The user controller (controllers/user_controller.go)

    The reconciler over any implementation of [DatabaseOps] and any
    [DatabaseCreator].  The [*v1alpha1.User] it works on is threaded through the
    functions that mutate it; the helpers of controller-runtime's
    [controllerutil] are an interface of their own. *)

From S2P Require Import Prelude GoStrings GoError Api Effects Utils Connection Database.

(** ** controllerutil *)

Class Controllerutil := {
  ContainsFinalizer : User → string → bool;
  AddFinalizer : User → string → User;
  RemoveFinalizer : User → string → User
}.

(** What the documentation of [controllerutil] says: the calls read and write
    the list of finalizers only. *)
Class ControllerutilLaws (U : Controllerutil) := {
  ContainsFinalizer_spec u f : ContainsFinalizer u f = true ↔ f ∈ Finalizers u;
  AddFinalizer_frame u f : set_Finalizers (AddFinalizer u f) [] = set_Finalizers u [];
  AddFinalizer_spec u f g : g ∈ Finalizers (AddFinalizer u f) ↔ g = f ∨ g ∈ Finalizers u;
  RemoveFinalizer_frame u f : set_Finalizers (RemoveFinalizer u f) [] = set_Finalizers u [];
  RemoveFinalizer_spec u f g : g ∈ Finalizers (RemoveFinalizer u f) ↔ g ≠ f ∧ g ∈ Finalizers u
}.

(** ** Constants *)

Definition userFinalizer : string := "user.databaseusersoperator.com/finalizer".
Definition successMsg : string := "Successfully created user in all specified databases".
Definition ErrDatabaseConnect : error := ErrorString "can't connect to database".

Definition EventTypeNormal : string := "Normal".
Definition EventTypeWarning : string := "Warning".

(** [ctrl.Result] *)
Record Result := mkResult { Requeue : bool; RequeueAfter : Z }.
Definition Result_zero : Result := mkResult false 0.

Definition newSecret (nn : types_NamespacedName) (stringData : gmap string string) : K8sSecret :=
  mkK8sSecret (Nn_Name nn) (Nn_Namespace nn) [] ∅ stringData.

Section Code.
Context {U : Controllerutil}.
Context {D : Type} `{DatabaseOps D}.
Variable DatabaseCreator : DatabaseSpec → prog (D * option error).
Implicit Types (u : User) (db : D).

(** ** Reading the API *)

Definition r_user (nn : types_NamespacedName) : prog (option User * option error) :=
  let! (user, err) := call (GetUser nn) in
  match err with
  | Some e =>
      if apierrors_IsNotFound e then
        do! call (LoggerInfo "User resource not found. Ignoring since object must be deleted.") in
        Ret (None, None)
      else
        do! call (LoggerError e "unable to fetch User resource") in
        Ret (None, Some e)
  | None => Ret (Some user, None)
  end.

Definition r_database (nn : types_NamespacedName) : prog (option Database * option error) :=
  let! (db, err) := call (GetDatabase nn) in
  match err with
  | Some _ => Ret (None, err)
  | None => Ret (Some db, None)
  end.

(** The loop of [privileges], from the privileges gathered so far. *)
Fixpoint r_privileges_loop (nns : list Name) (privileges : list PrivilegeSpec)
    : prog (list PrivilegeSpec * option error) :=
  match nns with
  | [] => Ret (privileges, None)
  | nn :: nns' =>
      let! (p, err) := call (GetPrivileges (Name_ToNamespacedName nn)) in
      match err with
      | Some _ => Ret ([], err)
      | None => r_privileges_loop nns' (privileges ++ Privileges_Privileges p)
      end
  end.

Definition r_privileges (nns : list Name) : prog (list PrivilegeSpec * option error) :=
  r_privileges_loop nns [].

Definition userPassword (secretCfg : Secret) : prog (string * option error) :=
  if bool_decide (Secret_Key secretCfg = "")
     || bool_decide (NamespacedName_Name (Secret_Secret secretCfg) = "")
     || bool_decide (NamespacedName_Namespace (Secret_Secret secretCfg) = "") then
    Ret ("", None)
  else
    let! (data, err) :=
      DecodeSecretData (NamespacedName_ToNamespacedName (Secret_Secret secretCfg)) in
    match err with Some _ => Ret ("", err) | None =>
    match data !! Secret_Key secretCfg with
    | None =>
        let! err := call (NewInvalid "v1.Secret" (NamespacedName_Name (Secret_Secret secretCfg))
                            ("data." +:+ Secret_Key secretCfg)
                            (NamespacedName_Name (Secret_Secret secretCfg))) in
        Ret ("", Some err)
    | Some password => Ret (password, None)
    end end.

(** ** Work in one database *)

Definition createUserInDatabase db u (dbRef : DatabaseRef) : prog (option error) :=
  let! (password, err) := userPassword (DatabaseRef_PasswordSecret dbRef) in
  match err with Some _ => Ret err | None =>
  let! (secretData, err) := db_CreateUser db (User_Name u) password in
  if bool_decide (err ≠ None) || Nat.ltb (size secretData) 1 then Ret err else
  let secretNN := NamespacedName_ToNamespacedName (DatabaseRef_CreatedSecret dbRef) in
  let! (_, err) := utils_Secret secretNN in
  match err with None => Ret None | Some _ =>
  let secret := newSecret secretNN secretData in
  let! (secret, err) := call (SetControllerReference u secret) in
  match err with
  | Some _ => Ret err
  | None => call (CreateSecret secret)
  end end end.

Definition databaseUserApply db u (dbRef : DatabaseRef) (privileges : list PrivilegeSpec)
    : prog (option error) :=
  let! err := createUserInDatabase db u dbRef in
  match err with
  | Some _ => Ret err
  | None => db_ApplyPrivileges db (User_Name u) privileges
  end.

Definition databaseUserDelete db u (dbRef : DatabaseRef) (privileges : list PrivilegeSpec)
    : prog (option error) :=
  finally
    (let! err := db_RevokePrivileges db (User_Name u) privileges in
     match err with
     | Some _ => Ret err
     | None => db_DeleteUser db (User_Name u)
     end)
    (let! _err := call (DeleteSecret
       (newSecret (NamespacedName_ToNamespacedName (DatabaseRef_CreatedSecret dbRef)) ∅)) in
     Ret ()).

(** The closure that [databaseReconciler] returns. *)
Definition databaseReconciler u (deleteRequest : bool) (dbRef : DatabaseRef)
    : prog (option error) :=
  let! (dbConfig, err) := r_database (mkTypesNN "" (DatabaseRef_Name dbRef)) in
  match err, dbConfig with
  | Some _, _ => Ret err
  | None, None => Panic nil_deref
  | None, Some dbConfig =>
  let! (privileges, err) := r_privileges (DatabaseRef_Privileges dbRef) in
  match err with Some _ => Ret err | None =>
  let! (db, err) := DatabaseCreator (Database_Spec dbConfig) in
  match err with
  | Some _ => Ret (errors_Join (Some ErrDatabaseConnect) err)
  | None =>
      finally
        (let f := if deleteRequest then databaseUserDelete else databaseUserApply in
         f db u dbRef privileges)
        (let! _err := db_Close db in Ret ())
  end end end.

(** ** The reconciler *)

Definition addEvent u (warn : bool) (reason message : string) : prog unit :=
  let eventType := if warn then EventTypeWarning else EventTypeNormal in
  call (RecordEvent u eventType reason message).

(** The first result is the object as the client left it. *)
Definition setStatus u (status : UserStatus) : prog (User * option error) :=
  call (UpdateUserStatus (set_User_Status u status)).

(** Results: the user object, [deleting] and the error. *)
Definition reconcile_ u : prog (User * (bool * option error)) :=
  match Meta_DeletionTimestamp (User_Meta u) with
  | Some _ =>
      let deleting := true in
      do! call (LoggerInfo "Received deletion event") in
      if negb (ContainsFinalizer u userFinalizer) then Ret (u, (deleting, None)) else
      let! err := range_err (databaseReconciler u true) (User_Databases u) in
      match err with Some _ => Ret (u, (deleting, err)) | None =>
      do! call (LoggerInfo "Successfully deleted user from all specified databases") in
      let u := RemoveFinalizer u userFinalizer in
      let! (u, err) := call (UpdateUser u) in
      Ret (u, (deleting, err))
      end
  | None =>
      let deleting := false in
      let! (u, err) :=
        (if negb (ContainsFinalizer u userFinalizer) then
           do! call (LoggerInfo "Setting finalizer for resource") in
           let u := AddFinalizer u userFinalizer in
           call (UpdateUser u)
         else Ret (u, None)) in
      match err with Some _ => Ret (u, (deleting, err)) | None =>
      let! err := range_err (databaseReconciler u false) (User_Databases u) in
      match err with Some _ => Ret (u, (deleting, err)) | None =>
      do! call (LoggerInfo successMsg) in
      Ret (u, (deleting, None))
      end end
  end.

Definition Reconcile (req : types_NamespacedName) : prog (Result * option error) :=
  let! (user, err) := r_user req in
  match err, user with
  | Some _, _ | None, None => Ret (Result_zero, err)
  | None, Some user =>
  let! (user, (deleting, err)) := reconcile_ user in
  match err with
  | Some e =>
      if deleting : bool then
        do! addEvent user true "ErrorCreatingUser" (Error e) in
        Ret (Result_zero, err)
      else
        do! addEvent user true "ErrorCreatingUser" (Error e) in
        let! (_, err) := setStatus user (mkUserStatus (mkStatusSummary false (Error e))) in
        Ret (Result_zero, err)
  | None =>
      if negb (User_Ready user) && negb deleting then
        do! addEvent user false "SuccessfullyCreatedUser" successMsg in
        let! (_, err) := setStatus user (mkUserStatus (mkStatusSummary true successMsg)) in
        Ret (Result_zero, err)
      else Ret (Result_zero, None)
  end end.
End Code.

(** The reconciler as [main.go] wires it. *)
Definition OperatorReconcile {U : Controllerutil} : types_NamespacedName → prog (Result * option error) :=
  Reconcile NewDatabase.
