(* ===== verification/ControllerFacts.v ===== *)
(** * Runs of the reconciler

    Lemmas about each function of [Controller], for every database that keeps
    the promises of [DatabaseLaws] and every creator that keeps those of
    [CreatorLaws]. *)

From S2P Require Import Prelude GoStrings GoError Api Effects Utils Connection PgConfig.
From S2P Require Import Postgresql Database Controller.

(** ** Requests *)

(** The requests of the work in one database, after it was read. *)
Definition rec_req (r : req) : Prop :=
  creator_req r ∨
  match r with
  | GetPrivileges _ | SetControllerReference _ _ | CreateSecret _
  | DeleteSecret _ | NewInvalid _ _ _ _ => True
  | _ => False
  end.

(** The requests of the loop over the databases. *)
Definition loop_req (r : req) : Prop :=
  rec_req r ∨ match r with GetDatabase _ => True | _ => False end.

Lemma only_creator_rec {A} (q : prog A) : only creator_req q → only rec_req q.
Proof. apply only_impl. by left. Qed.
Lemma only_db_rec {A} (q : prog A) : only db_req q → only rec_req q.
Proof. apply only_impl. intros r ?. left. by left. Qed.
Lemma only_secret_rec {A} (q : prog A) : only secret_req q → only rec_req q.
Proof. intros. by apply only_creator_rec, only_secret_creator. Qed.

(** Requests that only the reconciler itself makes. *)
Definition user_req (r : req) : Prop :=
  match r with GetUser _ | UpdateUser _ | UpdateUserStatus _ | RecordEvent _ _ _ _ => True | _ => False end.

Lemma loop_req_not_user r : loop_req r → ¬ user_req r.
Proof. destruct r; unfold loop_req, rec_req, creator_req, db_req, pg_req; simpl; tauto. Qed.

(** Work at the database server. *)
Definition sql_req (r : req) : Prop :=
  match r with SqlConnect _ _ | SqlExec _ _ _ | FakeCall _ _ => True | _ => False end.

(** An object as the API server returns it: with a resource version of its own. *)
Definition with_rv (u : User) (v : string) : User :=
  let m := User_Meta u in
  mkUser (mkObjectMeta (Meta_Name m) (Meta_Namespace m) v (Meta_Finalizers m)
    (Meta_DeletionTimestamp m)) (User_Spec u) (User_Status u).

Section Only.
Context {U : Controllerutil}.
Context {D : Type} `{DatabaseLaws D}.
Variable creator : DatabaseSpec → prog (D * option error).
Context {CL : CreatorLaws creator}.

Lemma userPassword_only s : only rec_req (userPassword s).
Proof.
  unfold userPassword. case_match; [done|].
  apply only_bind; [apply only_secret_rec, DecodeSecretData_only|]. intros [d [e|]]; [done|].
  case_match; [done|]. split; [by right|done].
Qed.

Lemma r_privileges_loop_only l acc : only rec_req (r_privileges_loop l acc).
Proof.
  revert acc. induction l as [|n l IH]; intros acc; simpl; [done|].
  split; [by right|]. intros [p [e|]]; simpl; [done|apply IH].
Qed.

Lemma createUserInDatabase_only db u ref : only rec_req (createUserInDatabase db u ref).
Proof.
  unfold createUserInDatabase. apply only_bind; [apply userPassword_only|].
  intros [pw [e|]]; [done|]. apply only_bind; [apply only_db_rec, db_CreateUser_only|].
  intros [m err]. case_match; [done|]. unfold utils_Secret.
  simpl. split; [left; by right|]. intros [s [e|]]; simpl; [|done].
  split; [by right|]. intros [s' [e'|]]; simpl; [done|]. split; [by right|done].
Qed.

Lemma databaseUserApply_only db u ref l : only rec_req (databaseUserApply db u ref l).
Proof.
  apply only_bind; [apply createUserInDatabase_only|]. intros [e|]; [done|].
  apply only_db_rec, db_ApplyPrivileges_only.
Qed.

Lemma databaseUserDelete_only db u ref l : only rec_req (databaseUserDelete db u ref l).
Proof.
  apply only_finally; [|split; [by right|done]].
  apply only_bind; [apply only_db_rec, db_RevokePrivileges_only|]. intros [e|]; [done|].
  apply only_db_rec, db_DeleteUser_only.
Qed.

(** What [databaseReconciler] does after it read the database. *)
Lemma databaseReconciler_shape u del ref t o :
  runs (databaseReconciler creator u del ref) t o →
  ∃ x t', t = ev (GetDatabase (mkTypesNN "" (DatabaseRef_Name ref))) x :: t' ∧
    Forall (λ e, rec_req (projT1 e)) t'.
Proof.
  unfold databaseReconciler, r_database. cbn [bind call]. intros (x & t' & -> & Ht).
  exists x, t'. split; [done|]. eapply only_runs; [|exact Ht]. clear Ht.
  destruct x as [dc [e|]]; cbn [bind]; [done|].
  apply only_bind; [apply r_privileges_loop_only|]. intros [l [e|]]; [done|].
  apply only_bind; [apply only_creator_rec, creator_only|]. intros [db [e|]]; [done|].
  apply only_finally.
  - destruct del; [apply databaseUserDelete_only|apply databaseUserApply_only].
  - apply only_bind; [apply only_db_rec, db_Close_only|done].
Qed.

(** The events of a loop. *)
Lemma loop_events u del l t o :
  runs (range_err (databaseReconciler creator u del) l) t o →
  Forall (λ e, loop_req (projT1 e)) t.
Proof.
  revert t. induction l as [|ref l IH]; cbn [range_err]; intros t Ht; [by destruct Ht as [-> _]|].
  assert (∀ t o, runs (databaseReconciler creator u del ref) t o →
    Forall (λ e, loop_req (projT1 e)) t) as Hone.
  { intros t0 o0 (x & t' & -> & Ht')%databaseReconciler_shape. constructor; [by right|].
    eapply Forall_impl; [exact Ht'|]. by left. }
  apply runs_bind_inv in Ht as [(m & H1 & ->)|(e & t1 & t2 & -> & H1 & Ht)]; [by eapply Hone|].
  apply Forall_app_2; [by eapply Hone|]. destruct e; [by destruct Ht as [-> _]|by apply IH].
Qed.

(** The loop over the databases leaves the user object alone. *)
Lemma loop_not_user u del l t o :
  runs (range_err (databaseReconciler creator u del) l) t o →
  Forall (λ e, ¬ user_req (projT1 e)) t.
Proof.
  intros Ht. eapply Forall_impl; [by eapply loop_events|]. intros e. apply loop_req_not_user.
Qed.
End Only.

(** ** The shapes of a reconciliation *)

Section Shapes.
Context {U : Controllerutil}.
Context {D : Type} `{DatabaseOps D}.
Variable creator : DatabaseSpec → prog (D * option error).
Implicit Types (u : User) (t tl pre : list event).

Definition deleting u : Prop := is_Some (Meta_DeletionTimestamp (User_Meta u)).

Definition log_deletion : event := ev (LoggerInfo "Received deletion event") ().
Definition log_deleted : event :=
  ev (LoggerInfo "Successfully deleted user from all specified databases") ().
Definition log_finalizer : event := ev (LoggerInfo "Setting finalizer for resource") ().
Definition log_success : event := ev (LoggerInfo successMsg) ().

(** The outcome of a reconciliation whose loop ended with [o]. *)
Definition stopped u (del : bool) (o : outcome (option error)) : outcome (User * (bool * option error)) :=
  match o with
  | Returned err => Returned (u, (del, err))
  | Panicked m => Panicked m
  end.

(** The user carries the finalizer, or has just been updated with it; [u1] is
    the object afterwards. *)
Definition finalized u pre u1 : Prop :=
  (ContainsFinalizer u userFinalizer = true ∧ pre = [] ∧ u1 = u) ∨
  (ContainsFinalizer u userFinalizer = false ∧
   pre = [log_finalizer; ev (UpdateUser (AddFinalizer u userFinalizer)) (u1, None)]).

Inductive reconciled u : list event → outcome (User * (bool * option error)) → Prop :=
| rec_ignored :
    deleting u → ContainsFinalizer u userFinalizer = false →
    reconciled u [log_deletion] (Returned (u, (true, None)))
| rec_delete_stopped tl o :
    deleting u → ContainsFinalizer u userFinalizer = true →
    runs (range_err (databaseReconciler creator u true) (User_Databases u)) tl o →
    o ≠ Returned None →
    reconciled u (log_deletion :: tl) (stopped u true o)
| rec_deleted tl u' err :
    deleting u → ContainsFinalizer u userFinalizer = true →
    runs (range_err (databaseReconciler creator u true) (User_Databases u)) tl (Returned None) →
    reconciled u
      (log_deletion :: tl ++ [log_deleted; ev (UpdateUser (RemoveFinalizer u userFinalizer)) (u', err)])
      (Returned (u', (true, err)))
| rec_finalizer_failed u1 e :
    ¬ deleting u → ContainsFinalizer u userFinalizer = false →
    reconciled u [log_finalizer; ev (UpdateUser (AddFinalizer u userFinalizer)) (u1, Some e)]
      (Returned (u1, (false, Some e)))
| rec_apply_stopped pre u1 tl o :
    ¬ deleting u → finalized u pre u1 →
    runs (range_err (databaseReconciler creator u1 false) (User_Databases u1)) tl o →
    o ≠ Returned None →
    reconciled u (pre ++ tl) (stopped u1 false o)
| rec_applied pre u1 tl :
    ¬ deleting u → finalized u pre u1 →
    runs (range_err (databaseReconciler creator u1 false) (User_Databases u1)) tl (Returned None) →
    reconciled u (pre ++ tl ++ [log_success]) (Returned (u1, (false, None))).

Lemma reconcile_deleting u t o :
  deleting u → runs (reconcile_ creator u) t o → reconciled u t o.
Proof.
  intros Hdel. unfold reconcile_. pose proof Hdel as [ts E]. rewrite E. cbn [bind call].
  intros ([] & t0 & -> & Ht). fold log_deletion.
  destruct (ContainsFinalizer u userFinalizer) eqn:Ef; cbn [negb] in Ht; cbv iota in Ht.
  - apply runs_bind_inv in Ht as [(m & Hl & ->)|(err & tl & t2 & -> & Hl & Ht)].
    { change (Panicked m) with (stopped u true (Panicked m)). by apply rec_delete_stopped. }
    destruct err as [e|].
    { destruct Ht as [-> ->]. rewrite app_nil_r.
      change (Returned (u, (true, Some e))) with (stopped u true (Returned (Some e))).
      by apply rec_delete_stopped. }
    cbn [bind call] in Ht. destruct Ht as ([] & t3 & -> & (u' & err) & t4 & -> & -> & ->).
    by apply rec_deleted.
  - destruct Ht as [-> ->]. by apply rec_ignored.
Qed.

Lemma reconcile_apply u u1 pre t o :
  ¬ deleting u → finalized u pre u1 →
  runs (let! err := range_err (databaseReconciler creator u1 false) (User_Databases u1) in
        match err with Some _ => Ret (u1, (false, err)) | None =>
        do! call (LoggerInfo successMsg) in Ret (u1, (false, None)) end) t o →
  reconciled u (pre ++ t) o.
Proof.
  intros Hdel Hf Ht.
  apply runs_bind_inv in Ht as [(m & Hl & ->)|(err & tl & t2 & -> & Hl & Ht)].
  { change (Panicked m) with (stopped u1 false (Panicked m)). by apply rec_apply_stopped. }
  destruct err as [e|].
  { destruct Ht as [-> ->]. rewrite app_nil_r.
    change (Returned (u1, (false, Some e))) with (stopped u1 false (Returned (Some e))).
    by apply rec_apply_stopped. }
  cbn [bind call] in Ht. destruct Ht as ([] & t3 & -> & -> & ->). by apply rec_applied.
Qed.

Lemma reconcile_reconciled u t o : runs (reconcile_ creator u) t o → reconciled u t o.
Proof.
  destruct (Meta_DeletionTimestamp (User_Meta u)) as [ts|] eqn:E.
  { apply reconcile_deleting. by exists ts. }
  assert (¬ deleting u) as Hdel by (unfold deleting; rewrite E; by intros [? ?]).
  unfold reconcile_. rewrite E.
  destruct (ContainsFinalizer u userFinalizer) eqn:Ef; cbn [negb bind call]; cbv iota.
  - intros Ht. apply (reconcile_apply u u []); [done|by left|exact Ht].
  - intros ([] & t1 & -> & (u1 & [e|]) & t2 & -> & Ht).
    + destruct Ht as [-> ->]. by apply rec_finalizer_failed.
    + apply (reconcile_apply u u1 [log_finalizer; _]); [done| |exact Ht]. by right.
Qed.

(** What [Reconcile] does after [reconcile]. *)
Definition finished (o : outcome (User * (bool * option error))) (tail : list event)
    (o' : outcome (Result * option error)) : Prop :=
  match o with
  | Panicked m => tail = [] ∧ o' = Panicked m
  | Returned (u, (del, Some e)) =>
      let event := ev (RecordEvent u EventTypeWarning "ErrorCreatingUser" (Error e)) () in
      if del : bool then tail = [event] ∧ o' = Returned (Result_zero, Some e)
      else ∃ u' err,
        tail = [event; ev (UpdateUserStatus (set_User_Status u
                  (mkUserStatus (mkStatusSummary false (Error e))))) (u', err)] ∧
        o' = Returned (Result_zero, err)
  | Returned (u, (del, None)) =>
      if negb (User_Ready u) && negb del then
        ∃ u' err,
          tail = [ev (RecordEvent u EventTypeNormal "SuccessfullyCreatedUser" successMsg) ();
                  ev (UpdateUserStatus (set_User_Status u
                    (mkUserStatus (mkStatusSummary true successMsg)))) (u', err)] ∧
          o' = Returned (Result_zero, err)
      else tail = [] ∧ o' = Returned (Result_zero, None)
  end.

Inductive Reconciled (nn : types_NamespacedName)
    : list event → outcome (Result * option error) → Prop :=
| Rec_gone u e :
    apierrors_IsNotFound e = true →
    Reconciled nn
      [ev (GetUser nn) (u, Some e);
       ev (LoggerInfo "User resource not found. Ignoring since object must be deleted.") ()]
      (Returned (Result_zero, None))
| Rec_unreadable u e :
    apierrors_IsNotFound e = false →
    Reconciled nn
      [ev (GetUser nn) (u, Some e); ev (LoggerError e "unable to fetch User resource") ()]
      (Returned (Result_zero, Some e))
| Rec_user u t o tail o' :
    reconciled u t o → finished o tail o' →
    Reconciled nn (ev (GetUser nn) (u, None) :: t ++ tail) o'.

Lemma Reconcile_Reconciled nn t o : runs (Reconcile creator nn) t o → Reconciled nn t o.
Proof.
  unfold Reconcile, r_user. cbn [bind call]. intros ((u & [e|]) & t1 & -> & Ht).
  - destruct (apierrors_IsNotFound e) eqn:En; cbn [bind call] in Ht;
      destruct Ht as ([] & t2 & -> & -> & ->); by constructor.
  - cbn [bind] in Ht.
    apply runs_bind_inv in Ht as [(m & Hr & ->)|([u' [del err]] & t2 & t3 & -> & Hr & Ht)];
      apply reconcile_reconciled in Hr.
    { rewrite <- (app_nil_r t1). by eapply Rec_user. }
    eapply Rec_user; [exact Hr|]. simpl. destruct err as [e|].
    + destruct del; cbn [bind call addEvent setStatus] in Ht.
      * by destruct Ht as ([] & t4 & -> & -> & ->).
      * destruct Ht as ([] & t4 & -> & (u2 & err) & t5 & -> & -> & ->). eauto.
    + destruct (negb (User_Ready u') && negb del); [|exact Ht].
      cbn [bind call addEvent setStatus] in Ht.
      destruct Ht as ([] & t4 & -> & (u2 & err) & t5 & -> & -> & ->). eauto.
Qed.

(** ** Every shape is a run *)

Lemma runs_call_bind {A} r (x : resp r) (k : resp r → prog A) t o :
  runs (k x) t o → runs (bind (call r) k) (ev r x :: t) o.
Proof. intros Hk. exists x, t. done. Qed.

Lemma stopped_runs {A} (p : prog (option error)) (f : option error → prog A) t o b :
  runs p t o → o ≠ Returned None →
  (∀ e, o = Returned (Some e) → runs (f (Some e)) [] b) →
  (∀ m, o = Panicked m → b = Panicked m) →
  runs (bind p f) t b.
Proof.
  intros Hp Hne He Hm. destruct o as [[e|]|m]; [|done|].
  - rewrite <- (app_nil_r t). eapply runs_bind_ret; [exact Hp|]. by apply He.
  - rewrite (Hm m) by done. by apply runs_bind_panic.
Qed.

(** The part of [reconcile_] after the finalizer. *)
Definition apply_all u1 : prog (User * (bool * option error)) :=
  let! err := range_err (databaseReconciler creator u1 false) (User_Databases u1) in
  match err with Some _ => Ret (u1, (false, err)) | None =>
  do! call (LoggerInfo successMsg) in
  Ret (u1, (false, None))
  end.

Lemma finalized_runs u pre u1 t o :
  ¬ deleting u → finalized u pre u1 → runs (apply_all u1) t o →
  runs (reconcile_ creator u) (pre ++ t) o.
Proof.
  intros Hd Hf Ht. unfold reconcile_.
  destruct (Meta_DeletionTimestamp (User_Meta u)) as [ts|] eqn:E; [by destruct Hd; exists ts|].
  destruct Hf as [(Hc & -> & ->)|(Hc & ->)]; rewrite Hc; cbn [negb bind call app].
  - exact Ht.
  - exists (), (ev (UpdateUser (AddFinalizer u userFinalizer)) (u1, None) :: t). split; [done|].
    exists (u1, None), t. done.
Qed.

Lemma reconciled_runs u t o : reconciled u t o → runs (reconcile_ creator u) t o.
Proof.
  destruct 1 as [Hd Hc|tl o Hd Hc Ht Hne|tl u2 err Hd Hc Ht|u2 e Hd Hc|pre u2 tl o Hd Hp Ht Hne|pre u2 tl Hd Hp Ht].
  - unfold reconcile_. destruct Hd as [ts ->]. rewrite Hc. by apply runs_call_bind.
  - unfold reconcile_. destruct Hd as [ts ->]. rewrite Hc. apply runs_call_bind.
    eapply stopped_runs; [exact Ht|done| |]; by intros ? ->.
  - unfold reconcile_. destruct Hd as [ts ->]. rewrite Hc. apply runs_call_bind.
    eapply runs_bind_ret; [exact Ht|]. apply runs_call_bind.
    by apply (runs_call_bind (UpdateUser (RemoveFinalizer u userFinalizer)) (u2, err)).
  - unfold reconcile_. destruct (Meta_DeletionTimestamp (User_Meta u)) as [ts|] eqn:E;
      [by destruct Hd; exists ts|]. rewrite Hc. cbn [negb bind call].
    exists (), [ev (UpdateUser (AddFinalizer u userFinalizer)) (u2, Some e)]. split; [done|].
    by exists (u2, Some e), [].
  - eapply finalized_runs; [done..|]. eapply stopped_runs; [exact Ht|done| |]; by intros ? ->.
  - eapply finalized_runs; [done..|]. eapply runs_bind_ret; [exact Ht|]. by apply runs_call_bind.
Qed.

Lemma Reconciled_runs nn t o : Reconciled nn t o → runs (Reconcile creator nn) t o.
Proof.
  destruct 1 as [u e He|u e He|u t o' tail o Hr%reconciled_runs Hf];
    unfold Reconcile, r_user; cbn [bind call].
  - exists (u, Some e), [ev (LoggerInfo "User resource not found. Ignoring since object must be deleted.") ()].
    split; [done|]. rewrite He. by apply runs_call_bind.
  - exists (u, Some e), [ev (LoggerError e "unable to fetch User resource") ()].
    split; [done|]. rewrite He. by apply runs_call_bind.
  - exists (u, None), (t ++ tail). split; [done|]. cbn [bind].
    destruct o' as [[u1 [del err]]|m]; simpl in Hf.
    + eapply runs_bind_ret; [exact Hr|]. cbv iota beta. destruct err as [e|].
      * destruct del; [destruct Hf as [-> ->]; by apply runs_call_bind|].
        destruct Hf as (u2 & err & -> & ->). apply runs_call_bind.
        by apply (runs_call_bind (UpdateUserStatus (set_User_Status u1 _)) (u2, err)).
      * destruct (negb (User_Ready u1) && negb del); [|exact Hf].
        destruct Hf as (u2 & err & -> & ->). apply runs_call_bind.
        by apply (runs_call_bind (UpdateUserStatus (set_User_Status u1 _)) (u2, err)).
    + destruct Hf as [-> ->]. rewrite app_nil_r. by apply runs_bind_panic.
Qed.
End Shapes.
