(* ===== verification/ControllerRuns.v ===== *)
(** * Runs of the work in one database

    What a run of [databaseReconciler] read from the cluster, what it did at the
    server and how it ended; used by the properties of the reconciler. *)

From S2P Require Import Prelude GoStrings GoError Api Effects Utils Connection PgConfig.
From S2P Require Import Postgresql Database Controller ControllerFacts.

(** ** Reading the privileges *)

(** The reads of [privileges]: one answered [Get] per reference, in order. *)
Definition privileges_read (nns : list Name) (ps : list Privileges) : list event :=
  zip_with (λ nn p, ev (GetPrivileges (Name_ToNamespacedName nn)) (p, None)) nns ps.

Lemma r_privileges_loop_runs nns acc t l :
  runs (r_privileges_loop nns acc) t (Returned (l, None)) →
  ∃ ps, length ps = length nns ∧ t = privileges_read nns ps ∧
        l = acc ++ concat (Privileges_Privileges <$> ps).
Proof.
  revert acc t. induction nns as [|nn nns IH]; intros acc t; simpl.
  - intros [-> [= ->]]. exists []. simpl. by rewrite app_nil_r.
  - intros ([p [e|]] & t1 & -> & Ht); simpl in Ht; [by destruct Ht|].
    destruct (IH _ _ Ht) as (ps & Hlen & -> & ->). exists (p :: ps). simpl.
    by rewrite Hlen, app_assoc.
Qed.

Lemma r_privileges_runs nns t l :
  runs (r_privileges nns) t (Returned (l, None)) →
  ∃ ps, length ps = length nns ∧ t = privileges_read nns ps ∧
        l = concat (Privileges_Privileges <$> ps).
Proof. apply r_privileges_loop_runs. Qed.

(** Requests without a statement and without a handle. *)
Definition quiet_req (r : req) : Prop :=
  match r with
  | GetDatabase _ | GetPrivileges _ | GetSecret _ | SetControllerReference _ _ | CreateSecret _
  | DeleteSecret _ | NewInvalid _ _ _ _ => True
  | _ => False
  end.

Lemma quiet_obs {A} (q : prog A) t o :
  only quiet_req q → runs q t o → statements t = [] ∧ handles t = [] ∧ logged t = [].
Proof.
  intros Hq Ht. split_and!; (eapply only_omap; [exact Hq|exact Ht|]); by intros [].
Qed.

Lemma secret_quiet {A} (q : prog A) : only secret_req q → only quiet_req q.
Proof. apply only_impl. by intros []. Qed.

Lemma r_privileges_quiet nns : only quiet_req (r_privileges nns).
Proof.
  unfold r_privileges. generalize (@nil PrivilegeSpec).
  induction nns as [|nn nns IH]; intros acc; simpl; [done|].
  split; [done|]. intros [p [e|]]; simpl; [done|apply IH].
Qed.

Lemma r_privileges_panic nns t m : ¬ runs (r_privileges nns) t (Panicked m).
Proof.
  apply no_panic_runs. unfold r_privileges. generalize (@nil PrivilegeSpec).
  induction nns as [|nn nns IH]; intros acc; simpl; [done|].
  intros [p [e|]]; simpl; [done|apply IH].
Qed.

Lemma userPassword_quiet s : only quiet_req (userPassword s).
Proof.
  unfold userPassword. case_match; [done|].
  apply only_bind; [apply secret_quiet, DecodeSecretData_only|]. intros [d [e|]]; [done|].
  by case_match.
Qed.

Lemma userPassword_panic s t m : ¬ runs (userPassword s) t (Panicked m).
Proof.
  apply no_panic_runs. unfold userPassword, DecodeSecretData, utils_Secret.
  repeat (solve_only; try case_match).
Qed.

Section Runs.
Context {U : Controllerutil}.
Context {D : Type} {DO : DatabaseOps D} {DL : DatabaseLaws D}.
Implicit Types (u : User) (db : D) (ref : DatabaseRef) (t : list event).

(** ** Creating the user *)

(** The runs that reach the secret: the user was created with the data [m]. *)
Definition secret_part u ref (m : gmap string string) : prog (option error) :=
  let secretNN := NamespacedName_ToNamespacedName (DatabaseRef_CreatedSecret ref) in
  let! (_, err) := utils_Secret secretNN in
  match err with None => Ret None | Some _ =>
  let! (secret, err) := call (SetControllerReference u (newSecret secretNN m)) in
  match err with
  | Some _ => Ret err
  | None => call (CreateSecret secret)
  end end.

Lemma secret_part_quiet u ref m : only quiet_req (secret_part u ref m).
Proof. unfold secret_part, utils_Secret. solve_only. Qed.

Lemma createUserInDatabase_inv db u ref t o :
  runs (createUserInDatabase db u ref) t o →
  (∃ e, o = Returned (Some e) ∧ runs (userPassword (DatabaseRef_PasswordSecret ref)) t
     (Returned ("", Some e))) ∨
  ∃ pw t1 t2, t = t1 ++ t2 ∧
    runs (userPassword (DatabaseRef_PasswordSecret ref)) t1 (Returned (pw, None)) ∧
    ((∃ m, o = Panicked m ∧ runs (db_CreateUser db (User_Name u) pw) t2 (Panicked m)) ∨
     ∃ m err t3 t4, t2 = t3 ++ t4 ∧
       runs (db_CreateUser db (User_Name u) pw) t3 (Returned (m, err)) ∧
       ((err ≠ None ∨ m = ∅) ∧ t4 = [] ∧ o = Returned err ∨
        err = None ∧ m ≠ ∅ ∧ runs (secret_part u ref m) t4 o)).
Proof.
  unfold createUserInDatabase. intros Ht.
  apply runs_bind_inv in Ht as [(m & H1 & _)|([pw err] & t1 & t2 & -> & H1 & Ht)];
    [by apply userPassword_panic in H1|].
  destruct err as [e|].
  { destruct Ht as [-> ->]. left. exists e. rewrite app_nil_r. split; [done|].
    revert H1. unfold userPassword. case_match; [by intros [_ [=]]|]. intros H1.
    apply runs_bind_inv in H1 as [(m & _ & [=])|([d [e'|]] & t3 & t4 & -> & H3 & H1)].
    - destruct H1 as [-> [= -> ->]]. by eapply runs_bind_ret.
    - destruct (d !! _) eqn:E; [by destruct H1|].
      destruct H1 as (x & t5 & -> & H1). destruct H1 as [-> [= -> ->]].
      eapply runs_bind_ret; [exact H3|]. cbv iota beta. rewrite E. simpl. eauto. }
  right. exists pw, t1, t2. split_and!; [done..|].
  apply runs_bind_inv in Ht as [(m & H2 & ->)|([m err] & t3 & t4 & -> & H2 & Ht)]; [eauto|].
  right. exists m, err, t3, t4. split_and!; [done..|].
  destruct (decide (err = None)) as [->|Herr].
  - rewrite bool_decide_eq_false_2 in Ht by tauto. cbn [orb] in Ht.
    destruct (Nat.ltb_spec (size m) 1) as [Hsz|Hsz].
    + destruct Ht as [-> ->]. left. split_and!; [|done..]. right.
      apply map_size_empty_inv. lia.
    + right. split_and!; [done| |exact Ht]. intros ->. rewrite map_size_empty in Hsz. lia.
  - rewrite bool_decide_eq_true_2 in Ht by done. destruct Ht as [-> ->]. left. auto.
Qed.

(** A successful creation confirmed the user at the server. *)
Lemma createUserInDatabase_ok db u ref t :
  runs (createUserInDatabase db u ref) t (Returned None) →
  ∃ pw s t1 t2, t = t1 ++ t2 ∧
    runs (userPassword (DatabaseRef_PasswordSecret ref)) t1 (Returned (pw, None)) ∧
    statements t = [s] ∧ creates_user (User_Name u) pw s.
Proof.
  intros [(e & [=] & _)|(pw & t1 & t2 & -> & H1 & Ht)]%createUserInDatabase_inv.
  destruct (quiet_obs _ _ _ (userPassword_quiet _) H1) as (S1 & _).
  destruct Ht as [(m & [=] & _)|(m & err & t3 & t4 & -> & H2 & Ht)].
  assert (err = None ∧ statements t4 = []) as [-> S4].
  { destruct Ht as [(_ & -> & [= <-])|(-> & _ & Ht)]; [done|].
    by destruct (quiet_obs _ _ _ (secret_part_quiet _ _ _) Ht) as (-> & _). }
  destruct (db_CreateUser_creates _ _ _ _ _ H2) as (s & S2 & Hs).
  exists pw, s, t1, (t3 ++ t4). split_and!; try done.
  by rewrite !statements_app, S1, S2, S4.
Qed.

Lemma createUserInDatabase_length db u ref t err :
  runs (createUserInDatabase db u ref) t (Returned err) → length (statements t) ≤ 1.
Proof.
  intros [(e & _ & H1)|(pw & t1 & t2 & -> & H1 & Ht)]%createUserInDatabase_inv;
    destruct (quiet_obs _ _ _ (userPassword_quiet _) H1) as (S1 & _); [rewrite S1; simpl; lia|].
  destruct Ht as [(m & [=] & _)|(m & err' & t3 & t4 & -> & H2 & Ht)].
  apply db_CreateUser_one in H2.
  assert (statements t4 = []) as S4.
  { destruct Ht as [(_ & -> & _)|(_ & _ & Ht)]; [done|].
    by destruct (quiet_obs _ _ _ (secret_part_quiet _ _ _) Ht) as (-> & _). }
  rewrite !statements_app, S1, S4, app_nil_r. simpl. lia.
Qed.

Lemma createUserInDatabase_handles db u ref t o :
  runs (createUserInDatabase db u ref) t o → bracketed (handles t).
Proof.
  intros [(e & _ & H1)|(pw & t1 & t2 & -> & H1 & Ht)]%createUserInDatabase_inv;
    destruct (quiet_obs _ _ _ (userPassword_quiet _) H1) as (_ & L1 & _).
  { rewrite L1. constructor. }
  rewrite handles_app, L1.
  destruct Ht as [(m & -> & H2)|(m & err & t3 & t4 & -> & H2 & Ht)];
    [by eapply db_CreateUser_bracketed|].
  assert (handles t4 = []) as L4.
  { destruct Ht as [(_ & -> & _)|(_ & _ & Ht)]; [done|].
    by destruct (quiet_obs _ _ _ (secret_part_quiet _ _ _) Ht) as (_ & -> & _). }
  rewrite handles_app, L4, app_nil_r. by eapply db_CreateUser_bracketed.
Qed.

(** ** Applying *)

Lemma databaseUserApply_ok db u ref l t :
  runs (databaseUserApply db u ref l) t (Returned None) →
  ∃ pw s gs, statements t = s :: gs ∧ creates_user (User_Name u) pw s ∧
    Forall2 (grants_privilege (User_Name u)) l gs.
Proof.
  unfold databaseUserApply. intros Ht.
  apply runs_bind_inv in Ht as [(m & _ & [=])|([e|] & t1 & t2 & -> & H1 & Ht)];
    [by destruct Ht|].
  apply createUserInDatabase_ok in H1 as (pw & s & _ & _ & _ & _ & S1 & Hs).
  apply db_ApplyPrivileges_grants in Ht.
  exists pw, s, (statements t2). by rewrite statements_app, S1.
Qed.

Lemma databaseUserApply_handles db u ref l t o :
  runs (databaseUserApply db u ref l) t o → bracketed (handles t).
Proof.
  unfold databaseUserApply. intros Ht.
  apply runs_bind_inv in Ht as [(m & H1 & _)|(e & t1 & t2 & -> & H1 & Ht)];
    apply createUserInDatabase_handles in H1; [done|].
  rewrite handles_app. apply bracketed_app; [done|]. destruct e; [|by eapply db_ApplyPrivileges_bracketed].
  destruct Ht as [-> _]. constructor.
Qed.

(** ** Deleting *)

Definition delete_secret ref : K8sSecret :=
  newSecret (NamespacedName_ToNamespacedName (DatabaseRef_CreatedSecret ref)) ∅.

(** Whatever the database answers, the last request deletes the secret. *)
Lemma databaseUserDelete_inv db u ref l t o :
  runs (databaseUserDelete db u ref l) t o →
  ∃ t1 x, t = t1 ++ [ev (DeleteSecret (delete_secret ref)) x] ∧
    runs (let! err := db_RevokePrivileges db (User_Name u) l in
          match err with Some _ => Ret err | None => db_DeleteUser db (User_Name u) end) t1 o.
Proof.
  intros (o1 & t1 & t2 & -> & H1 & Hf)%runs_finally_inv. cbn [bind call] in Hf.
  destruct Hf as [[(x & t3 & -> & -> & _) ->]|(m & (x & t3 & -> & _ & [=]) & _)].
  by exists t1, x.
Qed.

Lemma databaseUserDelete_ok db u ref l t :
  runs (databaseUserDelete db u ref l) t (Returned None) →
  ∃ s, last (statements t) = Some s ∧ drops_user (User_Name u) s.
Proof.
  intros (t1 & x & -> & Ht)%databaseUserDelete_inv.
  apply runs_bind_inv in Ht as [(m & _ & [=])|([e|] & t2 & t3 & -> & _ & Ht)];
    [by destruct Ht|].
  apply db_DeleteUser_drops in Ht as (s & S3 & Hs). exists s. split; [|done].
  rewrite !statements_app, S3. simpl. by rewrite app_nil_r, last_snoc.
Qed.

Lemma databaseUserDelete_handles db u ref l t o :
  runs (databaseUserDelete db u ref l) t o → bracketed (handles t).
Proof.
  intros (t1 & x & -> & Ht)%databaseUserDelete_inv. rewrite handles_app, app_nil_r.
  apply runs_bind_inv in Ht as [(m & H1 & _)|(e & t2 & t3 & -> & H1 & Ht)];
    [by eapply db_RevokePrivileges_bracketed|].
  rewrite handles_app. apply bracketed_app; [by eapply db_RevokePrivileges_bracketed|].
  destruct e; [destruct Ht as [-> _]; constructor|by eapply db_DeleteUser_bracketed].
Qed.

(** ** One database *)

Variable creator : DatabaseSpec → prog (D * option error).
Context {CL : CreatorLaws creator}.

Definition work (del : bool) : D → User → DatabaseRef → list PrivilegeSpec → prog (option error) :=
  if del then databaseUserDelete else databaseUserApply.

Lemma work_handles del db u ref l t o :
  runs (work del db u ref l) t o → bracketed (handles t).
Proof. destruct del; [apply databaseUserDelete_handles|apply databaseUserApply_handles]. Qed.

(** A run of [databaseReconciler] either stops before it has a database, with
    an error or a panic of the creator, or it works in the database it created
    and closes it. *)
Lemma databaseReconciler_inv u del ref t o :
  runs (databaseReconciler creator u del ref) t o →
  (∃ t1 t2, t = t1 ++ t2 ∧ Forall (λ e, quiet_req (projT1 e)) t1 ∧
     ((t2 = [] ∧ ∃ e, o = Returned (Some e)) ∨
      (∃ spec db e, runs (creator spec) t2 (Returned (db, Some e)) ∧
         o = Returned (Some (JoinError ErrDatabaseConnect e))) ∨
      (∃ spec m, runs (creator spec) t2 (Panicked m) ∧ o = Panicked m))) ∨
  ∃ dc ps db tc tw td o1,
    t = ev (GetDatabase (mkTypesNN "" (DatabaseRef_Name ref))) (dc, None) ::
          privileges_read (DatabaseRef_Privileges ref) ps ++ tc ++ tw ++ td ∧
    length ps = length (DatabaseRef_Privileges ref) ∧
    runs (creator (Database_Spec dc)) tc (Returned (db, None)) ∧
    runs (work del db u ref (concat (Privileges_Privileges <$> ps))) tw o1 ∧
    ((∃ err, runs (db_Close db) td (Returned err) ∧ o = o1) ∨
     ∃ m, runs (db_Close db) td (Panicked m) ∧ o = Panicked m).
Proof.
  unfold databaseReconciler, r_database. cbn [bind call].
  intros ([dc [e|]] & t1 & -> & Ht); cbn [bind] in Ht.
  { destruct Ht as [-> ->]. left. exists [ev (GetDatabase (mkTypesNN "" (DatabaseRef_Name ref))) (dc, Some e)], [].
    split_and!; [done|by repeat constructor|eauto]. }
  set (e0 := ev _ _).
  apply runs_bind_inv in Ht as [(m & H1 & ->)|([l err] & t2 & t3 & -> & H1 & Ht)].
  { by apply r_privileges_panic in H1. }
  assert (Forall (λ e, quiet_req (projT1 e)) (e0 :: t2)) as Hq.
  { constructor; [done|]. eapply only_runs; [apply r_privileges_quiet|exact H1]. }
  destruct err as [e|].
  { destruct Ht as [-> ->]. left. exists (e0 :: t2), []. split_and!; eauto. }
  apply runs_bind_inv in Ht as [(m & H2 & ->)|([db [e|]] & tc & t4 & -> & H2 & Ht)].
  - left. exists (e0 :: t2), t3. split_and!; eauto 8.
  - destruct Ht as [-> ->]. rewrite app_nil_r. left. exists (e0 :: t2), tc.
    split_and!; [done..|]. right. left. eauto 6.
  - apply runs_finally_inv in Ht as (o1 & tw & td & -> & H3 & Hf).
    apply r_privileges_runs in H1 as (ps & Hlen & -> & ->).
    right. exists dc, ps, db, tc, tw, td, o1. split_and!; try done.
    destruct Hf as [[Hf ->]|(m & Hf & ->)];
      apply runs_bind_inv in Hf as [(m' & H4 & E)|(err & t5 & t6 & -> & H4 & [-> E])];
      simplify_eq; rewrite ?app_nil_r; first [left; by eauto | right; by eauto].
Qed.

Lemma databaseReconciler_ok u del ref t :
  runs (databaseReconciler creator u del ref) t (Returned None) →
  ∃ dc ps db tc tw td err,
    t = ev (GetDatabase (mkTypesNN "" (DatabaseRef_Name ref))) (dc, None) ::
          privileges_read (DatabaseRef_Privileges ref) ps ++ tc ++ tw ++ td ∧
    length ps = length (DatabaseRef_Privileges ref) ∧
    runs (creator (Database_Spec dc)) tc (Returned (db, None)) ∧
    runs (work del db u ref (concat (Privileges_Privileges <$> ps))) tw (Returned None) ∧
    runs (db_Close db) td (Returned err).
Proof.
  intros [(t1 & t2 & -> & _ & Ho)|(dc & ps & db & tc & tw & td & o1 & -> & Hl & Hc & Hw & Hd)]%databaseReconciler_inv.
  - destruct Ho as [[_ [e [=]]]|[(s & db & e & _ & [=])|(s & m & _ & [=])]].
  - destruct Hd as [(err & Hd & <-)|(m & _ & [=])].
    by exists dc, ps, db, tc, tw, td, err.
Qed.

Lemma databaseReconciler_handles u del ref t o :
  runs (databaseReconciler creator u del ref) t o → bracketed (handles t).
Proof.
  intros [(t1 & t2 & -> & Hq & Ho)|(dc & ps & db & tc & tw & td & o1 & -> & Hl & Hc & Hw & Hd)]%databaseReconciler_inv.
  - rewrite handles_app. assert (handles t1 = []) as ->.
    { induction Hq as [|[r x] t1 Hr _ IH]; [done|]. by destruct r. }
    assert (handles t2 = []) as ->; [|constructor].
    destruct Ho as [[-> _]|[(s & db & e & Hc & _)|(s & m & Hc & _)]]; [done| |].
    + by apply creator_handles in Hc.
    + by apply creator_panic_handles in Hc.
  - change (bracketed (handles (privileges_read (DatabaseRef_Privileges ref) ps ++ tc ++ tw ++ td))).
    rewrite !handles_app. assert (handles (privileges_read (DatabaseRef_Privileges ref) ps) = []) as ->.
    { clear. revert ps. induction (DatabaseRef_Privileges ref) as [|n ns IH]; intros [|p ps]; try done.
      apply (IH ps). }
    apply creator_handles in Hc. apply work_handles in Hw.
    assert (handles td = match db_handle db with Some h => [(false, h)] | None => [] end) as Hd'
      by (destruct Hd as [(err & Hd & _)|(m & Hd & _)]; by apply db_Close_handles in Hd).
    rewrite Hc, Hd'. destruct (db_handle db); simpl; [by apply bracketed_wrap|].
    by rewrite app_nil_r.
Qed.

Lemma loop_handles u del l t o :
  runs (range_err (databaseReconciler creator u del) l) t o → bracketed (handles t).
Proof. apply range_err_bracketed. intros ref t' o'. apply databaseReconciler_handles. Qed.

(** *** What success means at the server *)

(** The statements of a database whose user was applied: the creation and the
    grants of all the referenced privileges, in order. *)
Definition applied u ref t : Prop :=
  ∃ dc ps pw pre s gs post,
    length ps = length (DatabaseRef_Privileges ref) ∧
    segment (ev (GetDatabase (mkTypesNN "" (DatabaseRef_Name ref))) (dc, None) ::
      privileges_read (DatabaseRef_Privileges ref) ps) t ∧
    statements t = pre ++ (s :: gs) ++ post ∧
    creates_user (User_Name u) pw s ∧
    Forall2 (grants_privilege (User_Name u)) (concat (Privileges_Privileges <$> ps)) gs.

Lemma databaseReconciler_applied u ref t :
  runs (databaseReconciler creator u false ref) t (Returned None) → applied u ref t.
Proof.
  intros (dc & ps & db & tc & tw & td & err & -> & Hl & _ & Hw & _)%databaseReconciler_ok.
  apply databaseUserApply_ok in Hw as (pw & s & gs & Sw & Hs & Hg).
  exists dc, ps, pw, (statements (ev (GetDatabase (mkTypesNN "" (DatabaseRef_Name ref))) (dc, None) ::
    privileges_read (DatabaseRef_Privileges ref) ps) ++ statements tc), s, gs, (statements td).
  split_and!; [done| | |done|done].
  - exists [], (tc ++ tw ++ td). done.
  - rewrite app_comm_cons, !statements_app, Sw. by rewrite <- !app_assoc.
Qed.

(** The statements of a database whose user was removed end with a confirmed
    [DROP USER]. *)
Definition dropped u t : Prop := ∃ s, last (statements t) = Some s ∧ drops_user (User_Name u) s.

Lemma databaseReconciler_dropped u ref t :
  runs (databaseReconciler creator u true ref) t (Returned None) → dropped u t.
Proof.
  intros (dc & ps & db & tc & tw & td & err & -> & _ & _ & Hw & Hd)%databaseReconciler_ok.
  apply databaseUserDelete_ok in Hw as (s & Sw & Hs). apply db_Close_statements in Hd.
  exists s. split; [|done]. rewrite app_comm_cons, !statements_app, Hd, app_nil_r, !last_app.
  by rewrite Sw.
Qed.
End Runs.
