(* ===== verification/Ledger.v ===== *)
(** * A ledger of the databases

    What the statements of a trace leave at the servers: the database that is
    being worked in and the databases in which a statement other than a
    revocation or a deletion was sent for a user since its last confirmed [DROP
    USER] there.  A statement that the server refused counts, so an empty ledger
    means that nothing can be left. *)

From S2P Require Import Prelude GoError Api Effects Connection PgUtils PgConfig Postgresql Mysql.
From S2P Require Import Database Controller ControllerFacts ControllerRuns.

Record ledger := mkLedger { l_current : string; l_touched : gset string }.

Definition drop_confirmed (n : string) (s : stmt) : bool :=
  let '(q, args, r) := s in
  (bool_decide (q = deleteUserQuery n) && bool_decide (args = [])
     && bool_decide (ignoreNotExists r = None))
  || (bool_decide (q = "DROP USER ?@?") && bool_decide (head args = Some n)
     && bool_decide (length args = 2) && bool_decide (r = None)).

Definition ledger_stmt (n : string) (l : ledger) (s : stmt) : ledger :=
  mkLedger (l_current l)
    (if drop_confirmed n s then l_touched l ∖ {[l_current l]}
     else if removal s.1.1 then l_touched l else {[l_current l]} ∪ l_touched l).

Definition database_of (e : event) : option string :=
  match projT1 e with GetDatabase nn => Some (Nn_Name nn) | _ => None end.

Definition ledger_event (n : string) (l : ledger) (e : event) : ledger :=
  match database_of e with
  | Some d => mkLedger d (l_touched l)
  | None => match stmt_of e with Some s => ledger_stmt n l s | None => l end
  end.

Definition ledger_after (n : string) (l : ledger) (t : list event) : ledger :=
  foldl (ledger_event n) l t.

Lemma drops_user_confirmed n s : drops_user n s → drop_confirmed n s = true.
Proof.
  intros [(r & E & Hr)|(h & E)]; subst s; unfold drop_confirmed; apply orb_true_iff; [left|right].
  - by rewrite !bool_decide_eq_true_2.
  - by rewrite !bool_decide_eq_true_2.
Qed.

Lemma ledger_after_app n l t1 t2 : ledger_after n l (t1 ++ t2) = ledger_after n (ledger_after n l t1) t2.
Proof. apply foldl_app. Qed.

(** ** Without a change of database only the statements count *)

Lemma ledger_after_statements n l t :
  Forall (λ e, database_of e = None) t →
  ledger_after n l t = foldl (ledger_stmt n) l (statements t).
Proof.
  intros Ht. revert l. induction Ht as [|e t He _ IH]; intros l; [done|].
  change (ledger_after n (ledger_event n l e) t = foldl (ledger_stmt n) l
    (match stmt_of e with Some s => s :: statements t | None => statements t end)).
  rewrite IH. unfold ledger_event. rewrite He. by destruct (stmt_of e).
Qed.

Lemma ledger_stmts_current n l ss : l_current (foldl (ledger_stmt n) l ss) = l_current l.
Proof. revert l. induction ss as [|s ss IH]; intros l; simpl; [done|]. by rewrite IH. Qed.

Lemma ledger_stmts_touched n l ss :
  l_touched (foldl (ledger_stmt n) l ss) ⊆ {[l_current l]} ∪ l_touched l.
Proof.
  revert l. induction ss as [|s ss IH]; intros l; simpl; [set_solver|].
  etransitivity; [apply IH|]. simpl. destruct (drop_confirmed n s), (removal s.1.1); set_solver.
Qed.

Lemma ledger_event_removal n l e :
  removal_req (projT1 e) → l_touched (ledger_event n l e) ⊆ l_touched l.
Proof.
  unfold ledger_event, removal_req, sends_only. destruct (database_of e); [done|].
  destruct (stmt_of e) as [s|] eqn:E; [|done]. rewrite (stmt_of_sends _ _ E). simpl. intros ->.
  destruct (drop_confirmed n s); set_solver.
Qed.

Lemma ledger_stmts_dropped n l ss s :
  last ss = Some s → drops_user n s →
  l_touched (foldl (ledger_stmt n) l ss) ⊆ l_touched l ∖ {[l_current l]}.
Proof.
  intros Hs Hd. apply last_Some in Hs as [ss' ->]. rewrite foldl_app. simpl.
  rewrite (drops_user_confirmed _ _ Hd), ledger_stmts_current.
  pose proof (ledger_stmts_touched n l ss'). set_solver.
Qed.

Definition ref_names (refs : list DatabaseRef) : gset string :=
  list_to_set (DatabaseRef_Name <$> refs).

Section Runs.
Context {U : Controllerutil}.
Context {D : Type} {DO : DatabaseOps D} {DL : DatabaseLaws D}.
Variable creator : DatabaseSpec → prog (D * option error).
Context {CL : CreatorLaws creator}.

Lemma rec_req_no_database t :
  Forall (λ e, rec_req (projT1 e)) t → Forall (λ e, database_of e = None) t.
Proof.
  intros Ht. eapply Forall_impl; [exact Ht|].
  intros [[] x]; unfold rec_req, creator_req, db_req, pg_req, database_of; simpl; tauto.
Qed.

(** A deletion gives nothing to the user. *)
Lemma loop_removal u refs t o :
  runs (range_err (databaseReconciler creator u true) refs) t o →
  Forall (λ e, removal_req (projT1 e)) t.
Proof.
  apply only_runs, only_range_err. intros ref. unfold databaseReconciler.
  assert (∀ l acc, only removal_req (r_privileges_loop l acc)) as Hp.
  { induction l as [|nm l IH]; intros acc; [done|]. split; [done|].
    intros [p [e|]]; [done|apply IH]. }
  apply only_bind; [split; [done|]; by intros [d [e|]]|]. intros [[dc|] [e|]]; try done.
  apply only_bind; [apply Hp|]. intros [l [e|]]; [done|].
  apply only_bind; [apply creator_removal|]. intros [db [e|]]; [done|].
  apply only_finally; [|apply only_bind; [apply db_Close_removal|done]].
  apply only_finally; [|done]. apply only_bind; [apply db_RevokePrivileges_removal|].
  intros [e|]; [done|apply db_DeleteUser_removal].
Qed.

(** A successful deletion in one database takes it out of the ledger. *)
Lemma databaseReconciler_ledger u ref t l :
  runs (databaseReconciler creator u true ref) t (Returned None) →
  l_touched (ledger_after (User_Name u) l t) ⊆ l_touched l ∖ {[DatabaseRef_Name ref]}.
Proof.
  intros Ht. destruct (databaseReconciler_dropped _ _ _ _ Ht) as (s & Hs & Hd).
  destruct (databaseReconciler_shape creator _ _ _ _ _ Ht) as (x & t' & -> & Ht').
  apply rec_req_no_database in Ht'.
  change (l_touched (ledger_after (User_Name u) (mkLedger (DatabaseRef_Name ref) (l_touched l)) t')
    ⊆ l_touched l ∖ {[DatabaseRef_Name ref]}).
  rewrite ledger_after_statements by done.
  by apply (ledger_stmts_dropped _ (mkLedger (DatabaseRef_Name ref) (l_touched l)) _ s).
Qed.

(** A complete deletion takes out all of them. *)
Lemma loop_ledger u refs t l :
  runs (range_err (databaseReconciler creator u true) refs) t (Returned None) →
  l_touched (ledger_after (User_Name u) l t) ⊆ l_touched l ∖ ref_names refs.
Proof.
  revert t l. induction refs as [|ref refs IH]; cbn [range_err]; intros t l Ht.
  { destruct Ht as [-> _]. set_solver. }
  apply runs_bind_inv in Ht as [(m & _ & [=])|([e|] & t1 & t2 & -> & H1 & Ht)]; [by destruct Ht|].
  rewrite ledger_after_app. apply databaseReconciler_ledger with (l := l) in H1.
  etransitivity; [by apply IH|]. unfold ref_names in *. set_solver.
Qed.

(** The database a statement is sent in is one of the references. *)
Lemma loop_current n u del refs t o t1 e t2 l :
  runs (range_err (databaseReconciler creator u del) refs) t o →
  t = t1 ++ e :: t2 → sql_req (projT1 e) →
  l_current (ledger_after n l t1) ∈ ref_names refs.
Proof.
  assert (∀ ref t o t1 t2 l, runs (databaseReconciler creator u del ref) t o →
    t = t1 ++ e :: t2 → sql_req (projT1 e) →
    l_current (ledger_after n l t1) = DatabaseRef_Name ref) as Hone.
  { intros ref t0 o0 s1 s2 l0 Ht E He.
    destruct (databaseReconciler_shape creator _ _ _ _ _ Ht) as (x & t' & -> & Ht').
    destruct s1 as [|e1 s1]; injection E as <- E; [done|]. subst t'.
    apply rec_req_no_database, Forall_app in Ht' as [Hs1 _].
    change (l_current (ledger_after n (mkLedger (DatabaseRef_Name ref) (l_touched l0)) s1) =
      DatabaseRef_Name ref).
    by rewrite ledger_after_statements, ledger_stmts_current. }
  revert t t1 l. induction refs as [|ref refs IH]; cbn [range_err]; intros t t1 l Ht E He.
  { destruct Ht as [-> _]. by destruct t1. }
  apply runs_bind_inv in Ht as [(m & H1 & ->)|(r & ta & tb & -> & H1 & Ht)].
  { rewrite (Hone _ _ _ _ _ l H1 E He). unfold ref_names. set_solver. }
  destruct (app_place _ _ _ _ _ E) as [[t3 E3]|(t3 & -> & E3)].
  - rewrite (Hone _ _ _ _ _ l H1 E3 He). unfold ref_names. set_solver.
  - destruct r as [r|]; [by destruct Ht as [-> _]; destruct t3|].
    rewrite ledger_after_app. specialize (IH _ _ (ledger_after n l ta) Ht E3 He).
    unfold ref_names in *. set_solver.
Qed.
End Runs.
