(* ===== verification/SqlProps.v ===== *)
(** * Properties of the PostgreSQL statements

    The texts of pkg/database/postgresql (utils.go and the query builders of
    postgresql.go), read back with the lexer of the server. *)

From S2P Require Import Prelude GoStrings SqlLexer GoError Api Effects Connection PgUtils.
From S2P Require Import PgConfig Postgresql.

(** A name that one identifier of PostgreSQL can spell: neither empty nor longer
    than the 63 bytes that are significant, no dot, no zero character, not the
    star. *)
Definition simple_name (s : string) : bool :=
  bool_decide (0 < String.length s ≤ 63) && str_free "." s && str_free nul s && bool_decide (s ≠ "*").

Lemma qualified_simple s : simple_name s = true → qualified s = [TIdent s].
Proof.
  unfold simple_name. rewrite !andb_true_iff, bool_decide_eq_true, bool_decide_eq_true.
  intros [[[_ ?] ?] ?]. by apply qualified_single.
Qed.

(** C20: [CREATE USER] cannot be injected into.  For a name that one identifier can
    spell and a password without zero characters the server reads exactly one
    statement, which creates the user of exactly this name with exactly this
    password, or with none when it is empty; with a zero character in the
    password, which PostgreSQL does not allow in a literal, it reads no statement
    at all, whatever the name is. *)
Theorem create_user_reads_back u pw :
  (simple_name u = true → str_free nul pw = true →
   lex (createUserQuery u pw).1 = Some ([TWord "CREATE"; TWord "USER"; TIdent u] ++
     (if bool_decide (pw = "") then [] else [TWord "WITH"; TWord "PASSWORD"; TString pw]))) ∧
  (str_free nul pw = false → lex (createUserQuery u pw).1 = None).
Proof.
  split.
  - intros Hu Hpw. rewrite createUserQuery_lex, qualified_simple by done.
    cbn [app]. do 3 f_equal. unfold nonempty. by repeat case_bool_decide.
  - intros Hpw. by apply nul_in_literal_bad, createUserQuery_nul.
Qed.

(** [DROP USER] cannot be injected into, and drops the user that
    [CREATE USER] made: both statements name it by the same tokens. *)
Theorem drop_user_reads_back u :
  ∃ name, lex (deleteUserQuery u) = Some ([TWord "DROP"; TWord "USER"] ++ name) ∧
    lex (createUserQuery u "").1 = Some ([TWord "CREATE"; TWord "USER"] ++ name).
Proof.
  exists (qualified u). rewrite deleteUserQuery_lex, createUserQuery_lex by done. simpl.
  by rewrite app_nil_r.
Qed.

(** C21: A privilege statement: when the text of the privilege reads as the
    tokens [ptoks], the whole of it reads as keyword, privilege, object, [TO] or
    [FROM], and user: the object and the user are quoted names, whatever they
    contain, and the object is the [on] of the privilege, else its database. *)
Theorem privilege_reads_back statement arg username dbname on privilege ptoks :
  (statement, arg) ∈ [("GRANT", "TO"); ("REVOKE", "FROM")] →
  lex (escapeLiteralWithoutQuotes privilege) = Some ptoks →
  lex (prepareStatementForPrivilege statement arg username dbname on privilege) = Some (
    (TWord statement :: ptoks) ++
    (if bool_decide (on = "") then
       if bool_decide (dbname = "") then []
       else [TWord "ON"; TWord "DATABASE"] ++ qualified dbname
     else TWord "ON" :: qualified on) ++
    TWord arg :: qualified username).
Proof.
  intros Hs Hp. rewrite prepareStatementForPrivilege_lex with (ptoks := ptoks); try done.
  - do 3 f_equal. unfold privilege_object, nonempty. by repeat case_bool_decide.
  - rewrite !elem_of_cons, elem_of_nil in Hs. by destruct Hs as [[= -> _]|[[= -> _]|[]]].
  - rewrite !elem_of_cons, elem_of_nil in Hs. by destruct Hs as [[= _ ->]|[[= _ ->]|[]]].
Qed.

(** Escaping loses nothing: reading the escaped form of a name without NUL
    bytes and writing the tokens out again gives the name back; and the escaped
    form of such a string literal is read as that string. *)
Theorem escape_roundtrip s :
  str_free nul s = true →
  tokens_text <$> lex (escapeLiteral s) = Some s ∧ lex (escapeString s) = Some [TString s].
Proof. intros Hs. split; [by apply escapeLiteral_roundtrip|by apply escapeString_lex]. Qed.

Lemma filter_count_char a s :
  a ≠ nul → a ≠ dquote → a ≠ ";"%char →
  count_char a (escapeLiteralWithoutQuotes s) = count_char a s.
Proof.
  intros Hn Hq Hs. rewrite <- (strings_Join_Split s ".") at 2.
  unfold escapeLiteralWithoutQuotes, strings_Join. apply count_char_concat, Forall2_fmap_l.
  apply Forall_Forall2_diag, Forall_true. intros p.
  cbv beta zeta delta [escapeLiteralWithoutQuotes_part compose].
  assert (count_char a (String dquote (String dquote "")) = 0) as Hd.
  { cbn [count_char]. by destruct (Ascii.eqb_spec dquote a) as [E|]; [destruct Hq|]. }
  by rewrite !count_char_ReplaceAll.
Qed.

(** What the filter on the text of a privilege does: no semicolon and no NUL
    byte is left, a text without them and without double quotes passes
    unchanged, and nothing else is removed: every other character occurs as
    often as before, [#] included, which the code replaces in a value that it
    then discards. *)
Theorem privilege_filter s :
  str_free ";" (escapeLiteralWithoutQuotes s) = true ∧
  str_free nul (escapeLiteralWithoutQuotes s) = true ∧
  (str_free ";" s = true → str_free nul s = true → str_free dquote s = true →
   escapeLiteralWithoutQuotes s = s) ∧
  (∀ a, a ∉ [nul; dquote; ";"%char] →
   count_char a (escapeLiteralWithoutQuotes s) = count_char a s).
Proof.
  split_and!.
  - apply escapeLiteralWithoutQuotes_free. by left.
  - apply escapeLiteralWithoutQuotes_free. by right.
  - intros. by apply escapeLiteralWithoutQuotes_id.
  - intros a. rewrite !not_elem_of_cons. intros (?&?&?&_). by apply filter_count_char.
Qed.

(** A dot in a user name splits it: the statements then name two or more
    identifiers, so that no simple user is created or dropped. *)
Theorem dotted_user_splits u :
  str_free "." u = false →
  (∀ x, lex (deleteUserQuery u) ≠ Some [TWord "DROP"; TWord "USER"; x]) ∧
  TDot ∈ qualified u.
Proof.
  intros Hu.
  assert (∃ p q l, strings_Split u "." = p :: q :: l) as (p & q & l & E).
  { pose proof (strings_Join_Split u ".") as J. pose proof (strings_Split_free u ".") as F.
    destruct (strings_Split u ".") as [|p [|q l]] eqn:E; [|exfalso|eauto].
    - by apply strings_Split_ne in E.
    - apply Forall_inv in F. unfold strings_Join in J. simpl in J. subst p. by rewrite F in Hu. }
  assert (qualified u = part_token p :: TDot :: dotted (part_token <$> q :: l)) as Eq
    by (unfold qualified; by rewrite E).
  split.
  - intros x. rewrite deleteUserQuery_lex, Eq. simpl. destruct l; done.
  - rewrite Eq, !elem_of_cons. auto.
Qed.

(** ** Concrete inputs *)

Lemma privilege_reads_back_witness :
  lex (prepareStatementForPrivilege "GRANT" "TO" "john" "dat" "public.table" "ALL PRIVILEGES") =
    Some [TWord "GRANT"; TWord "ALL"; TWord "PRIVILEGES"; TWord "ON"; TIdent "public"; TDot;
          TIdent "table"; TWord "TO"; TIdent "john"].
Proof.
  apply (privilege_reads_back "GRANT" "TO" "john" "dat" "public.table" "ALL PRIVILEGES"
    [TWord "ALL"; TWord "PRIVILEGES"]).
  - by left.
  - vm_compute. reflexivity.
Defined.

Definition nasty_name : string := "a" +:+ String dquote "; DROP USER b; --".

Definition nasty_password : string := "'; DROP USER b; --" +:+ String "\" "'".

Lemma create_user_reads_back_witness :
  lex (createUserQuery nasty_name nasty_password).1 = Some [TWord "CREATE"; TWord "USER";
    TIdent nasty_name; TWord "WITH"; TWord "PASSWORD"; TString nasty_password].
Proof. apply (create_user_reads_back nasty_name nasty_password); by vm_compute. Defined.

Lemma escape_roundtrip_witness :
  tokens_text <$> lex (escapeLiteral nasty_name) = Some nasty_name ∧
  lex (escapeString nasty_name) = Some [TString nasty_name].
Proof. apply (escape_roundtrip nasty_name). reflexivity. Defined.

Lemma dotted_user_splits_witness :
  (∀ x, lex (deleteUserQuery "john.doe") ≠ Some [TWord "DROP"; TWord "USER"; x]) ∧
  TDot ∈ qualified "john.doe".
Proof. apply (dotted_user_splits "john.doe"). reflexivity. Defined.
