(* ===== verification/World.v ===== *)
(** * A concrete outside world

    An executable environment for the programs: an API server, a database
    server whose answers are a function of the statements it has executed, a
    file system, a certificate library and the shared test double.  The
    theorems hold for every environment; this one evaluates their hypotheses on
    concrete inputs. *)

From S2P Require Import Prelude GoStrings GoError Api Effects Connection Controller.

Record World := mkWorld {
  w_users : gmap types_NamespacedName User;
  w_databases : gmap types_NamespacedName Database;
  w_privileges : gmap types_NamespacedName Privileges;
  w_secrets : gmap types_NamespacedName K8sSecret;
  w_files : gmap string string;
  w_fake : FakeConnection;
  w_handles : nat;
  (** The statements executed so far, and the server's answer to the next one. *)
  w_sent : list (string * list string);
  w_reply : list (string * list string) → string * list string → option error;
  (** Requests that fail. *)
  w_fault : req → option error
}.

Definition not_found : error := StatusError ReasonNotFound "not found".
Definition already_exists : error := StatusError ReasonAlreadyExists "already exists".

Definition meta0 : ObjectMeta := mkObjectMeta "" "" "" [] None.
Definition user0 : User := mkUser meta0 (mkUserSpec []) (mkUserStatus (mkStatusSummary false "")).
Definition database0 : Database := mkDatabase meta0 (mkDatabaseSpec "" None None).
Definition privileges0 : Privileges := mkPrivileges meta0 [].
Definition secret0 : K8sSecret := mkK8sSecret "" "" [] ∅ ∅.

(** [Get]: the object, or an error and an empty object. *)
Definition w_get {A} (m : gmap types_NamespacedName A) (zero : A) (fault : option error)
    (nn : types_NamespacedName) : A * option error :=
  match fault, m !! nn with
  | Some e, _ => (zero, Some e)
  | None, Some a => (a, None)
  | None, None => (zero, Some not_found)
  end.

Definition user_key (u : User) : types_NamespacedName :=
  mkTypesNN (Meta_Namespace (User_Meta u)) (User_Name u).

Definition secret_key (s : K8sSecret) : types_NamespacedName :=
  mkTypesNN (K8sSecret_Namespace s) (K8sSecret_Name s).

(** The API server moves the string data of a new secret to its data. *)
Definition stored_secret (s : K8sSecret) : K8sSecret :=
  mkK8sSecret (K8sSecret_Name s) (K8sSecret_Namespace s) (K8sSecret_Owners s)
    ((String.list_byte_of_string <$> K8sSecret_StringData s) ∪ K8sSecret_Data s) ∅.

Section Set_.
Variable w : World.
Definition set_users (m : gmap types_NamespacedName User) : World :=
  mkWorld m (w_databases w) (w_privileges w) (w_secrets w) (w_files w) (w_fake w)
    (w_handles w) (w_sent w) (w_reply w) (w_fault w).
Definition set_secrets (m : gmap types_NamespacedName K8sSecret) : World :=
  mkWorld (w_users w) (w_databases w) (w_privileges w) m (w_files w) (w_fake w)
    (w_handles w) (w_sent w) (w_reply w) (w_fault w).
Definition set_fs (m : gmap string string) : World :=
  mkWorld (w_users w) (w_databases w) (w_privileges w) (w_secrets w) m (w_fake w)
    (w_handles w) (w_sent w) (w_reply w) (w_fault w).
Definition set_fake (f : FakeConnection) : World :=
  mkWorld (w_users w) (w_databases w) (w_privileges w) (w_secrets w) (w_files w) f
    (w_handles w) (w_sent w) (w_reply w) (w_fault w).
Definition next_handle : World :=
  mkWorld (w_users w) (w_databases w) (w_privileges w) (w_secrets w) (w_files w) (w_fake w)
    (S (w_handles w)) (w_sent w) (w_reply w) (w_fault w).
Definition add_sent (s : string * list string) : World :=
  mkWorld (w_users w) (w_databases w) (w_privileges w) (w_secrets w) (w_files w) (w_fake w)
    (w_handles w) (w_sent w ++ [s]) (w_reply w) (w_fault w).
End Set_.

(** An updated object without finalizers that is being deleted disappears. *)
Definition update_user (w : World) (u : User) : World :=
  match Finalizers u, Meta_DeletionTimestamp (User_Meta u) with
  | [], Some _ => set_users w (delete (user_key u) (w_users w))
  | _, _ => set_users w (<[user_key u := u]> (w_users w))
  end.

(** The error of a request whose answer is only an error. *)
Definition w_err (w : World) (r : req) (w' : World) : option error * World :=
  match w_fault w r with
  | Some e => (Some e, w)
  | None => (None, w')
  end.

(** The connection string of an URL. *)
Definition world_dsn (u : DburlURL) : string :=
  Userinfo_username (Url_User u) +:+ ":" +:+ default "" (Userinfo_password (Url_User u))
    +:+ "@tcp(" +:+ Url_Host u +:+ ")/" +:+ Url_Path u +:+ "?" +:+ Url_RawQuery u.

Definition handle (r : req) (w : World) : resp r * World :=
  let fault := w_fault w r in
  match r return resp r * World with
  | GetUser nn => (w_get (w_users w) user0 fault nn, w)
  | GetDatabase nn => (w_get (w_databases w) database0 fault nn, w)
  | GetPrivileges nn => (w_get (w_privileges w) privileges0 fault nn, w)
  | GetSecret nn => (w_get (w_secrets w) secret0 fault nn, w)
  | UpdateUser u | UpdateUserStatus u =>
      match fault with
      | Some e => ((u, Some e), w)
      | None => ((u, None), update_user w u)
      end
  | CreateSecret s =>
      match fault, w_secrets w !! secret_key s with
      | Some e, _ => (Some e, w)
      | None, Some _ => (Some already_exists, w)
      | None, None => (None, set_secrets w (<[secret_key s := stored_secret s]> (w_secrets w)))
      end
  | DeleteSecret s =>
      match fault, w_secrets w !! secret_key s with
      | Some e, _ => (Some e, w)
      | None, None => (Some not_found, w)
      | None, Some _ => (None, set_secrets w (delete (secret_key s) (w_secrets w)))
      end
  | RecordEvent _ _ _ _ | LoggerInfo _ | LoggerError _ _ => ((), w)
  | SetControllerReference u s =>
      match fault with
      | Some e => ((s, Some e), w)
      | None =>
          ((mkK8sSecret (K8sSecret_Name s) (K8sSecret_Namespace s)
              (User_Name u :: K8sSecret_Owners s) (K8sSecret_Data s) (K8sSecret_StringData s),
            None), w)
      end
  | NewInvalid gk name path value =>
      (StatusError ReasonInvalid (gk +:+ " " +:+ name +:+ ": " +:+ path +:+ ": " +:+ value), w)
  | SqlConnect _ _ =>
      match fault with
      | Some e => ((0, Some e), w)
      | None => ((w_handles w, None), next_handle w)
      end
  | SqlSetMaxIdleConns _ _ | SqlSetMaxOpenConns _ _ => ((), w)
  | SqlClose _ => w_err w r w
  | SqlExec _ q args =>
      match w_reply w (w_sent w) (q, args) with
      | Some e => (Some e, w)
      | None => (None, add_sent w (q, args))
      end
  | GenMysql u =>
      ((world_dsn u, fault), w)
  | Getenv _ => ("/home/operator", w)
  | MkdirAll _ _ => w_err w r w
  | WriteFile p d _ => w_err w r (set_fs w (<[p := d]> (w_files w)))
  | Remove p => w_err w r (set_fs w (delete p (w_files w)))
  | ParsePKCS1PrivateKey _ => ((1, fault), w)
  | ParseCertificate _ => ((2, fault), w)
  | RandInt63 => (4%Z, w)
  | TimeNow => (0%Z, w)
  | TimeAddDate t y m d => ((t + 31536000 * y + 2592000 * m + 86400 * d)%Z, w)
  | GenerateKey _ => ((3, fault), w)
  | CreateCertificate c _ _ _ => (("certificate of " +:+ Cert_CommonName c, fault), w)
  | MarshalPKCS1PrivateKey _ => ("private key", w)
  | FlagString _ value => (value, w)
  | FlagBool _ value => (value, w)
  | BindZapFlags _ | SetLogger _ => ((), w)
  | FlagParse => (None, w)
  | AddClientGoToScheme | AddToScheme _ _ _ => w_err w r w
  | GetConfigOrDie => (bool_decide (fault = None), w)
  | NewManager _ => ((0, fault), w)
  | CompleteController _ _ _ _ | AddHealthzCheck _ _ | AddReadyzCheck _ _ | StartManager _ => w_err w r w
  | FakeCall _ op => let '(a, f) := fake_step op (w_fake w) in (a, set_fake w f)
  end.

(** ** Finalizers as lists *)

#[export] Instance list_Controllerutil : Controllerutil := {
  ContainsFinalizer u f := bool_decide (f ∈ Finalizers u);
  AddFinalizer u f :=
    if bool_decide (f ∈ Finalizers u) then u else set_Finalizers u (Finalizers u ++ [f]);
  RemoveFinalizer u f := set_Finalizers u (filter (λ g, g ≠ f) (Finalizers u))
}.

#[export] Instance list_ControllerutilLaws : ControllerutilLaws list_Controllerutil.
Proof.
  split; intros u f; simpl.
  - apply bool_decide_eq_true.
  - by case_bool_decide.
  - intros g. case_bool_decide; simpl.
    + split; [by right|]. by intros [->|?].
    + unfold Finalizers. simpl. rewrite elem_of_app, list_elem_of_singleton. tauto.
  - done.
  - intros g. unfold Finalizers. simpl. by rewrite list_elem_of_filter.
Qed.

(** ** Running against the world *)

Definition exec {A} (p : prog A) (w : World) : list event * outcome A * World := run handle p w.
Definition trace {A} (p : prog A) (w : World) : list event := (exec p w).1.1.
Definition result {A} (p : prog A) (w : World) : outcome A := (exec p w).1.2.
Definition final {A} (p : prog A) (w : World) : World := (exec p w).2.

Lemma exec_runs {A} (p : prog A) w o : result p w = o → runs p (trace p w) o.
Proof. intros <-. apply run_runs. Qed.

(** A list around its [n]-th element. *)
Lemma place {A} (l : list A) n x : l !! n = Some x → l = take n l ++ x :: drop (S n) l.
Proof. intros H. symmetry. by apply take_drop_middle. Qed.

(** A run whose first event is known. *)
Lemma exec_runs_head {A} (p : prog A) w o e :
  head (trace p w) = Some e → result p w = o → runs p (e :: tail (trace p w)) o.
Proof.
  intros He <-. pose proof (exec_runs p w _ eq_refl) as Hr. destruct (trace p w); simplify_eq/=. done.
Qed.

(** The answers of a server without errors. *)
Definition reply_ok (hist : list (string * list string)) (s : string * list string)
    : option error := None.

Definition world0 : World := mkWorld ∅ ∅ ∅ ∅ ∅ NewFakeConnection 0 [] reply_ok (λ _, None).

(** A bound on the requests of all runs is one on the program. *)
Lemma runs_only {A} (P : req → Prop) (p : prog A) :
  (∀ t o, runs p t o → Forall (λ e, P (projT1 e)) t) → only P p.
Proof.
  induction p as [a|m|r k IH]; simpl; intros Hp; [done..|].
  assert (∀ x t o, runs (k x) t o → Forall (λ e, P (projT1 e)) (ev r x :: t)) as Hk by eauto 6. split.
  - pose proof (Hk (handle r world0).1 _ _ (run_runs handle _ world0)) as H. by apply Forall_cons in H as [H _].
  - intros x. apply IH. intros t o Ht. by apply (Hk x) in Ht as [_ ?]%Forall_cons.
Qed.
