(* ===== verification/Samples.v ===== *)
(** * Sample objects

    A small cluster, modelled on the fixtures of controllers/common_test.go, on
    which the hypotheses of the theorems are evaluated. *)

From S2P Require Import Prelude GoStrings GoError Api Effects Pem Certificates Connection PgConfig.
From S2P Require Import Postgresql Mysql Database Controller World.

Definition namespace : string := "test".

(** ** Databases *)

Definition pg_password : Secret := mkSecret (mkNamespacedName namespace "pg-password") "pass".
Definition my_password : Secret := mkSecret (mkNamespacedName namespace "my-password") "pass".

Definition pg_spec (sslmode : string) : PostgreSQLConfig :=
  mkPostgreSQLConfig "test-postgres" 5432 "test-user" sslmode "app"
    (mkNamespacedName namespace "pg-ssl") (mkSecret (mkNamespacedName namespace "pg-ca") "ca.key")
    pg_password.

Definition my_spec : MySQLConfig :=
  mkMySQLConfig "test-mysql" 3306 "app" "test-user" my_password "".

Definition meta (name : string) : ObjectMeta := mkObjectMeta name "" "1" [] None.

Definition pg_database (sslmode : string) : Database :=
  mkDatabase (meta "pg") (mkDatabaseSpec PostgreSQL (Some (pg_spec sslmode)) None).
Definition my_database : Database :=
  mkDatabase (meta "my") (mkDatabaseSpec MySQL None (Some my_spec)).

(** ** Privileges *)

Definition sample_privileges : list PrivilegeSpec :=
  [ mkPrivilegeSpec "ALL PRIVILEGES" "table" "dat";
    mkPrivilegeSpec "CONNECT" "" "conn_dat";
    mkPrivilegeSpec "rolename" "" "" ].

Definition sample_privileges_object : Privileges := mkPrivileges (meta "privileges") sample_privileges.

(** ** Users *)

Definition ref (db : string) : DatabaseRef :=
  mkDatabaseRef db (mkSecret (mkNamespacedName namespace "user-password") "pass")
    (mkNamespacedName namespace "created-secret") [mkName "privileges"].

Definition sample_user (finalizers : list string) (deleted : option string) (ready : bool)
    (dbs : list string) : User :=
  mkUser (mkObjectMeta "john" "" "1" finalizers deleted) (mkUserSpec (ref <$> dbs))
    (mkUserStatus (mkStatusSummary ready "")).

Definition john : types_NamespacedName := mkTypesNN "" "john".

(** ** Secrets *)

Definition secret (name : string) (data : list (string * string)) : K8sSecret :=
  mkK8sSecret name namespace []
    (list_to_map (prod_map id String.list_byte_of_string <$> data)) ∅.

Definition sample_secrets : gmap types_NamespacedName K8sSecret :=
  list_to_map ((λ s, (secret_key s, s)) <$>
    [ secret "pg-password" [("pass", "pg-secret")];
      secret "my-password" [("pass", "my-secret")];
      secret "user-password" [("pass", "mysupersecretpass")];
      secret "pg-ssl" [("ca.crt", SSLCACert); ("tls.crt", SSLJohnCert); ("tls.key", SSLJohnKey)];
      secret "pg-ca" [("ca.key", SSLCAKey)] ]).

(** ** Worlds *)

(** A server where a user can be created once: the second [CREATE USER] of the
    same text fails with the given error. *)
Definition reply_once (e : error) (hist : list (string * list string)) (s : string * list string)
    : option error :=
  if String.prefix "CREATE USER" s.1 && bool_decide (s ∈ hist) then Some e else None.

(** A server that refuses every statement that begins so. *)
Definition reply_refuse (prefix : string) (e : error) (hist : list (string * list string))
    (s : string * list string) : option error :=
  if String.prefix prefix s.1 then Some e else None.

Definition sample_world (sslmode : string) (u : User)
    (reply : list (string * list string) → string * list string → option error) : World :=
  mkWorld {[user_key u := u]}
    {[mkTypesNN "" "pg" := pg_database sslmode; mkTypesNN "" "my" := my_database]}
    {[mkTypesNN "" "privileges" := sample_privileges_object]}
    sample_secrets ∅ NewFakeConnection 0 [] reply (λ _, None).

Definition new_user : User := sample_user [] None false ["pg"; "my"].
Definition ready_user : User := sample_user [userFinalizer] None true ["pg"; "my"].
Definition deleted_user : User := sample_user [userFinalizer] (Some "now") true ["pg"; "my"].
Definition forgotten_user : User := sample_user [] (Some "now") true ["pg"; "my"].

Definition world_of (u : User) : World := sample_world SSLModeVERIFYFULL u reply_ok.

(** A server that refuses to work, as [pgx] reports it. *)
Definition refused : error := PgError "28000" "ERROR: not allowed (SQLSTATE 28000)".
Definition duplicate : error := PgError "42710" "ERROR: role exists (SQLSTATE 42710)".
Definition undefined : error := PgError "42704" "ERROR: role does not exist (SQLSTATE 42704)".

Definition world_refusing (prefix : string) (u : User) : World :=
  sample_world SSLModeVERIFYFULL u (reply_refuse prefix refused).

(** ** Database objects with an open connection *)

Definition open_conn : DefaultConnector := mkDefaultConnector (Some 0).

Definition plain_cfg : Config :=
  NewConfig "postgres" 5432 "user" "password" "dbname" "disable" "" "" "" "".
Definition ssl_cfg : Config :=
  NewConfig "postgres" 5432 "user" "password" "dbname" "verify-full"
    SSLCACert SSLJohnCert SSLJohnKey SSLCAKey.

(** What [CreateUser] returns for john in the sample world. *)
Definition john_ssl_data : gmap string string :=
  <["tls.crt" := pem_EncodeToMemory (mkBlock "CERTIFICATE" "certificate of john")]>
    (<["tls.key" := pem_EncodeToMemory (mkBlock "RSA PRIVATE KEY" "private key")]>
      {["ca.crt" := SSLCACert]}).

(** As [Connect] leaves it. *)
Definition pg_plain : Postgresql DefaultConnector := mkPostgresql open_conn plain_cfg.
Definition pg_ssl : Postgresql DefaultConnector :=
  mkPostgresql open_conn (set_createCertificates ssl_cfg).
Definition my_plain : Mysql DefaultConnector :=
  mkMysql open_conn (MysqlNewConfig "test-mysql" 3306 "root" "password" "" "").

(** The sample cluster with a server that answers as given. *)
Definition world_with (reply : list (string * list string) → string * list string → option error)
    : World := sample_world SSLModeVERIFYFULL new_user reply.
