(* ===== verification/EntryPoint.v ===== *)
(** * The entry point (main.go)

    The registration of the types with the scheme, the set-up of the manager
    and of the controller, and the exit code of the process. *)

From S2P Require Import Prelude GoStrings GoError Api Effects Connection Database Controller World.

(** ** The API group (groupversion_info.go and the [init] functions of the types) *)

Definition GroupVersion : string * string := ("databaseusersoperator.com", "v1alpha1").

(** [SchemeBuilder.Register] in the [init] functions of the types, which Go runs
    in the order of the files. *)
Definition Register (b kinds : list string) : list string := b ++ kinds.
Definition database_types_init (b : list string) : list string := Register b ["Database"; "DatabaseList"].
Definition privileges_types_init (b : list string) : list string :=
  Register b ["Privileges"; "PrivilegesList"].
Definition user_types_init (b : list string) : list string := Register b ["User"; "UserList"].

Definition SchemeBuilder : list string :=
  user_types_init (privileges_types_init (database_types_init [])).

Definition v1alpha1_AddToScheme : prog (option error) :=
  call (AddToScheme GroupVersion.1 GroupVersion.2 SchemeBuilder).

(** [clientgoscheme.AddToScheme] registers the types of client-go. *)
Definition clientgoscheme_AddToScheme : prog (option error) := call AddClientGoToScheme.

(** [utilruntime.Must] *)
Definition utilruntime_Must (p : prog (option error)) : prog () :=
  let! err := p in
  match err with Some e => Panic (Error e) | None => Ret () end.

Definition main_init : prog () :=
  do! utilruntime_Must clientgoscheme_AddToScheme in
  utilruntime_Must v1alpha1_AddToScheme.

(** ** The controller *)

(** The controller-runtime builder, completed with the reconciler: users, and the
    secrets they own. *)
Definition SetupWithManager (r : UserReconciler) (mgr : nat) : prog (option error) :=
  call (CompleteController mgr r "User" ["Secret"]).

Definition main_reconciler (mgr : nat) : UserReconciler :=
  mkUserReconciler mgr mgr database_NewDatabase (mgr, "database-users-operator").

(** The method [Reconcile] of a reconciler, which the manager calls. *)
Definition UserReconciler_Reconcile {U : Controllerutil} (r : UserReconciler) (nn : types_NamespacedName)
    : prog (Result * option error) :=
  match DatabaseCreator r with
  | database_NewDatabase => Reconcile NewDatabase nn
  | FakeDatabase_DatabaseCreatorFunc l => Reconcile (DatabaseCreatorFunc (NewFakeDatabase (mkFakePtr l))) nn
  end.

(** ** main *)

(** [setupLog.Error(err, msg); os.Exit(1)]: the result of [main] is the exit
    code of the process. *)
Definition fatal (err : error) (msg : string) : prog Z :=
  do! call (LoggerError err msg) in Ret 1%Z.

Definition main_options (metricsAddr probeAddr : string) (enableLeaderElection : bool) : ManagerOptions :=
  mkManagerOptions metricsAddr 9443 probeAddr enableLeaderElection
    "54429e69.databaseusersoperator.com".

Definition main : prog Z :=
  do! main_init in
  let! metricsAddr := call (FlagString "metrics-bind-address" ":8080") in
  let! probeAddr := call (FlagString "health-probe-bind-address" ":8081") in
  let! enableLeaderElection := call (FlagBool "leader-elect" false) in
  do! call (BindZapFlags true) in
  let! exited := call FlagParse in
  match exited with Some code => Ret code | None =>
  do! call (SetLogger true) in
  let! config := call GetConfigOrDie in
  if negb config then Ret 1%Z else
  let! (mgr, err) := call (NewManager (main_options metricsAddr probeAddr enableLeaderElection)) in
  match err with Some e => fatal e "unable to start manager" | None =>
  let! err := SetupWithManager (main_reconciler mgr) mgr in
  match err with Some e => fatal e "unable to create controller" | None =>
  let! err := call (AddHealthzCheck mgr "healthz") in
  match err with Some e => fatal e "unable to set up health check" | None =>
  let! err := call (AddReadyzCheck mgr "readyz") in
  match err with Some e => fatal e "unable to set up ready check" | None =>
  do! call (LoggerInfo "starting manager") in
  let! err := call (StartManager mgr) in
  match err with Some e => fatal e "problem running manager" | None => Ret 0%Z end
  end end end end end.

(** ** What it does *)

Definition start_of (e : event) : option (nat * option error) :=
  match e with
  | existT r x =>
      match r return resp r → option (nat * option error) with
      | StartManager mgr => λ x, Some (mgr, x)
      | _ => λ _, None
      end x
  end.
Definition is_start (e : event) : Prop := match projT1 e with StartManager _ => True | _ => False end.

(** The requests of [main] up to the start of the manager. *)
Definition set_up (metrics probe : string) (leader : bool) (mgr : nat) : list event :=
  [ ev AddClientGoToScheme None; ev (AddToScheme GroupVersion.1 GroupVersion.2 SchemeBuilder) None;
    ev (FlagString "metrics-bind-address" ":8080") metrics;
    ev (FlagString "health-probe-bind-address" ":8081") probe;
    ev (FlagBool "leader-elect" false) leader;
    ev (BindZapFlags true) (); ev FlagParse None; ev (SetLogger true) (); ev GetConfigOrDie true;
    ev (NewManager (main_options metrics probe leader)) (mgr, None);
    ev (CompleteController mgr (main_reconciler mgr) "User" ["Secret"]) None;
    ev (AddHealthzCheck mgr "healthz") None; ev (AddReadyzCheck mgr "readyz") None;
    ev (LoggerInfo "starting manager") () ].

(** A run starts the manager, or it ends before. *)
Lemma main_runs t o :
  runs main t o →
  (∃ metrics probe leader mgr x,
     t = set_up metrics probe leader mgr ++ ev (StartManager mgr) x ::
       match x with None => [] | Some e => [ev (LoggerError e "problem running manager") ()] end ∧
     o = Returned (match x with None => 0 | Some _ => 1 end)%Z) ∨
  Forall (λ e, ¬ is_start e) t ∧ (o = Returned 0%Z → last t = Some (ev FlagParse (Some 0%Z))).
Proof.
  assert (∀ t0 : list event, forallb (λ e, match projT1 e with StartManager _ => false | _ => true end) t0 = true →
    Forall (λ e, ¬ is_start e) t0) as Hno.
  { intros t0 H0. rewrite forallb_forall in H0. apply Forall_forall. intros e He.
    apply list_elem_of_In, H0 in He. cbv beta in He. unfold is_start.
    destruct (projT1 e); (done || by intros []). }
  unfold main. cbn [main_init utilruntime_Must bind call clientgoscheme_AddToScheme v1alpha1_AddToScheme].
  intros ([e|] & t0 & -> & H); [destruct H as [-> ->]; right; by split; [apply Hno|]|].
  destruct H as ([e|] & t1 & -> & H); [destruct H as [-> ->]; right; by split; [apply Hno|]|].
  destruct H as (metrics & t2 & -> & probe & t3 & -> & leader & t4 & -> & [] & t5 & -> & [code|] & t6 & -> & H).
  { destruct H as [-> ->]. right. split; [by apply Hno|]. by intros [= ->]. }
  destruct H as ([] & s1 & -> & [] & s2 & -> & H); [|destruct H as [-> ->]; right; by split; [apply Hno|]].
  destruct H as ([mgr [e|]] & t8 & -> & H); [destruct H as ([] & t9 & -> & -> & ->); right; by split; [apply Hno|]|].
  do 3 (destruct H as ([e|] & ? & -> & H);
    [destruct H as ([] & ? & -> & -> & ->); right; by split; [apply Hno|]|]).
  destruct H as ([] & t12 & -> & r & t13 & -> & H). left. exists metrics, probe, leader, mgr, r.
  destruct r as [e|]; [destruct H as ([] & t14 & -> & -> & ->)|destruct H as [-> ->]]; done.
Qed.

(** Membership in a list that is written out. *)
Ltac in_list := by repeat first [apply list_elem_of_here|apply list_elem_of_further].

(** C26: The manager is started only when everything is set up.  Before that the
    types of client-go and all the types of the API group were registered, the
    manager was made with the addresses and the leader election that the flags
    gave, the controller for users and the secrets they own was completed with a
    reconciler whose [Reconcile] is that of the operator over [NewDatabase], with
    the manager's client and scheme, and both probes were added, each without an
    error.  What the manager returns decides the exit code: 0 for nil, else 1
    after the error was logged; and the only other way to exit code 0 is that
    [flag.Parse] ended the process with it. *)
Theorem manager_started {U : Controllerutil} t o :
  runs main t o →
  (∀ t1 mgr x t2, t = t1 ++ ev (StartManager mgr) x :: t2 →
     (ev AddClientGoToScheme None ∈ t1 ∧
      ev (AddToScheme "databaseusersoperator.com" "v1alpha1"
        ["Database"; "DatabaseList"; "Privileges"; "PrivilegesList"; "User"; "UserList"]) None ∈ t1) ∧
     (∃ metrics probe leader,
        ev (FlagString "metrics-bind-address" ":8080") metrics ∈ t1 ∧
        ev (FlagString "health-probe-bind-address" ":8081") probe ∈ t1 ∧
        ev (FlagBool "leader-elect" false) leader ∈ t1 ∧
        ev (NewManager (mkManagerOptions metrics 9443 probe leader "54429e69.databaseusersoperator.com"))
          (mgr, None) ∈ t1) ∧
     (∃ r, ev (CompleteController mgr r "User" ["Secret"]) None ∈ t1 ∧
        (∀ nn, UserReconciler_Reconcile r nn = OperatorReconcile nn) ∧
        Client r = mgr ∧ Scheme r = mgr ∧ Recorder r = (mgr, "database-users-operator")) ∧
     ev (AddHealthzCheck mgr "healthz") None ∈ t1 ∧ ev (AddReadyzCheck mgr "readyz") None ∈ t1 ∧
     (x = None ∧ t2 = [] ∧ o = Returned 0%Z ∨
      ∃ e, x = Some e ∧ t2 = [ev (LoggerError e "problem running manager") ()] ∧ o = Returned 1%Z)) ∧
  (o = Returned 0%Z →
   (∃ mgr, last t = Some (ev (StartManager mgr) None)) ∨ last t = Some (ev FlagParse (Some 0%Z))).
Proof.
  intros [(metrics & probe & leader & mgr & x & -> & ->)|[Hno Hz]]%main_runs.
  - split.
    + intros t1 mgr' x' t2 E.
      apply (split_unique is_start (set_up metrics probe leader mgr)) in E as (-> & E & ->);
        [|repeat constructor; by intros []| |done].
      2: { destruct x; repeat constructor; by intros []. }
      apply (f_equal start_of) in E. injection E as -> ->.
      split_and!; try in_list.
      * exists metrics, probe, leader.
        split_and!; in_list.
      * exists (main_reconciler mgr). split_and!; [in_list|done..].
      * destruct x as [e|]; [right; by exists e|by left].
    + intros H. destruct x; [done|]. left. exists mgr. by rewrite last_snoc.
  - split; [|by auto]. intros t1 mgr x t2 ->. apply Forall_app in Hno as [_ [[] _]%Forall_cons]. done.
Qed.

(** The process in a cluster without faults. *)
Definition main_trace : list event := trace main world0.

Lemma manager_started_witness :
  ev (CompleteController 0 (main_reconciler 0) "User" ["Secret"]) None ∈ take 14 main_trace ∧
  ev (AddReadyzCheck 0 "readyz") None ∈ take 14 main_trace.
Proof.
  destruct (manager_started main_trace (Returned 0%Z)) as [H _].
  - apply (exec_runs main world0). vm_compute. reflexivity.
  - destruct (H (take 14 main_trace) 0 None []) as (_ & _ & _ & _ & Hready & _).
    + vm_compute. reflexivity.
    + split; [in_list|exact Hready].
Defined.
