(* ===== verification/Healthy.v ===== *)
(** * A cluster without faults

    What it takes for a reconciliation to succeed: the objects a user refers to
    exist and are valid ([ref_ok]), and the requests are answered without
    errors, other than those with which a PostgreSQL server says that the work
    was done before ([healthy]).  Under these conditions the work in a database
    ([databaseReconciler] over [NewDatabase]) ends without an error. *)

From S2P Require Import Prelude GoStrings GoError Api Effects Logic Utils Connection PgUtils.
From S2P Require Import PgConfig Postgresql Mysql Database CertInputs Controller ControllerFacts World.

(** The objects that are known to be stored. *)
Record cluster := mkCluster {
  c_databases : gmap types_NamespacedName Database;
  c_privileges : gmap types_NamespacedName Privileges;
  c_secrets : gmap types_NamespacedName K8sSecret
}.

Definition answers {A} (a : option A) (x : A * option error) : Prop :=
  match a with Some a => x = (a, None) | None => True end.

(** An accepted object comes back with a resource version. *)
Definition accepted (u : User) (x : User * option error) : Prop := ∃ v, x = (with_rv u v, None).

(** A PostgreSQL server has the role already, or has not any more what is to be
    revoked or dropped; the statements of MySQL have arguments. *)
Definition done_before (q : string) (x : option error) : bool :=
  String.prefix "CREATE USER " q && isAlreadyExists x || removal q && isNotExists x.

Definition harmless (q : string) (args : list string) (x : option error) : Prop :=
  x = None ∨ args = [] ∧ done_before q x = true.

(** Reads of objects outside the cluster are not restricted. *)
Definition healthy (c : cluster) (e : event) : Prop :=
  match e with
  | existT r x =>
      match r return resp r → Prop with
      | GetDatabase nn => answers (c_databases c !! nn)
      | GetPrivileges nn => answers (c_privileges c !! nn)
      | GetSecret nn => answers (c_secrets c !! nn)
      | UpdateUser u | UpdateUserStatus u => accepted u
      | SetControllerReference _ _ => no_error
      | SqlConnect _ _ => no_error
      | GenMysql _ => no_error
      | ParsePKCS1PrivateKey _ | ParseCertificate _ => no_error
      | GenerateKey _ => no_error
      | CreateCertificate _ _ _ _ => no_error
      | CreateSecret _ | MkdirAll _ _ | WriteFile _ _ _ => λ x, x = None
      | SqlExec _ q args => harmless q args
      | _ => λ _, True
      end x
  end.

Section Cluster.
Variable c : cluster.

(** ** What a user needs *)

Definition secret_given (s : Secret) : bool :=
  bool_decide (Secret_Key s ≠ "") && bool_decide (NamespacedName_Name (Secret_Secret s) ≠ "")
  && bool_decide (NamespacedName_Namespace (Secret_Secret s) ≠ "").

Definition find_secret (n : NamespacedName) : option K8sSecret :=
  c_secrets c !! NamespacedName_ToNamespacedName n.
Definition secret_exists (n : NamespacedName) : bool := bool_decide (is_Some (find_secret n)).
Definition key_exists (s : Secret) : bool :=
  match find_secret (Secret_Secret s) with
  | Some k => bool_decide (is_Some (K8sSecret_Data k !! Secret_Key s))
  | None => false
  end.

Definition password_ok (s : Secret) : bool := negb (secret_given s) || secret_exists (Secret_Secret s).

(** The secrets of the client certificates, with the CA certificate and key as
    PEM text. *)
Definition pem_entry (n : NamespacedName) (key : string) : bool :=
  match find_secret n with
  | Some k => is_pem (map_get (string_of_bytes <$> K8sSecret_Data k) key)
  | None => false
  end.

Definition pg_ok (p : PostgreSQLConfig) : bool :=
  (negb (ssl_required (Pg_SSLMode p))
     || pem_entry (Pg_SSLCredentialsSecret p) "ca.crt"
        && pem_entry (Secret_Secret (Pg_SSLCAKey p)) (Secret_Key (Pg_SSLCAKey p)))
  && password_ok (Pg_PasswordSecret p).
Definition my_ok (m : MySQLConfig) : bool := password_ok (My_PasswordSecret m).

Definition database_ok (d : Database) : bool :=
  let s := Database_Spec d in
  DatabaseSpec_XValidation s
  && default true (pg_ok <$> DatabaseSpec_PostgreSQL s)
  && default true (my_ok <$> DatabaseSpec_MySQL s).

Definition privileges_ok (nm : Name) : bool :=
  match c_privileges c !! Name_ToNamespacedName nm with
  | Some p => forallb (λ pr, nonempty (Privilege pr)) (Privileges_Privileges p)
  | None => false
  end.

Definition ref_ok (ref : DatabaseRef) : bool :=
  match c_databases c !! mkTypesNN "" (DatabaseRef_Name ref) with
  | Some d => database_ok d
  | None => false
  end
  && (negb (secret_given (DatabaseRef_PasswordSecret ref)) || key_exists (DatabaseRef_PasswordSecret ref))
  && forallb privileges_ok (DatabaseRef_Privileges ref).

(** ** Every request has a healthy answer *)

Lemma answers_some {A} (a : option A) (z : A) : ∃ x, answers a x.
Proof. destruct a as [a|]; [by exists (a, None)|by exists (z, None)]. Qed.

Lemma healthy_answer r : ∃ x, healthy c (ev r x).
Proof.
  pose proof (handle r world0).1 as x. destruct r; simpl in *;
    first
      [ by exists x
      | by exists None
      | by exists None; left
      | by exists (x.1, None)
      | by apply answers_some, x.1
      | by exists (with_rv u "", None), "" ].
Qed.
End Cluster.

(** ** Steps of the proofs *)

(** The answer [(a, e)] of a call holds no error. *)
Ltac took E := hnf in E; simpl in E; subst; cbv beta iota.

(** The next request answers without an error. *)
Ltac wp_ok :=
  let x := fresh "x" in let Hx := fresh "Hx" in
  simpl; intros x Hx; try destruct x as [x ?]; took Hx.

(** ** Secrets *)

Section Proofs.
Variable c : cluster.
Notation wp := (wp (healthy c)).

Lemma DecodeSecretData_ok n s :
  find_secret c n = Some s →
  wp (DecodeSecretData (NamespacedName_ToNamespacedName n))
    (λ x, x = (string_of_bytes <$> K8sSecret_Data s, None)).
Proof. intros Hs x Hx. simpl in Hx. unfold find_secret in Hs. rewrite Hs in Hx. by simplify_eq/=. Qed.

Lemma secret_exists_spec n : secret_exists c n = true → ∃ s, find_secret c n = Some s.
Proof. intros H%bool_decide_eq_true. by destruct H as [s Hs]; exists s. Qed.

Lemma passwordFromSecret_ok s : password_ok c s = true → wp (passwordFromSecret s) no_error.
Proof.
  unfold password_ok, passwordFromSecret. fold (secret_given s).
  destruct (secret_given s); [|done]. intros (k & Hk)%secret_exists_spec.
  eapply wp_seq; [by apply DecodeSecretData_ok|]. by intros ? ->.
Qed.

Lemma secret_given_spec s :
  bool_decide (Secret_Key s = "") || bool_decide (NamespacedName_Name (Secret_Secret s) = "")
  || bool_decide (NamespacedName_Namespace (Secret_Secret s) = "") = negb (secret_given s).
Proof.
  unfold secret_given. rewrite !bool_decide_not.
  by destruct (bool_decide _), (bool_decide _), (bool_decide _).
Qed.

Lemma userPassword_ok s :
  (negb (secret_given s) || key_exists c s = true) → wp (userPassword s) no_error.
Proof.
  unfold userPassword, key_exists. rewrite secret_given_spec.
  destruct (secret_given s); [|done]. cbn [negb orb]. intros H.
  destruct (find_secret c (Secret_Secret s)) as [k|] eqn:Ek; [|done].
  apply bool_decide_eq_true in H as [b Hb].
  eapply wp_seq; [by apply DecodeSecretData_ok|]. intros ? ->.
  rewrite lookup_fmap, Hb. done.
Qed.

Lemma pem_entry_spec n key :
  pem_entry c n key = true →
  ∃ s, find_secret c n = Some s ∧ is_pem (map_get (string_of_bytes <$> K8sSecret_Data s) key) = true.
Proof. unfold pem_entry. destruct (find_secret c n) as [s|]; [eauto|done]. Qed.

Lemma readSSL_ok p :
  (negb (ssl_required (Pg_SSLMode p))
     || pem_entry c (Pg_SSLCredentialsSecret p) "ca.crt"
        && pem_entry c (Secret_Secret (Pg_SSLCAKey p)) (Secret_Key (Pg_SSLCAKey p)) = true) →
  wp (readSSL p) (λ x, no_error x ∧ ssl_given x.1.1 x.1.2).
Proof.
  unfold readSSL. destruct (ssl_required _); [|by intros _; split; [|left]]. cbn [negb orb].
  intros [(s1 & H1 & P1)%pem_entry_spec (s2 & H2 & P2)%pem_entry_spec]%andb_true_iff.
  eapply wp_seq; [by apply DecodeSecretData_ok|]. intros ? ->.
  eapply wp_seq; [by apply DecodeSecretData_ok|]. intros ? ->. by split; [|right].
Qed.

(** ** PostgreSQL *)

Lemma createCertFile_ok path data : wp (createCertFile path data) (eq None).
Proof. wp_ok. by wp_ok. Qed.

Lemma connSlice_cert_ok data file key l : wp (connSlice_cert data file key l) no_error.
Proof.
  unfold connSlice_cert. destruct (nonempty data); [|done].
  eapply wp_seq; [apply createCertFile_ok|]. by intros ? <-.
Qed.

Lemma ConnString_ok cfg : wp (ConnString cfg) (λ x, x.2.2 = None).
Proof.
  assert (∀ cfg l, wp (ConnString_certs cfg l) (λ x, x.2.2 = None)) as Hc.
  { intros cfg' l. unfold ConnString_certs.
    do 3 (eapply wp_seq; [apply connSlice_cert_ok|]; intros [? ?] E; took E).
    done. }
  intros h1 _ h2 _ h3 _. apply Hc.
Qed.

(** A connection that is open. *)
Definition connected (d : DefaultConnector) : Prop := is_Some (DefaultConnector_db d).

Lemma Connect_ok (d : DefaultConnector) driver s :
  wp (Connect d driver s) (λ x, x.2 = None ∧ connected x.1).
Proof. wp_ok. intros _ _ _ _. split; [done|by eexists]. Qed.

Lemma Exec_harmless (d : DefaultConnector) l q args : connected d → wp (Exec d l q args) (harmless q args).
Proof.
  intros [h Hh]. simpl. unfold DefaultConnector_Exec, DefaultConnector_infoLog. rewrite Hh.
  case_bool_decide; simpl; [|intros _ _]; by intros x Hx.
Qed.

(** Statements that can only succeed: those of MySQL, and grants. *)
Lemma Exec_ok (d : DefaultConnector) l q args :
  connected d → args ≠ [] ∨ (∀ x, done_before q x = false) → wp (Exec d l q args) (eq None).
Proof.
  intros Hd Hq. eapply wp_mono; [by apply Exec_harmless|]. intros x [->|[Ha Hx]]; [done|].
  destruct Hq as [?|Hq]; [done|]. by rewrite Hq in Hx.
Qed.

Lemma Close_ok (d : DefaultConnector) : connected d → wp (Close d) (λ _, True).
Proof. intros [h Hh]. simpl. unfold DefaultConnector_Close. rewrite Hh. done. Qed.

Lemma Postgresql_Connect_ok (p : Postgresql DefaultConnector) :
  wp (Postgresql_Connect p) (λ x, x.2 = None ∧ connected (pg_db x.1)).
Proof.
  unfold Postgresql_Connect. eapply wp_seq; [apply ConnString_ok|].
  intros [cfg [s e]] E. took E.
  eapply wp_seq; [apply Connect_ok|]. by intros [d e] [? ?].
Qed.

Lemma Postgresql_Close_ok (p : Postgresql DefaultConnector) :
  connected (pg_db p) → wp (Postgresql_Close p) (λ _, True).
Proof.
  intros Hp. unfold Postgresql_Close. eapply wp_seq with (P := λ _, True).
  - by intros x1 _ x2 _ x3 _.
  - intros _ _. by apply Close_ok.
Qed.

Lemma genPostgresCertFromCA_ok (p : Postgresql DefaultConnector) u :
  pem_ready (pg_config p) → CreateCerts (pg_config p) = true →
  wp (genPostgresCertFromCA p u) no_error.
Proof.
  intros Hp Hcr. destruct (pem_ready_decode p Hp Hcr) as (key & cert & Ek & Ec).
  unfold genPostgresCertFromCA. rewrite Ek, Ec. simpl.
  intros [k2 e] E. took E. intros [k4 e] E. took E.
  intros ? _ ? _ ? _ ? _ [k5 e] E. took E. intros [k6 e] E. took E. by simpl.
Qed.

(** What is left of an answer that is ignored where it means that the work was
    done before. *)
Lemma create_done u pw err : harmless (createUserQuery u pw).1 [] err → ignoreAlreadyExists err = None.
Proof.
  unfold ignoreAlreadyExists. intros [->|[_ H]]; [done|].
  assert (done_before (createUserQuery u pw).1 err = isAlreadyExists err) as E; [|by rewrite <- E, H].
  unfold done_before, createUserQuery, removal.
  destruct (nonempty pw); cbn; rewrite prefix_nil; by destruct (isAlreadyExists err).
Qed.

Lemma drop_done u err : harmless (deleteUserQuery u) [] err → ignoreNotExists err = None.
Proof.
  unfold ignoreNotExists. intros [->|[_ H]]; [done|].
  assert (done_before (deleteUserQuery u) err = isNotExists err) as E.
  { unfold done_before. by rewrite delete_removal. }
  by rewrite <- E, H.
Qed.

Definition privilege_done (statement : string) (err : option error) : Prop :=
  err = None ∨ statement = "REVOKE" ∧ isNotExists err = true.

Lemma privilege_harmless statement arg u dbname on pv err :
  statement = "GRANT" ∨ statement = "REVOKE" →
  harmless (prepareStatementForPrivilege statement arg u dbname on pv) [] err →
  privilege_done statement err.
Proof.
  intros Hst [->|[_ H]]; [by left|]. right.
  destruct Hst as [-> | ->]; unfold done_before in H.
  - unfold prepareStatementForPrivilege, removal in H. by destruct (nonempty on), (nonempty dbname).
  - split; [done|]. rewrite prepare_revoke_removal in H.
    unfold prepareStatementForPrivilege in H. by destruct (nonempty on), (nonempty dbname).
Qed.

Lemma Postgresql_CreateUser_ok (p : Postgresql DefaultConnector) u pw :
  connected (pg_db p) → pem_ready (pg_config p) → wp (Postgresql_CreateUser p u pw) no_error.
Proof.
  intros Hp Hc. unfold Postgresql_CreateUser. destruct (createUserQuery u pw) as [q l] eqn:Eq.
  eapply wp_seq; [by apply Exec_harmless|]. intros err Herr.
  assert (ignoreAlreadyExists err = None) as He by (apply (create_done u pw); by rewrite Eq).
  destruct (CreateCerts (pg_config p) && negb (isAlreadyExists err)) eqn:Ec; [|done].
  apply andb_true_iff in Ec as [Ec _].
  eapply wp_seq; [by apply genPostgresCertFromCA_ok|].
  intros [m e] E. by took E.
Qed.

Lemma Postgresql_DeleteUser_ok (p : Postgresql DefaultConnector) u :
  connected (pg_db p) → wp (Postgresql_DeleteUser p u) (eq None).
Proof.
  intros Hp. unfold Postgresql_DeleteUser. eapply wp_seq; [by apply Exec_harmless|].
  intros err Herr. symmetry. by apply (drop_done u).
Qed.

Lemma privilege_step_ok (p : Postgresql DefaultConnector) u st arg pr :
  st = "GRANT" ∨ st = "REVOKE" → connected (pg_db p) → nonempty (Privilege pr) = true →
  wp (privilege_step p u st arg pr) (privilege_done st).
Proof.
  intros Hst Hp Hn. unfold privilege_step. rewrite Hn, !andb_true_r.
  assert (∀ d dbname on pv, connected d →
    wp (Exec d EnableLogger (prepareStatementForPrivilege st arg u dbname on pv) []) (privilege_done st)) as Hx.
  { intros d dbname on pv Hd. eapply wp_mono; [by apply Exec_harmless|]. intros x. by apply privilege_harmless. }
  destruct (nonempty (PrivilegeSpec_Database pr) && nonempty (On pr));
    [|destruct (nonempty (PrivilegeSpec_Database pr)); by apply Hx].
  unfold inDatabasePrivilege. eapply wp_seq with (P := λ _, True); [done|]. intros conn _.
  eapply wp_seq; [apply Postgresql_Connect_ok|]. intros [p' e] [E Hc]. simpl in E, Hc. subst e.
  apply wp_finally; [by apply Hx|].
  eapply wp_seq; [by apply Postgresql_Close_ok|]. done.
Qed.

(** Privileges the operator can grant. *)
Definition usable (l : list PrivilegeSpec) : Prop := Forall (λ pr, nonempty (Privilege pr) = true) l.

Lemma Postgresql_privileges_ok (p : Postgresql DefaultConnector) u st arg l :
  st = "GRANT" ∨ st = "REVOKE" → connected (pg_db p) → usable l →
  wp (Postgresql_privilegesProcessor p u l st arg) (privilege_done st).
Proof.
  intros Hst Hp Hl. unfold Postgresql_privilegesProcessor. apply wp_range_err; [by left|].
  eapply Forall_impl; [exact Hl|]. intros pr Hpr. by apply privilege_step_ok.
Qed.

(** ** MySQL *)

Lemma Mysql_Connect_ok (m : Mysql DefaultConnector) :
  wp (Mysql_Connect m) (λ x, x.2 = None ∧ connected (my_db x.1)).
Proof.
  unfold Mysql_Connect. eapply wp_seq with (P := no_error); [by intros x Hx|].
  intros [s e] E. took E. eapply wp_seq; [apply Connect_ok|]. by intros [d e] [? ?].
Qed.

Lemma Mysql_privileges_ok (m : Mysql DefaultConnector) u st arg l :
  connected (my_db m) → wp (Mysql_privilegesProcessor m u l st arg) (eq None).
Proof.
  intros Hm. unfold Mysql_privilegesProcessor. apply wp_range_err; [done|]. apply Forall_true. intros pr.
  unfold Mysql_privilege_step. pose proof (mysql_stmt_args st arg u pr) as Hne. unfold mysql_privilege_stmt in Hne.
  destruct (MysqlPrepareStatementForPrivilege _ _ _ _ _ _). apply Exec_ok; [done|by left].
Qed.

(** ** The database object *)

(** An object with an open connection that can make client certificates, when
    it has to. *)
Definition open_database (d : iface DefaultConnector) : Prop :=
  match d with
  | IfacePostgresql (Some p) => connected (pg_db p) ∧ pem_ready (pg_config p)
  | IfaceMysql (Some m) => connected (my_db m)
  | _ => False
  end.

Lemma newPostgresql_ok conn p :
  pg_ok c p = true →
  wp (newPostgresql conn (Some p)) (λ x, x.2 = None ∧ open_database (IfacePostgresql x.1)).
Proof.
  intros [Hs Hpw]%andb_true_iff. unfold newPostgresql.
  eapply wp_seq; [by apply readSSL_ok|]. intros [[d k] e] [E Hd]. took E.
  eapply wp_seq; [by apply passwordFromSecret_ok|]. intros [pw e] E. took E.
  eapply wp_seq; [apply Postgresql_Connect_pem_ready; [by apply NewConfig_pem_ready|apply Postgresql_Connect_ok]|].
  by intros [p' e] [[? ?] ?].
Qed.

Lemma newMysql_ok conn m :
  my_ok c m = true →
  wp (newMysql conn (Some m)) (λ x, x.2 = None ∧ open_database (IfaceMysql x.1)).
Proof.
  intros Hpw. unfold newMysql.
  eapply wp_seq; [by apply passwordFromSecret_ok|]. intros [pw e] E. took E.
  eapply wp_seq; [apply Mysql_Connect_ok|]. by intros [m' e] [? ?].
Qed.

Lemma NewDatabase_ok d :
  database_ok c d = true →
  wp (NewDatabase (Database_Spec d)) (λ x, x.2 = None ∧ open_database x.1).
Proof.
  intros [[Hx Hp]%andb_true_iff Hm]%andb_true_iff. unfold NewDatabase, newDatabase.
  apply orb_true_iff in Hx as [[[Ht Hs]%andb_true_iff _]%andb_true_iff|[[Ht Hs]%andb_true_iff _]%andb_true_iff];
    apply bool_decide_eq_true in Ht, Hs; destruct Hs as [cfg Hs]; rewrite Ht, Hs in *.
  - eapply wp_seq; [by apply newPostgresql_ok|]. by intros [p e] [? ?].
  - eapply wp_seq; [by apply newMysql_ok|]. by intros [m e] [? ?].
Qed.

Section Open.
Context (d : iface DefaultConnector) (Hd : open_database d).

Lemma db_Close_ok : wp (db_Close d) (λ _, True).
Proof. destruct d as [|[p|]|[m|]]; try done; [by apply Postgresql_Close_ok, Hd|by apply Close_ok]. Qed.

Lemma db_CreateUser_ok u pw : wp (db_CreateUser d u pw) no_error.
Proof.
  destruct d as [|[p|]|[m|]]; try done; [by apply Postgresql_CreateUser_ok; apply Hd|].
  simpl. unfold Mysql_CreateUser. eapply wp_seq; [apply Exec_ok; [done|by left]|]. by intros ? <-.
Qed.

Lemma db_DeleteUser_ok u : wp (db_DeleteUser d u) (eq None).
Proof. destruct d as [|[p|]|[m|]]; try done; [by apply Postgresql_DeleteUser_ok, Hd|by apply Exec_ok; [|left]]. Qed.

Lemma db_ApplyPrivileges_ok u l : usable l → wp (db_ApplyPrivileges d u l) (eq None).
Proof.
  destruct d as [|[p|]|[m|]]; try done; intros Hl.
  - eapply wp_mono; [exact (Postgresql_privileges_ok p u "GRANT" "TO" l (or_introl eq_refl) (proj1 Hd) Hl)|].
    by intros ? [->|[? _]].
  - exact (Mysql_privileges_ok m u "GRANT" "TO" l Hd).
Qed.

Lemma db_RevokePrivileges_ok u l : usable l → wp (db_RevokePrivileges d u l) (eq None).
Proof.
  destruct d as [|[p|]|[m|]]; try done; intros Hl.
  - eapply wp_seq; [exact (Postgresql_privileges_ok p u "REVOKE" "FROM" l (or_intror eq_refl) (proj1 Hd) Hl)|].
    intros ? [->|[_ E]]; simpl; [done|]. unfold ignoreNotExists. by rewrite E.
  - exact (Mysql_privileges_ok m u "REVOKE" "FROM" l Hd).
Qed.
End Open.

(** ** The work in one database *)

Lemma r_privileges_loop_ok l acc :
  forallb (privileges_ok c) l = true → usable acc →
  wp (r_privileges_loop l acc) (λ x, x.2 = None ∧ usable x.1).
Proof.
  revert acc. induction l as [|nm l IH]; intros acc Hl Hacc; [done|].
  apply andb_true_iff in Hl as [Hn Hl]. unfold privileges_ok in Hn.
  destruct (c_privileges c !! Name_ToNamespacedName nm) as [p|] eqn:Ep; [|done].
  cbn [r_privileges_loop]. eapply wp_seq with (P := λ x, x = (p, None)).
  { intros x Hx. hnf in Hx. by rewrite Ep in Hx. }
  intros ? ->. apply IH; [done|]. apply Forall_app. split; [done|].
  by apply forallb_Forall.
Qed.

Lemma createUserInDatabase_healthy d u ref :
  open_database d →
  (negb (secret_given (DatabaseRef_PasswordSecret ref))
     || key_exists c (DatabaseRef_PasswordSecret ref) = true) →
  wp (createUserInDatabase d u ref) (eq None).
Proof.
  intros Hd Hpw. unfold createUserInDatabase.
  eapply wp_seq; [by apply userPassword_ok|]. intros [pw e] E. took E.
  eapply wp_seq; [by apply db_CreateUser_ok|]. intros [m e] E. took E.
  case_match; [done|]. intros [s [e|]] _; [|done].
  intros [s' e'] E. took E. intros e'' E. hnf in E. by subst.
Qed.

Lemma r_database_ok nn d : c_databases c !! nn = Some d → wp (r_database nn) (λ x, x = (Some d, None)).
Proof. intros Hd x Hx. hnf in Hx. rewrite Hd in Hx. hnf in Hx. by subst x. Qed.

Lemma databaseReconciler_healthy (del : bool) u ref :
  ref_ok c ref = true → wp (databaseReconciler NewDatabase u del ref) (eq None).
Proof.
  unfold ref_ok. intros [[Hdb Hpw]%andb_true_iff Hpr]%andb_true_iff.
  destruct (c_databases c !! mkTypesNN "" (DatabaseRef_Name ref)) as [db|] eqn:Edb; [|done].
  unfold databaseReconciler. eapply wp_seq; [by apply r_database_ok|]. intros ? ->.
  eapply wp_seq; [by apply r_privileges_loop_ok; [|constructor]|]. intros [l e] [E Hl]. took E.
  eapply wp_seq; [by apply NewDatabase_ok|]. intros [d e] [E Hd]. took E. simpl in Hl, Hd.
  apply wp_finally; [|eapply wp_seq; [by apply db_Close_ok|done]].
  destruct del.
  - apply wp_finally; [|by intros x _].
    eapply wp_seq; [by apply db_RevokePrivileges_ok|]. intros ? <-. by apply db_DeleteUser_ok.
  - eapply wp_seq; [by apply createUserInDatabase_healthy|]. intros ? <-. by apply db_ApplyPrivileges_ok.
Qed.

Lemma loop_ok (del : bool) u l :
  forallb (ref_ok c) l = true → wp (range_err (databaseReconciler NewDatabase u del) l) (eq None).
Proof.
  intros Hl%forallb_Forall. apply wp_range_err; [done|]. eapply Forall_impl; [exact Hl|].
  intros ref. apply databaseReconciler_healthy.
Qed.
End Proofs.
