(* ===== verification/ControllerTraces.v ===== *)
(** * Places in the traces of the reconciler

    Where a run of [Reconcile] updates the user object and its status, and what
    it did before. *)

From S2P Require Import Prelude GoStrings GoError Api Effects Utils Connection PgUtils.
From S2P Require Import PgConfig Postgresql Mysql Database Controller ControllerFacts.
From S2P Require Import ControllerRuns.

(** ** Places in a trace *)

Definition is_update (e : event) : Prop :=
  match projT1 e with UpdateUser _ => True | _ => False end.
Definition is_status (e : event) : Prop :=
  match projT1 e with UpdateUserStatus _ => True | _ => False end.
Definition is_warning (e : event) : Prop :=
  match projT1 e with RecordEvent _ ty _ _ => ty = EventTypeWarning | _ => False end.

#[export] Instance is_warning_dec e : Decision (is_warning e).
Proof. destruct e as [[] x]; apply _. Defined.

(** The answer to the read of the user. *)
Definition user_read (e : event) : option (User * option error) :=
  match e with
  | existT r x =>
      match r return resp r → option (User * option error) with
      | GetUser _ => λ x, Some x
      | _ => λ _, None
      end x
  end.

(** The event [Reconcile] records for an error. *)
Definition warning (u : User) (e : error) : event :=
  ev (RecordEvent u EventTypeWarning "ErrorCreatingUser" (Error e)) ().
Definition status_failed (e : error) : UserStatus := mkUserStatus (mkStatusSummary false (Error e)).
Definition status_ready : UserStatus := mkUserStatus (mkStatusSummary true successMsg).
Definition success (u : User) : event :=
  ev (RecordEvent u EventTypeNormal "SuccessfullyCreatedUser" successMsg) ().

Lemma not_user_update e : ¬ user_req (projT1 e) → ¬ is_update e.
Proof. destruct e as [[] x]; unfold is_update; simpl; tauto. Qed.
Lemma not_user_status e : ¬ user_req (projT1 e) → ¬ is_status e.
Proof. destruct e as [[] x]; unfold is_status; simpl; tauto. Qed.

Lemma finished_no_update o tail o' : finished o tail o' → Forall (λ e, ¬ is_update e) tail.
Proof.
  destruct o as [[u [[] [e|]]]|m]; simpl.
  - intros [-> _]. repeat constructor; by intros [].
  - rewrite andb_false_r. intros [-> _]. constructor.
  - intros (u' & err & -> & _). repeat constructor; by intros [].
  - destruct (negb (User_Ready u) && true); [intros (u' & err & -> & _)|intros [-> _]];
      repeat constructor; by intros [].
  - intros [-> _]. constructor.
Qed.

Lemma finished_no_work o tail o' :
  finished o tail o' → Forall (λ e, ¬ sql_req (projT1 e)) tail.
Proof.
  destruct o as [[u [[] [e|]]]|m]; simpl; intros Hf;
    repeat case_match; split_hyps; repeat constructor; by intros [].
Qed.

Section Props.
Context {U : Controllerutil} {UL : ControllerutilLaws U}.
Context {D : Type} {DO : DatabaseOps D} {DL : DatabaseLaws D}.
Variable creator : DatabaseSpec → prog (D * option error).
Context {CL : CreatorLaws creator}.
Implicit Types (u : User) (t tl : list event).

Lemma finalized_has u pre u1 :
  finalized u pre u1 →
  userFinalizer ∈ Finalizers u ∨
  ev (UpdateUser (AddFinalizer u userFinalizer)) (u1, None) ∈ pre.
Proof.
  intros [(Hc & -> & _)|(_ & ->)]; [left; by apply ContainsFinalizer_spec|right].
  rewrite !elem_of_cons. tauto.
Qed.

(** The runs of the loop, database by database. *)
Lemma loop_split (P : DatabaseRef → list event → Prop) u del l t :
  (∀ ref t0, runs (databaseReconciler creator u del ref) t0 (Returned None) → P ref t0) →
  runs (range_err (databaseReconciler creator u del) l) t (Returned None) →
  ∃ ts, t = concat ts ∧ Forall2 P l ts.
Proof.
  intros HP (ts & -> & Hts)%range_err_split. exists ts. split; [done|].
  by eapply Forall2_impl.
Qed.

Lemma loop_no_update u del l t o :
  runs (range_err (databaseReconciler creator u del) l) t o → Forall (λ e, ¬ is_update e) t.
Proof. intros Ht. eapply Forall_impl; [by eapply loop_not_user|]. apply not_user_update. Qed.

Lemma loop_no_status u del l t o :
  runs (range_err (databaseReconciler creator u del) l) t o → Forall (λ e, ¬ is_status e) t.
Proof. intros Ht. eapply Forall_impl; [by eapply loop_not_user|]. apply not_user_status. Qed.

(** Where a reconciliation updates the user object. *)
Lemma reconciled_update u t o u' x t1 t2 :
  reconciled creator u t o → t = t1 ++ ev (UpdateUser u') x :: t2 →
  (∃ tl, deleting u ∧ u' = RemoveFinalizer u userFinalizer ∧
     t1 = log_deletion :: tl ++ [log_deleted] ∧ t2 = [] ∧
     runs (range_err (databaseReconciler creator u true) (User_Databases u)) tl (Returned None)) ∨
  (¬ deleting u ∧ u' = AddFinalizer u userFinalizer).
Proof.
  assert (∀ t1 t2 l, Forall (λ e, ¬ is_update e) l → l = t1 ++ ev (UpdateUser u') x :: t2 → False)
    as Hno.
  { intros s1 s2 l Hl ->. rewrite Forall_app, Forall_cons in Hl. destruct Hl as (_ & [] & _).
    exact I. }
  assert (∀ e, ¬ user_req (projT1 e) → ¬ is_update e) as Hn by apply not_user_update.
  assert (∀ pre u1 tl t1 t2, finalized u pre u1 → Forall (λ e, ¬ is_update e) tl →
    pre ++ tl = t1 ++ ev (UpdateUser u') x :: t2 → u' = AddFinalizer u userFinalizer) as Hf.
  { intros pre u1 tl s1 s2 [(_ & -> & _)|(_ & ->)] Htl E; [by apply Hno in E|].
    apply (split_unique is_update [log_finalizer] tl) in E as (_ & E & _);
      [by injection E|repeat constructor; by intros []|done|done]. }
  destruct 1 as [| tl o Hd Hc Ht _|tl u2 err Hd Hc Ht|u1 e Hd Hc|pre u1 tl o Hd Hp Ht _|pre u1 tl Hd Hp Ht];
    intros E.
  - apply Hno in E; [done|]. repeat constructor. by intros [].
  - apply Hno in E; [done|]. constructor; [by intros []|]. by eapply loop_no_update.
  - left. exists tl. rewrite app_comm_cons in E.
    change [log_deleted; ?e] with ([log_deleted] ++ [e]) in E. rewrite app_assoc in E.
    apply (split_unique is_update _ []) in E as (-> & E & <-);
      [|constructor; [by intros []|]; apply Forall_app_2; [by eapply loop_no_update|];
        repeat constructor; by intros []|constructor|done].
    by injection E.
  - right. split; [done|]. apply (split_unique is_update [log_finalizer] []) in E as (_ & E & _);
      [by injection E|repeat constructor; by intros []|constructor|done].
  - right. split; [done|]. eapply (Hf pre u1 tl); [done|by eapply loop_no_update|exact E].
  - right. split; [done|]. eapply (Hf pre u1 (tl ++ [log_success])); [done| |exact E].
    apply Forall_app_2; [by eapply loop_no_update|]. repeat constructor. by intros [].
Qed.

(** Where [Reconcile] updates the user object. *)
Lemma Reconcile_update nn t o u' x t1 t2 :
  runs (Reconcile creator nn) t o → t = t1 ++ ev (UpdateUser u') x :: t2 →
  ∃ u, (∃ tl, deleting u ∧ u' = RemoveFinalizer u userFinalizer ∧
     t1 = ev (GetUser nn) (u, None) :: log_deletion :: tl ++ [log_deleted] ∧
     Forall (λ e, ¬ sql_req (projT1 e)) t2 ∧
     runs (range_err (databaseReconciler creator u true) (User_Databases u)) tl (Returned None)) ∨
  (¬ deleting u ∧ u' = AddFinalizer u userFinalizer ∧ head t1 = Some (ev (GetUser nn) (u, None))).
Proof.
  intros Ht%Reconcile_Reconciled E.
  destruct Ht as [u e He|u e He|u t o' tail o Hr Hf].
  - destruct t1 as [|? [|? [|]]]; simplify_eq/=.
  - destruct t1 as [|? [|? [|]]]; simplify_eq/=.
  - exists u. destruct t1 as [|e1 t1]; [done|]. injection E as <- E.
    pose proof (finished_no_update _ _ _ Hf) as Hn. apply finished_no_work in Hf.
    destruct (split_before is_update _ _ _ _ (ev (UpdateUser u') x) Hn I E) as (t3 & E3 & ->).
    destruct (reconciled_update _ _ _ _ _ _ _ Hr E3) as [(tl & ? & ? & -> & -> & ?)|[? ?]];
      [left; exists tl; by split_and!|right; by split_and!].
Qed.

(** A reconciliation of a live user that ends without an error applied every
    database. *)
Lemma reconciled_applied u t u1 del :
  del = false → reconciled creator u t (Returned (u1, (del, None))) →
  ∃ pre tl, ¬ deleting u ∧ finalized u pre u1 ∧ t = pre ++ tl ++ [log_success] ∧
    runs (range_err (databaseReconciler creator u1 false) (User_Databases u1)) tl (Returned None).
Proof.
  intros Hdel Hr. remember (Returned (u1, (del, None))) as o eqn:E.
  destruct Hr as [|tl o Hd Hc Ht Hne| |u2 e Hd Hc|pre u2 tl o Hd Hp Ht Hne|pre u2 tl Hd Hp Ht];
    simplify_eq/=.
  - by destruct o.
  - destruct o as [[e|]|m]; simplify_eq/=.
  - exists pre, tl. by split_and!.
Qed.

(** Where [Reconcile] sets a status. *)
Lemma Reconcile_status nn t o u' x t1 t2 :
  runs (Reconcile creator nn) t o → t = t1 ++ ev (UpdateUserStatus u') x :: t2 →
  User_Ready u' = true →
  ∃ u pre u1 tl, ¬ deleting u ∧ finalized u pre u1 ∧
    runs (range_err (databaseReconciler creator u1 false) (User_Databases u1)) tl (Returned None) ∧
    u' = set_User_Status u1 status_ready ∧
    t1 = ev (GetUser nn) (u, None) :: (pre ++ tl ++ [log_success]) ++ [success u1].
Proof.
  intros Ht%Reconcile_Reconciled E Hready.
  destruct Ht as [u e He|u e He|u t o' tail o Hr Hf].
  { destruct t1 as [|? [|? [|]]]; simplify_eq/=. }
  { destruct t1 as [|? [|? [|]]]; simplify_eq/=. }
  assert (Forall (λ e, ¬ is_status e) (ev (GetUser nn) (u, None) :: t)) as Hns.
  { constructor; [by intros []|].
    assert (∀ pre u1, finalized u pre u1 → Forall (λ e, ¬ is_status e) pre) as Hpre.
    { intros pre u1 [(_ & -> & _)|(_ & ->)]; repeat constructor; by intros []. }
    destruct Hr; repeat first
      [ apply Forall_app_2 | apply Forall_cons_2 | by eapply loop_no_status | by eapply Hpre
      | by constructor | by intros [] ]. }
  assert (∃ t3, tail = t3 ++ ev (UpdateUserStatus u') x :: t2 ∧
    t1 = (ev (GetUser nn) (u, None) :: t) ++ t3) as (t3 & -> & ->).
  { rewrite app_comm_cons in E.
    destruct (split_after is_status _ _ _ _ (ev (UpdateUserStatus u') x) Hns I E) as (t3 & -> & ->). eauto. }
  destruct o' as [[u1 [del [e|]]]|m]; simpl in Hf.
  - destruct del; [destruct Hf as [Hf _]; destruct t3 as [|? [|]]; simplify_eq/=|].
    destruct Hf as (u2 & err & Hf & _).
    destruct t3 as [|? [|? [|]]]; simplify_eq/=.
  - destruct (negb (User_Ready u1) && negb del) eqn:Er;
      [|by destruct Hf as [Hf _]; destruct t3].
    destruct Hf as (u2 & err & Hf & _).
    destruct t3 as [|? [|? [|]]]; simplify_eq/=.
    apply andb_true_iff in Er as [_ Hdel%negb_true_iff].
    apply (reconciled_applied _ _ _ _ Hdel) in Hr as (pre & tl & Hd & Hp & -> & Hl).
    exists u, pre, u1, tl. by split_and!.
  - destruct Hf as [Hf _]. by destruct t3.
Qed.

(** Where [Reconcile] works at a server. *)
Lemma Reconciled_work nn t o r x t1 t2 :
  Reconciled creator nn t o → t = t1 ++ ev r x :: t2 → sql_req r →
  ∃ u t1', t1 = ev (GetUser nn) (u, None) :: t1' ∧
    (ContainsFinalizer u userFinalizer = true ∨
     ∃ pre u1 t3, finalized u pre u1 ∧ t1' = pre ++ t3).
Proof.
  intros Ht E Hr. set (P := λ e : event, sql_req (projT1 e)).
  destruct Ht as [u e He|u e He|u t o' tail o Hrec Hf].
  { destruct t1 as [|? [|? [|]]]; simplify_eq/=; done. }
  { destruct t1 as [|? [|? [|]]]; simplify_eq/=; done. }
  exists u. destruct t1 as [|e1 t1]; [by apply (f_equal (λ l, projT1 <$> head l)) in E; injection E as <-|].
  injection E as <- E. exists t1. split; [done|].
  assert (Forall (λ e, ¬ P e) tail) as Htail.
  { destruct o' as [[u1 [[] [e|]]]|m]; simpl in Hf;
      repeat case_match; split_hyps; repeat constructor; by intros []. }
  assert (∀ l t3, Forall (λ e, ¬ P e) l → l = t1 ++ ev r x :: t3 → False) as Hno.
  { intros l t3 Hl ->. rewrite Forall_app, Forall_cons in Hl. by destruct Hl as (_ & [] & _). }
  destruct (split_before P _ _ _ _ (ev r x) Htail Hr E) as (t3 & -> & _).
  assert (∀ pre u1, finalized u pre u1 → Forall (λ e, ¬ P e) pre) as Hpre.
  { intros pre u1 [(_ & -> & _)|(_ & ->)]; repeat constructor; by intros []. }
  remember (t1 ++ ev r x :: t3) as t0 eqn:E0.
  destruct Hrec as [|tl ol Hd Hc|tl u2 err Hd Hc|u2 e Hd Hc|pre u2 tl ol Hd Hp|pre u2 tl Hd Hp]; auto.
  - exfalso. eapply Hno; [|exact E0]. repeat constructor. by intros [].
  - exfalso. eapply Hno; [|exact E0]. repeat constructor; by intros [].
  - right. destruct (split_after P _ _ _ _ (ev r x) (Hpre _ _ Hp) Hr E0) as (t4 & -> & _). eauto.
  - right. destruct (split_after P _ _ _ _ (ev r x) (Hpre _ _ Hp) Hr E0) as (t4 & -> & _). eauto.
Qed.

(** The run of a user that was read. *)
Lemma Reconcile_user nn u t o :
  runs (Reconcile creator nn) (ev (GetUser nn) (u, None) :: t) o →
  ∃ t0 o' tail, t = t0 ++ tail ∧ reconciled creator u t0 o' ∧ finished o' tail o.
Proof.
  intros Ht%Reconcile_Reconciled.
  remember (ev (GetUser nn) (u, None) :: t) as t1 eqn:E.
  destruct Ht as [u1 e He|u1 e He|u1 t0 o' tail o Hr Hf];
    pose proof (f_equal (λ l, head l ≫= user_read) E) as Hu; simplify_eq/=; eauto 6.
Qed.

(** The run of a user that could not be read. *)
Lemma Reconcile_no_user nn u e t o :
  runs (Reconcile creator nn) (ev (GetUser nn) (u, Some e) :: t) o →
  if apierrors_IsNotFound e then
    t = [ev (LoggerInfo "User resource not found. Ignoring since object must be deleted.") ()] ∧
    o = Returned (Result_zero, None)
  else
    t = [ev (LoggerError e "unable to fetch User resource") ()] ∧ o = Returned (Result_zero, Some e).
Proof.
  intros Ht%Reconcile_Reconciled.
  remember (ev (GetUser nn) (u, Some e) :: t) as t1 eqn:E.
  destruct Ht as [u1 e' He|u1 e' He|u1 t0 o' tail o Hr Hf];
    pose proof (f_equal (λ l, head l ≫= user_read) E) as Hu; simplify_eq/=; by rewrite He.
Qed.

Lemma reconciled_live u t u1 del err :
  ¬ deleting u → reconciled creator u t (Returned (u1, (del, err))) → del = false.
Proof.
  intros Hd Hr. remember (Returned (u1, (del, err))) as o eqn:E.
  destruct Hr as [| | | |pre u2 tl o|]; simplify_eq/=; try done. by destruct o; simplify_eq/=.
Qed.

(** ** The loop over the databases *)

(** What [R] says was done for every one of the references, in order, without
    touching the user object. *)
Definition each_done (R : DatabaseRef → list event → Prop) (refs : list DatabaseRef) tl : Prop :=
  ∃ ts, tl = concat ts ∧ Forall2 R refs ts ∧ Forall (λ e, ¬ user_req (projT1 e)) tl.

(** It was done for the references up to one, where the work returned [e]; those
    that follow were not tried. *)
Definition stopped_at (R : DatabaseRef → list event → Prop) (del : bool) u (refs : list DatabaseRef) e tl : Prop :=
  ∃ l1 ref l2 t1 t2, refs = l1 ++ ref :: l2 ∧ tl = t1 ++ t2 ∧ each_done R l1 t1 ∧
    runs (databaseReconciler creator u del ref) t2 (Returned (Some e)) ∧
    Forall (λ e, ¬ user_req (projT1 e)) t2.

Section Loop.
Context (R : DatabaseRef → list event → Prop) (del : bool) (u : User).
Hypothesis done_R : ∀ ref t, runs (databaseReconciler creator u del ref) t (Returned None) → R ref t.

Lemma loop_each refs tl :
  runs (range_err (databaseReconciler creator u del) refs) tl (Returned None) → each_done R refs tl.
Proof.
  intros Hl. pose proof (loop_not_user creator _ _ _ _ _ Hl) as Hn.
  apply (loop_split R) in Hl as (ts & -> & Hts); [|done]. by exists ts.
Qed.

Lemma loop_stopped refs tl e :
  runs (range_err (databaseReconciler creator u del) refs) tl (Returned (Some e)) →
  stopped_at R del u refs e tl.
Proof.
  intros Hl. pose proof (loop_not_user creator _ _ _ _ _ Hl) as Hn.
  apply range_err_error in Hl as (l1 & ref & l2 & t1 & t2 & -> & -> & H1%loop_each & H2).
  apply Forall_app in Hn as [_ Hn]. by exists l1, ref, l2, t1, t2.
Qed.
End Loop.

(** ** Handles *)

Lemma finished_handles o tail o' : finished o tail o' → handles tail = [].
Proof.
  destruct o as [[u [[] [e|]]]|m]; simpl; repeat case_match; intros; by split_hyps.
Qed.

Lemma finalized_handles u pre u1 : finalized u pre u1 → handles pre = [].
Proof. by intros [(_ & -> & _)|(_ & ->)]. Qed.

Lemma reconciled_handles u t o : reconciled creator u t o → bracketed (handles t).
Proof.
  destruct 1 as [|tl o Hd Hc Ht|tl u2 err Hd Hc Ht|u2 e Hd Hc|pre u2 tl o Hd Hp Ht|pre u2 tl Hd Hp Ht];
    [apply bracketed_nil| | |apply bracketed_nil| |].
  - change (bracketed (handles tl)). by eapply (loop_handles creator).
  - change (bracketed (handles (tl ++ [log_deleted; ev (UpdateUser (RemoveFinalizer u userFinalizer)) (u2, err)]))).
    rewrite handles_app, app_nil_r. by eapply (loop_handles creator).
  - rewrite handles_app, (finalized_handles _ _ _ Hp). by eapply (loop_handles creator).
  - rewrite !handles_app, (finalized_handles _ _ _ Hp), app_nil_r. by eapply (loop_handles creator).
Qed.
End Props.
