(* ===== verification/Lifecycle.v ===== *)
(** * The operator and the cluster as one system

    A step relation on the user object as the API server stores it, with its
    resource versions, and on the run of the reconciler that is in progress.
    The operator reads the user from a cache, which may lag behind by any number
    of versions and still hold an object that is gone, but never goes back.
    Steps of other clients (creation, changes, the request to delete) come
    between any two requests of the operator; the operator may stop, or be
    killed, after any request; an update may fail, be refused because the
    object has changed, or take effect although its answer is lost.  The other
    requests are answered arbitrarily. *)

From S2P Require Import Prelude GoError Api Effects Connection PgUtils PgConfig Postgresql Mysql.
From S2P Require Import Database Controller ControllerFacts ControllerRuns ControllerTraces Ledger World.

(** ** States and steps *)

Definition rv (u : User) : string := Meta_ResourceVersion (User_Meta u).
Definition has_finalizer (u : User) : Prop := userFinalizer ∈ Finalizers u.

(** [s_history] are the objects ever stored, oldest first; the cache has reached
    the one at [s_seen]; [s_run] is the run in progress: its trace so far and
    what is left of the program. *)
Record sys := mkSys {
  s_obj : option User;
  s_history : list User;
  s_seen : nat;
  s_ledger : ledger;
  s_run : option (list event * prog (Result * option error))
}.

Definition init : sys := mkSys None [] 0 (mkLedger "" ∅) None.

Definition fresh (S : sys) (u : User) : Prop := rv u ∉ rv <$> s_history S.

Definition store (S : sys) (u : User) : sys :=
  mkSys (Some u) (s_history S ++ [u]) (s_seen S) (s_ledger S) (s_run S).
Definition forget (S : sys) : sys :=
  mkSys None (s_history S) (s_seen S) (s_ledger S) (s_run S).
Definition see_version (S : sys) (i : nat) : sys :=
  mkSys (s_obj S) (s_history S) i (s_ledger S) (s_run S).

(** An object that is being deleted and has no finalizer left is gone. *)
Definition put (S : sys) (u : User) : sys :=
  match Meta_DeletionTimestamp (User_Meta u), Finalizers u with
  | Some _, [] => forget S
  | _, _ => store S u
  end.

(** The databases a user refers to. *)
Definition databases (u : User) : gset string := ref_names (User_Databases u).

(** The same user, with our finalizer or not as before, and still referring to
    the databases it referred to. *)
Definition same_user (u u' : User) : Prop :=
  User_Name u' = User_Name u ∧ databases u ⊆ databases u' ∧
  (has_finalizer u' ↔ has_finalizer u) ∧ (deleting u → deleting u').

(** What the API server stores for a submitted object [u'] over [u]. *)
Definition stored (u u' u'' : User) : Prop :=
  User_Name u'' = User_Name u' ∧ User_Databases u'' = User_Databases u' ∧
  (∀ f, f ∈ Finalizers u'' ↔ f ∈ Finalizers u') ∧ (deleting u'' ↔ deleting u).

Definition user_write (e : event) : Prop :=
  match projT1 e with GetUser _ | UpdateUser _ | UpdateUserStatus _ => True | _ => False end.

(** The answers of the API server, as events. *)
Inductive api (nn : types_NamespacedName) (S : sys) : event → sys → Prop :=
| api_get i u :
    s_history S !! i = Some u → s_seen S ≤ i →
    api nn S (ev (GetUser nn) (u, None)) (see_version S i)
| api_get_error nn' u e : api nn S (ev (GetUser nn') (u, Some e)) S
| api_update u u' u'' :
    s_obj S = Some u → rv u' = rv u → fresh S u'' → stored u u' u'' →
    api nn S (ev (UpdateUser u') (u'', None)) (put S u'')
| api_update_lost u u' u'' w e :
    s_obj S = Some u → rv u' = rv u → fresh S u'' → stored u u' u'' →
    api nn S (ev (UpdateUser u') (w, Some e)) (put S u'')
| api_update_error u' w e : api nn S (ev (UpdateUser u') (w, Some e)) S
| api_status u u' u'' x :
    s_obj S = Some u → rv u' = rv u → fresh S u'' → same_user u u'' → User_Status u'' = User_Status u' →
    api nn S (ev (UpdateUserStatus u') x) (store S u'')
| api_status_error u' w e : api nn S (ev (UpdateUserStatus u') (w, Some e)) S
| api_other e : ¬ user_write e → api nn S e S.

Lemma api_not_write nn S e S' : ¬ user_write e → api nn S e S' → S' = S.
Proof. intros He Ha. destruct Ha; try done; by destruct He. Qed.

Definition with_run (S : sys) (l : ledger) r : sys :=
  mkSys (s_obj S) (s_history S) (s_seen S) l r.

Section System.
Context {U : Controllerutil} {UL : ControllerutilLaws U}.
Context {D : Type} {DO : DatabaseOps D} {DL : DatabaseLaws D}.
Variable creator : DatabaseSpec → prog (D * option error).
Context {CL : CreatorLaws creator}.
Variable nn : types_NamespacedName.
Implicit Types (u : User) (S : sys) (h t : list event).

Let n : string := Nn_Name nn.

Inductive step : sys → sys → Prop :=
| env_create S u :
    s_obj S = None → fresh S u → ¬ has_finalizer u → User_Name u = n → step S (store S u)
| env_change S u u' :
    s_obj S = Some u → fresh S u' → same_user u u' → step S (store S u')
| env_delete S u : s_obj S = Some u → ¬ has_finalizer u → step S (forget S)
| op_start S : s_run S = None → step S (with_run S (s_ledger S) (Some ([], Reconcile creator nn)))
| op_call S S' h r (x : resp r) k :
    s_run S = Some (h, Call r k) → api nn S (ev r x) S' →
    step S (with_run S' (ledger_event n (s_ledger S) (ev r x)) (Some (h ++ [ev r x], k x)))
| op_stop S h p : s_run S = Some (h, p) → step S (with_run S (s_ledger S) None).

Definition reachable : sys → Prop := rtc step init.

(** ** What a run has done so far *)

(** [h] is a prefix of a run of [Reconcile] that goes on with [p]. *)
Definition prefix_run h (p : prog (Result * option error)) : Prop :=
  ∀ t o, runs p t o → runs (Reconcile creator nn) (h ++ t) o.

(** The finalizer was there when the user was read, or was added since. *)
Definition protected u h : Prop :=
  has_finalizer u ∨ ∃ u1, ev (UpdateUser (AddFinalizer u userFinalizer)) (u1, None) ∈ h.

(** The stored object keeps what a run for [u] may leave from being forgotten. *)
Definition covered S u : Prop :=
  ∃ v, s_obj S = Some v ∧ has_finalizer v ∧ databases u ⊆ databases v.

(** A run that read [u], and has done [h] since. *)
Definition user_run S u h : Prop :=
  s_history S !! s_seen S = Some u ∧
  (∃ l, s_ledger S = ledger_after n l h) ∧
  (∀ u' u1, ev (UpdateUser u') (u1, None) ∈ h → User_Databases u1 = User_Databases u') ∧
  (¬ deleting u → protected u h → covered S u).

(** The object that is stored is the last version; the ledger stays within its
    databases, and without the finalizer the ledger is empty.  A live version
    with the finalizer that can still be read is covered. *)
Record safe S : Prop := {
  safe_unique : NoDup (rv <$> s_history S);
  safe_names : Forall (λ u, User_Name u = n) (s_history S);
  safe_obj u : s_obj S = Some u →
    last (s_history S) = Some u ∧ l_touched (s_ledger S) ⊆ databases u ∧
    (¬ has_finalizer u → l_touched (s_ledger S) = ∅);
  safe_none : s_obj S = None → l_touched (s_ledger S) = ∅;
  safe_live i u :
    s_seen S ≤ i → s_history S !! i = Some u → ¬ deleting u → has_finalizer u → covered S u
}.

Record inv S : Prop := {
  inv_safe : safe S;
  inv_run h p : s_run S = Some (h, p) →
    prefix_run h p ∧
    (h = [] ∨ ∃ x h', h = ev (GetUser nn) x :: h' ∧ (x.2 = None → user_run S x.1 h'))
}.

Lemma frame_databases u f : User_Databases (AddFinalizer u f) = User_Databases u.
Proof. exact (f_equal User_Databases (AddFinalizer_frame u f)). Qed.
Lemma frame_rv_add u f : rv (AddFinalizer u f) = rv u.
Proof. exact (f_equal rv (AddFinalizer_frame u f)). Qed.
Lemma frame_rv_remove u f : rv (RemoveFinalizer u f) = rv u.
Proof. exact (f_equal rv (RemoveFinalizer_frame u f)). Qed.

(** ** Facts about the prefixes *)

Lemma ledger_finalized l u pre u1 : finalized u pre u1 → ledger_after n l pre = l.
Proof. by intros [(_ & -> & _)|(_ & ->)]. Qed.

Lemma finalized_databases u pre u1 h :
  finalized u pre u1 →
  (∀ u' u1, ev (UpdateUser u') (u1, None) ∈ pre ++ h → User_Databases u1 = User_Databases u') →
  User_Databases u1 = User_Databases u.
Proof.
  intros [(_ & _ & ->)|(_ & ->)] Hu; [done|].
  rewrite <- (frame_databases u userFinalizer). apply Hu.
  apply elem_of_app. left. rewrite !elem_of_cons. auto.
Qed.

(** Where a statement is sent. *)
Lemma statement_database u h e t o l :
  runs (Reconcile creator nn) (ev (GetUser nn) (u, None) :: h ++ e :: t) o → sql_req (projT1 e) →
  (∀ u' u1, ev (UpdateUser u') (u1, None) ∈ h → User_Databases u1 = User_Databases u') →
  l_current (ledger_after n l h) ∈ databases u.
Proof.
  unfold databases. intros Ht He Hu. set (P := λ e : event, sql_req (projT1 e)).
  destruct (Reconcile_user _ _ _ _ _ Ht) as (t0 & o' & tail & E & Hr & Hf%finished_no_work).
  destruct (split_before P _ _ _ _ e Hf He (eq_sym E)) as (t3 & E3 & _). clear Ht E.
  assert (∀ l, Forall (λ e, ¬ P e) l → l = h ++ e :: t3 → False) as Hno.
  { intros l0 Hl ->. rewrite Forall_app, Forall_cons in Hl. by destruct Hl as (_ & [] & _). }
  assert (∀ pre u1, finalized u pre u1 → Forall (λ e, ¬ P e) pre) as Hpre.
  { intros pre u1 [(_ & -> & _)|(_ & ->)]; repeat constructor; by intros []. }
  assert (Forall (λ e, ¬ P e) [log_deletion]) as Hlog by (repeat constructor; by intros []).
  destruct Hr as [|tl ol Hd Hc Hl _|tl u2 err Hd Hc Hl|u2 e2 Hd Hc|pre u2 tl ol Hd Hp Hl _|pre u2 tl Hd Hp Hl].
  - by apply Hno in E3.
  - destruct (split_after P [log_deletion] _ _ _ e Hlog He E3) as (h' & -> & E4).
    exact (loop_current creator n u true _ _ _ h' e t3 l Hl E4 He).
  - destruct (split_after P [log_deletion] _ _ _ e Hlog He E3) as (h' & -> & E4).
    apply (split_before P) in E4 as (t4 & E4 & _); [|repeat constructor; by intros []|done].
    exact (loop_current creator n u true _ _ _ h' e t4 l Hl E4 He).
  - apply Hno in E3; [done|]. repeat constructor; by intros [].
  - destruct (split_after P _ _ _ _ e (Hpre _ _ Hp) He E3) as (h' & -> & E4).
    rewrite ledger_after_app, (ledger_finalized _ _ _ _ Hp), <- (finalized_databases _ _ _ _ Hp Hu).
    exact (loop_current creator n u2 false _ _ _ h' e t3 l Hl E4 He).
  - destruct (split_after P _ _ _ _ e (Hpre _ _ Hp) He E3) as (h' & -> & E4).
    apply (split_before P) in E4 as (t4 & E4 & _); [|repeat constructor; by intros []|done].
    rewrite ledger_after_app, (ledger_finalized _ _ _ _ Hp), <- (finalized_databases _ _ _ _ Hp Hu).
    exact (loop_current creator n u2 false _ _ _ h' e t4 l Hl E4 He).
Qed.

(** A statement is sent only while the user is protected. *)
Lemma statement_protected u h e t o :
  runs (Reconcile creator nn) (ev (GetUser nn) (u, None) :: h ++ e :: t) o → sql_req (projT1 e) →
  protected u h.
Proof.
  intros Ht He. destruct e as [r x].
  destruct (Reconciled_work creator nn _ _ r x (ev (GetUser nn) (u, None) :: h) t
    (Reconcile_Reconciled _ _ _ _ Ht) eq_refl He) as (u1 & h' & E & Hc).
  pose proof (f_equal (λ l, head l ≫= user_read) E) as Eu. injection Eu as <-.
  apply (f_equal tail) in E. simpl in E. subst h'.
  destruct Hc as [Hc|(pre & u2 & t3 & Hp & ->)]; [left; by apply ContainsFinalizer_spec|].
  destruct (finalized_has _ _ _ Hp) as [Hf|Hf]; [by left|right].
  exists u2. apply elem_of_app. by left.
Qed.

Lemma not_sql_removal (e : event) : ¬ sql_req (projT1 e) → removal_req (projT1 e).
Proof. destruct e as [[] x]; unfold removal_req, sends_only; simpl; tauto. Qed.

(** The run of a user that is being deleted gives it nothing. *)
Lemma deletion_removal u h (e : event) t o :
  runs (Reconcile creator nn) (ev (GetUser nn) (u, None) :: h ++ e :: t) o → deleting u →
  removal_req (projT1 e).
Proof.
  intros Ht Hdel.
  assert (Forall (λ e, removal_req (projT1 e)) (h ++ e :: t)) as Hall.
  { destruct (Reconcile_user _ _ _ _ _ Ht) as (t0 & o' & tail & -> & Hr & Hf%finished_no_work).
    apply Forall_app_2; [|eapply Forall_impl; [exact Hf|apply not_sql_removal]].
    destruct Hr as [|tl ol Hd Hc Hl _|tl u2 err Hd Hc Hl| | |]; try done.
    - by constructor.
    - constructor; [done|]. by eapply loop_removal.
    - constructor; [done|]. apply Forall_app_2; [by eapply loop_removal|by repeat constructor]. }
  rewrite Forall_app, Forall_cons in Hall. tauto.
Qed.

(** ** The invariant holds at every step *)

Lemma safe_with_run S l r :
  safe S → l_touched l ⊆ l_touched (s_ledger S) → safe (with_run S l r).
Proof.
  intros [Hu Hn Ho Hno Hl] Hs. split; simpl; [done|done| |set_solver|done].
  intros u Eu. destruct (Ho u Eu) as (? & ? & He). split_and!; [done|set_solver|].
  intros Hf. specialize (He Hf). set_solver.
Qed.

(** Versions are told apart by their resource versions. *)
Lemma safe_current S i u v :
  safe S → s_history S !! i = Some u → s_obj S = Some v → rv u = rv v →
  v = u ∧ length (s_history S) ≤ i + 1.
Proof.
  intros Hs Hi Hv E. destruct (safe_obj _ Hs v Hv) as (Hlast & _).
  rewrite last_lookup in Hlast. pose proof (safe_unique _ Hs) as Hu.
  assert (i = pred (length (s_history S))) as ->.
  { eapply NoDup_lookup; [exact Hu| |]; rewrite list_lookup_fmap.
    - by rewrite Hi.
    - by rewrite Hlast, E. }
  split; [congruence|lia].
Qed.

Lemma covered_store S v v' u :
  s_obj S = Some v → same_user v v' → covered S u → covered (store S v') u.
Proof.
  intros Hv (_ & Hd & Hf & _) (w & Hw & Hfw & Hdw). assert (w = v) as -> by congruence.
  exists v'. split_and!; [done|by apply Hf|set_solver].
Qed.

(** A new version of the stored object, or the first one. *)
Lemma safe_append S v' :
  safe S → fresh S v' → User_Name v' = n → l_touched (s_ledger S) ⊆ databases v' →
  (¬ has_finalizer v' → l_touched (s_ledger S) = ∅) →
  (∀ u, covered S u → covered (store S v') u) → safe (store S v').
Proof.
  intros [Hu Hn Ho Hno Hl] Hf Hname Hd He Hc. split; simpl.
  - rewrite fmap_app. apply NoDup_app. split_and!; [done| |apply NoDup_singleton].
    intros x Hx ->%list_elem_of_singleton. done.
  - apply Forall_app_2; [done|by constructor].
  - intros u [= <-]. by rewrite last_snoc.
  - done.
  - intros i u Hi Hlu Hdel Hfu. apply lookup_app_Some in Hlu as [Hlu|[_ Hlu]]; [eauto|].
    apply list_lookup_singleton_Some in Hlu as [_ ->]. by exists u.
Qed.

Lemma safe_store S v v' :
  safe S → s_obj S = Some v → fresh S v' → same_user v v' → safe (store S v').
Proof.
  intros Hs Hv Hfr Hsu. pose proof Hsu as (Hn & Hd & Hf & _).
  destruct (safe_obj _ Hs v Hv) as (Hlast & Hl & He). apply safe_append; try done.
  - rewrite Hn. apply last_Some_elem_of in Hlast. by eapply Forall_forall in Hlast; [|apply safe_names].
  - set_solver.
  - intros Hw. apply He. by rewrite <- Hf.
  - intros u. by eapply covered_store.
Qed.

Lemma user_run_append S v' u h :
  user_run S u h → (covered S u → covered (store S v') u) → user_run (store S v') u h.
Proof.
  intros (Hr & Hl & Hd & Hp) Hc. split_and!; try done; [|by auto].
  simpl. by apply lookup_app_l_Some.
Qed.

(** An event that leaves the object as it is. *)
Lemma ledger_event_sql l (e : event) :
  sql_req (projT1 e) → l_touched (ledger_event n l e) ⊆ {[l_current l]} ∪ l_touched l.
Proof.
  intros He. assert (database_of e = None) as E by (by destruct e as [[] x]).
  unfold ledger_event. rewrite E. destruct (stmt_of e) as [s|]; [|set_solver].
  exact (ledger_stmts_touched n l [s]).
Qed.

Lemma safe_event S u h e t o r :
  safe S → user_run S u h →
  runs (Reconcile creator nn) (ev (GetUser nn) (u, None) :: h ++ e :: t) o →
  safe (with_run S (ledger_event n (s_ledger S) e) r).
Proof.
  intros Hs (_ & (l & El) & Hd & Hp) Ht.
  assert (removal_req (projT1 e) ∨ ¬ removal_req (projT1 e)) as [He|He].
  { unfold removal_req, sends_only. destruct (sends _) as [q|]; [destruct (removal q)|]; auto. }
  { apply safe_with_run; [done|by apply ledger_event_removal]. }
  assert (sql_req (projT1 e)) as Hsql.
  { destruct e as [[] x]; unfold removal_req, sends_only in He; simpl in *; tauto. }
  assert (¬ deleting u) as Hdel by (intros Hdel; by destruct He; eapply deletion_removal).
  destruct (Hp Hdel (statement_protected _ _ _ _ _ Ht Hsql)) as (v & Hv & Hf & Hdv).
  pose proof (statement_database _ _ _ _ _ l Ht Hsql Hd) as Hc. rewrite <- El in Hc.
  pose proof (ledger_event_sql (s_ledger S) e Hsql) as Hle.
  destruct Hs as [Hu Hn Ho Hno Hl]. split; simpl; [done|done| |congruence|done].
  intros w Hw. assert (w = v) as -> by congruence. destruct (Ho v Hv) as (? & Hlv & _).
  split_and!; [done| |done]. etransitivity; [exact Hle|]. set_solver.
Qed.

Lemma user_run_event S u h e r :
  user_run S u h → (∀ u' u1, e ≠ ev (UpdateUser u') (u1, None)) →
  user_run (with_run S (ledger_event n (s_ledger S) e) r) u (h ++ [e]).
Proof.
  intros (Hr & (l & El) & Hd & Hp) He.
  assert (∀ u' u1, ev (UpdateUser u') (u1, None) ∈ h ++ [e] → ev (UpdateUser u') (u1, None) ∈ h) as Hin.
  { intros u' u1 [?|Hx%list_elem_of_singleton]%elem_of_app; [done|]. by destruct (He u' u1). }
  split_and!; try done.
  - exists l. simpl. by rewrite ledger_after_app, <- El.
  - intros u' u1 H. by apply Hd, Hin.
  - intros H1 H2. apply Hp; [done|]. destruct H2 as [?|(u1 & Hu1)]; [by left|right].
    exists u1. by apply Hin.
Qed.

(** The answer to an update of the user object. *)
Definition update_of (e : event) : option (User * (User * option error)) :=
  match e with
  | existT r x =>
      match r return resp r → option (User * (User * option error)) with
      | UpdateUser u => λ x, Some (u, x)
      | _ => λ _, None
      end x
  end.

(** The two updates of [Reconcile]: the finalizer is added to a live user, or
    removed from a deleted one when nothing is left of it in its databases. *)
Lemma update_cases u h u' x t o l :
  runs (Reconcile creator nn) (ev (GetUser nn) (u, None) :: h ++ ev (UpdateUser u') x :: t) o →
  User_Name u = n →
  (¬ deleting u ∧ u' = AddFinalizer u userFinalizer) ∨
  (deleting u ∧ u' = RemoveFinalizer u userFinalizer ∧
   l_touched (ledger_after n l h) ## databases u).
Proof.
  intros Ht Hn.
  destruct (Reconcile_user _ _ _ _ _ Ht) as (t0 & o' & tail & E & Hr & Hf%finished_no_update).
  destruct (split_before is_update _ _ _ _ (ev (UpdateUser u') x) Hf I (eq_sym E)) as (t3 & E3 & _).
  destruct (reconciled_update creator _ _ _ _ _ _ _ Hr E3) as [(tl & Hd & -> & -> & _ & Hl')|?];
    [right|by left]. split_and!; [done..|]. rewrite <- Hn.
  change (l_touched (ledger_after (User_Name u) l (tl ++ [log_deleted])) ## databases u).
  rewrite ledger_after_app. pose proof (loop_ledger creator _ _ _ l Hl').
  change (l_touched (ledger_after (User_Name u) l tl) ## databases u). unfold databases. set_solver.
Qed.

(** What an accepted update leaves, whether its answer arrives or not: with the
    finalizer added the object is stored; with the finalizer removed nothing is
    left of the user, and no live version can be read any more. *)
Lemma safe_added S u u'' :
  safe S → s_obj S = Some u → fresh S u'' → stored u (AddFinalizer u userFinalizer) u'' →
  ¬ deleting u → safe (put S u'') ∧ covered (put S u'') u ∧ put S u'' = store S u''.
Proof.
  intros Hs Hv Hfr (Hsn & Hsd & Hsf & Hsdel) Hdel.
  destruct (safe_obj _ Hs u Hv) as (Hlast & Hl & _).
  assert (has_finalizer u'') as Hf by (apply Hsf, AddFinalizer_spec; by left).
  assert (databases u'' = databases u) as Hd by (unfold databases; by rewrite Hsd, frame_databases).
  assert (put S u'' = store S u'') as Hput.
  { unfold put. destruct (Meta_DeletionTimestamp (User_Meta u'')) eqn:E; [|done].
    destruct Hdel. apply Hsdel. by eexists. }
  rewrite Hput. split_and!; [|by exists u''; rewrite Hd|done].
  apply safe_append; [done|done| | |done|].
  - rewrite Hsn. apply last_Some_elem_of in Hlast.
    rewrite (f_equal User_Name (AddFinalizer_frame u userFinalizer) : User_Name (AddFinalizer _ _) = _).
    by eapply Forall_forall in Hlast; [|by apply safe_names].
  - by rewrite Hd.
  - intros w (v & Hv' & _ & Hdw). assert (v = u) as -> by congruence.
    exists u''. by rewrite Hd.
Qed.

Lemma safe_removed S u u'' :
  safe S → s_obj S = Some u → s_history S !! s_seen S = Some u → deleting u → fresh S u'' →
  stored u (RemoveFinalizer u userFinalizer) u'' → l_touched (s_ledger S) = ∅ → safe (put S u'').
Proof.
  intros Hs Hv Hseen Hdel Hfr (Hsn & Hsd & Hsf & Hsdel) He.
  destruct (safe_current _ _ _ _ Hs Hseen Hv eq_refl) as [_ Hlen].
  assert (∀ i w, s_seen S ≤ i → s_history S !! i = Some w → w = u) as Hlatest.
  { intros i w Hi Hw. pose proof (lookup_lt_Some _ _ _ Hw).
    assert (i = s_seen S) as -> by lia. congruence. }
  destruct (safe_obj _ Hs u Hv) as (Hlast & _).
  assert (deleting u'') as Hdel'' by by apply Hsdel.
  assert (safe (forget S)) as Hforget.
  { destruct Hs as [Hu Hn Ho Hno Hl]. split; simpl; [done|done|done|done|].
    intros i w Hi Hw Hdw. by rewrite (Hlatest i w Hi Hw) in Hdw. }
  unfold put. destruct (Meta_DeletionTimestamp _) eqn:Ets, (Finalizers u'') eqn:Ef; try done;
    [|by destruct Hdel'' as [? ?]; congruence..].
  split; simpl.
  - rewrite fmap_app. apply NoDup_app. split_and!; [by apply safe_unique| |apply NoDup_singleton].
    intros x Hx ->%list_elem_of_singleton. done.
  - apply Forall_app_2; [by apply safe_names|]. constructor; [|done]. rewrite Hsn.
    rewrite (f_equal User_Name (RemoveFinalizer_frame u userFinalizer) : User_Name (RemoveFinalizer _ _) = _).
    apply last_Some_elem_of in Hlast. by eapply Forall_forall in Hlast; [|by apply safe_names].
  - intros w [= <-]. rewrite last_snoc, He. split_and!; [done|set_solver|done].
  - done.
  - intros i w Hi Hw Hdw. apply lookup_app_Some in Hw as [Hw|[_ Hw]].
    + by rewrite (Hlatest i w Hi Hw) in Hdw.
    + apply list_lookup_singleton_Some in Hw as [_ ->]. done.
Qed.

Lemma user_run_put S u h u'' :
  user_run S u h → (¬ deleting u → protected u h → covered (put S u'') u) → user_run (put S u'') u h.
Proof.
  intros (Hr & Hl & Hd & _) Hp. unfold user_run.
  assert (s_history (put S u'') !! s_seen (put S u'') = Some u ∧ s_ledger (put S u'') = s_ledger S) as [-> ->].
  { unfold put. destruct (Meta_DeletionTimestamp _), (Finalizers u''); simpl;
      (split; [|done]); try done; by apply lookup_app_l_Some. }
  by split_and!.
Qed.

Lemma update_kept S u v u' u'' h x t o r :
  safe S → user_run S u h →
  runs (Reconcile creator nn) (ev (GetUser nn) (u, None) :: h ++ ev (UpdateUser u') x :: t) o →
  s_obj S = Some v → rv u' = rv v → fresh S u'' → stored v u' u'' →
  (x.2 = None → x.1 = u'') →
  safe (with_run (put S u'') (s_ledger S) r) ∧
  user_run (with_run (put S u'') (s_ledger S) r) u (h ++ [ev (UpdateUser u') x]).
Proof.
  intros Hs Hu Ht Hv Erv Hfr Hst Hx. pose proof Hu as (Hr & (l & El) & Hd & _).
  assert (User_Name u = n) as Hn.
  { apply list_elem_of_lookup_2 in Hr. by eapply Forall_forall in Hr; [|by apply safe_names]. }
  pose proof (update_cases _ _ _ _ _ _ l Ht Hn) as Hc. rewrite <- El in Hc.
  assert (rv u' = rv u) as Eu.
  { destruct Hc as [[_ ->]|(_ & -> & _)]; [apply frame_rv_add|apply frame_rv_remove]. }
  destruct (safe_current _ _ _ _ Hs Hr Hv) as [-> _]; [congruence|].
  assert (safe (put S u'') ∧ (¬ deleting u → covered (put S u'') u)) as [Hs' Hcov].
  { destruct Hc as [[Hdel ->]|(Hdel & -> & Hl)]; [by destruct (safe_added S u u'') as (? & ? & _)|].
    split; [|done]. apply (safe_removed S u u''); try done.
    destruct (safe_obj _ Hs u Hv) as (_ & Hlu & _). set_solver. }
  assert (s_ledger (put S u'') = s_ledger S) as Hled.
  { unfold put. by destruct (Meta_DeletionTimestamp _), (Finalizers u''). }
  split; [apply safe_with_run; [done|by rewrite Hled]|].
  destruct (user_run_put S u h u'' Hu) as (Hr' & _ & _ & _); [by auto|].
  split_and!; [exact Hr'| | |by intros ? _; apply Hcov].
  - exists l. simpl. by rewrite ledger_after_app, <- El.
  - intros w w1 [?|E%list_elem_of_singleton]%elem_of_app; [by apply Hd|].
    apply (f_equal update_of) in E. injection E as -> <-. simpl in Hx. rewrite (Hx eq_refl).
    apply Hst.
Qed.

(** A reconciliation reads the user once. *)
Definition is_read (e : event) : Prop := match projT1 e with GetUser _ => True | _ => False end.

Lemma reads_once u h e t o :
  runs (Reconcile creator nn) (ev (GetUser nn) (u, None) :: h ++ e :: t) o → ¬ is_read e.
Proof.
  intros Ht. assert (Forall (λ e, ¬ is_read e) (h ++ e :: t)) as Hall.
  { destruct (Reconcile_user _ _ _ _ _ Ht) as (t0 & o' & tail & -> & Hr & Hf).
    assert (∀ u0 del l tl ol, runs (range_err (databaseReconciler creator u0 del) l) tl ol →
      Forall (λ e, ¬ is_read e) tl) as Hloop.
    { intros u0 del l tl ol Hl. eapply Forall_impl; [by eapply loop_not_user|].
      intros [[] x]; unfold is_read; simpl; tauto. }
    assert (∀ pre u1, finalized u pre u1 → Forall (λ e, ¬ is_read e) pre) as Hpre.
    { intros pre u1 [(_ & -> & _)|(_ & ->)]; repeat constructor; by intros []. }
    apply Forall_app_2.
    - destruct Hr; rewrite ?Forall_cons, ?Forall_app, ?Forall_cons, ?Forall_nil; split_and?;
        try (by intros []); eauto.
    - destruct o' as [[u0 [[] [err|]]]|m]; simpl in Hf;
        repeat case_match; split_hyps; repeat constructor; by intros []. }
  rewrite Forall_app, Forall_cons in Hall. tauto.
Qed.

(** A request of a run that has read the user. *)
Lemma api_user S S' u h e t o r :
  safe S → user_run S u h →
  runs (Reconcile creator nn) (ev (GetUser nn) (u, None) :: h ++ e :: t) o →
  api nn S e S' →
  safe (with_run S' (ledger_event n (s_ledger S) e) r) ∧
  user_run (with_run S' (ledger_event n (s_ledger S) e) r) u (h ++ [e]).
Proof.
  intros Hs Hu Ht Ha.
  assert ((∀ u' u1, e ≠ ev (UpdateUser u') (u1, None)) →
    safe (with_run S (ledger_event n (s_ledger S) e) r) ∧
    user_run (with_run S (ledger_event n (s_ledger S) e) r) u (h ++ [e])) as Hsame.
  { intros He. split; [by eapply safe_event|by apply user_run_event]. }
  destruct Ha as [i v Hv Hi|nn' v err|v u' u'' Hv Erv Hf Hst|v u' u'' w err Hv Erv Hf Hst|u' w err
    |v u' u'' x Hv Erv Hf Hsu _|u' w err|e He].
  - destruct (reads_once _ _ _ _ _ Ht I).
  - apply Hsame. intros u' u1 E. by apply (f_equal update_of) in E.
  - by eapply update_kept.
  - by eapply update_kept.
  - apply Hsame. intros v u1 E. by apply (f_equal update_of) in E.
  - assert (covered S u → covered (store S u'') u) as Hc by by eapply covered_store.
    split.
    + eapply (safe_event (store S u'')); [by eapply safe_store|by apply user_run_append|exact Ht].
    + apply (user_run_event (store S u'')); [by apply user_run_append|].
      intros v' u1 E. by apply (f_equal update_of) in E.
  - apply Hsame. intros v u1 E. by apply (f_equal update_of) in E.
  - apply Hsame. intros u' u1 ->. by destruct He.
Qed.

(** The request with which a run reads the user. *)
Lemma api_read S S' u err r :
  safe S → api nn S (ev (GetUser nn) (u, err)) S' →
  safe (with_run S' (s_ledger S) r) ∧ (err = None → user_run (with_run S' (s_ledger S) r) u []).
Proof.
  intros Hs Ha. remember (ev (GetUser nn) (u, err)) as e eqn:E.
  destruct Ha as [i v Hv Hi|nn' v err'| | | | | |e He]; try by apply (f_equal user_read) in E.
  - apply (f_equal user_read) in E. injection E as -> <-. split.
    + destruct Hs as [Hu Hn Ho Hno Hl]. split; simpl; [done..|]. intros j w Hj. apply Hl. lia.
    + intros _. split_and!; [done|by exists (s_ledger S)|by intros u' u1 []%not_elem_of_nil|].
      intros Hdel [Hf|(u1 & []%not_elem_of_nil)]. by eapply (safe_live _ Hs).
  - apply (f_equal user_read) in E. injection E as -> <-. split; [by apply safe_with_run|done].
  - subst e. by destruct He.
Qed.

Lemma prefix_step h r k x :
  prefix_run h (Call r k) → prefix_run (h ++ [ev r x]) (k x).
Proof. intros Hp t o Ht. rewrite <- app_assoc. apply Hp. simpl. eauto. Qed.

Lemma prefix_complete h p : prefix_run h p → ∃ t o, runs (Reconcile creator nn) (h ++ t) o.
Proof. intros Hp. eexists _, _. apply Hp, (run_runs handle p world0). Qed.

Lemma inv_init : inv init.
Proof. split; [|done]. split; simpl; try done; constructor. Qed.

(** The state of the object and of a run, apart from the prefix. *)
Definition run_ok S h : Prop :=
  h = [] ∨ ∃ x h', h = ev (GetUser nn) x :: h' ∧ (x.2 = None → user_run S x.1 h').

Lemma run_ok_call S S' h e t o r :
  safe S → run_ok S h → runs (Reconcile creator nn) (h ++ e :: t) o → api nn S e S' →
  safe (with_run S' (ledger_event n (s_ledger S) e) r) ∧
  run_ok (with_run S' (ledger_event n (s_ledger S) e) r) (h ++ [e]).
Proof.
  intros Hs [->|([u err] & h' & -> & Hu)] Ht Ha.
  - destruct (Ht) as (x & t' & E & _). injection E as -> _. destruct x as [u err].
    change (ledger_event n (s_ledger S) (ev (GetUser nn) (u, err))) with (s_ledger S).
    destruct (api_read _ _ _ _ r Hs Ha) as [? Hu]. split; [done|].
    right. exists (u, err), []. by split.
  - destruct err as [err|].
    + pose proof (Reconcile_no_user creator nn _ _ _ _ Ht) as E.
      assert (projT1 e = LoggerInfo "User resource not found. Ignoring since object must be deleted."
        ∨ projT1 e = LoggerError err "unable to fetch User resource") as He.
      { destruct (apierrors_IsNotFound err); destruct E as [E _]; (destruct h' as [|? [|]]; [|done..]);
          injection E as -> ->; auto. }
      assert (S' = S ∧ ledger_event n (s_ledger S) e = s_ledger S) as [-> ->].
      { destruct e as [rq x]. simpl in He. destruct He as [-> | ->]; (split; [|done]);
          (eapply api_not_write; [|exact Ha]); by intros []. }
      split; [by apply safe_with_run|]. right. exists (u, Some err), (h' ++ [e]). by split.
    + destruct (api_user _ _ _ _ _ _ _ r Hs (Hu eq_refl) Ht Ha) as [? ?]. split; [done|].
      right. exists (u, None), (h' ++ [e]). by split.
Qed.

Lemma inv_env S S' :
  inv S → safe S' → s_run S' = s_run S →
  (∀ u h, user_run S u h → user_run S' u h) → inv S'.
Proof.
  intros [_ Hr] Hs E Hu. split; [done|]. rewrite E. intros h p Hh.
  destruct (Hr h p Hh) as [? [->|(x & h' & -> & Hx)]]; (split; [done|]); [by left|].
  right. exists x, h'. eauto.
Qed.

Lemma inv_step S S' : inv S → step S S' → inv S'.
Proof.
  intros HI Hstep. pose proof (inv_safe _ HI) as Hs.
  destruct Hstep as [S u Hno Hf Hfin Hn|S u u' Hu Hf Hsu|S u Hu Hfin|S Hr|S S' h r x k Hr Ha|S h p Hr].
  - assert (∀ w, covered S w → covered (store S u) w) as Hc by (intros w (v & ? & _); congruence).
    apply (inv_env S); [done| |done|intros w h Hw; by apply user_run_append; auto].
    pose proof (safe_none _ Hs Hno) as He. apply safe_append; try done. by rewrite He.
  - apply (inv_env S); [done|by eapply safe_store|done|].
    intros w h Hw. apply user_run_append; [done|]. by eapply covered_store.
  - assert (∀ w, ¬ covered S w) as Hc.
    { intros w (v & Hv & Hfv & _). assert (v = u) as -> by congruence. done. }
    destruct (safe_obj _ Hs u Hu) as (_ & _ & He).
    apply (inv_env S); [done| |done|].
    + destruct Hs as [? ? ? ? Hl]. split; simpl; [done..|by intros _; apply He|].
      intros i w Hi Hw Hd Hfw. by destruct (Hc w (Hl i w Hi Hw Hd Hfw)).
    + intros w h (? & ? & ? & Hp). split_and!; [done..|]. intros Hd Hpr. by destruct (Hc w (Hp Hd Hpr)).
  - split; [by apply safe_with_run|]. intros h p [= <- <-]. split; [by intros t o|by left].
  - destruct HI as [_ Hrun]. destruct (Hrun _ _ Hr) as [Hp Hh].
    apply prefix_step with (x := x) in Hp. destruct (prefix_complete _ _ Hp) as (t & o & Ht).
    rewrite <- app_assoc in Ht.
    destruct (run_ok_call _ _ _ _ _ _ (Some (h ++ [ev r x], k x)) Hs Hh Ht Ha) as [Hs' Hh'].
    split; [done|]. by intros h0 p0 [= <- <-].
  - split; [by apply safe_with_run|done].
Qed.

Lemma inv_reachable S : reachable S → inv S.
Proof.
  intros Hr. assert (∀ S1 S2, rtc step S1 S2 → inv S1 → inv S2) as Hi; [|by eapply Hi, inv_init].
  induction 1 as [|S1 S2 S3 Hstep _ IH]; [done|]. intros HI. by eapply IH, inv_step.
Qed.

(** What the ledger records is remembered by the stored object. *)
Lemma safe_touched S db :
  safe S → db ∈ l_touched (s_ledger S) → ∃ u, s_obj S = Some u ∧ has_finalizer u ∧ db ∈ databases u.
Proof.
  intros [_ _ Ho Hn _] Hdb. destruct (s_obj S) as [u|]; [|by rewrite (Hn eq_refl) in Hdb].
  destruct (Ho u eq_refl) as (_ & Hl & He). exists u. split_and!; [done| |by apply Hl].
  unfold has_finalizer in *. destruct (decide (userFinalizer ∈ Finalizers u)) as [|Hf]; [done|].
  by rewrite (He Hf) in Hdb.
Qed.
End System.
