(* ===== verification/LifecycleProps.v ===== *)
(** * The whole life of a user

    An executable cluster that follows the steps of [Lifecycle], and the
    invariant of all reachable states: whatever happens between the requests of
    the operator, a database in which something of the user may be left is
    referenced by a stored object that carries the finalizer. *)

From S2P Require Import Prelude GoError Api Effects Connection PgUtils PgConfig Postgresql Mysql.
From S2P Require Import Database Controller ControllerFacts ControllerRuns ControllerTraces Ledger.
From S2P Require Import World Samples Lifecycle.

(** ** An executable cluster *)

Definition conflict : error := StatusError ReasonConflict "the object has been modified".

(** The resource version of the next object that is stored. *)
Definition next_rv (S : sys) : string := pretty (N.of_nat (length (s_history S))).

Definition is_fresh (S : sys) (v : string) : bool := bool_decide (v ∉ rv <$> s_history S).

(** What the cache returns when it may lag [lag] versions behind: never an older
    version than before, and [None] when it has seen that the object is gone. *)
Definition cached (lag : nat) (S : sys) : option (nat * User) :=
  let i := Nat.max (s_seen S) (length (s_history S) - 1 - lag) in
  match lag, s_obj S with
  | 0, None => None
  | _, _ => u ← s_history S !! i; Some (i, u)
  end.

Section Cluster.
Variable lag : nat.
Variable nn : types_NamespacedName.

(** The requests on the user object; the other ones are answered by a [World]. *)
Definition answer (r : req) (S : sys) (w : World) : resp r * sys * World :=
  match r return resp r * sys * World with
  | GetUser nn' =>
      match cached lag S with
      | Some (i, u) =>
          if bool_decide (nn' = nn) then ((u, None), see_version S i, w)
          else ((user0, Some not_found), S, w)
      | None => ((user0, Some not_found), S, w)
      end
  | UpdateUser u' =>
      match s_obj S with
      | Some u =>
          if bool_decide (rv u' = rv u) && is_fresh S (next_rv S)
             && bool_decide (Meta_DeletionTimestamp (User_Meta u') = Meta_DeletionTimestamp (User_Meta u)) then
            ((with_rv u' (next_rv S), None), put S (with_rv u' (next_rv S)), w)
          else ((u', Some conflict), S, w)
      | None => ((u', Some not_found), S, w)
      end
  | UpdateUserStatus u' =>
      match s_obj S with
      | Some u =>
          if bool_decide (rv u' = rv u) && is_fresh S (next_rv S) then
            let u'' := with_rv (set_User_Status u (User_Status u')) (next_rv S) in
            ((u'', None), store S u'', w)
          else ((u', Some conflict), S, w)
      | None => ((u', Some not_found), S, w)
      end
  | r => ((handle r w).1, S, (handle r w).2)
  end.

Lemma answer_api r S w : api nn S (ev r (answer r S w).1.1) (answer r S w).1.2.
Proof.
  destruct r; try (apply api_other; by intros []); simpl.
  { destruct (cached lag S) as [[i v]|] eqn:E; [|by constructor].
    case_bool_decide as En; [subst|by constructor].
    assert (s_history S !! i = Some v ∧ s_seen S ≤ i) as [Hi Hs]; [|by constructor].
    assert (∀ j, j = Nat.max (s_seen S) (length (s_history S) - 1 - lag) →
      (u ← s_history S !! j; Some (j, u)) = Some (i, v) → s_history S !! i = Some v ∧ s_seen S ≤ i) as Hj.
    { intros j Ej. destruct (s_history S !! j) as [u|] eqn:Eu; [|done]. intros [= <- <-]. split; [done|lia]. }
    unfold cached in E. by destruct lag, (s_obj S); try done; apply (Hj _ eq_refl E). }
  all: destruct (s_obj S) as [v|] eqn:E; try by constructor.
  - destruct (bool_decide _ && _ && _) eqn:Ec; [|by constructor].
    rewrite !andb_true_iff, !bool_decide_eq_true in Ec. destruct Ec as [[Er Ef] Ed].
    eapply api_update; [done|done|by apply bool_decide_eq_true in Ef|].
    split_and!; try done. unfold deleting. simpl. by rewrite Ed.
  - destruct (bool_decide _ && _) eqn:Ec; [|by constructor].
    rewrite !andb_true_iff, !bool_decide_eq_true in Ec. destruct Ec as [Er Ef].
    by eapply api_status; [done|done|apply bool_decide_eq_true in Ef| |].
Qed.
End Cluster.

Section Life.
Context {U : Controllerutil} {UL : ControllerutilLaws U}.
Context {D : Type} {DO : DatabaseOps D}.
Variable creator : DatabaseSpec → prog (D * option error).
Variable lag : nat.
Variable nn : types_NamespacedName.

(** The rest [p] of a run, of which [h] has been done. *)
Fixpoint life (h : list event) (p : prog (Result * option error)) (S : sys) (w : World)
    : sys * World :=
  match p with
  | Ret _ | Panic _ => (with_run S (s_ledger S) None, w)
  | Call r k =>
      let '(x, S', w') := answer lag nn r S w in
      let h' := h ++ [ev r x] in
      life h' (k x)
        (with_run S' (ledger_event (Nn_Name nn) (s_ledger S) (ev r x)) (Some (h', k x))) w'
  end.

Definition reconcile_sys (Sw : sys * World) : sys * World :=
  let p := Reconcile creator nn in
  life [] p (with_run Sw.1 (s_ledger Sw.1) (Some ([], p))) Sw.2.

Lemma life_steps h p S w :
  s_run S = Some (h, p) → rtc (step creator nn) S (life h p S w).1.
Proof.
  revert h S w. induction p as [a|m|r k IH]; intros h S w Hr.
  - apply rtc_once. by eapply op_stop.
  - apply rtc_once. by eapply op_stop.
  - cbn [life]. pose proof (answer_api lag nn r S w) as Ha.
    destruct (answer lag nn r S w) as [[x S'] w']. eapply rtc_l; [by eapply op_call|by apply IH].
Qed.

Lemma reconcile_sys_steps Sw : s_run Sw.1 = None → rtc (step creator nn) Sw.1 (reconcile_sys Sw).1.
Proof. intros Hr. eapply rtc_l; [by apply op_start|by apply life_steps]. Qed.
End Life.

(** A user is created, the operator comes, the user is deleted, the operator
    comes again. *)
Definition john_created : sys := store init (with_rv (sample_user [] None false ["pg"; "my"]) "0").
Definition john_reconciled : sys * World :=
  reconcile_sys NewDatabase 0 john (john_created, world_of new_user).
Definition ask_deletion (S : sys) : sys :=
  match s_obj S with
  | Some u =>
      store S (mkUser (mkObjectMeta (User_Name u) "" "9" (Finalizers u) (Some "now"))
        (User_Spec u) (User_Status u))
  | None => S
  end.
Definition john_deleting : sys := ask_deletion john_reconciled.1.
Definition john_deleted : sys * World := reconcile_sys NewDatabase 0 john (john_deleting, john_reconciled.2).

Lemma john_created_reachable : reachable NewDatabase john john_created.
Proof. apply rtc_once. by apply env_create; [|apply not_elem_of_nil|intros Hf%elem_of_nil|]. Qed.

Lemma john_reconciled_reachable : reachable NewDatabase john john_reconciled.1.
Proof.
  unfold reachable. etransitivity; [exact john_created_reachable|].
  by apply (reconcile_sys_steps NewDatabase 0 john (john_created, world_of new_user)).
Qed.

Lemma deletion_requested u :
  same_user u (mkUser (mkObjectMeta (User_Name u) "" "9" (Finalizers u) (Some "now"))
    (User_Spec u) (User_Status u)).
Proof. split_and!; [done|done|done|]. intros _. by eexists. Qed.

Lemma john_deleting_reachable : reachable NewDatabase john john_deleting.
Proof.
  unfold reachable. etransitivity; [exact john_reconciled_reachable|]. apply rtc_once.
  unfold john_deleting, ask_deletion.
  assert ("9" ∉ rv <$> s_history john_reconciled.1) as Hf by (apply (bool_decide_unpack _); by vm_compute).
  assert (is_Some (s_obj john_reconciled.1)) as Hs by (vm_compute; by eexists).
  revert Hf Hs. generalize john_reconciled.1. intros S Hf [u Hu]. rewrite Hu.
  apply (env_change NewDatabase john _ u); [exact Hu|exact Hf|apply deletion_requested].
Qed.

(** What is stored and where something may be left. *)
Definition view (S : sys) : option (list string) * list string :=
  (Finalizers <$> s_obj S, elements (l_touched (s_ledger S))).

Example john_views :
  view john_created = (Some [], []) ∧
  view john_reconciled.1 = (Some [userFinalizer], ["my"; "pg"]) ∧
  view john_deleting = (Some [userFinalizer], ["my"; "pg"]) ∧
  view john_deleted.1 = (None, []).
Proof. by vm_compute. Qed.

(** A cache that lags behind: the user that was just deleted is deleted again
    from the version before, which changes nothing. *)
Definition john_deleted_late : sys * World :=
  reconcile_sys NewDatabase 1 john (john_deleted.1, john_deleted.2).

Example late_deletion_harmless :
  view john_deleted_late.1 = (None, []) ∧
  length (w_sent john_deleted_late.2) = length (w_sent john_deleted.2) + 8.
Proof. by vm_compute. Qed.

(** Why the cache must not go back: were a live version read after the user was
    released, the user would be created again with nothing to remember it. *)
Definition gone_back (S : sys) : sys := see_version S 0.

Example cache_gone_back_orphans :
  view (reconcile_sys NewDatabase 1 john (gone_back john_deleted.1, john_deleted.2)).1 = (None, ["my"; "pg"]).
Proof. by vm_compute. Qed.

(** Why references may not be taken out: a reference that is removed from the
    user is forgotten, and the deletion leaves the user in that database (the
    automatic deletion is an open item of README.md). *)
Definition john_edited : sys :=
  match s_obj john_reconciled.1 with
  | Some u => store john_reconciled.1 (mkUser (mkObjectMeta (User_Name u) "" "8" (Finalizers u) None)
      (mkUserSpec [ref "pg"]) (User_Status u))
  | None => john_reconciled.1
  end.

Example edited_reference_forgotten :
  view (reconcile_sys NewDatabase 0 john (ask_deletion john_edited, john_reconciled.2)).1 = (None, ["my"]).
Proof. by vm_compute. Qed.

(** Why one reconciliation of a user at a time: let a run stop after [k] requests
    and go on when another one has released the user, as two operators without
    leader election may do.  Then the user is created again with nothing to
    remember it. *)
Fixpoint life_until (k : nat) (h : list event) (p : prog (Result * option error)) (S : sys) (w : World)
    : list event * prog (Result * option error) * sys * World :=
  match k, p with
  | Datatypes.S k, Call r f =>
      let '(x, S', w') := answer 0 john r S w in
      let h' := h ++ [ev r x] in
      life_until k h' (f x) (with_run S' (ledger_event "john" (s_ledger S) (ev r x)) (Some (h', f x))) w'
  | _, _ => (h, p, S, w)
  end.

Definition overtaken (k : nat) : sys * World :=
  let '(h, p, S0, w) := life_until k [] (Reconcile NewDatabase john) john_reconciled.1 john_reconciled.2 in
  let Sw := reconcile_sys NewDatabase 0 john (ask_deletion S0, w) in
  life 0 john h p Sw.1 Sw.2.

Example overtaken_orphans : view (overtaken 1).1 = (None, ["my"; "pg"]).
Proof. by vm_compute. Qed.

(** ** The invariant *)

(** C2: No orphaned users.  In every reachable state of the operator and the
    cluster, a database in which something that may create the user or give it
    something was sent since its last confirmed [DROP USER] there is referenced
    by the stored object, and that object carries the finalizer: the object
    cannot disappear while something of it may be left at a server.  The operator
    reads the user from a cache that may lag behind without bound, also after the
    object is gone, but never goes back; between any two requests other clients
    may create, change or ask to delete the object (without taking references
    out), the operator may be stopped after any request and start again, an
    update may fail, be refused as outdated or take effect although its answer
    is lost, and the other requests are answered arbitrarily. *)
Theorem no_orphaned_users {U : Controllerutil} {UL : ControllerutilLaws U}
    {D : Type} {DO : DatabaseOps D} {DL : DatabaseLaws D}
    (creator : DatabaseSpec → prog (D * option error)) {CL : CreatorLaws creator}
    (nn : types_NamespacedName) (S : sys) (db : string) :
  reachable creator nn S → db ∈ l_touched (s_ledger S) →
  ∃ u, s_obj S = Some u ∧ has_finalizer u ∧ db ∈ ref_names (User_Databases u).
Proof.
  intros Hr. apply (safe_touched nn). by apply (inv_safe creator), inv_reachable.
Qed.

Lemma no_orphaned_users_witness :
  ∃ u, s_obj john_reconciled.1 = Some u ∧ has_finalizer u ∧ "my" ∈ ref_names (User_Databases u).
Proof.
  apply (no_orphaned_users NewDatabase john john_reconciled.1 "my").
  - exact john_reconciled_reachable.
  - by vm_compute.
Defined.
