(* ===== verification/HealthyProps.v ===== *)
(** * A cluster without faults: users become ready and are released

    The outcome of every reconciliation of the operator when the objects a user
    refers to exist and are valid and the requests are answered without errors,
    or as a PostgreSQL server does when the work was done before ([Healthy]).  Together with the fact that every program ends, this says that
    the reconciler fails only because of its environment. *)

From S2P Require Import Prelude GoError Api Effects Logic Connection Postgresql Mysql Database.
From S2P Require Import Controller ControllerFacts ControllerRuns ControllerTraces World Samples Healthy.

(** What a user refers to exists and is valid. *)
Definition user_ok (c : cluster) (u : User) : bool := forallb (ref_ok c) (User_Databases u).

(** A reconciliation of the user [u] as the API server returns it. *)
Definition reconciliation {U : Controllerutil} (c : cluster) (nn : types_NamespacedName) (u : User)
    (t : list event) (o : outcome (Result * option error)) : Prop :=
  Forall (healthy c) t ∧ runs (OperatorReconcile nn) (ev (GetUser nn) (u, None) :: t) o.

Section Healthy.
Context {U : Controllerutil} {UL : ControllerutilLaws U}.
Variable c : cluster.
Implicit Types (u : User) (t tl : list event).

Lemma reconciliation_exists nn u : ∃ t o, reconciliation c nn u t o.
Proof.
  unfold reconciliation, OperatorReconcile, Reconcile, r_user. cbn [bind call].
  match goal with |- context [Call (GetUser nn) ?k] =>
    destruct (good_run (healthy c) (k (u, None)) (healthy_answer c)) as (t & o & Ht & Hr) end.
  exists t, o. split; [done|]. simpl in Hr |- *. eauto.
Qed.

Lemma loop_healthy (del : bool) u tl o :
  user_ok c u = true → Forall (healthy c) tl →
  runs (range_err (databaseReconciler NewDatabase u del) (User_Databases u)) tl o → o = Returned None.
Proof.
  intros Hu Ht Hr. destruct (wp_runs _ _ _ _ _ (loop_ok c del u _ Hu) Ht Hr) as (a & -> & <-). done.
Qed.

Lemma not_user_warning e : ¬ user_req (projT1 e) → ¬ is_warning e.
Proof. destruct e as [[] x]; unfold is_warning; simpl; tauto. Qed.

(** The finalizer is stored: the object keeps its status and databases. *)
Lemma finalized_healthy u pre u1 :
  Forall (healthy c) pre → finalized u pre u1 →
  userFinalizer ∈ Finalizers u1 ∧ User_Ready u1 = User_Ready u ∧
  User_Databases u1 = User_Databases u ∧ Forall (λ e, ¬ is_warning e) pre.
Proof.
  intros Hp [(Hc & -> & ->)|(_ & ->)].
  { by apply ContainsFinalizer_spec in Hc. }
  apply Forall_cons in Hp as [_ [[v [= ->]] _]%Forall_cons].
  pose proof (AddFinalizer_frame u userFinalizer) as Hf. split_and!.
  - by apply (AddFinalizer_spec u userFinalizer); left.
  - exact (f_equal User_Ready Hf).
  - exact (f_equal User_Databases Hf).
  - repeat constructor; by intros [].
Qed.

(** ** The shapes of the runs *)

(** A run for a live user: the finalizer, the loop, and a ready status unless
    the user was ready. *)
Lemma healthy_live_shape nn u t o :
  ¬ deleting u → user_ok c u = true → reconciliation c nn u t o →
  o = Returned (Result_zero, None) ∧
  ∃ pre u1 tl tail, t = (pre ++ tl ++ [log_success]) ++ tail ∧
    finalized u pre u1 ∧ Forall (healthy c) pre ∧
    runs (range_err (databaseReconciler NewDatabase u1 false) (User_Databases u1)) tl (Returned None) ∧
    (User_Ready u = true ∧ tail = [] ∨
     User_Ready u = false ∧
     ∃ v, tail = [success u1; ev (UpdateUserStatus (set_User_Status u1 status_ready))
                                (with_rv (set_User_Status u1 status_ready) v, None)]).
Proof.
  intros Hd Hu [Ht Hr].
  destruct (Reconcile_user NewDatabase _ _ _ _ Hr) as (t0 & o' & tail & -> & Hrec & Hf).
  apply Forall_app in Ht as [Ht Htail].
  destruct Hrec as [|tl ol ? ? Hl Hne|tl u2 err ? ? Hl|u2 e Hd' Hc|pre u1 tl ol Hd' Hp Hl Hne|pre u1 tl Hd' Hp Hl];
    try done.
  - apply Forall_cons in Ht as [_ [[v [=]] _]%Forall_cons].
  - apply Forall_app in Ht as [Hpre Htl]. destruct (finalized_healthy _ _ _ Hpre Hp) as (_ & _ & Hdb & _).
    destruct Hne. eapply loop_healthy; [|exact Htl|exact Hl]. unfold user_ok. by rewrite Hdb.
  - apply Forall_app in Ht as [Hpre Htl]. destruct (finalized_healthy _ _ _ Hpre Hp) as (_ & Hrdy & _ & _).
    simpl in Hf. rewrite Hrdy in Hf.
    assert (o = Returned (Result_zero, None) ∧ (User_Ready u = true ∧ tail = [] ∨
     User_Ready u = false ∧
     ∃ v, tail = [success u1; ev (UpdateUserStatus (set_User_Status u1 status_ready))
                                (with_rv (set_User_Status u1 status_ready) v, None)])) as [-> Ht].
    { destruct (User_Ready u); simpl in Hf.
      - destruct Hf as [-> ->]. by split; [|left].
      - destruct Hf as (u2 & err & -> & ->).
        apply Forall_cons in Htail as [_ [[v [= -> ->]] _]%Forall_cons].
        split; [done|]. right. split; [done|by exists v]. }
    split; [done|]. by exists pre, u1, tl, tail.
Qed.

(** A run for a user that is being deleted: the loop and the removal of the
    finalizer. *)
Lemma healthy_deleted_shape nn u t o :
  deleting u → userFinalizer ∈ Finalizers u → user_ok c u = true → reconciliation c nn u t o →
  o = Returned (Result_zero, None) ∧
  ∃ tl v, t = (log_deletion :: tl ++ [log_deleted]) ++
      [ev (UpdateUser (RemoveFinalizer u userFinalizer)) (with_rv (RemoveFinalizer u userFinalizer) v, None)] ∧
    runs (range_err (databaseReconciler NewDatabase u true) (User_Databases u)) tl (Returned None).
Proof.
  intros Hd Hfin Hu [Ht Hr].
  destruct (Reconcile_user NewDatabase _ _ _ _ Hr) as (t0 & o' & tail & -> & Hrec & Hf).
  apply Forall_app in Ht as [Ht Htail]. apply ContainsFinalizer_spec in Hfin.
  destruct Hrec as [? Hc|tl ol ? ? Hl Hne|tl u2 err ? ? Hl|u2 e Hd' Hc|pre u1 tl ol Hd' Hp Hl Hne|pre u1 tl Hd' Hp Hl];
    try done; [congruence| |].
  - apply Forall_cons in Ht as [_ Ht]. destruct Hne. exact (loop_healthy true u tl ol Hu Ht Hl).
  - apply Forall_cons in Ht as [_ [_ Ht]%Forall_app].
    apply Forall_cons in Ht as [_ [[v [= -> ->]] _]%Forall_cons].
    simpl in Hf. rewrite andb_false_r in Hf. destruct Hf as [-> ->]. split; [done|].
    exists tl, v. split; [|done]. by rewrite app_nil_r, <- app_comm_cons, <- app_assoc.
Qed.

(** C13: In a cluster without faults a live user becomes ready.  If the databases,
    privileges and secrets a live user refers to exist and are valid, there
    are reconciliations without faults (PostgreSQL may answer that the role
    exists already), and every one of them returns without an error, emits no warning, and ends with a ready status for the user,
    which carries the finalizer then, unless the user was ready already. *)
Theorem healthy_user_becomes_ready nn u :
  ¬ deleting u → user_ok c u = true →
  (∃ t o, reconciliation c nn u t o) ∧
  ∀ t o, reconciliation c nn u t o →
    o = Returned (Result_zero, None) ∧ Forall (λ e, ¬ is_warning e) t ∧
    (User_Ready u = true ∨
     ∃ u' x, last t = Some (ev (UpdateUserStatus u') (x, None)) ∧
       User_Ready u' = true ∧ userFinalizer ∈ Finalizers u').
Proof.
  intros Hd Hu. split; [apply reconciliation_exists|]. intros t o Hr.
  destruct (healthy_live_shape nn u t o Hd Hu Hr) as (-> & pre & u1 & tl & tail & -> & Hp & Hpre & Hl & Ht).
  destruct (finalized_healthy _ _ _ Hpre Hp) as (Hfin & _ & _ & Hw).
  assert (Forall (λ e, ¬ is_warning e) (pre ++ tl ++ [log_success])) as Hw0.
  { apply Forall_app_2; [done|]. apply Forall_app_2; [|repeat constructor; by intros []].
    eapply Forall_impl; [exact (loop_not_user NewDatabase _ _ _ _ _ Hl)|apply not_user_warning]. }
  split; [done|]. destruct Ht as [[Hrd ->]|(Hrd & v & ->)]; [by rewrite app_nil_r; auto|]. split.
  - apply Forall_app_2; [done|]. apply Forall_cons_2; [by intros [=]|].
    apply Forall_cons_2; [by intros []|]. apply Forall_nil_2.
  - right. eexists _, _. rewrite last_app. split_and!; [reflexivity|done|exact Hfin].
Qed.

(** C14: In a cluster without faults a deleted user is released.  If the databases,
    privileges and secrets of a user that is being deleted exist and are
    valid, there are reconciliations without faults (PostgreSQL may answer that
    something to be revoked or dropped does not exist), and every one of them
    returns without an error and ends with the accepted removal of the
    finalizer. *)
Theorem healthy_user_is_released nn u :
  deleting u → userFinalizer ∈ Finalizers u → user_ok c u = true →
  (∃ t o, reconciliation c nn u t o) ∧
  ∀ t o, reconciliation c nn u t o →
    o = Returned (Result_zero, None) ∧
    ∃ x, last t = Some (ev (UpdateUser (RemoveFinalizer u userFinalizer)) (x, None)) ∧
      userFinalizer ∉ Finalizers x.
Proof.
  intros Hd Hfin Hu. split; [apply reconciliation_exists|]. intros t o Hr.
  destruct (healthy_deleted_shape nn u t o Hd Hfin Hu Hr) as (-> & tl & v & -> & Hl). split; [done|].
  eexists. rewrite last_app. split; [reflexivity|].
  intros [Hx _]%(RemoveFinalizer_spec u userFinalizer). done.
Qed.
End Healthy.

(** The objects of the sample cluster. *)
Definition sample_cluster : cluster :=
  let w := world_of new_user in mkCluster (w_databases w) (w_privileges w) (w_secrets w).

Lemma healthy_user_becomes_ready_witness :
  user_ok sample_cluster new_user = true ∧ ∃ t, reconciliation sample_cluster john new_user t (Returned (Result_zero, None)).
Proof.
  split; [by vm_compute|].
  destruct (healthy_user_becomes_ready sample_cluster john new_user) as [(t & o & Hr) Hall].
  - by intros [? [=]].
  - by vm_compute.
  - destruct (Hall t o Hr) as [-> _]. by exists t.
Defined.

Lemma healthy_user_is_released_witness :
  user_ok sample_cluster deleted_user = true ∧
  ∃ t, reconciliation sample_cluster john deleted_user t (Returned (Result_zero, None)).
Proof.
  split; [by vm_compute|].
  destruct (healthy_user_is_released sample_cluster john deleted_user) as [(t & o & Hr) Hall].
  - by exists "now".
  - by apply list_elem_of_singleton.
  - by vm_compute.
  - destruct (Hall t o Hr) as [-> _]. by exists t.
Defined.
