(* ===== verification/Convergence.v ===== *)
(** * Attempts without faults in the system

    An attempt without faults ([Healthy], which lets PostgreSQL answer that the
    work was done before) that other clients do not disturb, in the system of
    [Lifecycle]: what it leaves stored, and how an answered loop over the
    databases becomes one.  [ServerConvergence] has the theorems. *)

From S2P Require Import Prelude GoError Api Effects Logic StateLogic Connection PgUtils PgConfig.
From S2P Require Import Postgresql Mysql Database Controller ControllerFacts ControllerRuns.
From S2P Require Import ControllerTraces Ledger World Samples Healthy Lifecycle LifecycleProps HealthyProps.

Section Convergence.
Context {U : Controllerutil} {UL : ControllerutilLaws U}.
Variable nn : types_NamespacedName.
Implicit Types (S : sys) (u : User) (t : list event).
Notation chain := (served (api nn)).
Notation op_step := (step NewDatabase nn).

(** ** Runs in the system *)

Lemma api_with_run S e S' l r : api nn S e S' → api nn (with_run S l r) e (with_run S' l r).
Proof.
  assert (∀ u, with_run (put S u) l r = put (with_run S l r) u) as Hput.
  { intros u. unfold put. by destruct (Meta_DeletionTimestamp _), (Finalizers u). }
  intros Ha. destruct Ha as [i u Hi Hs| | | | |v u' u'' x Hv Er Hf Hsu Est| |]; rewrite ?Hput.
  - by apply (api_get nn (with_run S l r)).
  - by apply api_get_error.
  - by eapply api_update.
  - by eapply api_update_lost.
  - by apply api_update_error.
  - by apply (api_status nn (with_run S l r) v).
  - by apply api_status_error.
  - by apply api_other.
Qed.

Lemma chain_quiet S t S' : Forall (λ e, ¬ user_write e) t → chain S t S' → S' = S.
Proof.
  intros Ht Hs. induction Hs as [|S e S1 t S2 Ha Hs IH]; [done|].
  apply Forall_cons in Ht as [He Ht]. apply (api_not_write nn) in Ha as ->; [|done]. by apply IH.
Qed.

Lemma chain_quiet_intro S t : Forall (λ e, ¬ user_write e) t → chain S t S.
Proof. induction 1; econstructor; [by apply api_other|done]. Qed.

Lemma chain_one S e S' : chain S [e] S' ↔ api nn S e S'.
Proof.
  split; [|intros; econstructor; [done|constructor]].
  intros H. inversion H as [|? ? S1 ? ? Ha Ht]; subst. by inversion Ht; subst.
Qed.

(** ** Accepted writes *)

Lemma api_get_inv S u S' : api nn S (ev (GetUser nn) (u, None)) S' → ∃ i, S' = see_version S i.
Proof.
  intros Ha. remember (ev (GetUser nn) (u, None)) as e eqn:E.
  destruct Ha as [i v|? ? ?| | | | | |e He]; try by apply (f_equal user_read) in E.
  - eauto.
  - subst e. by destruct He.
Qed.

Lemma api_update_inv S u' x S' :
  api nn S (ev (UpdateUser u') (x, None)) S' →
  ∃ v, s_obj S = Some v ∧ stored v u' x ∧ S' = put S x.
Proof.
  intros Ha. remember (ev (UpdateUser u') (x, None)) as e eqn:E.
  destruct Ha as [|? ? ?|v ? ?|? ? ? ? ?|? ? ?| | |e He]; try by apply (f_equal update_of) in E.
  - apply (f_equal update_of) in E. injection E as -> ->. eauto.
  - subst e. by destruct He.
Qed.

Definition status_of (e : event) : option (User * option error) :=
  match e with
  | existT r x =>
      match r return resp r → option (User * option error) with
      | UpdateUserStatus u => λ x, Some (u, x.2)
      | _ => λ _, None
      end x
  end.

Lemma api_status_inv S u' x S' :
  api nn S (ev (UpdateUserStatus u') (x, None)) S' →
  ∃ v v', s_obj S = Some v ∧ same_user v v' ∧ User_Status v' = User_Status u' ∧ S' = store S v'.
Proof.
  intros Ha. remember (ev (UpdateUserStatus u') (x, None)) as e eqn:E.
  destruct Ha as [|? ? ?|? ? ?|? ? ? ? ?|? ? ?|v ? v' ?|? ? ?|e He]; try by apply (f_equal status_of) in E.
  - apply (f_equal status_of) in E. injection E as -> _. eauto 7.
  - subst e. by destruct He.
Qed.

(** ** The attempt *)

Variable c : cluster.

(** The operator reads the object that is stored, requests are answered without
    faults, and nobody else writes to the user. *)
Definition undisturbed S t S' : Prop :=
  ∃ u t' o, s_obj S = Some u ∧ t = ev (GetUser nn) (u, None) :: t' ∧
    reconciliation c nn u t' o ∧ chain S t S'.

Lemma loop_no_write (del : bool) u l tl o :
  runs (range_err (databaseReconciler NewDatabase u del) l) tl o → Forall (λ e, ¬ user_write e) tl.
Proof.
  intros Hl. eapply Forall_impl; [exact (loop_not_user NewDatabase _ _ _ _ _ Hl)|].
  intros [[] x]; unfold user_write; simpl; tauto.
Qed.

(** ** What it reaches *)

Lemma deletion_no_write u tl o :
  runs (range_err (databaseReconciler NewDatabase u true) (User_Databases u)) tl o →
  Forall (λ e, ¬ user_write e) (log_deletion :: tl ++ [log_deleted]).
Proof.
  intros Hl. apply Forall_cons_2; [by intros []|]. apply Forall_app_2; [by eapply loop_no_write|].
  repeat constructor; by intros [].
Qed.

Lemma put_live S u : ¬ deleting u → put S u = store S u.
Proof.
  unfold put, deleting. intros Hd. destruct (Meta_DeletionTimestamp (User_Meta u)); [|done].
  by destruct Hd.
Qed.

Lemma undisturbed_deleted S t S' u :
  s_obj S = Some u → deleting u → has_finalizer u → user_ok c u = true →
  undisturbed S t S' → ∀ v, s_obj S' = Some v → ¬ has_finalizer v.
Proof.
  intros Hu Hd Hf Hok (u0 & t' & o & Hu0 & -> & Hr & Hc) v Hv. assert (u0 = u) as -> by congruence.
  destruct (healthy_deleted_shape c nn u t' o Hd Hf Hok Hr) as (_ & tl & ver & -> & Hl).
  inversion Hc as [|? ? S1 ? ? Hg Hc1]; subst. apply api_get_inv in Hg as [i ->].
  apply (served_app_inv _ _ (log_deletion :: tl ++ [log_deleted])) in Hc1 as (S1 & H1 & H2).
  apply chain_quiet in H1 as ->; [|by eapply deletion_no_write].
  apply chain_one, api_update_inv in H2 as (v0 & _ & (_ & _ & Hfin & _) & ->).
  assert (v = with_rv (RemoveFinalizer u userFinalizer) ver) as ->.
  { revert Hv. unfold put. by destruct (Meta_DeletionTimestamp _), (Finalizers _); intros [= <-]. }
  unfold has_finalizer. rewrite Hfin. by intros [? _]%RemoveFinalizer_spec.
Qed.

(** The object after the part of the run that adds the finalizer. *)
Lemma chain_finalized S u pre u1 S1 :
  s_obj S = Some u → ¬ deleting u → finalized u pre u1 → Forall (healthy c) pre → chain S pre S1 →
  s_obj S1 = Some u1 ∧ has_finalizer u1 ∧ ¬ deleting u1 ∧ User_Ready u1 = User_Ready u.
Proof.
  intros Hu Hd Hp Hh Hc. destruct (finalized_healthy c u pre u1 Hh Hp) as (Hf & Hrd & _).
  destruct Hp as [(_ & -> & ->)|(_ & ->)]; [by inversion Hc; subst|].
  apply (served_app_inv _ _ [log_finalizer]) in Hc as (S2 & H1 & H2).
  apply chain_quiet in H1 as ->; [|repeat constructor; by intros []].
  apply chain_one, api_update_inv in H2 as (v & Hv & Hst & ->).
  assert (v = u) as -> by congruence.
  assert (¬ deleting u1) as Hd1 by (destruct Hst as (_ & _ & _ & ->); done).
  by rewrite put_live.
Qed.

Lemma undisturbed_live S t S' u :
  s_obj S = Some u → ¬ deleting u → user_ok c u = true → undisturbed S t S' →
  ∃ v, s_obj S' = Some v ∧ has_finalizer v ∧ User_Ready v = true.
Proof.
  intros Hu Hd Hok (u0 & t' & o & Hu0 & -> & Hr & Hc). assert (u0 = u) as -> by congruence.
  destruct (healthy_live_shape c nn u t' o Hd Hok Hr) as (_ & pre & u1 & tl & tail & -> & Hp & Hh & Hl & Ht).
  inversion Hc as [|? ? S1 ? ? Hg Hc1]; subst. apply api_get_inv in Hg as [i ->].
  apply served_app_inv in Hc1 as (S2 & H1 & H2). apply served_app_inv in H1 as (S1 & H1 & H1').
  destruct (chain_finalized _ _ _ _ _ (Hu : s_obj (see_version S i) = Some u) Hd Hp Hh H1)
    as (Hu1 & Hf1 & _ & Hrd).
  apply chain_quiet in H1' as ->.
  2: { apply Forall_app_2; [by eapply loop_no_write|]. repeat constructor; by intros []. }
  destruct Ht as [[Hready ->]|(_ & ver & ->)].
  - inversion H2; subst. exists u1. split_and!; [done|done|congruence].
  - apply (served_app_inv _ _ [success u1]) in H2 as (S3 & H2 & H3).
    apply chain_quiet in H2 as ->; [|repeat constructor; by intros []].
    apply chain_one, api_status_inv in H3 as (v & v' & Hv & (_ & _ & Hfin & _) & Hst & ->).
    assert (v = u1) as -> by congruence. exists v'. split_and!; [done|by apply Hfin|].
    unfold User_Ready. by rewrite Hst.
Qed.

(** ** It exists *)

(** The stored object can be read: the cache is not ahead of it. *)
Lemma seen_bound S : reachable NewDatabase nn S → s_seen S ≤ pred (length (s_history S)).
Proof.
  intros Hr. assert (∀ S1 S2, rtc op_step S1 S2 → s_seen S1 ≤ pred (length (s_history S1)) →
    s_seen S2 ≤ pred (length (s_history S2))) as H; [|by apply (H init); [exact Hr|simpl; lia]].
  clear. assert (∀ S u, s_seen S ≤ pred (length (s_history S)) →
    s_seen (store S u) ≤ pred (length (s_history (store S u)))) as Hst.
  { intros S u. simpl. rewrite length_app. simpl. lia. }
  assert (∀ S u, s_seen S ≤ pred (length (s_history S)) →
    s_seen (put S u) ≤ pred (length (s_history (put S u)))) as Hput.
  { intros S u Hs. unfold put. destruct (Meta_DeletionTimestamp _), (Finalizers u); try done; by apply Hst. }
  induction 1 as [|S1 S2 S3 Hstep _ IH]; [done|]. intros Hs. apply IH. clear IH.
  destruct Hstep as [| | | |S S' h r x k _ Ha|]; simpl; try done; [by apply Hst..|].
  destruct Ha as [i u Hi Hle| | | | | | |]; simpl; try done; [|by apply Hput..|by apply Hst].
  apply lookup_lt_Some in Hi. lia.
Qed.

Lemma readable S u :
  reachable NewDatabase nn S → s_obj S = Some u →
  ∃ i, s_history S !! i = Some u ∧ s_seen S ≤ i.
Proof.
  intros Hr Hu. exists (pred (length (s_history S))). split; [|by apply seen_bound].
  destruct (safe_obj _ _ (inv_safe _ _ _ (inv_reachable NewDatabase nn _ Hr)) u Hu) as [Hl _].
  by rewrite last_lookup in Hl.
Qed.

Lemma chain_read S u i t S' :
  s_history S !! i = Some u → s_seen S ≤ i → chain (see_version S i) t S' →
  chain S (ev (GetUser nn) (u, None) :: t) S'.
Proof. intros Hi Hs Hc. econstructor; [by apply api_get|done]. Qed.

Lemma chain_update S u u' v :
  s_obj S = Some u → rv u' = rv u → v ∉ rv <$> s_history S →
  (deleting u' ↔ deleting u) →
  chain S [ev (UpdateUser u') (with_rv u' v, None)] (put S (with_rv u' v)).
Proof.
  intros Hu Er Hf Hd. apply chain_one. by eapply api_update.
Qed.

(** A loop without faults becomes an attempt. *)
Lemma deletion_attempt S u tl :
  reachable NewDatabase nn S → s_obj S = Some u → deleting u → has_finalizer u →
  runs (range_err (databaseReconciler NewDatabase u true) (User_Databases u)) tl (Returned None) →
  Forall (healthy c) tl →
  ∃ v S', undisturbed S (ev (GetUser nn) (u, None) :: (log_deletion :: tl ++ [log_deleted]) ++
      [ev (UpdateUser (RemoveFinalizer u userFinalizer)) (with_rv (RemoveFinalizer u userFinalizer) v, None)]) S'.
Proof.
  intros Hre Hu Hd Hf Hl Hh. destruct (readable S u Hre Hu) as (i & Hi & Hs).
  pose proof (infinite_is_fresh (rv <$> s_history S)) as Hv.
  eexists (base.fresh (rv <$> s_history S)), _, u, _, (Returned (Result_zero, None)). split_and!; [done..| |].
  - split.
    + apply Forall_app_2; [|repeat constructor; by eexists]. apply Forall_cons_2; [done|].
      apply Forall_app_2; [done|]. by repeat constructor.
    + unfold OperatorReconcile. rewrite <- app_comm_cons, <- app_assoc. apply Reconciled_runs.
      rewrite <- (app_nil_r (log_deletion :: _)). eapply Rec_user.
      * apply rec_deleted; [done|by apply ContainsFinalizer_spec|done].
      * simpl. by rewrite andb_false_r.
  - eapply chain_read; [done..|].
    eapply served_app; [apply chain_quiet_intro; by eapply deletion_no_write|].
    eapply (chain_update (see_version S i) u); [done|apply frame_rv_remove|done|].
    unfold deleting. by rewrite (f_equal (λ u, Meta_DeletionTimestamp (User_Meta u)) (RemoveFinalizer_frame u userFinalizer)
      : Meta_DeletionTimestamp (User_Meta (RemoveFinalizer u userFinalizer)) = _).
Qed.

End Convergence.
