(* ===== verification/ControllerProps.v ===== *)
(** * Properties of the reconciler

    For every database and creator that keep the promises of [DatabaseLaws] and
    [CreatorLaws], and every answer of the cluster and the servers. *)

From S2P Require Import Prelude GoStrings GoError Api Effects Utils Connection PgUtils.
From S2P Require Import PgConfig Postgresql Mysql Database Controller ControllerFacts.
From S2P Require Import ControllerRuns ControllerTraces World Samples.

Section Props.
Context {U : Controllerutil} {UL : ControllerutilLaws U}.
Context {D : Type} {DO : DatabaseOps D} {DL : DatabaseLaws D}.
Variable creator : DatabaseSpec → prog (D * option error).
Context {CL : CreatorLaws creator}.
Implicit Types (u : User) (t tl : list event).

(** C3: The finalizer of a user is removed only when the user was dropped in
    every one of its databases: the object updated without the finalizer is
    the one that was read, it is being deleted, and before the update there
    was, for each database reference in order, a complete successful run of
    the deletion with a [DROP USER] that the server confirmed. *)
Theorem finalizer_removed_after_drops nn t o u' x t1 t2 :
  runs (Reconcile creator nn) t o → t = t1 ++ ev (UpdateUser u') x :: t2 →
  userFinalizer ∉ Finalizers u' →
  ∃ u ts, deleting u ∧ u' = RemoveFinalizer u userFinalizer ∧
    t1 = ev (GetUser nn) (u, None) :: log_deletion :: concat ts ++ [log_deleted] ∧
    Forall2 (λ ref t0,
      runs (databaseReconciler creator u true ref) t0 (Returned None) ∧ dropped u t0)
      (User_Databases u) ts.
Proof.
  intros Ht E Hf. destruct (Reconcile_update _ _ _ _ _ _ _ _ Ht E) as [u [(tl & Hd & -> & -> & _ & Hl)|(_ & -> & _)]].
  - apply (loop_split _ (λ ref t0, runs (databaseReconciler creator u true ref) t0 (Returned None) ∧
      dropped u t0)) in Hl as (ts & -> & Hts); [eauto 8|].
    intros ref t0 H0. split; [done|by eapply databaseReconciler_dropped].
  - destruct Hf. apply AddFinalizer_spec. by left.
Qed.

(** C4: A user is reported ready only when it was applied in every one of its
    databases: before the status there was, for each database reference in
    order, a run that read the database and its privileges, a user creation
    that the server confirmed, and the grant of every referenced privilege. *)
Theorem ready_after_applied nn t o u' x t1 t2 :
  runs (Reconcile creator nn) t o → t = t1 ++ ev (UpdateUserStatus u') x :: t2 →
  User_Ready u' = true →
  ∃ u pre u1 ts, ¬ deleting u ∧ finalized u pre u1 ∧ u' = set_User_Status u1 status_ready ∧
    t1 = ev (GetUser nn) (u, None) :: (pre ++ concat ts ++ [log_success]) ++ [success u1] ∧
    Forall2 (applied u1) (User_Databases u1) ts.
Proof.
  intros Ht E Hready.
  destruct (Reconcile_status _ _ _ _ _ _ _ _ Ht E Hready) as (u & pre & u1 & tl & Hd & Hp & Hl & -> & ->).
  apply (loop_split _ (applied u1)) in Hl as (ts & -> & Hts); [|apply databaseReconciler_applied].
  exists u, pre, u1, ts. by split_and!.
Qed.

(** C12: The operator works at a database server only for a user that carries
    the finalizer in the cluster: either the object that was read has it, or
    it was added and the update succeeded before. *)
Theorem finalizer_before_work nn t o r x t1 t2 :
  runs (Reconcile creator nn) t o → t = t1 ++ ev r x :: t2 → sql_req r →
  ∃ u t1', t1 = ev (GetUser nn) (u, None) :: t1' ∧
    (userFinalizer ∈ Finalizers u ∨
     ∃ u1, ev (UpdateUser (AddFinalizer u userFinalizer)) (u1, None) ∈ t1').
Proof.
  intros Ht%Reconcile_Reconciled E Hr.
  destruct (Reconciled_work _ _ _ _ _ _ _ _ Ht E Hr) as (u & t1' & -> & [Hc|(pre & u1 & t3 & Hp & ->)]).
  - exists u, t1'. split; [done|]. left. by apply ContainsFinalizer_spec.
  - exists u, (pre ++ t3). split; [done|].
    destruct (finalized_has _ _ _ Hp) as [?|?]; [by left|right].
    exists u1. apply elem_of_app. by left.
Qed.

(** C18: How an attempt on a live user ends.  When the update that adds the
    finalizer is refused, or the work in a database returns an error after all
    databases before it were applied, this error becomes a warning event and a
    status that is not ready with its text.  Only when every database was applied
    is the success logged, and a normal event and a ready status follow unless the
    user is ready already.  In each case [Reconcile] returns the answer of the
    status update: the error itself is not returned. *)
Theorem live_user_outcome nn u t res err :
  ¬ deleting u →
  runs (Reconcile creator nn) (ev (GetUser nn) (u, None) :: t) (Returned (res, err)) →
  res = Result_zero ∧
  ((∃ u1 e u2, userFinalizer ∉ Finalizers u ∧
      t = [log_finalizer; ev (UpdateUser (AddFinalizer u userFinalizer)) (u1, Some e);
           warning u1 e; ev (UpdateUserStatus (set_User_Status u1 (status_failed e))) (u2, err)]) ∨
   (∃ pre u1 tl, finalized u pre u1 ∧
     ((∃ e u2, stopped_at creator (applied u1) false u1 (User_Databases u1) e tl ∧
         t = pre ++ tl ++ [warning u1 e;
           ev (UpdateUserStatus (set_User_Status u1 (status_failed e))) (u2, err)]) ∨
      (each_done (applied u1) (User_Databases u1) tl ∧
       ((∃ u2, User_Ready u1 = false ∧ t = pre ++ tl ++ [log_success; success u1;
           ev (UpdateUserStatus (set_User_Status u1 status_ready)) (u2, err)]) ∨
        (User_Ready u1 = true ∧ t = pre ++ tl ++ [log_success] ∧ err = None)))))).
Proof.
  intros Hd Ht. destruct (Reconcile_user _ _ _ _ _ Ht) as (t0 & o' & tail & -> & Hr & Hf).
  destruct Hr as [| | |u1 e _ Hc|pre u1 tl o _ Hp Hl Hne|pre u1 tl _ Hp Hl]; try done.
  - simpl in Hf. destruct Hf as (u2 & err2 & -> & [= -> ->]). split; [done|]. left. exists u1, e, u2.
    split; [|done]. by rewrite <- ContainsFinalizer_spec, Hc.
  - destruct o as [[e|]|m]; [|done|by destruct Hf]. simpl in Hf.
    destruct Hf as (u2 & err2 & -> & [= -> ->]). split; [done|]. right. exists pre, u1, tl. split; [done|].
    left. exists e, u2. split; [|by rewrite <- app_assoc].
    apply (loop_stopped creator (applied u1) false u1); [apply databaseReconciler_applied|done].
  - apply (loop_each creator (applied u1) false u1) in Hl; [|apply databaseReconciler_applied].
    simpl in Hf. destruct (User_Ready u1) eqn:Er; simpl in Hf.
    + destruct Hf as [-> [= -> ->]]. split; [done|]. right. exists pre, u1, tl. split; [done|]. right.
      split; [done|]. right. by rewrite app_nil_r.
    + destruct Hf as (u2 & err2 & -> & [= -> ->]). split; [done|]. right. exists pre, u1, tl.
      split; [done|]. right. split; [done|]. left. exists u2. split; [done|]. by rewrite <- !app_assoc.
Qed.

(** What a complete deletion in the database of a reference is. *)
Definition removed u ref t0 : Prop :=
  runs (databaseReconciler creator u true ref) t0 (Returned None) ∧ dropped u t0.

(** C19: How an attempt on a user that is being deleted and carries the finalizer
    ends.  When the work in a database returns an error, after the user was
    dropped in all databases before it, this error is reported as an event and
    returned, so that the request is retried, and no request is made on the user
    object, which keeps the finalizer.  Only when the user was dropped in every
    database is the finalizer removed, and an error of that update is reported
    and returned. *)
Theorem deleted_user_outcome nn u t res err :
  deleting u → userFinalizer ∈ Finalizers u →
  runs (Reconcile creator nn) (ev (GetUser nn) (u, None) :: t) (Returned (res, err)) →
  res = Result_zero ∧ ∃ tl,
    ((∃ e, stopped_at creator (removed u) true u (User_Databases u) e tl ∧
        err = Some e ∧ t = log_deletion :: tl ++ [warning u e]) ∨
     (∃ u1, each_done (removed u) (User_Databases u) tl ∧
        t = log_deletion :: tl ++ [log_deleted;
          ev (UpdateUser (RemoveFinalizer u userFinalizer)) (u1, err)] ++
          match err with None => [] | Some e => [warning u1 e] end)).
Proof.
  intros Hd Hc%ContainsFinalizer_spec Ht.
  assert (∀ ref t0, runs (databaseReconciler creator u true ref) t0 (Returned None) → removed u ref t0) as HR.
  { intros ref t0 H0. split; [done|by eapply databaseReconciler_dropped]. }
  destruct (Reconcile_user _ _ _ _ _ Ht) as (t0 & o' & tail & -> & Hr & Hf).
  destruct Hr as [_ Hc'|tl o _ _ Hl Hne|tl u1 err1 _ _ Hl|u1 e Hd'|pre u1 tl o Hd'|pre u1 tl Hd'];
    try done; [by rewrite Hc in Hc'|..].
  - destruct o as [[e|]|m]; simpl in Hf; [|done|by destruct Hf].
    destruct Hf as [-> [= -> ->]]. split; [done|]. exists tl. left. exists e.
    split; [by apply (loop_stopped creator (removed u) true u)|done].
  - apply (loop_each creator (removed u) true u) in Hl; [|done].
    destruct err1 as [e|]; simpl in Hf; rewrite ?andb_false_r in Hf;
      destruct Hf as [-> [= -> ->]]; (split; [done|]); exists tl; right; exists u1;
      (split; [done|]); simpl; by rewrite <- app_assoc.
Qed.

(** A user that is being deleted and does not carry the finalizer is left
    alone: nothing but a log line, and success. *)
Theorem released_user_ignored nn u t o :
  deleting u → userFinalizer ∉ Finalizers u →
  runs (Reconcile creator nn) (ev (GetUser nn) (u, None) :: t) o →
  t = [log_deletion] ∧ o = Returned (Result_zero, None).
Proof.
  intros Hd Hc Ht. rewrite <- ContainsFinalizer_spec, not_true_iff_false in Hc.
  destruct (Reconcile_user _ _ _ _ _ Ht) as (t0 & o' & tail & -> & Hr & Hf).
  destruct Hr as [_ _|tl o' _ Hc'|tl u1 err1 _ Hc'|u1 e Hd'|pre u1 tl o' Hd'|pre u1 tl Hd'];
    try done; try (by rewrite Hc in Hc').
  simpl in Hf. rewrite andb_false_r in Hf. by destruct Hf as [-> ->].
Qed.

(** A user that cannot be read: when it does not exist any more the
    operator does nothing and succeeds, otherwise it logs the error and
    returns it. *)
Theorem unreadable_user nn u e t o :
  runs (Reconcile creator nn) (ev (GetUser nn) (u, Some e) :: t) o →
  Forall (λ e, match projT1 e with LoggerInfo _ | LoggerError _ _ => True | _ => False end) t ∧
  o = Returned (Result_zero, if apierrors_IsNotFound e then None else Some e).
Proof.
  intros Ht%Reconcile_no_user. destruct (apierrors_IsNotFound e);
    destruct Ht as [-> ->]; by repeat constructor.
Qed.

(** C40: In the steady state nothing is written to the user: when it is live,
    ready and carries the finalizer, an attempt without a warning event
    applies every database again and makes no request on the user object. *)
Theorem steady_state nn u t res err :
  ¬ deleting u → userFinalizer ∈ Finalizers u → User_Ready u = true →
  runs (Reconcile creator nn) (ev (GetUser nn) (u, None) :: t) (Returned (res, err)) →
  Forall (λ e, ¬ is_warning e) t →
  err = None ∧ Forall (λ e, ¬ user_req (projT1 e)) t ∧
  ∃ ts, t = concat ts ++ [log_success] ∧ Forall2 (applied u) (User_Databases u) ts.
Proof.
  intros Hd Hc%ContainsFinalizer_spec Hready Ht Hw.
  destruct (Reconcile_user _ _ _ _ _ Ht) as (t0 & o' & tail & -> & Hr & Hf).
  destruct o' as [[u1 [del [e|]]]|m]; [| |by destruct Hf].
  { exfalso. rewrite Forall_app in Hw. destruct Hw as [_ Hw].
    destruct del; simpl in Hf; split_hyps; simplify_eq; by apply Forall_cons in Hw as [[] _]. }
  assert (del = false) as -> by (by eapply reconciled_live).
  apply reconciled_applied in Hr as (pre & tl & _ & Hp & -> & Hl); [|done].
  destruct Hp as [(_ & -> & ->)|(Hc' & _)]; [|by rewrite Hc in Hc'].
  simpl in Hf. rewrite Hready in Hf. destruct Hf as [-> [= -> ->]]. rewrite app_nil_r. simpl.
  split; [done|]. split.
  - apply Forall_app_2; [by eapply loop_not_user|]. repeat constructor. by intros [].
  - apply (loop_split _ (applied u)) in Hl as (ts & -> & Hts);
      [eauto|apply databaseReconciler_applied].
Qed.

(** C22: Handles.  However a reconciliation ends, with success, an error or a panic,
    every database handle that [Connect] keeps is closed again, in the opposite
    order; there is one closing for each attempt to connect that succeeded and
    none for one that failed, so that what the driver opened for it stays
    open. *)
Theorem Reconcile_closes_handles nn t o :
  runs (Reconcile creator nn) t o →
  bracketed (handles t) ∧
  length (connect_answers t) = closings t + length (filter is_Some (connect_answers t)).
Proof.
  intros Ht. assert (bracketed (handles t)) as Hb; [|split; [done|by apply bracketed_connects]].
  apply Reconcile_Reconciled in Ht. destruct Ht as [u e He|u e He|u t o' tail o Hr Hf]; [constructor..|].
  rewrite app_comm_cons, handles_app, (finished_handles _ _ _ Hf), app_nil_r.
  change (bracketed (handles t)).
  by eapply (reconciled_handles creator).
Qed.
End Props.

(** ** The hypotheses hold of concrete runs of the operator *)

(** A run of the operator in the world [w], the whole of it or after its first
    event. *)
Ltac run_in w := apply (exec_runs (OperatorReconcile john) w); vm_compute; reflexivity.
Ltac run_after_head w :=
  apply (exec_runs_head (OperatorReconcile john) w); vm_compute; reflexivity.
Ltac at_place l n := apply (place l n); vm_compute; reflexivity.

Definition run_new : list event := trace (OperatorReconcile john) (world_of new_user).
Definition run_deleted : list event := trace (OperatorReconcile john) (world_of deleted_user).
Definition done_ok : outcome (Result * option error) := Returned (Result_zero, None).

Definition deleted_user' : User := RemoveFinalizer deleted_user userFinalizer.
Definition new_user' : User := AddFinalizer new_user userFinalizer.

Lemma finalizer_removed_after_drops_witness :
  ∃ u ts, deleting u ∧ deleted_user' = RemoveFinalizer u userFinalizer ∧
    take 66 run_deleted =
      ev (GetUser john) (u, None) :: log_deletion :: concat ts ++ [log_deleted] ∧
    Forall2 (λ ref t0,
      runs (databaseReconciler NewDatabase u true ref) t0 (Returned None) ∧ dropped u t0)
      (User_Databases u) ts.
Proof.
  apply (finalizer_removed_after_drops NewDatabase john run_deleted done_ok deleted_user'
    (deleted_user', None) (take 66 run_deleted) (drop 67 run_deleted)).
  - run_in (world_of deleted_user).
  - at_place run_deleted 66.
  - by apply (bool_decide_unpack _).
Defined.

Lemma ready_after_applied_witness :
  ∃ u pre u1 ts, ¬ deleting u ∧ finalized u pre u1 ∧
    set_User_Status new_user' status_ready = set_User_Status u1 status_ready ∧
    take 78 run_new =
      ev (GetUser john) (u, None) :: (pre ++ concat ts ++ [log_success]) ++ [success u1] ∧
    Forall2 (applied u1) (User_Databases u1) ts.
Proof.
  apply (ready_after_applied NewDatabase john run_new done_ok
    (set_User_Status new_user' status_ready) (set_User_Status new_user' status_ready, None)
    (take 78 run_new) (drop 79 run_new)).
  - run_in (world_of new_user).
  - at_place run_new 78.
  - reflexivity.
Defined.

Definition create_john_req : req := SqlExec 0 (createUserQuery "john" "mysupersecretpass").1 [].

Lemma finalizer_before_work_witness :
  ∃ u t1', take 21 run_new = ev (GetUser john) (u, None) :: t1' ∧
    (userFinalizer ∈ Finalizers u ∨
     ∃ u1, ev (UpdateUser (AddFinalizer u userFinalizer)) (u1, None) ∈ t1').
Proof.
  apply (finalizer_before_work NewDatabase john run_new done_ok create_john_req None
    (take 21 run_new) (drop 22 run_new)).
  - run_in (world_of new_user).
  - at_place run_new 21.
  - exact I.
Defined.

(** A user whose first database refuses the creation. *)
Definition run_refused : list event :=
  trace (OperatorReconcile john) (world_refusing "CREATE USER" new_user).

Lemma live_user_outcome_witness :
  let t := tail run_refused in
  Result_zero = Result_zero ∧
  ((∃ u1 e u2, userFinalizer ∉ Finalizers new_user ∧
      t = [log_finalizer; ev (UpdateUser (AddFinalizer new_user userFinalizer)) (u1, Some e);
           warning u1 e; ev (UpdateUserStatus (set_User_Status u1 (status_failed e))) (u2, None)]) ∨
   (∃ pre u1 tl, finalized new_user pre u1 ∧
     ((∃ e u2, stopped_at NewDatabase (applied u1) false u1 (User_Databases u1) e tl ∧
         t = pre ++ tl ++ [warning u1 e;
           ev (UpdateUserStatus (set_User_Status u1 (status_failed e))) (u2, None)]) ∨
      (each_done (applied u1) (User_Databases u1) tl ∧
       ((∃ u2, User_Ready u1 = false ∧ t = pre ++ tl ++ [log_success; success u1;
           ev (UpdateUserStatus (set_User_Status u1 status_ready)) (u2, None)]) ∨
        (User_Ready u1 = true ∧ t = pre ++ tl ++ [log_success] ∧ @None error = None)))))).
Proof.
  apply (live_user_outcome NewDatabase john new_user).
  - by intros [? [=]].
  - run_after_head (world_refusing "CREATE USER" new_user).
Defined.

Definition run_delete_refused : list event :=
  trace (OperatorReconcile john) (world_refusing "DROP USER" deleted_user).

Lemma deleted_user_outcome_witness :
  Result_zero = Result_zero ∧ ∃ tl,
    ((∃ e, stopped_at NewDatabase (removed NewDatabase deleted_user) true deleted_user
          (User_Databases deleted_user) e tl ∧
        Some refused = Some e ∧ tail run_delete_refused = log_deletion :: tl ++ [warning deleted_user e]) ∨
     (∃ u1, each_done (removed NewDatabase deleted_user) (User_Databases deleted_user) tl ∧
        tail run_delete_refused = log_deletion :: tl ++ [log_deleted;
          ev (UpdateUser (RemoveFinalizer deleted_user userFinalizer)) (u1, Some refused)] ++
          [warning u1 refused])).
Proof.
  apply (deleted_user_outcome NewDatabase john deleted_user).
  - by eexists.
  - by apply (bool_decide_unpack _).
  - run_after_head (world_refusing "DROP USER" deleted_user).
Defined.

Lemma released_user_ignored_witness :
  tail (trace (OperatorReconcile john) (world_of forgotten_user)) = [log_deletion] ∧
  done_ok = Returned (Result_zero, None).
Proof.
  apply (released_user_ignored NewDatabase john forgotten_user).
  - by eexists.
  - by apply (bool_decide_unpack _).
  - run_after_head (world_of forgotten_user).
Defined.

Lemma unreadable_user_witness :
  Forall (λ e, match projT1 e with LoggerInfo _ | LoggerError _ _ => True | _ => False end)
    (tail (trace (OperatorReconcile john) world0)) ∧
  done_ok = Returned (Result_zero, None).
Proof. apply (unreadable_user NewDatabase john user0 not_found). run_after_head world0. Defined.

Definition run_steady : list event := tail (trace (OperatorReconcile john) (world_of ready_user)).

Lemma steady_state_witness :
  @None error = None ∧ Forall (λ e, ¬ user_req (projT1 e)) run_steady ∧
  ∃ ts, run_steady = concat ts ++ [log_success] ∧
    Forall2 (applied ready_user) (User_Databases ready_user) ts.
Proof.
  apply (steady_state NewDatabase john ready_user run_steady Result_zero None).
  - by intros [? [=]].
  - by apply (bool_decide_unpack _).
  - reflexivity.
  - run_after_head (world_of ready_user).
  - apply (bool_decide_unpack _). by vm_compute.
Defined.

Lemma Reconcile_closes_handles_witness :
  bracketed (handles run_new) ∧
  length (connect_answers run_new) = closings run_new + length (filter is_Some (connect_answers run_new)).
Proof. apply (Reconcile_closes_handles NewDatabase john run_new done_ok). run_in (world_of new_user). Defined.
