(* ===== verification/UserProps.v ===== *)
(** * Properties of the work in one database

    Creation, deletion and secrets of one user in one database
    (createUserInDatabase, databaseUserApply and databaseUserDelete of
    controllers/user_controller.go). *)

From S2P Require Import Prelude GoStrings GoError Api Effects Utils Connection PgUtils.
From S2P Require Import PgConfig Postgresql Mysql Database Controller ControllerFacts.
From S2P Require Import ControllerRuns ControllerTraces World Samples.

Definition is_create_secret (e : event) : Prop :=
  match projT1 e with CreateSecret _ => True | _ => False end.

(** A [CreateSecret] and its answer. *)
Definition created_of (e : event) : option (K8sSecret * option error) :=
  match e with
  | existT r x =>
      match r return resp r → option (K8sSecret * option error) with
      | CreateSecret s => λ x, Some (s, x)
      | _ => λ _, None
      end x
  end.

Section Props.
Context {U : Controllerutil}.
Context {D : Type} {DO : DatabaseOps D} {DL : DatabaseLaws D}.
Implicit Types (u : User) (db : D) (ref : DatabaseRef) (t : list event).

Lemma userPassword_no_create s t o :
  runs (userPassword s) t o → Forall (λ e, ¬ is_create_secret e) t.
Proof.
  intros Ht. assert (only (λ r, match r with CreateSecret _ => False | _ => True end) (userPassword s)) as Ho.
  { unfold userPassword, DecodeSecretData, utils_Secret. repeat (solve_only; try case_match). }
  eapply Forall_impl; [by eapply only_runs|]. intros [[] x]; unfold is_create_secret; simpl; tauto.
Qed.

Lemma db_CreateUser_no_create db n pw t o :
  runs (db_CreateUser db n pw) t o → Forall (λ e, ¬ is_create_secret e) t.
Proof.
  intros Ht. eapply Forall_impl; [eapply only_runs; [apply db_CreateUser_only|exact Ht]|].
  intros [[] x]; unfold is_create_secret, db_req, pg_req; simpl; tauto.
Qed.

(** C29: The secret of a user: it is created at the end of a creation whose
    result is the answer of that request, under the name of the reference,
    owned by the user, from the data that the database returned for the
    confirmed user, and only after reading a secret of that name failed. *)
Theorem created_secret_content db u ref t o s x t1 t2 :
  runs (createUserInDatabase db u ref) t o → t = t1 ++ ev (CreateSecret s) x :: t2 →
  t2 = [] ∧ o = Returned x ∧
  ∃ pw m tp tc s0 e0, let nn := NamespacedName_ToNamespacedName (DatabaseRef_CreatedSecret ref) in
    t1 = tp ++ tc ++ [ev (GetSecret nn) (s0, Some e0);
                      ev (SetControllerReference u (newSecret nn m)) (s, None)] ∧
    runs (userPassword (DatabaseRef_PasswordSecret ref)) tp (Returned (pw, None)) ∧
    runs (db_CreateUser db (User_Name u) pw) tc (Returned (m, None)) ∧ m ≠ ∅.
Proof.
  intros Ht E.
  assert (∀ l, Forall (λ e, ¬ is_create_secret e) l → l = t1 ++ ev (CreateSecret s) x :: t2 → False)
    as Hno.
  { intros l Hl ->. rewrite Forall_app, Forall_cons in Hl. by destruct Hl as (_ & [] & _). }
  apply createUserInDatabase_inv in Ht as [(e & _ & H1)|(pw & tp & t3 & -> & H1 & Ht)];
    apply userPassword_no_create in H1 as N1; [by apply Hno in E|].
  destruct Ht as [(m & _ & H2)|(m & err & tc & t4 & -> & H2 & Ht)];
    apply db_CreateUser_no_create in H2 as N2; [by apply Hno in E; [|apply Forall_app_2]|].
  destruct Ht as [(_ & -> & _)|(-> & Hm & Ht)].
  { rewrite app_nil_r in E. by apply Hno in E; [|apply Forall_app_2]. }
  destruct Ht as ([s0 [e0|]] & t5 & -> & Ht); cbn [bind call] in Ht.
  2: { destruct Ht as [-> _]. exfalso. eapply Hno; [|exact E].
       repeat apply Forall_app_2; try done. repeat constructor. by intros []. }
  destruct Ht as ([s1 [e1|]] & t6 & -> & Ht).
  { destruct Ht as [-> _]. exfalso. eapply Hno; [|exact E].
    repeat apply Forall_app_2; try done. repeat constructor; by intros []. }
  destruct Ht as (x1 & t7 & -> & -> & ->). cbn [app] in E.
  change (?a :: ?b :: [?c]) with ([a; b] ++ [c]) in E. rewrite !(app_assoc _ _ [_]) in E.
  apply (split_unique is_create_secret _ []) in E as (-> & E & <-);
    [|repeat apply Forall_app_2; try done; repeat constructor; by intros []|constructor|exact I].
  apply (f_equal created_of) in E. injection E as -> ->.
  split_and!; [done..|]. exists pw, m, tp, tc, s0, e0. by split_and!.
Qed.

(** C33: Whatever a deletion meets, an error or a panic included, its last
    request deletes the secret of the reference; when it succeeds, its last
    statement is the [DROP USER] that the server confirmed. *)
Theorem deletion_deletes_secret db u ref l t o :
  runs (databaseUserDelete db u ref l) t o →
  ∃ t1 x, t = t1 ++ [ev (DeleteSecret (delete_secret ref)) x] ∧
    (o = Returned None → ∃ s, last (statements t1) = Some s ∧ drops_user (User_Name u) s).
Proof.
  intros Ht. destruct (databaseUserDelete_inv _ _ _ _ _ _ Ht) as (t1 & x & -> & _).
  exists t1, x. split; [done|]. intros ->.
  apply databaseUserDelete_ok in Ht. by rewrite statements_app, app_nil_r in Ht.
Qed.

(** The password of a user is never written to the log: a creation that
    logs anything is the creation of a user without a password. *)
Theorem user_password_not_logged db u ref t o :
  runs (createUserInDatabase db u ref) t o → logged t ≠ [] →
  ∃ t1 t2, t = t1 ++ t2 ∧
    runs (userPassword (DatabaseRef_PasswordSecret ref)) t1 (Returned ("", None)).
Proof.
  intros [(e & _ & H1)|(pw & t1 & t2 & -> & H1 & Ht)]%createUserInDatabase_inv Hl;
    destruct (quiet_obs _ _ _ (userPassword_quiet _) H1) as (_ & _ & L1); [done|].
  exists t1, t2. split; [done|]. destruct (decide (pw = "")) as [->|Hpw]; [done|].
  destruct Hl. rewrite logged_app, L1.
  destruct Ht as [(m & _ & H2)|(m & err & t3 & t4 & -> & H2 & Ht)];
    apply db_CreateUser_quiet in H2 as L2; try done.
  rewrite logged_app, L2. destruct Ht as [(_ & -> & _)|(_ & _ & Ht)]; [done|].
  by destruct (quiet_obs _ _ _ (secret_part_quiet _ _ _) Ht) as (_ & _ & ->).
Qed.

(** Privileges are granted only to a user whose creation was confirmed:
    when an attempt sends more than one statement, the first one created the
    user, and after an error of the first one there is no other. *)
Theorem grants_after_creation db u ref l t err s gs :
  runs (databaseUserApply db u ref l) t (Returned err) → statements t = s :: gs → gs ≠ [] →
  (∃ pw, creates_user (User_Name u) pw s) ∧
  (err = None → Forall2 (grants_privilege (User_Name u)) l gs).
Proof.
  intros Ht Es Hgs. split.
  - unfold databaseUserApply in Ht.
    apply runs_bind_inv in Ht as [(m & _ & [=])|([e|] & t1 & t2 & -> & H1 & Ht)].
    + destruct Ht as [-> _]. rewrite app_nil_r in Es.
      apply createUserInDatabase_length in H1. rewrite Es in H1. simpl in H1.
      destruct gs; [done|simpl in H1; lia].
    + apply createUserInDatabase_ok in H1 as (pw & s' & _ & _ & _ & _ & S1 & Hs).
      rewrite statements_app, S1 in Es. injection Es as -> _. eauto.
  - intros ->. apply databaseUserApply_ok in Ht as (pw & s' & gs' & Es' & _ & Hg).
    rewrite Es in Es'. by injection Es' as _ <-.
Qed.
End Props.

(** *** The two databases *)

Section Backends.
Context {U : Controllerutil}.
Context {C : Type} {CO : Connection C} {CL : ConnectionLaws C}.
Implicit Types (u : User) (ref : DatabaseRef) (t : list event).

(** With PostgreSQL a creation is repeatable, and a repeated one makes no
    secret: when the server answers that the role exists already, the creation
    succeeds and no secret is created, also when the secret of the user is
    missing. *)
Theorem existing_role_no_secret (p : Postgresql C) u ref t err q e :
  runs (createUserInDatabase p u ref) t (Returned err) →
  statements t = [(q, [], Some e)] → ProcessToPostgressError (Some e) = "42710" →
  err = None ∧ Forall (λ e, ¬ is_create_secret e) t.
Proof.
  intros [(e' & _ & H1)|(pw & t1 & t2 & -> & H1 & Ht)]%createUserInDatabase_inv Es Ee;
    destruct (quiet_obs _ _ _ (userPassword_quiet _) H1) as (S1 & _).
  { by rewrite S1 in Es. }
  destruct Ht as [(m & [=] & _)|(m & err' & t3 & t4 & -> & H2 & Ht)].
  apply userPassword_no_create in H1 as N1. apply db_CreateUser_no_create in H2 as N2.
  apply Postgresql_CreateUser_runs in H2 as (r & S3 & Hr).
  rewrite !statements_app, S1, S3 in Es. injection Es as _ -> _.
  assert (isAlreadyExists (Some e) = true) as Hx by (by apply bool_decide_eq_true).
  rewrite Hx, andb_false_r in Hr. destruct Hr as [-> ->].
  assert (ignoreAlreadyExists (Some e) = None) as Hi by (apply ignoreAlreadyExists_None; auto).
  rewrite Hi in Ht. destruct Ht as [(_ & -> & [= ->])|(_ & [] & _)]; [|done].
  split; [done|]. rewrite app_nil_r. by apply Forall_app_2.
Qed.

(** With MySQL a creation is not repeatable: when the server answers the
    [CREATE USER] with any error, one that says that the user exists included,
    the attempt sends nothing else and ends with that error. *)
Theorem mysql_creation_error_stops (m : Mysql C) u ref l t err q args e ss :
  runs (databaseUserApply m u ref l) t (Returned err) →
  statements t = (q, args, Some e) :: ss → ss = [] ∧ err = Some e.
Proof.
  unfold databaseUserApply. intros Ht Es.
  apply runs_bind_inv in Ht as [(m' & _ & [=])|(err1 & t1 & t2 & -> & H1 & Ht)].
  apply createUserInDatabase_inv in H1 as [(e' & [= ->] & H1)|(pw & t3 & t4 & -> & H1 & Hc)];
    destruct (quiet_obs _ _ _ (userPassword_quiet _) H1) as (S1 & _).
  { destruct Ht as [-> _]. by rewrite app_nil_r, S1 in Es. }
  destruct Hc as [(m' & [=] & _)|(m' & err' & t5 & t6 & -> & H2 & Hc)].
  apply Mysql_CreateUser_runs in H2 as [S5 ->].
  rewrite !statements_app, S1, S5 in Es. simpl in Es. injection Es as _ _ -> Es.
  destruct Hc as [(_ & -> & [= ->])|([=] & _)].
  destruct Ht as [-> [= ->]]. done.
Qed.
End Backends.

(** ** The hypotheses hold of concrete runs *)

Ltac run_of p w := apply (exec_runs p w); vm_compute; reflexivity.

Definition create_john : prog (option error) := createUserInDatabase pg_ssl new_user (ref "pg").
Definition run_create : list event := trace create_john (world_with reply_ok).

Definition john_secret : K8sSecret :=
  mkK8sSecret "created-secret" namespace ["john"] ∅ john_ssl_data.

Lemma created_secret_content_witness :
  drop 14 run_create = [] ∧ Returned (@None error) = Returned None ∧
  ∃ pw m tp tc s0 e0,
    let nn := NamespacedName_ToNamespacedName (DatabaseRef_CreatedSecret (ref "pg")) in
    take 13 run_create = tp ++ tc ++ [ev (GetSecret nn) (s0, Some e0);
      ev (SetControllerReference new_user (newSecret nn m)) (john_secret, None)] ∧
    runs (userPassword (DatabaseRef_PasswordSecret (ref "pg"))) tp (Returned (pw, None)) ∧
    runs (db_CreateUser pg_ssl (User_Name new_user) pw) tc (Returned (m, None)) ∧ m ≠ ∅.
Proof.
  apply (created_secret_content pg_ssl new_user (ref "pg") run_create (Returned None) john_secret
    None (take 13 run_create) (drop 14 run_create)).
  - run_of create_john (world_with reply_ok).
  - apply (place run_create 13). vm_compute. reflexivity.
Defined.

Definition delete_john : prog (option error) :=
  databaseUserDelete pg_plain new_user (ref "pg") sample_privileges.
Definition world_no_drop : World := world_with (reply_refuse "DROP USER" refused).

Lemma deletion_deletes_secret_witness :
  ∃ t1 x, trace delete_john world_no_drop = t1 ++ [ev (DeleteSecret (delete_secret (ref "pg"))) x] ∧
    (Returned (Some refused) = Returned None →
     ∃ s, last (statements t1) = Some s ∧ drops_user (User_Name new_user) s).
Proof.
  apply (deletion_deletes_secret pg_plain new_user (ref "pg") sample_privileges).
  run_of delete_john world_no_drop.
Defined.

(** A reference without a password secret. *)
Definition ref_no_password : DatabaseRef :=
  mkDatabaseRef "pg" (mkSecret (mkNamespacedName "" "") "") (mkNamespacedName "" "") [].
Definition create_no_password : prog (option error) :=
  createUserInDatabase pg_plain new_user ref_no_password.

Lemma user_password_not_logged_witness :
  ∃ t1 t2, trace create_no_password (world_with reply_ok) = t1 ++ t2 ∧
    runs (userPassword (DatabaseRef_PasswordSecret ref_no_password)) t1 (Returned ("", None)).
Proof.
  apply (user_password_not_logged pg_plain new_user ref_no_password _ (Returned None)).
  - run_of create_no_password (world_with reply_ok).
  - vm_compute. discriminate.
Defined.

Definition apply_john : prog (option error) :=
  databaseUserApply pg_plain new_user (ref "pg") sample_privileges.
Definition run_apply : list event := trace apply_john (world_with reply_ok).

Lemma grants_after_creation_witness :
  (∃ pw, creates_user (User_Name new_user) pw
     ((createUserQuery "john" "mysupersecretpass").1, [], None)) ∧
  (@None error = None →
   Forall2 (grants_privilege (User_Name new_user)) sample_privileges (tail (statements run_apply))).
Proof.
  apply (grants_after_creation pg_plain new_user (ref "pg") sample_privileges run_apply None).
  - run_of apply_john (world_with reply_ok).
  - vm_compute. reflexivity.
  - vm_compute. discriminate.
Defined.

Definition world_existing : World := world_with (reply_refuse "CREATE USER" duplicate).
Definition run_existing : list event := trace create_john world_existing.

Lemma existing_role_no_secret_witness :
  @None error = None ∧ Forall (λ e, ¬ is_create_secret e) run_existing.
Proof.
  apply (existing_role_no_secret pg_ssl new_user (ref "pg") run_existing None
    (createUserQuery "john" "mysupersecretpass").1 duplicate).
  - run_of create_john world_existing.
  - vm_compute. reflexivity.
  - reflexivity.
Defined.

Definition my_exists : error := ErrorString "Error 1396 (HY000): Operation CREATE USER failed".
Definition apply_my : prog (option error) :=
  databaseUserApply my_plain new_user (ref "my") sample_privileges.
Definition world_my : World := world_with (reply_refuse "CREATE USER" my_exists).

Lemma mysql_creation_error_stops_witness : @nil stmt = [] ∧ Some my_exists = Some my_exists.
Proof.
  apply (mysql_creation_error_stops my_plain new_user (ref "my") sample_privileges
    (trace apply_my world_my) (Some my_exists) "CREATE USER ?@? IDENTIFIED BY ?"
    ["john"; "*"; "mysupersecretpass"]).
  - run_of apply_my world_my.
  - vm_compute. reflexivity.
Defined.
