(* ===== verification/BackendProps.v ===== *)
(** * Properties of the two database objects

    pkg/database/postgresql and pkg/database/mysql over any connection. *)

From S2P Require Import Prelude GoStrings SqlLexer GoError Api Effects Connection PgUtils.
From S2P Require Import Base64 Pem Certificates PgConfig Postgresql Mysql Database World Samples.

Section Postgres.
Context {C : Type} {CO : Connection C} {CL : ConnectionLaws C}.
Implicit Types (p : Postgresql C) (t : list event).

(** C36: All the results of PostgreSQL's [CreateUser].  It sends one statement.
    Without client certificates, or when the role exists already, the answer
    decides and there is no data.  With certificates they are made whatever
    the answer was: when that fails its error is returned, and otherwise the
    answer comes with the data of the three files, the configured CA among
    them. *)
Theorem create_user_results p u pw t m err :
  runs (Postgresql_CreateUser p u pw) t (Returned (m, err)) →
  ∃ r, statements t = [((createUserQuery u pw).1, [], r)] ∧
    (CreateCerts (pg_config p) = false ∨ isAlreadyExists r = true →
       m = ∅ ∧ err = ignoreAlreadyExists r) ∧
    (CreateCerts (pg_config p) = true → isAlreadyExists r = false →
       (m = ∅ ∧ err ≠ None) ∨
       (err = r ∧ dom m = {["tls.crt"; "tls.key"; "ca.crt"]} ∧
        m !! "ca.crt" = Some (cfg_SSLCACert (pg_config p)))).
Proof.
  intros (r & Hs & Hr)%Postgresql_CreateUser_runs. exists r. split; [done|]. split.
  - intros [Hc|Hc]; rewrite Hc in Hr; simpl in Hr; rewrite ?andb_false_r in Hr; exact Hr.
  - intros Hc Ha. rewrite Hc, Ha in Hr. simpl in Hr. unfold ignoreAlreadyExists in Hr.
    rewrite Ha in Hr. destruct Hr as [[? ?]|?]; auto.
Qed.

(** C38: Closing a PostgreSQL object undoes [Connect], also one that failed: every
    certificate file that was written, or begun to be written, is removed, the
    three files are different files, and the connection that was opened is the
    one that is closed. *)
Theorem connect_close_cleanup p t1 p' err t2 o :
  runs (Postgresql_Connect p) t1 (Returned (p', err)) → runs (Postgresql_Close p') t2 o →
  (∀ w, w ∈ written t1 → w.1.1 ∈ removed t2) ∧ NoDup (removed t2) ∧
  (err = None → handles (t1 ++ t2) = open_handle (pg_db p') ++ close_handle (pg_db p')) ∧
  statements (t1 ++ t2) = [].
Proof.
  intros H1 H2. pose proof (Postgresql_Connect_runs _ _ _ _ H1) as (S1 & L1 & _ & W1).
  destruct (Postgresql_Close_runs _ _ _ H2) as (S2 & L2 & _ & R2). split_and!.
  - intros w Hw. rewrite Forall_forall in W1. specialize (W1 w Hw). rewrite R2.
    revert W1. rewrite !elem_of_cons. tauto.
  - rewrite R2. apply Postgresql_Connect_distinct in H1.
    eapply NoDup_Permutation_proper; [|exact H1]. apply (Permutation_rev [_; _; _]).
  - intros ->. by rewrite handles_app, L1, L2, bool_decide_eq_true_2.
  - by rewrite statements_app, S1, S2.
Qed.

(** C35: [ApplyPrivileges] grants in order: on success it sent exactly one
    statement for each privilege, all confirmed, no privilege was empty, and
    every file it wrote for a connection was removed; on an error it stopped at
    the first privilege that failed, after confirming the ones before, and sent
    at most the one that failed; the connections it made are closed. *)
Theorem apply_privileges_statements p u l t err :
  runs (Postgresql_ApplyPrivileges p u l) t (Returned err) →
  let grants := fmap (λ pr, (privilege_query "GRANT" "TO" u pr, [], None) : stmt) in
  bracketed (handles t) ∧
  match err with
  | None => Forall (λ pr, Privilege pr ≠ "") l ∧ statements t = grants l ∧
            (∀ w, w ∈ written t → w.1.1 ∈ removed t)
  | Some e => ∃ l1 pr l2, l = l1 ++ pr :: l2 ∧
      (statements t = grants l1 ∨
       statements t = grants l1 ++ [(privilege_query "GRANT" "TO" u pr, [], Some e)])
  end.
Proof.
  intros Ht grants. split; [by eapply privilegesProcessor_bracketed|]. destruct err as [e|].
  - by apply privilegesProcessor_error in Ht.
  - by apply privilegesProcessor_ok in Ht.
Qed.

(** C34: What a successful [RevokePrivileges] means: either every privilege was
    revoked, or the server (or the connection to a privilege's database)
    answered "undefined object" for one of them, and then the privileges after
    that one were not revoked. *)
Theorem revoke_privileges_statements p u l t :
  runs (Postgresql_RevokePrivileges p u l) t (Returned None) →
  let revokes := fmap (λ pr, (privilege_query "REVOKE" "FROM" u pr, [], None) : stmt) in
  statements t = revokes l ∨
  ∃ l1 pr l2 e, l = l1 ++ pr :: l2 ∧ isNotExists (Some e) = true ∧
    (statements t = revokes l1 ∨
     statements t = revokes l1 ++ [(privilege_query "REVOKE" "FROM" u pr, [], Some e)]).
Proof.
  intros Ht revokes. unfold Postgresql_RevokePrivileges in Ht.
  apply runs_bind_inv in Ht as [(m & _ & [=])|(err & t1 & t2 & -> & H1 & [-> [= He]])].
  rewrite app_nil_r. destruct err as [e|]; [right|left].
  - apply privilegesProcessor_error in H1 as (l1 & pr & l2 & -> & Hs).
    exists l1, pr, l2, e. split_and!; try done.
    unfold ignoreNotExists in He. by destruct (isNotExists (Some e)).
  - by apply privilegesProcessor_ok in H1 as (_ & -> & _).
Qed.

(** A privilege on an object without a database loses the object, for both
    kinds of server: the statement is the one of the bare privilege. *)
Theorem object_without_database_ignored p (m : Mysql C) u st a pv on :
  privilege_step p u st a (mkPrivilegeSpec pv on "") ≈
    privilege_step p u st a (mkPrivilegeSpec pv "" "") ∧
  Mysql_privilege_step m u st a (mkPrivilegeSpec pv on "") ≈
    Mysql_privilege_step m u st a (mkPrivilegeSpec pv "" "").
Proof.
  split; [done|]. unfold Mysql_privilege_step, MysqlPrepareStatementForPrivilege. simpl.
  by rewrite andb_false_r.
Qed.

(** C37: The client certificate that goes into the secret of a user is the one that
    was made for it.  When [genPostgresCertFromCA] succeeds, the CA key and
    certificate of the configuration were PEM text and their bytes were parsed;
    one certificate was made, with the user as common name, valid from now for
    one year, for a new key and signed by the CA; decoding the entries of the
    result gives that certificate and the private key it was made for back,
    and the third entry is the CA certificate as configured. *)
Theorem client_certificate p u t m :
  runs (genPostgresCertFromCA p u) t (Returned (m, None)) →
  ∃ ca_key ca_cert ca_priv ca serial from now until key cert key_bytes,
    pem_Decode (cfg_SSLCAKey (pg_config p)) = Some ca_key ∧
    pem_Decode (cfg_SSLCACert (pg_config p)) = Some ca_cert ∧
    t = [ev (ParsePKCS1PrivateKey (Block_Bytes ca_key)) (ca_priv, None);
         ev (ParseCertificate (Block_Bytes ca_cert)) (ca, None);
         ev RandInt63 serial; ev TimeNow from; ev TimeNow now; ev (TimeAddDate now 1 0 0) until;
         ev (GenerateKey 4096) (key, None);
         ev (CreateCertificate (mkCertTemplate serial u from until) ca key ca_priv) (cert, None);
         ev (MarshalPKCS1PrivateKey key) key_bytes] ∧
    (m !! "tls.crt" ≫= pem_Decode) = Some (mkBlock "CERTIFICATE" cert) ∧
    (m !! "tls.key" ≫= pem_Decode) = Some (mkBlock "RSA PRIVATE KEY" key_bytes) ∧
    m !! "ca.crt" = Some (cfg_SSLCACert (pg_config p)).
Proof.
  unfold genPostgresCertFromCA. intros Ht.
  destruct (pem_Decode (cfg_SSLCAKey (pg_config p))) as [kb|]; [|by destruct Ht].
  destruct Ht as ([priv [e|]] & t1 & -> & Ht); [by destruct Ht|].
  destruct (pem_Decode (cfg_SSLCACert (pg_config p))) as [cb|]; [|by destruct Ht].
  destruct Ht as ([ca [e|]] & t2 & -> & Ht); [by destruct Ht|].
  destruct Ht as (serial & t3 & -> & from & t4 & -> & now & t5 & -> & until & t6 & -> & Ht).
  destruct Ht as ([key [e|]] & t7 & -> & Ht); [by destruct Ht|].
  destruct Ht as ([cert [e|]] & t8 & -> & Ht); [by destruct Ht|].
  destruct Ht as (key_bytes & t9 & -> & -> & [= ->]).
  do 11 eexists. do 3 (split; [reflexivity|]).
  rewrite lookup_insert_eq, !lookup_insert_ne, lookup_insert_eq by done.
  split_and!; [by apply (pem_roundtrip (mkBlock _ _))..|].
  by rewrite !lookup_insert_ne, lookup_singleton_eq by done.
Qed.

(** Making a client certificate with a CA key that is not PEM text ends in a
    nil pointer dereference at once, not in an error; with a CA certificate
    that is not PEM text it does so as soon as the key is accepted. *)
Theorem bad_ca_key_panics p u t o :
  runs (genPostgresCertFromCA p u) t o →
  (pem_Decode (cfg_SSLCAKey (pg_config p)) = None → t = [] ∧ o = Panicked nil_deref) ∧
  (pem_Decode (cfg_SSLCACert (pg_config p)) = None →
     o = Panicked nil_deref ∨ ∃ e, o = Returned (∅, Some e)).
Proof.
  unfold genPostgresCertFromCA. intros Ht. split; intros E; rewrite E in Ht; [exact Ht|].
  destruct (pem_Decode (cfg_SSLCAKey (pg_config p))); [|left; apply Ht].
  destruct Ht as ([key [e|]] & t' & -> & Ht); [right; destruct Ht as [_ ->]; eauto|].
  left. apply Ht.
Qed.
End Postgres.

Section MySQL.
Context {C : Type} {CO : Connection C} {CL : ConnectionLaws C}.
Implicit Types (m : Mysql C) (t : list event).

(** A MySQL privilege statement has one argument for each placeholder, the
    first is the privilege, the last is the user, and those between name the
    database and the object, each only when given. *)
Theorem mysql_privilege_arguments st a u d on pv :
  (st, a) ∈ [("GRANT", "TO"); ("REVOKE", "FROM")] →
  let '(q, args) := MysqlPrepareStatementForPrivilege st a u d on pv in
  well_formed q args ∧
  args = pv :: (if bool_decide (d = "") then []
                else d :: (if bool_decide (on = "") then [] else [on])) ++ [u].
Proof.
  intros Hs. assert (count_char "?" st = 0 ∧ count_char "?" a = 0) as [Hst Ha].
  { rewrite !elem_of_cons, elem_of_nil in Hs. by destruct Hs as [[= -> ->]|[[= -> ->]|[]]]. }
  pose proof (MysqlPrepareStatement_well_formed st a u d on pv Hst Ha) as Hw. revert Hw.
  unfold MysqlPrepareStatementForPrivilege. repeat (case_bool_decide; simpl); tauto.
Qed.

(** MySQL's privileges: on success exactly one confirmed statement for each
    privilege in order, and on an error the confirmed prefix and the statement
    that failed; nothing is retried or skipped. *)
Theorem mysql_privileges_statements m u l st a t err :
  runs (Mysql_privilegesProcessor m u l st a) t (Returned err) →
  let stmts := fmap (λ pr, ((mysql_privilege_stmt st a u pr).1,
                            (mysql_privilege_stmt st a u pr).2, None) : stmt) in
  match err with
  | None => statements t = stmts l
  | Some e => ∃ l1 pr l2, l = l1 ++ pr :: l2 ∧ statements t = stmts l1 ++
      [((mysql_privilege_stmt st a u pr).1, (mysql_privilege_stmt st a u pr).2, Some e)]
  end.
Proof.
  intros Ht stmts. destruct err as [e|].
  - by apply Mysql_privilegesProcessor_error in Ht.
  - by apply Mysql_privilegesProcessor_ok in Ht.
Qed.
End MySQL.

(** ** The hypotheses hold of concrete runs *)

Ltac run_of p w := apply (exec_runs p w); vm_compute; reflexivity.

Lemma create_user_results_witness :
  ∃ r, statements (trace (Postgresql_CreateUser pg_ssl "john" "pw") world0) =
         [((createUserQuery "john" "pw").1, [], r)] ∧
    (CreateCerts (pg_config pg_ssl) = false ∨ isAlreadyExists r = true →
       john_ssl_data = ∅ ∧ None = ignoreAlreadyExists r) ∧
    (CreateCerts (pg_config pg_ssl) = true → isAlreadyExists r = false →
       (john_ssl_data = ∅ ∧ @None error ≠ None) ∨
       (None = r ∧ dom john_ssl_data = {["tls.crt"; "tls.key"; "ca.crt"]} ∧
        john_ssl_data !! "ca.crt" = Some (cfg_SSLCACert (pg_config pg_ssl)))).
Proof.
  apply (create_user_results pg_ssl "john" "pw").
  run_of (Postgresql_CreateUser pg_ssl "john" "pw") world0.
Defined.

(** A connection attempt that fails after the files were written. *)
Definition pg_new : Postgresql DefaultConnector := mkPostgresql NewDefaultConnector ssl_cfg.
Definition connect_new : prog (Postgresql DefaultConnector * option error) := Postgresql_Connect pg_new.
Definition pg_connected : Postgresql DefaultConnector :=
  mkPostgresql open_conn
    (set_files (set_createCertificates ssl_cfg)
       "/home/operator/postgres-certs/postgres/dbname_user.ca"
       "/home/operator/postgres-certs/postgres/dbname_user.crt"
       "/home/operator/postgres-certs/postgres/dbname_user.key").

Lemma connect_close_cleanup_witness :
  let t1 := trace connect_new world0 in
  let t2 := trace (Postgresql_Close pg_connected) world0 in
  (∀ w, w ∈ written t1 → w.1.1 ∈ removed t2) ∧ NoDup (removed t2) ∧
  (@None error = None →
     handles (t1 ++ t2) = open_handle (pg_db pg_connected) ++ close_handle (pg_db pg_connected)) ∧
  statements (t1 ++ t2) = [].
Proof.
  apply (connect_close_cleanup pg_new _ pg_connected None _ (Returned None)).
  - run_of connect_new world0.
  - run_of (Postgresql_Close pg_connected) world0.
Defined.

Definition apply_plain : prog (option error) :=
  Postgresql_ApplyPrivileges pg_plain "john" sample_privileges.
Definition grant_events : list event := trace apply_plain world0.

Lemma apply_privileges_statements_witness :
  bracketed (handles grant_events) ∧ Forall (λ pr, Privilege pr ≠ "") sample_privileges ∧
  statements grant_events =
    ((λ pr, (privilege_query "GRANT" "TO" "john" pr, [], None) : stmt) <$> sample_privileges) ∧
  (∀ w, w ∈ written grant_events → w.1.1 ∈ removed grant_events).
Proof.
  apply (apply_privileges_statements pg_plain "john" sample_privileges grant_events None).
  run_of apply_plain world0.
Defined.

(** The second of three privileges is answered with "undefined object". *)
Definition world_undefined : World := world_with (reply_refuse "REVOKE CONNECT" undefined).
Definition revoke_plain : prog (option error) :=
  Postgresql_RevokePrivileges pg_plain "john" sample_privileges.
Definition revoke_events : list event := trace revoke_plain world_undefined.

Lemma revoke_privileges_statements_witness :
  let revokes := fmap (λ pr, (privilege_query "REVOKE" "FROM" "john" pr, [], None) : stmt) in
  statements revoke_events = revokes sample_privileges ∨
  ∃ l1 pr l2 e, sample_privileges = l1 ++ pr :: l2 ∧ isNotExists (Some e) = true ∧
    (statements revoke_events = revokes l1 ∨
     statements revoke_events =
       revokes l1 ++ [(privilege_query "REVOKE" "FROM" "john" pr, [], Some e)]).
Proof.
  apply (revoke_privileges_statements pg_plain "john" sample_privileges revoke_events).
  run_of revoke_plain world_undefined.
Defined.

Definition certify_john : prog (gmap string string * option error) := genPostgresCertFromCA pg_ssl "john".

Lemma client_certificate_witness :
  ∃ ca_key ca_cert ca_priv ca serial from now until key cert key_bytes,
    pem_Decode SSLCAKey = Some ca_key ∧ pem_Decode SSLCACert = Some ca_cert ∧
    trace certify_john world0 =
      [ev (ParsePKCS1PrivateKey (Block_Bytes ca_key)) (ca_priv, None);
       ev (ParseCertificate (Block_Bytes ca_cert)) (ca, None);
       ev RandInt63 serial; ev TimeNow from; ev TimeNow now; ev (TimeAddDate now 1 0 0) until;
       ev (GenerateKey 4096) (key, None);
       ev (CreateCertificate (mkCertTemplate serial "john" from until) ca key ca_priv) (cert, None);
       ev (MarshalPKCS1PrivateKey key) key_bytes] ∧
    (john_ssl_data !! "tls.crt" ≫= pem_Decode) = Some (mkBlock "CERTIFICATE" cert) ∧
    (john_ssl_data !! "tls.key" ≫= pem_Decode) = Some (mkBlock "RSA PRIVATE KEY" key_bytes) ∧
    john_ssl_data !! "ca.crt" = Some SSLCACert.
Proof.
  apply (client_certificate pg_ssl "john" (trace certify_john world0) john_ssl_data).
  run_of certify_john world0.
Defined.

Definition pg_bad_ca : Postgresql DefaultConnector :=
  mkPostgresql open_conn
    (NewConfig "postgres" 5432 "user" "" "" "require" SSLCACert SSLJohnCert SSLJohnKey "oops").

Lemma bad_ca_key_panics_witness :
  @nil event = [] ∧ @Panicked (gmap string string * option error) nil_deref = Panicked nil_deref.
Proof.
  apply (bad_ca_key_panics pg_bad_ca "john" [] (Panicked nil_deref)); [|by vm_compute].
  run_of (genPostgresCertFromCA pg_bad_ca "john") world0.
Defined.

Lemma mysql_privilege_arguments_witness :
  well_formed "GRANT ? ON ?.? TO ?" ["SELECT"; "dat"; "table"; "john"] ∧
  ["SELECT"; "dat"; "table"; "john"] = "SELECT" :: ["dat"; "table"] ++ ["john"].
Proof. apply (mysql_privilege_arguments "GRANT" "TO" "john" "dat" "table" "SELECT"). by left. Defined.

Definition my_apply : prog (option error) :=
  Mysql_privilegesProcessor my_plain "john" sample_privileges "GRANT" "TO".

Lemma mysql_privileges_statements_witness :
  statements (trace my_apply world0) =
    ((λ pr, ((mysql_privilege_stmt "GRANT" "TO" "john" pr).1,
             (mysql_privilege_stmt "GRANT" "TO" "john" pr).2, None) : stmt) <$> sample_privileges).
Proof.
  apply (mysql_privileges_statements my_plain "john" sample_privileges "GRANT" "TO" _ None).
  run_of my_apply world0.
Defined.
