(* ===== verification/DatabaseProps.v ===== *)
(** * Properties of the choice of the database and of its connection

    pkg/database/database.go, the connection settings of
    pkg/database/postgresql/config.go and pkg/database/connection. *)

From S2P Require Import Prelude GoStrings SqlLexer Dsn GoError Api Effects Utils.
From S2P Require Import Connection PgUtils PgConfig Postgresql Mysql Database Controller.
From S2P Require Import ControllerRuns World Certificates Samples UserProps.

(** The answer to the read of a secret. *)
Definition secret_read (e : event) : option (K8sSecret * option error) :=
  match e with
  | existT r x =>
      match r return resp r → option (K8sSecret * option error) with
      | GetSecret _ => λ x, Some x
      | _ => λ _, None
      end x
  end.

(** ** Creation *)

Lemma ConnString_no_panic c : no_panic (ConnString c).
Proof.
  unfold ConnString, PathFromHome, ConnString_certs, connSlice_cert, createCertFile.
  repeat (solve_only; try case_match).
Qed.

Lemma DecodeSecretData_no_panic nn : no_panic (DecodeSecretData nn).
Proof. unfold DecodeSecretData, utils_Secret. solve_only. Qed.

Lemma passwordFromSecret_no_panic s : no_panic (passwordFromSecret s).
Proof.
  unfold passwordFromSecret. case_match; [|done].
  apply no_panic_bind; [apply DecodeSecretData_no_panic|]. by intros [d [e|]].
Qed.

Lemma readSSL_no_panic c : no_panic (readSSL c).
Proof.
  unfold readSSL. case_match; [|done].
  apply no_panic_bind; [apply DecodeSecretData_no_panic|]. intros [d [e|]]; [done|].
  apply no_panic_bind; [apply DecodeSecretData_no_panic|]. by intros [d' [e|]].
Qed.

Section Create.
Context {C : Type} {CO : Connection C} {CL : ConnectionLaws C}.
Variable conn : C.
Hypothesis Connect_no_panic : ∀ d s, no_panic (Connect conn d s).

Lemma newPostgresql_no_panic c : no_panic (newPostgresql conn (Some c)).
Proof.
  unfold newPostgresql. apply no_panic_bind; [apply readSSL_no_panic|].
  intros [[d k] [e|]]; [done|]. apply no_panic_bind; [apply passwordFromSecret_no_panic|].
  intros [pw [e|]]; [done|]. apply no_panic_bind; [|by intros [p e]].
  unfold Postgresql_Connect. apply no_panic_bind; [apply ConnString_no_panic|].
  intros (c' & s & [e|]); [done|]. apply no_panic_bind; [apply Connect_no_panic|]. by intros [db e].
Qed.

Lemma newMysql_no_panic c : no_panic (newMysql conn (Some c)).
Proof.
  unfold newMysql. apply no_panic_bind; [apply passwordFromSecret_no_panic|].
  intros [pw [e|]]; [done|]. apply no_panic_bind; [|by intros [p e]].
  unfold Mysql_Connect, MysqlConnString. apply no_panic_bind; [done|].
  intros [s [e|]]; [done|]. apply no_panic_bind; [apply Connect_no_panic|]. by intros [db e].
Qed.

Lemma newDatabase_no_panic s : DatabaseSpec_XValidation s = true → no_panic (newDatabase conn s).
Proof.
  unfold DatabaseSpec_XValidation, newDatabase. intros Hv.
  apply orb_true_iff in Hv as [Hv|Hv]; rewrite !andb_true_iff, !bool_decide_eq_true in Hv;
    destruct Hv as [[Ht [c Hc]] _]; rewrite Ht, Hc.
  - apply no_panic_bind; [apply newPostgresql_no_panic|by intros [p e]].
  - apply no_panic_bind; [apply newMysql_no_panic|by intros [p e]].
Qed.
End Create.

(** A configuration that may carry certificates only when its mode requires TLS. *)
Definition certs_ok (c : PostgreSQLConfig) (cfg : Config) : Prop :=
  cfg_Host cfg = Pg_Host c ∧ cfg_Port cfg = Pg_Port c ∧ cfg_User cfg = Pg_User c ∧
  cfg_DatabaseName cfg = Pg_DatabaseName c ∧ cfg_SSLMode cfg = Pg_SSLMode c ∧
  (ssl_required (Pg_SSLMode c) = false →
     CreateCerts cfg = false ∧ cfg_SSLCACert cfg = "" ∧ cfg_SSLUserCert cfg = "" ∧
     cfg_SSLUserKey cfg = "").

Lemma readSSL_off c t d k err :
  ssl_required (Pg_SSLMode c) = false → runs (readSSL c) t (Returned (d, k, err)) → d = ∅.
Proof. unfold readSSL. intros ->. by intros [_ [= -> _ _]]. Qed.

Section Result.
Context {C : Type} {CO : Connection C} {CL : ConnectionLaws C}.
Variable conn : C.

Lemma newPostgresql_result c t p :
  runs (newPostgresql conn (Some c)) t (Returned (Some p, None)) → certs_ok c (pg_config p).
Proof.
  unfold newPostgresql. intros Ht.
  apply runs_bind_inv in Ht as [(m & _ & [=])|([[d k] [e|]] & t1 & t2 & -> & H1 & Ht)];
    [by destruct Ht|].
  apply runs_bind_inv in Ht as [(m & _ & [=])|([pw [e|]] & t3 & t4 & -> & H2 & Ht)];
    [by destruct Ht|].
  apply runs_bind_inv in Ht as [(m & _ & [=])|([p' err] & t5 & t6 & -> & H3 & [_ [= -> <-]])].
  unfold Postgresql_Connect in H3.
  apply runs_bind_inv in H3 as [(m & _ & [=])|([cfg [s [e|]]] & t7 & t8 & -> & H4 & H3)];
    [by destruct H3|].
  apply runs_bind_inv in H3 as [(m & _ & [=])|([db err] & t9 & ta & -> & H5 & [_ [= -> _]])].
  apply ConnString_runs in H4 as (h1 & h2 & h3 & _ & Hok & _).
  destruct (Hok eq_refl) as (-> & _). cbn [pg_config].
  unfold certs_ok.
  cbn [set_files cfg_Host cfg_Port cfg_User cfg_DatabaseName cfg_SSLMode cfg_SSLCACert
       cfg_SSLUserCert cfg_SSLUserKey CreateCerts cfg_createCertificates].
  rewrite (flag_field cfg_Host), (flag_field cfg_Port), (flag_field cfg_User),
    (flag_field cfg_DatabaseName), (flag_field cfg_SSLMode) by done.
  split_and!; try done. intros Hs. by rewrite (readSSL_off _ _ _ _ _ Hs H1).
Qed.

Lemma newDatabase_postgresql s t p :
  runs (newDatabase conn s) t (Returned (IfacePostgresql p, None)) →
  DatabaseSpec_Type s = PostgreSQL ∧
  ∃ c p', DatabaseSpec_PostgreSQL s = Some c ∧ p = Some p' ∧ certs_ok c (pg_config p').
Proof.
  unfold newDatabase. case_bool_decide as Et; [|case_bool_decide]; intros Ht.
  - split; [done|].
    apply runs_bind_inv in Ht as [(m & _ & [=])|([q err] & t1 & t2 & -> & H1 & [_ [= -> <-]])].
    destruct (DatabaseSpec_PostgreSQL s) as [c|]; [|by destruct H1].
    destruct q as [q|].
    + exists c, q. split_and!; try done. by eapply newPostgresql_result.
    + by apply newPostgresql_runs in H1.
  - by apply runs_bind_inv in Ht as [(m & _ & [=])|([q err] & t1 & t2 & -> & H1 & [_ [=]])].
  - by destruct Ht.
Qed.

(** The database object that is created stands for the specification: of the
    type the specification names, never the nil pointer, and for PostgreSQL
    with its host, port, user, database and mode; certificates are used only
    with a mode that requires TLS. *)
Theorem created_database_result s t d :
  runs (newDatabase conn s) t (Returned (d, None)) →
  (DatabaseSpec_Type s = PostgreSQL ∧ ∃ c p, DatabaseSpec_PostgreSQL s = Some c ∧
     d = IfacePostgresql (Some p) ∧ certs_ok c (pg_config p)) ∨
  (DatabaseSpec_Type s = MySQL ∧ ∃ c m, DatabaseSpec_MySQL s = Some c ∧
     d = IfaceMysql (Some m)).
Proof.
  intros Ht. destruct (newDatabase_runs _ _ _ _ Ht) as [_ [[p ->]|[m ->]]].
  - left. apply newDatabase_postgresql in Ht as (? & c & p' & ? & [= <-] & ?). eauto 6.
  - right. unfold newDatabase in Ht. case_bool_decide; [|case_bool_decide as Et; [split; [done|]|]].
    + by apply runs_bind_inv in Ht as [(? & _ & [=])|([q err] & t1 & t2 & -> & H1 & [_ [=]])].
    + apply runs_bind_inv in Ht as [(? & _ & [=])|([q err] & t1 & t2 & -> & H1 & _)].
      destruct (DatabaseSpec_MySQL s) as [c|]; [eauto|by destruct H1].
    + by destruct Ht.
Qed.

(** C32: A secret with user data is created only for a PostgreSQL database whose
    mode requires TLS: from the specification to the cluster, through
    [newDatabase], [Connect], [CreateUser] and [createUserInDatabase]. *)
Theorem secret_needs_tls {U : Controllerutil} s t d u ref t' o :
  runs (newDatabase conn s) t (Returned (d, None)) →
  runs (createUserInDatabase d u ref) t' o →
  ¬ Forall (λ e, ¬ is_create_secret e) t' →
  ∃ c, DatabaseSpec_Type s = PostgreSQL ∧ DatabaseSpec_PostgreSQL s = Some c ∧
    ssl_required (Pg_SSLMode c) = true.
Proof.
  intros Ht Hc Hs.
  assert (∃ n pw t2 m, runs (db_CreateUser d n pw) t2 (Returned (m, None)) ∧ m ≠ ∅)
    as (n & pw & t2 & m & Hm & Hne).
  { apply createUserInDatabase_inv in Hc as [(e & _ & H1)|(pw & t1 & t2 & -> & H1 & Hc)];
      apply userPassword_no_create in H1 as N1; [done|].
    destruct Hc as [(m & _ & H2)|(m & err & t3 & t4 & -> & H2 & Hc)];
      apply db_CreateUser_no_create in H2 as N2; [by destruct Hs; apply Forall_app_2|].
    destruct Hc as [(_ & -> & _)|(-> & Hne & _)]; [|eauto 6].
    destruct Hs. rewrite app_nil_r. by apply Forall_app_2. }
  destruct (newDatabase_runs _ _ _ _ Ht) as [_ [[p ->]|[mm ->]]].
  - apply newDatabase_postgresql in Ht as (Et & c & p' & Ec & [= ->] & Hcfg).
    exists c. split_and!; try done. destruct (ssl_required (Pg_SSLMode c)) eqn:Es; [done|].
    destruct Hcfg as (_ & _ & _ & _ & _ & Hno). destruct (Hno Es) as [Hcc _].
    apply Postgresql_CreateUser_runs in Hm as (r & _ & Hm). rewrite Hcc in Hm. by destruct Hm.
  - apply Mysql_CreateUser_runs in Hm as [_ ->]. done.
Qed.
End Result.

(** A specification that the API server admits never makes the creation of a
    database panic, whatever the cluster and the server answer; one without the
    configuration of its type, which the API server rejects, always does. *)
Theorem admitted_spec_never_panics s t o :
  runs (NewDatabase s) t o →
  (DatabaseSpec_XValidation s = true → ∃ r, o = Returned r) ∧
  (DatabaseSpec_Type s = PostgreSQL → DatabaseSpec_PostgreSQL s = None →
     DatabaseSpec_XValidation s = false ∧ o = Panicked nil_deref).
Proof.
  intros Ht. split.
  - intros Hv. destruct o as [r|m]; [eauto|]. exfalso. eapply no_panic_runs; [|exact Ht].
    apply newDatabase_no_panic; [|done]. intros d q. simpl. unfold DefaultConnector_Connect. solve_only.
  - intros Et Ec. unfold DatabaseSpec_XValidation, NewDatabase, newDatabase in *.
    rewrite Et, Ec in *. simpl in *. by destruct Ht as [_ ->].
Qed.

(** A reference to a key that its secret does not have: the operator's own
    password is then silently empty, while the password of a user is an error. *)
Theorem missing_password_key s k t t' o o' :
  Secret_Key s ≠ "" → NamespacedName_Name (Secret_Secret s) ≠ "" →
  NamespacedName_Namespace (Secret_Secret s) ≠ "" → K8sSecret_Data k !! Secret_Key s = None →
  let got := ev (GetSecret (NamespacedName_ToNamespacedName (Secret_Secret s))) (k, None) in
  runs (passwordFromSecret s) (got :: t) o → runs (userPassword s) (got :: t') o' →
  o = Returned ("", None) ∧ ∃ e, o' = Returned ("", Some e).
Proof.
  intros Hk Hn Hns Hno got H1 H2.
  assert (∀ (x : K8sSecret * option error) l l', ev (GetSecret
    (NamespacedName_ToNamespacedName (Secret_Secret s))) x :: l = got :: l' → x = (k, None)) as Hx.
  { intros x l l' E. by apply (f_equal (λ l, head l ≫= secret_read)) in E as [= ->]. }
  unfold passwordFromSecret in H1. unfold userPassword in H2.
  rewrite !bool_decide_eq_true_2 in H1 by done. rewrite !bool_decide_eq_false_2 in H2 by done.
  cbn [andb orb] in H1, H2. unfold DecodeSecretData, utils_Secret in H1, H2.
  cbn [bind call] in H1, H2. split.
  - destruct H1 as (x & t1 & E & H1). symmetry in E. apply Hx in E as ->. simpl in H1.
    destruct H1 as [_ ->]. unfold map_get. by rewrite lookup_fmap, Hno.
  - destruct H2 as (x & t1 & E & H2). symmetry in E. apply Hx in E as ->. simpl in H2.
    rewrite lookup_fmap, Hno in H2. destruct H2 as (e & t2 & -> & _ & ->). eauto.
Qed.

(** ** Connection settings *)

(** C39: A connection string that is produced lists exactly the settings of the
    configuration, and its certificate files have been written with the
    certificates; when no value needs quoting, the driver reads back exactly
    those settings.  An error gives no text. *)
Theorem conn_string_settings c t c' s err :
  runs (ConnString c) t (Returned (c', (s, err))) →
  (err = None → written t = conn_files c' ∧
     s = strings_Join (setting_text <$> conn_settings c') " " ∧
     (plain_config c' → dsn_parse s = Some (conn_settings c'))) ∧
  (err ≠ None → s = "") ∧ removed t = [].
Proof.
  intros Ht. pose proof (ConnString_removed _ _ _ Ht) as Hr.
  apply ConnString_runs in Ht as (h1 & h2 & h3 & _ & Hok & Herr & _). split; [|done].
  intros He. destruct (Hok He) as (_ & -> & Hw). split_and!; try done. apply dsn_parse_settings.
Qed.

(** The host that the driver connects to. *)
Definition driver_host (c : Config) : option string :=
  match result (ConnString c) world0 with
  | Returned (_, (s, None)) => dsn_parse s ≫= λ l, dsn_get l "host"
  | _ => None
  end.

Definition config_of_user (u : string) : Config := NewConfig "db" 5432 u "pw" "" "" "" "" "" "".

(** The values are not quoted: a user name with a blank in it can set the
    host that the driver connects to, while a plain one leaves it alone. *)
Theorem conn_string_unquoted :
  driver_host (config_of_user "admin") = Some "db" ∧
  driver_host (config_of_user "admin host=elsewhere") = Some "elsewhere".
Proof. split; vm_compute; reflexivity. Qed.

(** ** The hypotheses hold of concrete runs *)

Definition create_pg : prog (iface DefaultConnector * option error) :=
  NewDatabase (Database_Spec (pg_database SSLModeVERIFYFULL)).
Definition pg_created : iface DefaultConnector :=
  IfacePostgresql (Some (mkPostgresql open_conn
    (set_files (set_createCertificates
      (NewConfig "test-postgres" 5432 "test-user" "pg-secret" "app" "verify-full"
         SSLCACert SSLJohnCert SSLJohnKey SSLCAKey))
       "/home/operator/postgres-certs/test-postgres/app_test-user.ca"
       "/home/operator/postgres-certs/test-postgres/app_test-user.crt"
       "/home/operator/postgres-certs/test-postgres/app_test-user.key"))).
Definition world_new : World := world_with reply_ok.

Lemma created_database_result_witness :
  let s := Database_Spec (pg_database SSLModeVERIFYFULL) in
  (DatabaseSpec_Type s = PostgreSQL ∧ ∃ c p, DatabaseSpec_PostgreSQL s = Some c ∧
     pg_created = IfacePostgresql (Some p) ∧ certs_ok c (pg_config p)) ∨
  (DatabaseSpec_Type s = MySQL ∧ ∃ c m, DatabaseSpec_MySQL s = Some c ∧
     pg_created = IfaceMysql (Some m)).
Proof.
  apply (created_database_result NewDefaultConnector _ (trace create_pg world_new)).
  run_of create_pg world_new.
Defined.

Lemma secret_needs_tls_witness :
  ∃ c, DatabaseSpec_Type (Database_Spec (pg_database SSLModeVERIFYFULL)) = PostgreSQL ∧
    DatabaseSpec_PostgreSQL (Database_Spec (pg_database SSLModeVERIFYFULL)) = Some c ∧
    ssl_required (Pg_SSLMode c) = true.
Proof.
  apply (secret_needs_tls NewDefaultConnector _ (trace create_pg world_new) pg_created new_user
    (ref "pg") (trace (createUserInDatabase pg_created new_user (ref "pg")) world_new)
    (Returned None)).
  - run_of create_pg world_new.
  - run_of (createUserInDatabase pg_created new_user (ref "pg")) world_new.
  - intros Hf. eapply (Forall_lookup_1 _ _ 13) in Hf; [|vm_compute; reflexivity]. exact (Hf I).
Defined.

Lemma admitted_spec_never_panics_witness :
  (DatabaseSpec_XValidation (Database_Spec (pg_database SSLModeVERIFYFULL)) = true →
     ∃ r, Returned (pg_created, @None error) = Returned r) ∧
  (DatabaseSpec_Type (Database_Spec (pg_database SSLModeVERIFYFULL)) = PostgreSQL →
     DatabaseSpec_PostgreSQL (Database_Spec (pg_database SSLModeVERIFYFULL)) = None →
     DatabaseSpec_XValidation (Database_Spec (pg_database SSLModeVERIFYFULL)) = false ∧
     Returned (pg_created, @None error) = Panicked nil_deref).
Proof.
  apply (admitted_spec_never_panics _ (trace create_pg world_new)). run_of create_pg world_new.
Defined.

Definition bad_ref : Secret := mkSecret (mkNamespacedName namespace "user-password") "missing".
Definition password_secret : K8sSecret := secret "user-password" [("pass", "mysupersecretpass")].
Definition invalid_key : error :=
  StatusError ReasonInvalid "v1.Secret user-password: data.missing: user-password".

Lemma missing_password_key_witness :
  Returned ("", @None error) = Returned ("", None) ∧
  ∃ e, Returned ("", Some invalid_key) = Returned ("", Some e).
Proof.
  apply (missing_password_key bad_ref password_secret
    (tail (trace (passwordFromSecret bad_ref) world_new))
    (tail (trace (userPassword bad_ref) world_new))); try done.
  - apply (exec_runs_head (passwordFromSecret bad_ref) world_new); vm_compute; reflexivity.
  - apply (exec_runs_head (userPassword bad_ref) world_new); vm_compute; reflexivity.
Defined.

Definition plain_cfg' : Config :=
  set_files plain_cfg "/home/operator/postgres-certs/postgres/dbname_user.ca"
    "/home/operator/postgres-certs/postgres/dbname_user.crt"
    "/home/operator/postgres-certs/postgres/dbname_user.key".

Definition plain_string : string :=
  "host=postgres user=user port=5432 dbname=dbname password=password sslmode=disable".

Lemma conn_string_settings_witness :
  (@None error = None → written (trace (ConnString plain_cfg) world0) = conn_files plain_cfg' ∧
     plain_string = strings_Join (setting_text <$> conn_settings plain_cfg') " " ∧
     (plain_config plain_cfg' → dsn_parse plain_string = Some (conn_settings plain_cfg'))) ∧
  (@None error ≠ None → plain_string = "") ∧ removed (trace (ConnString plain_cfg) world0) = [].
Proof.
  apply (conn_string_settings plain_cfg). run_of (ConnString plain_cfg) world0.
Defined.
