(* ===== verification/Panics.v ===== *)
(** * Where the operator can panic

    Every pointer that the reconciler dereferences is shown to be set, under the
    two conditions that the code does not check: a [Database] object has the
    configuration of its type, and the CA key and certificate in the secrets it
    names are PEM text. *)

From S2P Require Import Prelude GoStrings GoError Api Effects Logic Utils Connection PgUtils.
From S2P Require Import PgConfig Postgresql Mysql Database CertInputs Controller World Samples DatabaseProps.

(** The configuration that [newDatabase] dereferences. *)
Definition has_config (s : DatabaseSpec) : bool :=
  if bool_decide (DatabaseSpec_Type s = PostgreSQL) then bool_decide (is_Some (DatabaseSpec_PostgreSQL s))
  else if bool_decide (DatabaseSpec_Type s = MySQL) then bool_decide (is_Some (DatabaseSpec_MySQL s))
  else true.

(** Entries of secrets that hold PEM text. *)
Definition entry : Type := types_NamespacedName * string.

Definition holds_pem (l : list entry) (nn : types_NamespacedName) (s : K8sSecret) : bool :=
  forallb (λ e, bool_decide (e.1 ≠ nn)
                || is_pem (map_get (string_of_bytes <$> K8sSecret_Data s) e.2)) l.

(** The entries a PostgreSQL database takes its CA from are among them. *)
Definition ca_listed (l : list entry) (s : DatabaseSpec) : bool :=
  match DatabaseSpec_PostgreSQL s with
  | Some c =>
      negb (ssl_required (Pg_SSLMode c))
      || bool_decide ((NamespacedName_ToNamespacedName (Pg_SSLCredentialsSecret c), "ca.crt") ∈ l)
         && bool_decide ((NamespacedName_ToNamespacedName (Secret_Secret (Pg_SSLCAKey c)),
                          Secret_Key (Pg_SSLCAKey c)) ∈ l)
  | None => true
  end.

(** The databases that are read have their configuration and take their CA from
    the entries [l], and the secrets that are read hold PEM text there. *)
Definition safe_answer (l : list entry) (e : event) : Prop :=
  match e with
  | existT r x =>
      match r return resp r → Prop with
      | GetDatabase _ => λ x, x.2 = None →
          has_config (Database_Spec x.1) = true ∧ ca_listed l (Database_Spec x.1) = true
      | GetSecret nn => λ x, x.2 = None → holds_pem l nn x.1 = true
      | _ => λ _, True
      end x
  end.

Section Safe.
Variable entries : list entry.
Notation safe := (wp (safe_answer entries)).

Lemma no_panic_safe {A} (p : prog A) : no_panic p → safe p (λ _, True).
Proof. induction p as [a|m|r k IH]; simpl; auto. Qed.

(** ** The connection *)

(** The pointer to the connection is set. *)
Definition conn_set (d : DefaultConnector) : Prop := is_Some (DefaultConnector_db d).

Lemma Connect_safe (d : DefaultConnector) driver s :
  safe (Connect d driver s) (λ x, x.2 = None → conn_set x.1).
Proof. intros [db [e|]] _; [done|]. intros [] _ [] _ _. by eexists. Qed.

Lemma Exec_safe (d : DefaultConnector) l q args : conn_set d → safe (Exec d l q args) (λ _, True).
Proof.
  intros [h Hh]. simpl. unfold DefaultConnector_Exec, DefaultConnector_infoLog. rewrite Hh.
  by case_bool_decide.
Qed.

Lemma Close_safe (d : DefaultConnector) : conn_set d → safe (Close d) (λ _, True).
Proof. intros [h Hh]. simpl. unfold DefaultConnector_Close. by rewrite Hh. Qed.

(** ** PostgreSQL *)

Lemma ConnString_safe c : safe (ConnString c) (λ _, True).
Proof. apply no_panic_safe, ConnString_no_panic. Qed.

Lemma Postgresql_Connect_safe (p : Postgresql DefaultConnector) :
  safe (Postgresql_Connect p) (λ x, x.2 = None → conn_set (pg_db x.1)).
Proof.
  unfold Postgresql_Connect. eapply wp_seq; [apply ConnString_safe|]. intros [c [s [e|]]] _; [done|].
  eapply wp_seq; [apply Connect_safe|]. by intros [d e] Hd.
Qed.

Lemma Postgresql_Close_safe (p : Postgresql DefaultConnector) :
  conn_set (pg_db p) → safe (Postgresql_Close p) (λ _, True).
Proof.
  intros Hp. unfold Postgresql_Close. eapply wp_seq; [by apply no_panic_safe|].
  intros _ _. by apply Close_safe.
Qed.

Lemma genPostgresCertFromCA_safe (p : Postgresql DefaultConnector) u :
  pem_ready (pg_config p) → CreateCerts (pg_config p) = true →
  safe (genPostgresCertFromCA p u) (λ _, True).
Proof.
  intros Hp Hcr. destruct (pem_ready_decode p Hp Hcr) as (key & cert & Ek & Ec).
  unfold genPostgresCertFromCA. rewrite Ek, Ec.
  intros [k2 [e|]] _; [done|]. intros [k4 [e|]] _; [done|].
  intros ? _ ? _ ? _ ? _ [k5 [e|]] _; [done|]. by intros [k6 [e|]] _.
Qed.

Lemma privilege_step_safe (p : Postgresql DefaultConnector) u st arg pr :
  conn_set (pg_db p) → safe (privilege_step p u st arg pr) (λ _, True).
Proof.
  intros Hp. unfold privilege_step. case_match; [|case_match; [by apply Exec_safe|]].
  - unfold inDatabasePrivilege. eapply wp_seq with (P := λ _, True); [done|]. intros conn _.
    eapply wp_seq; [apply Postgresql_Connect_safe|]. intros [p' [e|]] Hc; [done|].
    specialize (Hc eq_refl). apply wp_finally; [by apply Exec_safe|].
    by eapply wp_seq; [apply Postgresql_Close_safe|].
  - case_match; [by apply Exec_safe|done].
Qed.

Lemma range_err_safe {A} (f : A → prog (option error)) xs :
  (∀ x, safe (f x) (λ _, True)) → safe (range_err f xs) (λ _, True).
Proof.
  intros Hf. induction xs as [|x xs IH]; simpl; [done|].
  eapply wp_seq; [apply Hf|]. by intros [e|] _.
Qed.

(** ** The database object *)

(** The interface holds a pointer to an object with a connection, which has the
    CA it needs. *)
Definition object_set (d : iface DefaultConnector) : Prop :=
  match d with
  | IfacePostgresql (Some p) => conn_set (pg_db p) ∧ pem_ready (pg_config p)
  | IfaceMysql (Some m) => conn_set (my_db m)
  | _ => False
  end.

Lemma DecodeSecretData_safe nn : safe (DecodeSecretData nn) (λ _, True).
Proof. by intros [s [e|]] _. Qed.

Lemma passwordFromSecret_safe s : safe (passwordFromSecret s) (λ _, True).
Proof. apply no_panic_safe, passwordFromSecret_no_panic. Qed.

Lemma holds_pem_spec l nn s key :
  holds_pem l nn s = true → (nn, key) ∈ l →
  is_pem (map_get (string_of_bytes <$> K8sSecret_Data s) key) = true.
Proof.
  unfold holds_pem. rewrite forallb_forall. intros H Hin.
  specialize (H (nn, key) (proj1 (list_elem_of_In _ _) Hin)). simpl in H.
  by rewrite bool_decide_eq_false_2 in H by auto.
Qed.

(** Reading an entry that is known to hold PEM text. *)
Lemma DecodeSecretData_pem nn key :
  (nn, key) ∈ entries →
  safe (DecodeSecretData nn) (λ x, x.2 = None → is_pem (map_get x.1 key) = true).
Proof.
  intros Hin [s [e|]] Hs; [done|]. intros _. exact (holds_pem_spec _ _ _ _ (Hs eq_refl) Hin).
Qed.

Lemma readSSL_safe s c :
  DatabaseSpec_PostgreSQL s = Some c → ca_listed entries s = true →
  safe (readSSL c) (λ x, x.2 = None → ssl_given x.1.1 x.1.2).
Proof.
  unfold ca_listed, readSSL. intros -> Hl.
  destruct (ssl_required (Pg_SSLMode c)); [|by intros _; left].
  cbn [negb orb] in Hl. apply andb_true_iff in Hl as [H1%bool_decide_eq_true H2%bool_decide_eq_true].
  eapply wp_seq; [exact (DecodeSecretData_pem _ _ H1)|]. intros [d [e|]] Hd; [done|].
  eapply wp_seq; [exact (DecodeSecretData_pem _ _ H2)|]. intros [d' [e|]] Hd'; [done|].
  intros _. right. split; [by apply Hd'|by apply Hd].
Qed.

Lemma NewDatabase_safe s :
  has_config s = true → ca_listed entries s = true →
  safe (NewDatabase s) (λ x, x.2 = None → object_set x.1).
Proof.
  intros Hs Hl. revert Hs. unfold has_config, NewDatabase, newDatabase. case_bool_decide as Hp; [|case_bool_decide as Hm; [|done]].
  - intros [c Hc]%bool_decide_eq_true. rewrite Hc. unfold newPostgresql.
    eapply wp_seq with (P := λ x, x.2 = None → object_set (IfacePostgresql x.1)); [|by intros [p e]].
    eapply wp_seq; [by eapply readSSL_safe|]. intros [[d k] [e|]] Hd; [done|].
    eapply wp_seq; [apply passwordFromSecret_safe|]. intros [pw [e|]] _; [done|].
    eapply wp_seq.
    { apply Postgresql_Connect_pem_ready; [by apply NewConfig_pem_ready, Hd|apply Postgresql_Connect_safe]. }
    intros [p e] [Hset Hr] He. split; [by apply Hset|exact Hr].
  - intros [c Hc]%bool_decide_eq_true. rewrite Hc. unfold newMysql.
    eapply wp_seq with (P := λ x, x.2 = None → object_set (IfaceMysql x.1)); [|by intros [m e]].
    eapply wp_seq; [apply passwordFromSecret_safe|]. intros [pw [e|]] _; [done|].
    eapply wp_seq with (P := λ x, x.2 = None → conn_set (my_db x.1)); [|by intros [m e]].
    unfold Mysql_Connect. eapply wp_seq with (P := λ _, True); [done|]. intros [s' [e|]] _; [done|].
    eapply wp_seq; [apply Connect_safe|]. by intros [d e].
Qed.

Section Object.
Context (d : iface DefaultConnector) (Hd : object_set d).

Lemma db_Close_safe : safe (db_Close d) (λ _, True).
Proof. destruct d as [|[p|]|[m|]]; try done; [by apply Postgresql_Close_safe, Hd|by apply Close_safe]. Qed.

Lemma db_CreateUser_safe u pw : safe (db_CreateUser d u pw) (λ _, True).
Proof.
  destruct d as [|[p|]|[m|]]; try done; simpl.
  - unfold Postgresql_CreateUser. destruct (createUserQuery u pw) as [q l].
    eapply wp_seq; [apply Exec_safe, Hd|]. intros err _. case_match eqn:Ec; [|done].
    apply andb_true_iff in Ec as [Ec _].
    eapply wp_seq; [apply genPostgresCertFromCA_safe; [apply Hd|exact Ec]|]. by intros [c [e|]] _.
  - unfold Mysql_CreateUser. by eapply wp_seq; [apply Exec_safe|].
Qed.

Lemma db_DeleteUser_safe u : safe (db_DeleteUser d u) (λ _, True).
Proof.
  destruct d as [|[p|]|[m|]]; try done; [|exact (Exec_safe (my_db m) EnableLogger _ _ Hd)].
  change (safe (Postgresql_DeleteUser p u) (λ _, True)). unfold Postgresql_DeleteUser.
  by eapply wp_seq; [apply Exec_safe, Hd|].
Qed.

Lemma Postgresql_privileges_safe (p : Postgresql DefaultConnector) u st arg l :
  conn_set (pg_db p) → safe (Postgresql_privilegesProcessor p u l st arg) (λ _, True).
Proof. intros Hp. apply range_err_safe. intros pr. by apply privilege_step_safe. Qed.

Lemma Mysql_privileges_safe (m : Mysql DefaultConnector) u st arg l :
  conn_set (my_db m) → safe (Mysql_privilegesProcessor m u l st arg) (λ _, True).
Proof.
  intros Hm. apply range_err_safe. intros pr. unfold Mysql_privilege_step.
  destruct (MysqlPrepareStatementForPrivilege _ _ _ _ _ _). by apply Exec_safe.
Qed.

Lemma db_ApplyPrivileges_safe u l : safe (db_ApplyPrivileges d u l) (λ _, True).
Proof.
  destruct d as [|[p|]|[m|]]; try done.
  - exact (Postgresql_privileges_safe p u "GRANT" "TO" l (proj1 Hd)).
  - exact (Mysql_privileges_safe m u "GRANT" "TO" l Hd).
Qed.

Lemma db_RevokePrivileges_safe u l : safe (db_RevokePrivileges d u l) (λ _, True).
Proof.
  destruct d as [|[p|]|[m|]]; try done.
  - by eapply wp_seq; [exact (Postgresql_privileges_safe p u "REVOKE" "FROM" l (proj1 Hd))|].
  - exact (Mysql_privileges_safe m u "REVOKE" "FROM" l Hd).
Qed.
End Object.

(** ** The reconciler *)

Lemma r_privileges_loop_safe l acc : safe (r_privileges_loop l acc) (λ _, True).
Proof.
  revert acc. induction l as [|nm l IH]; intros acc; [done|]. intros [p [e|]] _; [done|apply IH].
Qed.

Lemma userPassword_safe s : safe (userPassword s) (λ _, True).
Proof.
  unfold userPassword. case_match; [done|].
  eapply wp_seq; [apply DecodeSecretData_safe|]. intros [d [e|]] _; [done|]. by case_match.
Qed.

Lemma createUserInDatabase_safe d u ref :
  object_set d → safe (createUserInDatabase d u ref) (λ _, True).
Proof.
  intros Hd. unfold createUserInDatabase.
  eapply wp_seq; [apply userPassword_safe|]. intros [pw [e|]] _; [done|].
  eapply wp_seq; [by apply db_CreateUser_safe|]. intros [m err] _.
  case_match; [done|]. intros [s [e|]] _; [|done]. by intros [s' [e'|]] _.
Qed.

Lemma databaseReconciler_safe (del : bool) u ref :
  safe (databaseReconciler NewDatabase u del ref) (λ _, True).
Proof.
  unfold databaseReconciler. eapply wp_seq with
    (P := λ x, match x.2 with Some _ => True | None => ∃ d, x.1 = Some d ∧
      has_config (Database_Spec d) = true ∧ ca_listed entries (Database_Spec d) = true end).
  { intros [db [e|]] Hx; [done|]. exists db. split; [done|by apply Hx]. }
  intros [db [e|]] Hdb; [by destruct db|]. destruct Hdb as (d & Ed & Hc & Hl). simpl in Ed. subst db.
  eapply wp_seq; [apply r_privileges_loop_safe|]. intros [l [e|]] _; [done|].
  eapply wp_seq; [by apply NewDatabase_safe|]. intros [d' [e|]] Hd; [done|]. specialize (Hd eq_refl).
  apply wp_finally; [|by eapply wp_seq; [apply db_Close_safe|]].
  destruct del.
  - apply wp_finally; [|done]. eapply wp_seq; [by apply db_RevokePrivileges_safe|].
    intros [e|] _; [done|by apply db_DeleteUser_safe].
  - eapply wp_seq; [by apply createUserInDatabase_safe|].
    intros [e|] _; [done|by apply db_ApplyPrivileges_safe].
Qed.

Lemma loop_safe (del : bool) u l :
  safe (range_err (databaseReconciler NewDatabase u del) l) (λ _, True).
Proof. apply range_err_safe. intros ref. apply databaseReconciler_safe. Qed.

Context {U : Controllerutil}.

Lemma reconcile_safe u : safe (reconcile_ NewDatabase u) (λ _, True).
Proof.
  unfold reconcile_. destruct (Meta_DeletionTimestamp (User_Meta u)) as [ts|].
  - apply wp_bind. intros [] _. destruct (ContainsFinalizer u userFinalizer); [|done].
    eapply wp_seq; [apply loop_safe|]. intros [e|] _; [done|]. by intros [] _ [u' err] _.
  - eapply wp_seq with (P := λ _, True).
    { apply no_panic_safe. destruct (ContainsFinalizer u userFinalizer); solve_only. }
    intros [u1 [e|]] _; [done|]. eapply wp_seq; [apply loop_safe|].
    intros [e|] _; [done|]. by intros [] _.
Qed.

Lemma Reconcile_safe nn : safe (OperatorReconcile nn) (λ _, True).
Proof.
  unfold OperatorReconcile, Reconcile. eapply wp_seq.
  { apply no_panic_safe. unfold r_user. solve_only. }
  intros [[u|] [e|]] _; try done.
  eapply wp_seq; [apply reconcile_safe|]. intros [u1 [del [e|]]] _.
  - apply no_panic_safe. destruct del; solve_only.
  - apply no_panic_safe. destruct (negb (User_Ready u1) && negb del); solve_only.
Qed.
End Safe.

(** C23: The operator never crashes, up to the two things it does not check.  If
    every [Database] object it reads has the configuration of its type, which
    the validation rule of the resource enforces, and the CA certificate and key
    in the secrets it names are PEM text whenever they are read, then every run of the operator returns,
    whatever else is answered: it never dereferences a nil pointer, calls a
    method of a nil interface or uses a connection that was not opened. *)
Theorem operator_never_panics {U : Controllerutil} (entries : list entry) nn t o :
  Forall (safe_answer entries) t → runs (OperatorReconcile nn) t o → ∃ res err, o = Returned (res, err).
Proof.
  intros Ht Hr. destruct (wp_runs _ _ _ _ _ (Reconcile_safe entries nn) Ht Hr) as ([res err] & -> & _). eauto.
Qed.

(** Whether an answer is safe can be evaluated. *)
Definition safe_answerb (l : list entry) (e : event) : bool :=
  match e with
  | existT r x =>
      match r return resp r → bool with
      | GetDatabase _ => λ x, bool_decide (x.2 ≠ None)
          || has_config (Database_Spec x.1) && ca_listed l (Database_Spec x.1)
      | GetSecret nn => λ x, bool_decide (x.2 ≠ None) || holds_pem l nn x.1
      | _ => λ _, true
      end x
  end.

Lemma safe_answerb_spec l t : forallb (safe_answerb l) t = true → Forall (safe_answer l) t.
Proof.
  induction t as [|[r x] t IH]; simpl; [constructor|]. intros [Hx Ht]%andb_true_iff.
  constructor; [|auto]. destruct r; try exact I; simpl in *;
    (apply orb_true_iff in Hx as [Hx%bool_decide_eq_true|Hx]; [done|intros _]); [|done].
  by apply andb_true_iff in Hx.
Qed.

(** Two answers that crash it: a database without its configuration, and a CA
    key that is not PEM text. *)
Definition world_no_config : World :=
  let w := world_of new_user in
  mkWorld (w_users w) {[mkTypesNN "" "pg" := mkDatabase (meta "pg") (mkDatabaseSpec PostgreSQL None None)]}
    (w_privileges w) (w_secrets w) ∅ NewFakeConnection 0 [] reply_ok (λ _, None).

Example no_config_panics : result (OperatorReconcile john) world_no_config = Panicked nil_deref.
Proof. by vm_compute. Qed.

(** Where the sample database takes its CA from. *)
Definition sample_entries : list entry :=
  [(mkTypesNN namespace "pg-ssl", "ca.crt"); (mkTypesNN namespace "pg-ca", "ca.key")].

Lemma operator_never_panics_witness :
  ∃ res err, result (OperatorReconcile john) (world_refusing "GRANT" new_user) = Returned (res, err).
Proof.
  apply (operator_never_panics sample_entries john (trace (OperatorReconcile john) (world_refusing "GRANT" new_user))).
  - apply safe_answerb_spec. by vm_compute.
  - by apply exec_runs.
Defined.
