(* ===== verification/OperatorProps.v ===== *)
(** * Whole runs of the operator

    [OperatorReconcile] executed on the sample cluster: the scenarios of the
    repository's tests, and sequences of reconciliations whose outcome depends
    on what the previous one left behind. *)

From S2P Require Import Prelude GoStrings SqlLexer GoError Api Effects Utils Connection.
From S2P Require Import PgUtils PgConfig Postgresql Mysql Database Controller World.
From S2P Require Import Certificates Samples.

(** ** Scenarios *)

Definition reconcile_john (w : World) : World := final (OperatorReconcile john) w.
Definition ready_of (w : World) : option bool := User_Ready <$> w_users w !! john.
Definition finalizers_of (w : World) : option (list string) := Finalizers <$> w_users w !! john.

Definition created_secret_key : types_NamespacedName := mkTypesNN namespace "created-secret".
Definition has_created_secret (w : World) : bool :=
  bool_decide (is_Some (w_secrets w !! created_secret_key)).

(** Somebody asks the API server to delete the user: it sets the time stamp. *)
Definition delete_john (w : World) : World :=
  match w_users w !! john with
  | Some u =>
      set_users w (<[john := mkUser (mkObjectMeta (User_Name u) "" "2" (Finalizers u) (Some "now"))
        (User_Spec u) (User_Status u)]> (w_users w))
  | None => w
  end.

Definition user_of (dbs : list string) : User := sample_user [] None false dbs.

(** The life of a user in a PostgreSQL and a MySQL database. *)
Definition world_created : World := reconcile_john (world_of (user_of ["pg"; "my"])).
Definition world_deleted : World := reconcile_john (delete_john world_created).

(** The statements of that life, as the tests of the repository list them. *)
Definition expected_created : list (string * list string) :=
  [ ((createUserQuery "john" "mysupersecretpass").1, []);
    (prepareStatementForPrivilege "GRANT" "TO" "john" "dat" "table" "ALL PRIVILEGES", []);
    (prepareStatementForPrivilege "GRANT" "TO" "john" "conn_dat" "" "CONNECT", []);
    (prepareStatementForPrivilege "GRANT" "TO" "john" "" "" "rolename", []);
    ("CREATE USER ?@? IDENTIFIED BY ?", ["john"; "*"; "mysupersecretpass"]);
    ("GRANT ? ON ?.? TO ?", ["ALL PRIVILEGES"; "dat"; "table"; "john"]);
    ("GRANT ? ON ?.* TO ?", ["CONNECT"; "conn_dat"; "john"]);
    ("GRANT ? TO ?", ["rolename"; "john"]) ].
Definition expected_deleted : list (string * list string) :=
  [ (prepareStatementForPrivilege "REVOKE" "FROM" "john" "dat" "table" "ALL PRIVILEGES", []);
    (prepareStatementForPrivilege "REVOKE" "FROM" "john" "conn_dat" "" "CONNECT", []);
    (prepareStatementForPrivilege "REVOKE" "FROM" "john" "" "" "rolename", []);
    (deleteUserQuery "john", []);
    ("REVOKE ? ON ?.? FROM ?", ["ALL PRIVILEGES"; "dat"; "table"; "john"]);
    ("REVOKE ? ON ?.* FROM ?", ["CONNECT"; "conn_dat"; "john"]);
    ("REVOKE ? FROM ?", ["rolename"; "john"]);
    ("DROP USER ?@?", ["john"; "*"]) ].

(** A CA key that is not PEM text. *)
Definition world_bad_ca : World :=
  let w := sample_world SSLModeVERIFYFULL (user_of ["pg"]) (reply_once duplicate) in
  set_secrets w (<[mkTypesNN namespace "pg-ca" := secret "pg-ca" [("ca.key", "oops")]]> (w_secrets w)).
Definition world_bad_ca1 : World := reconcile_john world_bad_ca.
Definition world_bad_ca2 : World := reconcile_john world_bad_ca1.

(** A server that cannot be reached. *)
Definition fault_connect (r : req) : option error :=
  match r with SqlConnect _ _ => Some (ErrorString "connection refused") | _ => None end.
Definition world_unreachable : World :=
  let w := world_of (user_of ["pg"]) in
  mkWorld (w_users w) (w_databases w) (w_privileges w) (w_secrets w) (w_files w) (w_fake w)
    (w_handles w) (w_sent w) (w_reply w) fault_connect.

(** A connected object that grants one privilege on a table of [dbname]. *)
Definition grant_in (dbname : string) : prog (option error) :=
  let! (p, err) := Postgresql_Connect (mkPostgresql NewDefaultConnector ssl_cfg) in
  match err with
  | Some _ => Ret err
  | None => Postgresql_ApplyPrivileges p "john" [mkPrivilegeSpec "SELECT" "table" dbname]
  end.
Definition certificate_path (ext : string) : string :=
  "/home/operator/postgres-certs/postgres/dbname_user." +:+ ext.
Definition certificates_of (w : World) : list bool :=
  (λ ext, bool_decide (is_Some (w_files w !! certificate_path ext))) <$> ["ca"; "crt"; "key"].

(** ** Properties *)

(** The life of a user in two databases: the first reconciliation adds the
    finalizer, sends exactly the creation and the grants, makes the secret,
    removes the certificate files and reports the user ready; after the request
    to delete it, the next one sends exactly the revocations and the drops,
    deletes the secret and releases the user, which disappears. *)
Theorem user_life :
  (w_sent world_created = expected_created ∧ ready_of world_created = Some true ∧
   finalizers_of world_created = Some [userFinalizer] ∧ has_created_secret world_created = true ∧
   w_files world_created = ∅) ∧
  (w_sent world_deleted = expected_created ++ expected_deleted ∧ w_users world_deleted = ∅ ∧
   has_created_secret world_deleted = false ∧ w_files world_deleted = ∅).
Proof. split_and!; vm_compute; reflexivity. Qed.

(** A second reconciliation of a user in a database where a user can be
    created once: with PostgreSQL the user stays ready, with MySQL it is
    reported as failed although nothing changed. *)
Theorem second_reconciliation :
  let twice db e :=
    let w := reconcile_john (sample_world SSLModeDISABLE (user_of [db]) (reply_once e)) in
    (ready_of w, ready_of (reconcile_john w)) in
  twice "pg" duplicate = (Some true, Some true) ∧
  twice "my" (ErrorString "Error 1396 (HY000): Operation CREATE USER failed") =
    (Some true, Some false).
Proof. split; vm_compute; reflexivity. Qed.

(** A wrong CA key crashes the operator after it created the user; the next
    reconciliation reports the user ready without the secret that it needs to
    log in. *)
Theorem bad_ca_key_loses_secret :
  result (OperatorReconcile john) world_bad_ca = Panicked nil_deref ∧
  w_sent world_bad_ca1 = [((createUserQuery "john" "mysupersecretpass").1, [])] ∧
  result (OperatorReconcile john) world_bad_ca1 = Returned (Result_zero, None) ∧
  ready_of world_bad_ca2 = Some true ∧ has_created_secret world_bad_ca2 = false.
Proof. split_and!; vm_compute; reflexivity. Qed.

(** A server that cannot be reached: the error becomes the status of the user
    and is not returned, nothing was executed, the private key that was written
    for the connection is left on disk, and the handle that the driver opened for
    the attempt is not closed. *)
Theorem unreachable_server :
  result (OperatorReconcile john) world_unreachable = Returned (Result_zero, None) ∧
  ready_of (reconcile_john world_unreachable) = Some false ∧
  w_sent (reconcile_john world_unreachable) = [] ∧
  w_files (reconcile_john world_unreachable) !!
    "/home/operator/postgres-certs/test-postgres/app_test-user.key" = Some SSLJohnKey ∧
  connect_answers (trace (OperatorReconcile john) world_unreachable) =
    [Some (ErrorString "connection refused")] ∧
  closings (trace (OperatorReconcile john) world_unreachable) = 0.
Proof. split_and!; vm_compute; reflexivity. Qed.

(** A privilege in the database that the operator itself is connected to
    removes the certificate files of the operator's own connection, which is
    still open; a privilege in another database leaves them. *)
Theorem own_database_certificates :
  certificates_of (final (grant_in "dbname") world0) = [false; false; false] ∧
  handles (trace (grant_in "dbname") world0) = [(true, 0); (true, 1); (false, 1)] ∧
  certificates_of (final (grant_in "other") world0) = [true; true; true].
Proof. split_and!; vm_compute; reflexivity. Qed.
