(* ===== verification/GoHeap.v ===== *)
(** * Pointers and slices of Go

    A heap of typed arrays: a pointer from [new] is an array of one element, a
    slice is a window of an array.  Operations run in a state monad in which
    [None] is a Go panic (nil dereference, index out of range).  [deep] reads
    the value below a pointer together with its footprint, the locations it was
    read from; a deep copy is a value with a fresh footprint. *)

From S2P Require Import Prelude.

Notation loc := positive (only parsing).

(** ** Arrays *)

(** [cell] is the type of the arrays of a program; [Stored] its element types. *)
Class Stored (cell T : Type) := {
  to_cell : list T → cell;
  of_cell : cell → option (list T);
  of_to_cell l : of_cell (to_cell l) = Some l
}.

(** The zero value of a type. *)
Class GoZero (T : Type) := zero : T.

(** A slice: [None] is nil. *)
Record window := mkWindow { w_array : loc; w_offset : nat; w_len : nat }.
Definition slice (T : Type) : Type := option window.
Definition pointer (T : Type) : Type := option loc.

Notation heap cell := (gmap loc cell).

Section Heap.
Context {cell : Type}.

Definition M (A : Type) : Type := heap cell → option (A * heap cell).

Definition mret {A} (a : A) : M A := λ h, Some (a, h).
Definition mpanic {A} : M A := λ _, None.
Definition mlet {A B} (m : M A) (f : A → M B) : M B :=
  λ h, match m h with Some (a, h') => f a h' | None => None end.
Definition mopt {A} (o : option A) : M A := λ h, match o with Some a => Some (a, h) | None => None end.

Definition array_at {T} `{Stored cell T} (h : heap cell) (p : loc) : option (list T) :=
  match h !! p with Some c => of_cell c | None => None end.

Definition load {T} `{Stored cell T} (p : loc) : M (list T) :=
  λ h, match array_at h p with Some l => Some (l, h) | None => None end.
Definition alloc {T} `{Stored cell T} (l : list T) : M loc :=
  λ h, let p := fresh (dom h) in Some (p, <[p := to_cell l]> h).
Definition store {T} `{Stored cell T} (p : loc) (l : list T) : M () :=
  λ h, Some ((), <[p := to_cell l]> h).

Definition slice_len {T} (s : slice T) : nat := match s with Some w => w_len w | None => 0 end.

(** [s[i]] and [s[i] = x] *)
Definition slice_get {T} `{Stored cell T} (s : slice T) (i : nat) : M T :=
  match s with
  | Some w =>
      if i <? w_len w then mlet (load (w_array w)) (λ l, mopt (l !! (w_offset w + i))) else mpanic
  | None => mpanic
  end.
Definition slice_set {T} `{Stored cell T} (s : slice T) (i : nat) (x : T) : M () :=
  match s with
  | Some w =>
      if i <? w_len w then
        mlet (load (T:=T) (w_array w)) (λ l,
          if w_offset w + i <? length l then store (w_array w) (<[w_offset w + i := x]> l) else mpanic)
      else mpanic
  | None => mpanic
  end.

(** [new(T)], [*p] and [*p = x] *)
Definition new {T} `{Stored cell T} `{GoZero T} : M loc := alloc [zero].
Definition deref {T} `{Stored cell T} (p : pointer T) : M T :=
  match p with Some p => mlet (load p) (λ l, mopt (head l)) | None => mpanic end.
Definition assign {T} `{Stored cell T} (p : loc) (x : T) : M () :=
  slice_set (Some (mkWindow p 0 1)) 0 x.

(** [make([]T, n)] and the elements of a slice *)
Definition make {T} `{Stored cell T} `{GoZero T} (n : nat) : M (slice T) :=
  mlet (alloc (replicate n zero)) (λ p, mret (Some (mkWindow p 0 n))).
Definition elems {T} `{Stored cell T} (s : slice T) (h : heap cell) : option (list T) :=
  match s with
  | None => Some []
  | Some w =>
      match array_at h (w_array w) with
      | Some l => if w_offset w + w_len w <=? length l then Some (take (w_len w) (drop (w_offset w) l)) else None
      | None => None
      end
  end.

(** [copy(dst, src)] of slices of the same length: all elements are read first. *)
Fixpoint set_all {T} `{Stored cell T} (dst : slice T) (i : nat) (xs : list T) : M () :=
  match xs with
  | [] => mret ()
  | x :: xs => mlet (slice_set dst i x) (λ _, set_all dst (S i) xs)
  end.
Definition copy_ {T} `{Stored cell T} (dst src : slice T) : M () :=
  λ h, match elems src h with
       | Some xs => set_all dst 0 (take (slice_len dst) xs) h
       | None => None
       end.

(** The loop that copies the elements of [in] into those of [out], over the
    indices that are left. *)
Fixpoint copy_items {T} `{Stored cell T} (into : T → M T) (inp out : slice T) (idx : list nat) : M () :=
  match idx with
  | [] => mret ()
  | i :: idx =>
      mlet (slice_get inp i) (λ x,
      mlet (into x) (λ y,
      mlet (slice_set out i y) (λ _, copy_items into inp out idx)))
  end.
End Heap.
Arguments M cell A : clear implicits.

Notation "'let*' x := p 'in' q" := (mlet p (λ x, q))
  (at level 200, x pattern, p at level 100, q at level 200) : op_scope.
Notation "'do*' p 'in' q" := (mlet p (λ _, q))
  (at level 200, p at level 100, q at level 200) : op_scope.
Open Scope op_scope.

(** ** Reading a value with its footprint *)

(** [deep h x]: the value of [x] with everything it refers to, and the locations
    that were read. *)
Class Deep (cell T V : Type) := deep : heap cell → T → option (V * gset loc).

(** The heaps have the same arrays at the locations [X]. *)
Definition agree {cell} (X : gset loc) (h h' : heap cell) : Prop := ∀ l, l ∈ X → h' !! l = h !! l.

Class DeepLaws (cell T V : Type) `{Deep cell T V} := {
  deep_frame h h' (x : T) (v : V) X : deep h x = Some (v, X) → agree X h h' → deep h' x = Some (v, X);
  deep_dom h (x : T) (v : V) X : deep h x = Some (v, X) → X ⊆ dom h
}.

(** A copy: the same value, in locations that were free, and nothing else is
    changed. *)
Definition copies {cell T V} `{Deep cell T V} (into : T → M cell T) : Prop :=
  ∀ h x (v : V) X, deep h x = Some (v, X) →
  ∃ y h' Y, into x h = Some (y, h') ∧ h ⊆ h' ∧ deep h' y = Some (v, Y) ∧ Y ## dom h.

(** Types without references. *)
Class Flat (T : Type) : Prop := is_flat : True.

Section Deep.
Context {cell : Type}.
Implicit Types (h : heap cell) (X Y : gset loc).

Lemma agree_union X Y h h' : agree (X ∪ Y) h h' ↔ agree X h h' ∧ agree Y h h'.
Proof. unfold agree. split; [intros H; split; intros; apply H; set_solver|set_solver]. Qed.

Lemma agree_subseteq X h h' : h ⊆ h' → X ⊆ dom h → agree X h h'.
Proof.
  intros Hs Hd l [c Hc]%Hd%elem_of_dom. rewrite Hc. by eapply lookup_weaken.
Qed.

Lemma agree_insert X h p c : p ∉ X → agree X h (<[p := c]> h).
Proof. intros Hp l Hl. rewrite lookup_insert_ne; [done|]. by intros ->. Qed.

(** Values without references *)
Global Instance deep_flat {T} `{Flat T} : Deep cell T T := λ _ x, Some (x, ∅).

Global Instance deep_flat_laws {T} `{Flat T} : DeepLaws cell T T.
Proof. split; intros; unfold deep, deep_flat in *; simplify_eq/=; set_solver. Qed.

(** Slices *)
Global Instance deep_slice {T V} `{Stored cell T} `{Deep cell T V} : Deep cell (slice T) (option (list V)) :=
  λ h s,
    match s with
    | None => Some (None, ∅)
    | Some w =>
        match elems s h ≫= mapM (deep h) with
        | Some ys => Some (Some ys.*1, {[w_array w]} ∪ ⋃ ys.*2)
        | None => None
        end
    end.

(** Pointers to one value *)
Global Instance deep_pointer {T V} `{Stored cell T} `{Deep cell T V} : Deep cell (pointer T) (option V) :=
  λ h p,
    match p with
    | None => Some (None, ∅)
    | Some l =>
        match elems (Some (mkWindow l 0 1)) h ≫= mapM (deep h) with
        | Some [(v, X)] => Some (Some v, {[l]} ∪ X)
        | _ => None
        end
    end.

(** ** Laws of slices and pointers *)

Lemma elems_agree {T} `{Stored cell T} (s : slice T) h h' :
  (∀ w, s = Some w → h' !! w_array w = h !! w_array w) → elems s h' = elems s h.
Proof. destruct s as [w|]; simpl; [|done]. unfold array_at. intros E. by rewrite (E w eq_refl). Qed.

Lemma deep_list_frame {T V} `{DeepLaws cell T V} h h' (xs : list T) (ys : list (V * gset loc)) :
  mapM (deep h) xs = Some ys → agree (⋃ ys.*2) h h' → mapM (deep h') xs = Some ys.
Proof.
  rewrite !mapM_Some. induction 1 as [|x [v X] xs ys Hx _ IH]; simpl; [constructor|].
  intros [Ha Hb]%agree_union. constructor; [by eapply deep_frame|auto].
Qed.

Lemma deep_list_dom {T V} `{DeepLaws cell T V} h (xs : list T) (ys : list (V * gset loc)) :
  mapM (deep h) xs = Some ys → ⋃ ys.*2 ⊆ dom h.
Proof.
  rewrite mapM_Some. induction 1 as [|x [v X] xs ys Hx _ IH]; simpl; [set_solver|].
  apply union_subseteq. split; [by eapply deep_dom|done].
Qed.

Lemma elems_dom {T} `{Stored cell T} w h (xs : list T) :
  elems (Some w) h = Some xs → w_array w ∈ dom h.
Proof. simpl. unfold array_at. intros E. apply elem_of_dom. by destruct (h !! w_array w) eqn:?. Qed.

Lemma deep_slice_inv {T V} `{Stored cell T} `{Deep cell T V} h w (v : option (list V)) X :
  deep h (Some w : slice T) = Some (v, X) →
  ∃ (xs : list T) (ys : list (V * gset loc)), elems (Some w) h = Some xs ∧
    mapM (deep h) xs = Some ys ∧ v = Some ys.*1 ∧ X = {[w_array w]} ∪ ⋃ ys.*2.
Proof.
  unfold deep at 1, deep_slice. destruct (elems (Some w) h) as [xs|]; [|done]. simpl.
  destruct (mapM (deep h) xs) as [ys|] eqn:E; [|done]. intros [= <- <-]. eauto 7.
Qed.

Lemma deep_slice_intro {T V} `{Stored cell T} `{Deep cell T V} h w (xs : list T)
    (ys : list (V * gset loc)) :
  elems (Some w) h = Some xs → mapM (deep h) xs = Some ys →
  deep h (Some w : slice T) = Some (Some ys.*1, {[w_array w]} ∪ ⋃ ys.*2).
Proof. intros E1 E2. unfold deep at 1, deep_slice. rewrite E1. simpl. by rewrite E2. Qed.

Global Instance deep_slice_laws {T V} `{Stored cell T} `{DeepLaws cell T V} :
  DeepLaws cell (slice T) (option (list V)).
Proof.
  split.
  - intros h h' [w|] v X Hd Ha; [|exact Hd].
    apply deep_slice_inv in Hd as (xs & ys & E1 & E2 & -> & ->). apply agree_union in Ha as [Hw Ha].
    apply deep_slice_intro with (xs := xs); [|by eapply deep_list_frame].
    rewrite <- E1. apply elems_agree. intros ? [= <-]. apply Hw. set_solver.
  - intros h [w|] v X Hd; [|injection Hd as <- <-; set_solver].
    apply deep_slice_inv in Hd as (xs & ys & E1 & E2 & -> & ->).
    apply elems_dom in E1. apply deep_list_dom in E2. set_solver.
Qed.

Lemma deep_pointer_inv {T V} `{Stored cell T} `{Deep cell T V} h l (v : option V) X :
  deep h (Some l : pointer T) = Some (v, X) →
  ∃ (x : T) (u : V) Y, elems (Some (mkWindow l 0 1)) h = Some [x] ∧
    deep h x = Some (u, Y) ∧ v = Some u ∧ X = {[l]} ∪ Y.
Proof.
  unfold deep at 1, deep_pointer. destruct (elems _ h) as [xs|]; [|done]. simpl.
  destruct xs as [|x [|x2 xs]]; simpl; [done| |].
  - destruct (deep h x) as [[u Y]|] eqn:E; [|done]. simpl. intros [= <- <-]. eauto 8.
  - destruct (deep h x) as [[u Y]|]; [|done]. simpl. destruct (deep h x2) as [[u2 Y2]|]; [|done]. simpl.
    by destruct (mapM (deep h) xs).
Qed.

Lemma deep_pointer_intro {T V} `{Stored cell T} `{Deep cell T V} h l (x : T) (u : V) Y :
  elems (Some (mkWindow l 0 1)) h = Some [x] → deep h x = Some (u, Y) →
  deep h (Some l : pointer T) = Some (Some u, {[l]} ∪ Y).
Proof. intros E1 E2. unfold deep at 1, deep_pointer. rewrite E1. simpl. by rewrite E2. Qed.

Global Instance deep_pointer_laws {T V} `{Stored cell T} `{DeepLaws cell T V} :
  DeepLaws cell (pointer T) (option V).
Proof.
  split.
  - intros h h' [l|] v X Hd Ha; [|exact Hd].
    apply deep_pointer_inv in Hd as (x & u & Y & E1 & E2 & -> & ->). apply agree_union in Ha as [Hl Ha].
    apply deep_pointer_intro with (x := x); [|by eapply deep_frame].
    rewrite <- E1. apply elems_agree. intros ? [= <-]. apply Hl. simpl. set_solver.
  - intros h [l|] v X Hd; [|injection Hd as <- <-; set_solver].
    apply deep_pointer_inv in Hd as (x & u & Y & E1 & E2 & -> & ->).
    apply elems_dom in E1. apply deep_dom in E2. simpl in E1. set_solver.
Qed.
End Deep.

(** ** The blocks of a deep copy *)

Section Copy.
Context {cell : Type}.
Implicit Types (h : heap cell) (X Y : gset loc).

(** A slice of values without references: [make] and [copy]. *)
Definition copy_flat_slice {T} `{Stored cell T} `{GoZero T} (s : slice T) : M cell (slice T) :=
  match s with
  | None => mret None
  | Some _ =>
      let* out := make (slice_len s) in
      do* copy_ out s in
      mret out
  end.

(** A slice of values with references: [make] and a loop. *)
Definition copy_slice {T} `{Stored cell T} `{GoZero T} (into : T → M cell T) (s : slice T)
    : M cell (slice T) :=
  match s with
  | None => mret None
  | Some _ =>
      let* out := make (slice_len s) in
      do* copy_items into s out (seq 0 (slice_len s)) in
      mret out
  end.

(** A pointer to a value without references: [new] and an assignment. *)
Definition copy_pointer {T} `{Stored cell T} `{GoZero T} (p : pointer T) : M cell (pointer T) :=
  match p with
  | None => mret None
  | Some _ =>
      let* out := new (T:=T) in
      let* x := deref p in
      do* assign out x in
      mret (Some out)
  end.

(** The method [DeepCopy], from [DeepCopyInto]. *)
Definition deep_copy {T} `{Stored cell T} `{GoZero T} (into : T → M cell T) (inp : pointer T)
    : M cell (pointer T) :=
  match inp with
  | None => mret None
  | Some _ =>
      let* out := new (T:=T) in
      let* x := deref inp in
      let* y := into x in
      do* assign out y in
      mret (Some out)
  end.

(** ** What they do *)

Lemma subseteq_insert_fresh h h' p c : h !! p = None → h ⊆ h' → h ⊆ <[p := c]> h'.
Proof.
  intros Hp Hs. apply map_subseteq_spec. intros l d Hl. rewrite lookup_insert_ne.
  - by eapply lookup_weaken.
  - intros ->. congruence.
Qed.

Lemma fresh_dom h : h !! fresh (dom h) = None.
Proof. apply not_elem_of_dom, is_fresh. Qed.

Lemma slice_get_elems {T} `{Stored cell T} (s : slice T) h (xs : list T) i x :
  elems s h = Some xs → xs !! i = Some x → slice_get s i h = Some (x, h).
Proof.
  destruct s as [w|]; [|by intros [= <-]]. unfold elems, slice_get, mlet, load.
  destruct (array_at h (w_array w)) as [l|] eqn:El; [|done].
  destruct (w_offset w + w_len w <=? length l) eqn:E; [|done]. intros [= <-] Hi.
  apply Nat.leb_le in E. apply lookup_take_Some in Hi as [Hi Hlt]. rewrite lookup_drop in Hi.
  destruct (i <? w_len w) eqn:Ei; [|apply Nat.ltb_ge in Ei; lia]. rewrite El. unfold mopt. by rewrite Hi.
Qed.

Lemma slice_set_window {T} `{Stored cell T} p n h (l : list T) i x :
  h !! p = Some (to_cell l) → i < n → i < length l →
  slice_set (Some (mkWindow p 0 n)) i x h = Some ((), <[p := to_cell (<[i := x]> l)]> h).
Proof.
  intros Hp Hi Hl. simpl. apply Nat.ltb_lt in Hi as ->. unfold mlet, load, array_at. rewrite Hp. simpl.
  rewrite of_to_cell. by apply Nat.ltb_lt in Hl as ->.
Qed.

Lemma elems_full {T} `{Stored cell T} p n h (l : list T) :
  h !! p = Some (to_cell l) → length l = n → elems (Some (mkWindow p 0 n)) h = Some l.
Proof.
  intros Hp Hl. simpl. unfold array_at. rewrite Hp. simpl. rewrite of_to_cell.
  assert (n <=? length l = true) as -> by (apply Nat.leb_le; lia). by rewrite drop_0, take_ge by lia.
Qed.

(** The invariant of a loop that fills the fresh array [p]: the heap from before
    is kept, and the elements [zs] that are done have the values [vs] with
    footprints that are new. *)
Record filled {T V} `{Stored cell T} `{Deep cell T V} (h0 : heap cell) (p : loc)
    (zs rest : list T) (vs : list V) (h : heap cell) : Prop := {
  filled_kept : h0 ⊆ h;
  filled_array : h !! p = Some (to_cell (zs ++ rest));
  filled_values : ∃ us : list (V * gset loc), mapM (deep h) zs = Some us ∧ us.*1 = vs ∧
    ⋃ us.*2 ## dom h0 ∪ {[p]}
}.

Lemma filled_step {T V} `{Stored cell T} `{DeepLaws cell T V} h0 p n (zs rest : list T)
    (vs : list V) (into : T → M cell T) h r x v X :
  copies into → h0 !! p = None → length zs < n →
  filled h0 p zs (r :: rest) vs h → deep h0 x = Some (v, X) →
  ∃ y h1 h2, into x h = Some (y, h1) ∧
    slice_set (Some (mkWindow p 0 n)) (length zs) y h1 = Some ((), h2) ∧
    filled h0 p (zs ++ [y]) rest (vs ++ [v]) h2.
Proof.
  intros Hc Hp Hn [Hk Ha (us & Hus & <- & Hd)] Hx.
  assert (deep h x = Some (v, X)) as Hx'.
  { eapply deep_frame; [exact Hx|]. apply agree_subseteq; [done|]. by eapply deep_dom. }
  destruct (Hc h x v X Hx') as (y & h1 & Y & Hy & Hs & Hdy & HY).
  assert (p ∈ dom h) as Hph by (apply elem_of_dom; eauto).
  assert (h1 !! p = Some (to_cell (zs ++ r :: rest))) as Ha1 by (by eapply lookup_weaken).
  exists y, h1, (<[p := to_cell (<[length zs := y]> (zs ++ r :: rest))]> h1). split_and!; [done| |].
  { apply slice_set_window; [done|done|]. rewrite length_app. simpl. lia. }
  rewrite insert_app_r_alt, Nat.sub_diag by lia. simpl. split.
  - apply subseteq_insert_fresh; [done|]. by etransitivity.
  - by rewrite lookup_insert_eq, <- app_assoc.
  - exists (us ++ [(v, Y)]). rewrite !fmap_app, union_list_app. simpl.
    assert (dom h0 ⊆ dom h) by (by apply subseteq_dom).
    split_and!; [|done|set_solver].
    apply mapM_Some, Forall2_app; [|constructor; [|constructor]].
    + apply mapM_Some. eapply deep_list_frame; [exact Hus|]. intros l Hl.
      rewrite lookup_insert_ne by set_solver. pose proof (deep_list_dom _ _ _ Hus l Hl) as [c Hcl]%elem_of_dom.
      rewrite Hcl. by eapply lookup_weaken.
    + eapply deep_frame; [exact Hdy|]. apply agree_insert. set_solver.
Qed.

Lemma copy_items_filled {T V} `{Stored cell T} `{DeepLaws cell T V} h0 p n (s : slice T)
    (into : T → M cell T) (xs1 xs2 zs rest : list T) (vs : list V) ys h :
  copies into → h0 !! p = None → elems s h0 = Some (xs1 ++ xs2) →
  length zs = length xs1 → length rest = length xs2 → length zs + length rest = n →
  mapM (deep h0) xs2 = Some ys → filled h0 p zs rest vs h →
  ∃ h' zs', copy_items into s (Some (mkWindow p 0 n)) (seq (length xs1) (length xs2)) h = Some ((), h') ∧
    length zs' = n ∧ filled h0 p zs' [] (vs ++ ys.*1) h'.
Proof.
  intros Hc Hp Hs Hz. revert xs1 zs rest vs ys h Hs Hz.
  induction xs2 as [|x xs2 IH]; intros xs1 zs rest vs ys h Hs Hz Hr Hn Hys Hf.
  - destruct rest; [|done]. injection Hys as <-. simpl. rewrite app_nil_r. simpl in Hn.
    exists h, zs. split_and!; [done|lia|done].
  - destruct rest as [|r rest]; [done|]. simpl in Hr, Hn.
    apply mapM_Some in Hys. inversion Hys as [|? [v X] ? ys' Hx Hys' E1 E2]; subst.
    destruct (filled_step h0 p (length zs + S (length rest)) zs rest vs into h r x v X)
      as (y & h1 & h2 & Hy & Hset & Hf2); [done|done|lia|done|done|].
    assert (elems s h = Some (xs1 ++ x :: xs2)) as Hsh.
    { rewrite <- Hs. apply elems_agree. intros w ->. apply elems_dom in Hs as [c Hw]%elem_of_dom.
      rewrite Hw. eapply lookup_weaken; [done|apply Hf]. }
    destruct (IH (xs1 ++ [x]) (zs ++ [y]) rest (vs ++ [v]) ys' h2) as (h' & zs' & Hl & Hlen & Hf'); try done.
    + by rewrite <- app_assoc.
    + rewrite !length_app. simpl. lia.
    + lia.
    + rewrite length_app. simpl. lia.
    + by apply mapM_Some.
    + exists h', zs'. split_and!; [|done|by rewrite <- app_assoc in Hf'].
      cbn [length seq copy_items]. unfold mlet at 1.
      assert (slice_get s (length xs1) h = Some (x, h)) as ->
        by (eapply slice_get_elems; [exact Hsh|by apply list_lookup_middle]).
      unfold mlet at 1. rewrite Hy. unfold mlet at 1. rewrite <- Hz. rewrite Hset.
      rewrite length_app in Hl. simpl in Hl. rewrite Nat.add_1_r in Hl.
      rewrite Hz in Hl |- *. exact Hl.
Qed.

Lemma replicate_cell {T} `{Stored cell T} `{GoZero T} n h :
  make (T:=T) n h = Some (Some (mkWindow (fresh (dom h)) 0 n),
    <[fresh (dom h) := to_cell (replicate n (zero : T))]> h).
Proof. done. Qed.

Lemma elems_length {T} `{Stored cell T} (s : slice T) h (xs : list T) :
  elems s h = Some xs → length xs = slice_len s.
Proof.
  destruct s as [w|]; simpl; [|by intros [= <-]]. destruct (array_at h (w_array w)) as [l|]; [|done].
  destruct (_ <=? _) eqn:E; [|done]. intros [= <-]. apply Nat.leb_le in E.
  rewrite length_take, length_drop. lia.
Qed.

Lemma copy_slice_copies {T V} `{Stored cell T} `{GoZero T} `{DeepLaws cell T V} (into : T → M cell T) :
  copies into → copies (copy_slice into).
Proof.
  intros Hc h s v X Hd. destruct s as [w|].
  2: { injection Hd as <- <-. exists None, h, ∅. split_and!; [done|reflexivity|done|set_solver]. }
  apply deep_slice_inv in Hd as (xs & ys & E1 & E2 & -> & ->).
  pose proof (elems_length _ _ _ E1) as Hlen. set (p := fresh (dom h)).
  pose proof (fresh_dom h) as Hp. fold p in Hp.
  destruct (copy_items_filled h p (w_len w) (Some w) into [] xs [] (replicate (w_len w) zero) [] ys
    (<[p := to_cell (replicate (w_len w) (zero : T))]> h)) as (h' & zs & Hl & Hz & [Hk Ha (us & Hus & Hv & Hd)]);
    try done; [by rewrite length_replicate|by rewrite length_replicate| |].
  { split; [|by rewrite lookup_insert_eq|exists []; set_solver].
    by apply subseteq_insert_fresh. }
  exists (Some (mkWindow p 0 (w_len w))), h', ({[p]} ∪ ⋃ us.*2). split_and!.
  - unfold copy_slice. unfold mlet at 1. rewrite replicate_cell. fold p. cbn [slice_len].
    unfold mlet. simpl in Hlen. rewrite <- Hlen. simpl in Hl. rewrite <- Hlen in Hl. by rewrite Hl.
  - done.
  - simpl in Hv. rewrite <- Hv. apply (deep_slice_intro h' (mkWindow p 0 (w_len w)) zs us); [|done].
    apply elems_full; [|done]. by rewrite app_nil_r in Ha.
  - assert (p ∉ dom h) by (by apply not_elem_of_dom). set_solver.
Qed.

Lemma set_all_window {T} `{Stored cell T} p n (xs zs rest : list T) h :
  h !! p = Some (to_cell (zs ++ rest)) → length rest = length xs → length zs + length xs ≤ n →
  set_all (Some (mkWindow p 0 n)) (length zs) xs h = Some ((), <[p := to_cell (zs ++ xs)]> h).
Proof.
  revert zs rest h. induction xs as [|x xs IH]; intros zs rest h Hp Hr Hn.
  - destruct rest; [|done]. cbn [set_all]. unfold mret. by rewrite insert_id.
  - destruct rest as [|r rest]; [done|]. simpl in Hr, Hn. cbn [set_all]. unfold mlet.
    rewrite (slice_set_window p n h (zs ++ r :: rest)) by (rewrite ?length_app; simpl; done || lia).
    rewrite insert_app_r_alt, Nat.sub_diag by lia. change (<[0:=x]> (r :: rest)) with (x :: rest).
    specialize (IH (zs ++ [x]) rest (<[p := to_cell (zs ++ x :: rest)]> h)).
    rewrite length_app in IH. simpl in IH. rewrite Nat.add_1_r, <- !app_assoc in IH. simpl in IH.
    rewrite IH by (rewrite ?lookup_insert_eq; done || lia). by rewrite insert_insert_eq.
Qed.

Lemma mapM_flat {T} `{Flat T} h (xs : list T) :
  mapM (deep h) xs = Some ((λ x, (x, ∅ : gset loc)) <$> xs).
Proof. induction xs as [|x xs IH]; simpl; [done|]. by rewrite IH. Qed.

Lemma flat_values {T} (xs : list T) : ((λ x, (x, ∅ : gset loc)) <$> xs).*1 = xs.
Proof. induction xs; simpl; [done|]. by f_equal. Qed.

Lemma flat_footprint {T} (xs : list T) : ⋃ ((λ x, (x, ∅ : gset loc)) <$> xs).*2 = ∅.
Proof.
  induction xs as [|x xs IH]; [done|].
  change (∅ ∪ ⋃ ((λ x, (x, ∅ : gset loc)) <$> xs).*2 = ∅). rewrite IH. set_solver.
Qed.

Lemma copy_flat_slice_copies {T} `{Stored cell T} `{GoZero T} `{Flat T} :
  copies (V:=option (list T)) (copy_flat_slice (T:=T)).
Proof.
  intros h s v X Hd. destruct s as [w|].
  2: { injection Hd as <- <-. exists None, h, ∅. split_and!; [done|reflexivity|done|set_solver]. }
  apply deep_slice_inv in Hd as (xs & ys & E1 & E2 & -> & ->).
  rewrite mapM_flat in E2. injection E2 as <-. rewrite flat_values.
  pose proof (elems_length _ _ _ E1) as Hlen. simpl in Hlen.
  set (p := fresh (dom h)). pose proof (fresh_dom h) as Hp. fold p in Hp.
  set (h1 := <[p := to_cell (replicate (w_len w) (zero : T))]> h).
  assert (elems (Some w) h1 = Some xs) as E1'.
  { rewrite <- E1. apply elems_agree. intros ? [= <-]. apply elems_dom in E1.
    unfold h1. rewrite lookup_insert_ne; [done|]. intros E. apply elem_of_dom in E1 as [? E1]. congruence. }
  exists (Some (mkWindow p 0 (w_len w))), (<[p := to_cell xs]> h1), ({[p]} ∪ ∅). split_and!.
  - unfold copy_flat_slice, mlet. rewrite replicate_cell. cbn [slice_len].
    fold p h1. unfold copy_. rewrite E1'. cbn [slice_len w_len]. rewrite take_ge by lia.
    by rewrite (set_all_window p (w_len w) xs [] (replicate (w_len w) (zero : T)) h1)
      by (unfold h1; rewrite ?lookup_insert_eq, ?length_replicate; simpl; done || lia).
  - unfold h1. rewrite insert_insert_eq. by apply subseteq_insert_fresh.
  - set (h2 := <[p := to_cell xs]> h1).
    pose proof (deep_slice_intro h2 (mkWindow p 0 (w_len w)) xs ((λ x, (x, ∅)) <$> xs)) as Hd.
    rewrite flat_values, flat_footprint in Hd. apply Hd; [|apply mapM_flat].
    apply elems_full; [by apply lookup_insert_eq|done].
  - assert (p ∉ dom h) by (by apply not_elem_of_dom). set_solver.
Qed.

Lemma new_cell {T} `{Stored cell T} `{GoZero T} h :
  new (T:=T) h = Some (fresh (dom h), <[fresh (dom h) := to_cell [zero : T]]> h).
Proof. done. Qed.

Lemma deref_elems {T} `{Stored cell T} l h (x : T) :
  elems (Some (mkWindow l 0 1)) h = Some [x] → deref (Some l) h = Some (x, h).
Proof.
  unfold elems, deref, mlet, load. cbn [w_array w_offset w_len].
  destruct (array_at h l) as [[|y xs]|]; [done| |done]. by intros [= <-].
Qed.

Lemma assign_cell {T} `{Stored cell T} p h (x y : T) :
  h !! p = Some (to_cell [x]) → assign p y h = Some ((), <[p := to_cell [y]]> h).
Proof. intros Hp. apply (slice_set_window p 1 h [x] 0 y); simpl; [done|lia|lia]. Qed.

(** [DeepCopy] of a pointer copies what is below it. *)
Lemma deep_copy_copies {T V} `{Stored cell T} `{GoZero T} `{DeepLaws cell T V} (into : T → M cell T) :
  copies into → copies (V:=option V) (deep_copy into).
Proof.
  intros Hc h inp v X Hd. destruct inp as [l|].
  2: { injection Hd as <- <-. exists None, h, ∅. split_and!; [done|reflexivity|done|set_solver]. }
  pose proof (deep_dom _ _ _ _ Hd) as Hdom.
  apply deep_pointer_inv in Hd as (x & u & Y & E1 & E2 & -> & ->).
  set (p := fresh (dom h)). pose proof (fresh_dom h) as Hp. fold p in Hp.
  set (h1 := <[p := to_cell [zero : T]]> h).
  assert (p ∉ {[l]} ∪ Y) as Hpn by (intros E%Hdom%elem_of_dom; destruct E as [? E]; congruence).
  assert (elems (Some (mkWindow l 0 1)) h1 = Some [x]) as E1'.
  { rewrite <- E1. apply elems_agree. intros ? [= <-]. unfold h1. rewrite lookup_insert_ne; [done|].
    simpl. set_solver. }
  assert (deep h1 x = Some (u, Y)) as E2'.
  { eapply deep_frame; [exact E2|]. apply agree_insert. set_solver. }
  destruct (Hc h1 x u Y E2') as (y & h2 & Z & Hy & Hs & Hdy & HZ).
  assert (h2 !! p = Some (to_cell [zero : T])) as Hp2 by (eapply lookup_weaken; [by rewrite lookup_insert_eq|done]).
  assert (dom h1 = {[p]} ∪ dom h) as Hd1 by apply dom_insert_L.
  exists (Some p), (<[p := to_cell [y]]> h2), ({[p]} ∪ Z). split_and!.
  - unfold deep_copy, mlet. rewrite new_cell. fold p h1. rewrite (deref_elems l h1 x E1'), Hy.
    by rewrite (assign_cell p h2 zero y Hp2).
  - apply subseteq_insert_fresh; [done|]. etransitivity; [|exact Hs]. by apply subseteq_insert_fresh.
  - apply (deep_pointer_intro _ p y).
    + apply elems_full; [by rewrite lookup_insert_eq|done].
    + eapply deep_frame; [exact Hdy|]. apply agree_insert. set_solver.
  - assert (p ∉ dom h) by (by apply not_elem_of_dom). set_solver.
Qed.

Lemma flat_copies {T} `{Flat T} (into : T → M cell T) :
  (∀ x h, into x h = Some (x, h)) → copies (V:=T) into.
Proof.
  intros Hi h x v X Hd. injection Hd as <- <-. exists x, h, ∅. split_and!; [done|reflexivity|done|set_solver].
Qed.

Lemma copy_pointer_deep_copy {T} `{Stored cell T} `{GoZero T} (q : pointer T) h :
  copy_pointer q h = deep_copy mret q h.
Proof. by destruct q. Qed.

Lemma copy_pointer_copies {T} `{Stored cell T} `{GoZero T} `{Flat T} :
  copies (V:=option T) (copy_pointer (T:=T)).
Proof.
  intros h q v X Hd. rewrite copy_pointer_deep_copy.
  exact (deep_copy_copies (V:=T) mret (flat_copies mret (λ _ _, eq_refl)) h q v X Hd).
Qed.

(** Two copies one after the other, and a value that is put together. *)
Lemma copies_seq {T1 V1 T2 V2} `{DeepLaws cell T1 V1} `{DeepLaws cell T2 V2}
    (f : T1 → M cell T1) (g : T2 → M cell T2) h x1 x2 (v1 : V1) (v2 : V2) X1 X2 :
  copies f → copies g → deep h x1 = Some (v1, X1) → deep h x2 = Some (v2, X2) →
  ∃ y1 y2 h1 h2 Y1 Y2, f x1 h = Some (y1, h1) ∧ g x2 h1 = Some (y2, h2) ∧ h ⊆ h2 ∧
    deep h2 y1 = Some (v1, Y1) ∧ deep h2 y2 = Some (v2, Y2) ∧ Y1 ∪ Y2 ## dom h.
Proof.
  intros Hf Hg E1 E2. destruct (Hf h x1 v1 X1 E1) as (y1 & h1 & Y1 & Hf1 & Hs1 & Hd1 & HY1).
  assert (deep h1 x2 = Some (v2, X2)) as E2'.
  { eapply deep_frame; [exact E2|]. apply agree_subseteq; [done|]. by eapply deep_dom. }
  destruct (Hg h1 x2 v2 X2 E2') as (y2 & h2 & Y2 & Hg2 & Hs2 & Hd2 & HY2).
  exists y1, y2, h1, h2, Y1, Y2. split_and!; try done.
  - by etransitivity.
  - eapply deep_frame; [exact Hd1|]. apply agree_subseteq; [done|]. exact (deep_dom _ _ _ _ Hd1).
  - pose proof (subseteq_dom _ _ Hs1). set_solver.
Qed.
End Copy.

(** ** Isolation *)

(** After the copy, whatever is done to the original leaves the copy as it is,
    and the other way round. *)
Definition isolated {cell T V} `{Stored cell T} `{Deep cell T V}
    (copy : pointer T → M cell (pointer T)) : Prop :=
  (∀ h, copy None h = Some (None, h)) ∧
  ∀ h l (v : option V) X, deep h (Some l : pointer T) = Some (v, X) →
  ∃ l' h' Y, copy (Some l) h = Some (Some l', h') ∧ h ⊆ h' ∧ X ## Y ∧
    deep h' (Some l' : pointer T) = Some (v, Y) ∧
    (∀ h2, agree Y h' h2 → deep h2 (Some l' : pointer T) = Some (v, Y)) ∧
    (∀ h2, agree X h' h2 → deep h2 (Some l : pointer T) = Some (v, X)).

Lemma deep_copy_isolated {cell T V} `{Stored cell T} `{GoZero T} `{DeepLaws cell T V}
    (into : T → M cell T) :
  copies into → isolated (V:=V) (deep_copy into).
Proof.
  intros Hc. split; [done|]. intros h l v X Hd.
  destruct (deep_copy_copies into Hc h (Some l) v X Hd) as (q & h' & Y & Hq & Hs & Hdq & HY).
  pose proof (deep_dom _ _ _ _ Hd) as Hdom.
  destruct q as [l'|].
  - exists l', h', Y. split_and!; [done|done|set_solver|done| |].
    + intros h2 Ha. by eapply deep_frame.
    + intros h2 Ha. eapply deep_frame; [|exact Ha]. eapply deep_frame; [exact Hd|].
      by apply agree_subseteq.
  - exfalso. apply deep_pointer_inv in Hd as (x & u & Z & _ & _ & -> & _). by injection Hdq.
Qed.
