(* ===== verification/DeepCopy.v ===== *)
(** * The generated deep copies (api/v1alpha1/zz_generated.deepcopy.go)

    The objects of [Api] as they lie in memory: slices and pointers refer to a
    [GoHeap] heap.  [DeepCopyInto] takes the value of [*in] and returns the one
    [*out] has in the end; [DeepCopy] and [DeepCopyObject] work on pointers.
    The metadata of apimachinery and its copies are those of the library. *)

From S2P Require Import Prelude Api GoHeap.

(** ** Layouts *)

(** [metav1.TypeMeta] *)
Record TypeMeta := mkTypeMeta { Kind : string; APIVersion : string }.

(** The objects over a type of slices [sl], one of pointers [pt] and the
    library's [ObjectMeta] ([om]) and [ListMeta] ([lm]): with [slice] and
    [pointer] they are what lies in memory, with lists and options they are
    the values below. *)
Section Layouts.
Context (sl pt : Type → Type) (om lm : Type).

Record go_DatabaseRef := mk_go_DatabaseRef {
  goRef_Name : string;
  goRef_PasswordSecret : Secret;
  goRef_CreatedSecret : NamespacedName;
  goRef_Privileges : sl Name
}.

Record go_UserSpec := mk_go_UserSpec { goUserSpec_Databases : sl go_DatabaseRef }.

Record go_User := mk_go_User {
  goUser_TypeMeta : TypeMeta;
  goUser_ObjectMeta : om;
  goUser_Spec : go_UserSpec;
  goUser_Status : UserStatus
}.

Record go_UserList := mk_go_UserList {
  goUserList_TypeMeta : TypeMeta;
  goUserList_ListMeta : lm;
  goUserList_Items : sl go_User
}.

Record go_Privileges := mk_go_Privileges {
  goPrivileges_TypeMeta : TypeMeta;
  goPrivileges_ObjectMeta : om;
  goPrivileges_Privileges : sl PrivilegeSpec
}.

Record go_PrivilegesList := mk_go_PrivilegesList {
  goPrivilegesList_TypeMeta : TypeMeta;
  goPrivilegesList_ListMeta : lm;
  goPrivilegesList_Items : sl go_Privileges
}.

Record go_DatabaseSpec := mk_go_DatabaseSpec {
  goSpec_Type : string;
  goSpec_PostgreSQL : pt PostgreSQLConfig;
  goSpec_MySQL : pt MySQLConfig
}.

Record go_Database := mk_go_Database {
  goDatabase_TypeMeta : TypeMeta;
  goDatabase_ObjectMeta : om;
  goDatabase_Spec : go_DatabaseSpec
}.

Record go_DatabaseList := mk_go_DatabaseList {
  goDatabaseList_TypeMeta : TypeMeta;
  goDatabaseList_ListMeta : lm;
  goDatabaseList_Items : sl go_Database
}.
End Layouts.
Arguments mk_go_DatabaseRef {sl}.
Arguments goRef_Name {sl}.
Arguments goRef_PasswordSecret {sl}.
Arguments goRef_CreatedSecret {sl}.
Arguments goRef_Privileges {sl}.
Arguments mk_go_UserSpec {sl}.
Arguments goUserSpec_Databases {sl}.
Arguments mk_go_User {sl om}.
Arguments goUser_TypeMeta {sl om}.
Arguments goUser_ObjectMeta {sl om}.
Arguments goUser_Spec {sl om}.
Arguments goUser_Status {sl om}.
Arguments mk_go_UserList {sl om lm}.
Arguments goUserList_TypeMeta {sl om lm}.
Arguments goUserList_ListMeta {sl om lm}.
Arguments goUserList_Items {sl om lm}.
Arguments mk_go_Privileges {sl om}.
Arguments goPrivileges_TypeMeta {sl om}.
Arguments goPrivileges_ObjectMeta {sl om}.
Arguments goPrivileges_Privileges {sl om}.
Arguments mk_go_PrivilegesList {sl om lm}.
Arguments goPrivilegesList_TypeMeta {sl om lm}.
Arguments goPrivilegesList_ListMeta {sl om lm}.
Arguments goPrivilegesList_Items {sl om lm}.
Arguments mk_go_DatabaseSpec {pt}.
Arguments goSpec_Type {pt}.
Arguments goSpec_PostgreSQL {pt}.
Arguments goSpec_MySQL {pt}.
Arguments mk_go_Database {pt om}.
Arguments goDatabase_TypeMeta {pt om}.
Arguments goDatabase_ObjectMeta {pt om}.
Arguments goDatabase_Spec {pt om}.
Arguments mk_go_DatabaseList {sl pt om lm}.
Arguments goDatabaseList_TypeMeta {sl pt om lm}.
Arguments goDatabaseList_ListMeta {sl pt om lm}.
Arguments goDatabaseList_Items {sl pt om lm}.

(** The values below the references: nil and the empty slice are different. *)
Definition values (T : Type) : Type := option (list T).

#[export] Instance Name_flat : Flat Name := I.
#[export] Instance NamespacedName_flat : Flat NamespacedName := I.
#[export] Instance Secret_flat : Flat Secret := I.
#[export] Instance PrivilegeSpec_flat : Flat PrivilegeSpec := I.
#[export] Instance PostgreSQLConfig_flat : Flat PostgreSQLConfig := I.
#[export] Instance MySQLConfig_flat : Flat MySQLConfig := I.
#[export] Instance StatusSummary_flat : Flat StatusSummary := I.
#[export] Instance UserStatus_flat : Flat UserStatus := I.

(** ** The heap of the program *)

(** The arrays of each element type; [lib] are those of the library. *)
Inductive cell (om lm lib : Type) :=
| CellName (l : list Name)
| CellNamespacedName (l : list NamespacedName)
| CellSecret (l : list Secret)
| CellPrivilegeSpec (l : list PrivilegeSpec)
| CellPostgreSQLConfig (l : list PostgreSQLConfig)
| CellMySQLConfig (l : list MySQLConfig)
| CellStatusSummary (l : list StatusSummary)
| CellUserStatus (l : list UserStatus)
| CellDatabaseRef (l : list (go_DatabaseRef slice))
| CellUserSpec (l : list (go_UserSpec slice))
| CellUser (l : list (go_User slice om))
| CellUserList (l : list (go_UserList slice om lm))
| CellPrivileges (l : list (go_Privileges slice om))
| CellPrivilegesList (l : list (go_PrivilegesList slice om lm))
| CellDatabaseSpec (l : list (go_DatabaseSpec pointer))
| CellDatabase (l : list (go_Database pointer om))
| CellDatabaseList (l : list (go_DatabaseList slice pointer om lm))
| CellLibrary (x : lib).

Arguments CellName {om lm lib}.
Arguments CellNamespacedName {om lm lib}.
Arguments CellSecret {om lm lib}.
Arguments CellPrivilegeSpec {om lm lib}.
Arguments CellPostgreSQLConfig {om lm lib}.
Arguments CellMySQLConfig {om lm lib}.
Arguments CellStatusSummary {om lm lib}.
Arguments CellUserStatus {om lm lib}.
Arguments CellDatabaseRef {om lm lib}.
Arguments CellUserSpec {om lm lib}.
Arguments CellUser {om lm lib}.
Arguments CellUserList {om lm lib}.
Arguments CellPrivileges {om lm lib}.
Arguments CellPrivilegesList {om lm lib}.
Arguments CellDatabaseSpec {om lm lib}.
Arguments CellDatabase {om lm lib}.
Arguments CellDatabaseList {om lm lib}.
Arguments CellLibrary {om lm lib}.

Section Stored.
Context {om lm lib : Type}.
Notation cell := (cell om lm lib).

#[export] Instance Name_stored : Stored cell Name := {|
  to_cell := CellName; of_cell c := match c with CellName l => Some l | _ => None end;
  of_to_cell _ := eq_refl
|}.
#[export] Instance NamespacedName_stored : Stored cell NamespacedName := {|
  to_cell := CellNamespacedName; of_cell c := match c with CellNamespacedName l => Some l | _ => None end;
  of_to_cell _ := eq_refl
|}.
#[export] Instance Secret_stored : Stored cell Secret := {|
  to_cell := CellSecret; of_cell c := match c with CellSecret l => Some l | _ => None end;
  of_to_cell _ := eq_refl
|}.
#[export] Instance PrivilegeSpec_stored : Stored cell PrivilegeSpec := {|
  to_cell := CellPrivilegeSpec; of_cell c := match c with CellPrivilegeSpec l => Some l | _ => None end;
  of_to_cell _ := eq_refl
|}.
#[export] Instance PostgreSQLConfig_stored : Stored cell PostgreSQLConfig := {|
  to_cell := CellPostgreSQLConfig; of_cell c := match c with CellPostgreSQLConfig l => Some l | _ => None end;
  of_to_cell _ := eq_refl
|}.
#[export] Instance MySQLConfig_stored : Stored cell MySQLConfig := {|
  to_cell := CellMySQLConfig; of_cell c := match c with CellMySQLConfig l => Some l | _ => None end;
  of_to_cell _ := eq_refl
|}.
#[export] Instance StatusSummary_stored : Stored cell StatusSummary := {|
  to_cell := CellStatusSummary; of_cell c := match c with CellStatusSummary l => Some l | _ => None end;
  of_to_cell _ := eq_refl
|}.
#[export] Instance UserStatus_stored : Stored cell UserStatus := {|
  to_cell := CellUserStatus; of_cell c := match c with CellUserStatus l => Some l | _ => None end;
  of_to_cell _ := eq_refl
|}.
#[export] Instance DatabaseRef_stored : Stored cell (go_DatabaseRef slice) := {|
  to_cell := CellDatabaseRef; of_cell c := match c with CellDatabaseRef l => Some l | _ => None end;
  of_to_cell _ := eq_refl
|}.
#[export] Instance UserSpec_stored : Stored cell (go_UserSpec slice) := {|
  to_cell := CellUserSpec; of_cell c := match c with CellUserSpec l => Some l | _ => None end;
  of_to_cell _ := eq_refl
|}.
#[export] Instance User_stored : Stored cell (go_User slice om) := {|
  to_cell := CellUser; of_cell c := match c with CellUser l => Some l | _ => None end;
  of_to_cell _ := eq_refl
|}.
#[export] Instance UserList_stored : Stored cell (go_UserList slice om lm) := {|
  to_cell := CellUserList; of_cell c := match c with CellUserList l => Some l | _ => None end;
  of_to_cell _ := eq_refl
|}.
#[export] Instance Privileges_stored : Stored cell (go_Privileges slice om) := {|
  to_cell := CellPrivileges; of_cell c := match c with CellPrivileges l => Some l | _ => None end;
  of_to_cell _ := eq_refl
|}.
#[export] Instance PrivilegesList_stored : Stored cell (go_PrivilegesList slice om lm) := {|
  to_cell := CellPrivilegesList; of_cell c := match c with CellPrivilegesList l => Some l | _ => None end;
  of_to_cell _ := eq_refl
|}.
#[export] Instance DatabaseSpec_stored : Stored cell (go_DatabaseSpec pointer) := {|
  to_cell := CellDatabaseSpec; of_cell c := match c with CellDatabaseSpec l => Some l | _ => None end;
  of_to_cell _ := eq_refl
|}.
#[export] Instance Database_stored : Stored cell (go_Database pointer om) := {|
  to_cell := CellDatabase; of_cell c := match c with CellDatabase l => Some l | _ => None end;
  of_to_cell _ := eq_refl
|}.
#[export] Instance DatabaseList_stored : Stored cell (go_DatabaseList slice pointer om lm) := {|
  to_cell := CellDatabaseList; of_cell c := match c with CellDatabaseList l => Some l | _ => None end;
  of_to_cell _ := eq_refl
|}.
End Stored.

(** ** Zero values *)

#[export] Instance Name_zero : GoZero Name := mkName "".
#[export] Instance NamespacedName_zero : GoZero NamespacedName := mkNamespacedName "" "".
#[export] Instance Secret_zero : GoZero Secret := mkSecret zero "".
#[export] Instance PrivilegeSpec_zero : GoZero PrivilegeSpec := mkPrivilegeSpec "" "" "".
#[export] Instance PostgreSQLConfig_zero : GoZero PostgreSQLConfig :=
  mkPostgreSQLConfig "" 0 "" "" "" zero zero zero.
#[export] Instance MySQLConfig_zero : GoZero MySQLConfig := mkMySQLConfig "" 0 "" "" zero "".
#[export] Instance StatusSummary_zero : GoZero StatusSummary := mkStatusSummary false "".
#[export] Instance UserStatus_zero : GoZero UserStatus := mkUserStatus zero.
#[export] Instance TypeMeta_zero : GoZero TypeMeta := mkTypeMeta "" "".
#[export] Instance DatabaseRef_zero : GoZero (go_DatabaseRef slice) :=
  mk_go_DatabaseRef "" zero zero None.
#[export] Instance UserSpec_zero : GoZero (go_UserSpec slice) := mk_go_UserSpec None.
#[export] Instance User_zero {om} `{GoZero om} : GoZero (go_User slice om) :=
  mk_go_User zero zero zero zero.
#[export] Instance UserList_zero {om lm} `{GoZero lm} : GoZero (go_UserList slice om lm) :=
  mk_go_UserList zero zero None.
#[export] Instance Privileges_zero {om} `{GoZero om} : GoZero (go_Privileges slice om) :=
  mk_go_Privileges zero zero None.
#[export] Instance PrivilegesList_zero {om lm} `{GoZero lm} : GoZero (go_PrivilegesList slice om lm) :=
  mk_go_PrivilegesList zero zero None.
#[export] Instance DatabaseSpec_zero : GoZero (go_DatabaseSpec pointer) :=
  mk_go_DatabaseSpec "" None None.
#[export] Instance Database_zero {om} `{GoZero om} : GoZero (go_Database pointer om) :=
  mk_go_Database zero zero zero.
#[export] Instance DatabaseList_zero {om lm} `{GoZero lm} :
    GoZero (go_DatabaseList slice pointer om lm) :=
  mk_go_DatabaseList zero zero None.

(** ** The library *)

(** The metadata of apimachinery and their [DeepCopyInto]. *)
Class MetaCopy (om lm lib : Type) := {
  om_zero :: GoZero om;
  lm_zero :: GoZero lm;
  ObjectMeta_DeepCopyInto : om → M (cell om lm lib) om;
  ListMeta_DeepCopyInto : lm → M (cell om lm lib) lm
}.

(** What their documentation says: they are deep copies. *)
Class MetaCopyLaws (om lm lib MV LV : Type) `{MetaCopy om lm lib} := {
  om_deep :: Deep (cell om lm lib) om MV;
  lm_deep :: Deep (cell om lm lib) lm LV;
  om_laws :: DeepLaws (cell om lm lib) om MV;
  lm_laws :: DeepLaws (cell om lm lib) lm LV;
  ObjectMeta_copies : copies (V:=MV) ObjectMeta_DeepCopyInto;
  ListMeta_copies : copies (V:=LV) ListMeta_DeepCopyInto
}.

(** ** The methods *)

Section Code.
Context {om lm lib : Type} `{MetaCopy om lm lib}.
Notation cell := (cell om lm lib).
Notation M := (M cell).
Notation go_DatabaseRef := (go_DatabaseRef slice).
Notation go_UserSpec := (go_UserSpec slice).
Notation go_User := (go_User slice om).
Notation go_UserList := (go_UserList slice om lm).
Notation go_Privileges := (go_Privileges slice om).
Notation go_PrivilegesList := (go_PrivilegesList slice om lm).
Notation go_DatabaseSpec := (go_DatabaseSpec pointer).
Notation go_Database := (go_Database pointer om).
Notation go_DatabaseList := (go_DatabaseList slice pointer om lm).

(** A non-nil interface with a pointer of one of the six types, or nil. *)
Inductive runtime_Object :=
| NilObject
| ObjDatabase (p : pointer go_Database)
| ObjDatabaseList (p : pointer go_DatabaseList)
| ObjPrivileges (p : pointer go_Privileges)
| ObjPrivilegesList (p : pointer go_PrivilegesList)
| ObjUser (p : pointer go_User)
| ObjUserList (p : pointer go_UserList).

(** [if c := in.DeepCopy(); c != nil { return c }; return nil] *)
Definition as_object {T} (wrap : pointer T → runtime_Object) (copy : M (pointer T)) : M runtime_Object :=
  let* c := copy in
  mret (match c with Some _ => wrap c | None => NilObject end).

(** Structs without references. *)
Definition MySQLConfig_DeepCopyInto (inp : MySQLConfig) : M MySQLConfig := mret inp.
Definition Name_DeepCopyInto (inp : Name) : M Name := mret inp.
Definition NamespacedName_DeepCopyInto (inp : NamespacedName) : M NamespacedName := mret inp.
Definition PostgreSQLConfig_DeepCopyInto (inp : PostgreSQLConfig) : M PostgreSQLConfig := mret inp.
Definition PrivilegeSpec_DeepCopyInto (inp : PrivilegeSpec) : M PrivilegeSpec := mret inp.
Definition Secret_DeepCopyInto (inp : Secret) : M Secret := mret inp.
Definition StatusSummary_DeepCopyInto (inp : StatusSummary) : M StatusSummary := mret inp.
Definition UserStatus_DeepCopyInto (inp : UserStatus) : M UserStatus := mret inp.

Definition DatabaseSpec_DeepCopyInto (inp : go_DatabaseSpec) : M go_DatabaseSpec :=
  let* pg := copy_pointer (goSpec_PostgreSQL inp) in
  let* my := copy_pointer (goSpec_MySQL inp) in
  mret (mk_go_DatabaseSpec (goSpec_Type inp) pg my).

Definition Database_DeepCopyInto (inp : go_Database) : M go_Database :=
  let* meta := ObjectMeta_DeepCopyInto (goDatabase_ObjectMeta inp) in
  let* spec := DatabaseSpec_DeepCopyInto (goDatabase_Spec inp) in
  mret (mk_go_Database (goDatabase_TypeMeta inp) meta spec).

Definition DatabaseList_DeepCopyInto (inp : go_DatabaseList) : M go_DatabaseList :=
  let* meta := ListMeta_DeepCopyInto (goDatabaseList_ListMeta inp) in
  let* items := copy_slice Database_DeepCopyInto (goDatabaseList_Items inp) in
  mret (mk_go_DatabaseList (goDatabaseList_TypeMeta inp) meta items).

Definition DatabaseRef_DeepCopyInto (inp : go_DatabaseRef) : M go_DatabaseRef :=
  let* privileges := copy_flat_slice (goRef_Privileges inp) in
  mret (mk_go_DatabaseRef (goRef_Name inp) (goRef_PasswordSecret inp) (goRef_CreatedSecret inp)
    privileges).

Definition Privileges_DeepCopyInto (inp : go_Privileges) : M go_Privileges :=
  let* meta := ObjectMeta_DeepCopyInto (goPrivileges_ObjectMeta inp) in
  let* privileges := copy_flat_slice (goPrivileges_Privileges inp) in
  mret (mk_go_Privileges (goPrivileges_TypeMeta inp) meta privileges).

Definition PrivilegesList_DeepCopyInto (inp : go_PrivilegesList) : M go_PrivilegesList :=
  let* meta := ListMeta_DeepCopyInto (goPrivilegesList_ListMeta inp) in
  let* items := copy_slice Privileges_DeepCopyInto (goPrivilegesList_Items inp) in
  mret (mk_go_PrivilegesList (goPrivilegesList_TypeMeta inp) meta items).

Definition UserSpec_DeepCopyInto (inp : go_UserSpec) : M go_UserSpec :=
  let* databases := copy_slice DatabaseRef_DeepCopyInto (goUserSpec_Databases inp) in
  mret (mk_go_UserSpec databases).

Definition User_DeepCopyInto (inp : go_User) : M go_User :=
  let* meta := ObjectMeta_DeepCopyInto (goUser_ObjectMeta inp) in
  let* spec := UserSpec_DeepCopyInto (goUser_Spec inp) in
  mret (mk_go_User (goUser_TypeMeta inp) meta spec (goUser_Status inp)).

Definition UserList_DeepCopyInto (inp : go_UserList) : M go_UserList :=
  let* meta := ListMeta_DeepCopyInto (goUserList_ListMeta inp) in
  let* items := copy_slice User_DeepCopyInto (goUserList_Items inp) in
  mret (mk_go_UserList (goUserList_TypeMeta inp) meta items).

Definition Database_DeepCopy : pointer go_Database → M (pointer go_Database) :=
  deep_copy Database_DeepCopyInto.
Definition DatabaseList_DeepCopy : pointer go_DatabaseList → M (pointer go_DatabaseList) :=
  deep_copy DatabaseList_DeepCopyInto.
Definition DatabaseRef_DeepCopy : pointer go_DatabaseRef → M (pointer go_DatabaseRef) :=
  deep_copy DatabaseRef_DeepCopyInto.
Definition DatabaseSpec_DeepCopy : pointer go_DatabaseSpec → M (pointer go_DatabaseSpec) :=
  deep_copy DatabaseSpec_DeepCopyInto.
Definition MySQLConfig_DeepCopy : pointer MySQLConfig → M (pointer MySQLConfig) :=
  deep_copy MySQLConfig_DeepCopyInto.
Definition Name_DeepCopy : pointer Name → M (pointer Name) :=
  deep_copy Name_DeepCopyInto.
Definition NamespacedName_DeepCopy : pointer NamespacedName → M (pointer NamespacedName) :=
  deep_copy NamespacedName_DeepCopyInto.
Definition PostgreSQLConfig_DeepCopy : pointer PostgreSQLConfig → M (pointer PostgreSQLConfig) :=
  deep_copy PostgreSQLConfig_DeepCopyInto.
Definition PrivilegeSpec_DeepCopy : pointer PrivilegeSpec → M (pointer PrivilegeSpec) :=
  deep_copy PrivilegeSpec_DeepCopyInto.
Definition Privileges_DeepCopy : pointer go_Privileges → M (pointer go_Privileges) :=
  deep_copy Privileges_DeepCopyInto.
Definition PrivilegesList_DeepCopy : pointer go_PrivilegesList → M (pointer go_PrivilegesList) :=
  deep_copy PrivilegesList_DeepCopyInto.
Definition Secret_DeepCopy : pointer Secret → M (pointer Secret) :=
  deep_copy Secret_DeepCopyInto.
Definition StatusSummary_DeepCopy : pointer StatusSummary → M (pointer StatusSummary) :=
  deep_copy StatusSummary_DeepCopyInto.
Definition User_DeepCopy : pointer go_User → M (pointer go_User) :=
  deep_copy User_DeepCopyInto.
Definition UserList_DeepCopy : pointer go_UserList → M (pointer go_UserList) :=
  deep_copy UserList_DeepCopyInto.
Definition UserSpec_DeepCopy : pointer go_UserSpec → M (pointer go_UserSpec) :=
  deep_copy UserSpec_DeepCopyInto.
Definition UserStatus_DeepCopy : pointer UserStatus → M (pointer UserStatus) :=
  deep_copy UserStatus_DeepCopyInto.

Definition Database_DeepCopyObject (inp : pointer go_Database) : M runtime_Object :=
  as_object ObjDatabase (Database_DeepCopy inp).
Definition DatabaseList_DeepCopyObject (inp : pointer go_DatabaseList) : M runtime_Object :=
  as_object ObjDatabaseList (DatabaseList_DeepCopy inp).
Definition Privileges_DeepCopyObject (inp : pointer go_Privileges) : M runtime_Object :=
  as_object ObjPrivileges (Privileges_DeepCopy inp).
Definition PrivilegesList_DeepCopyObject (inp : pointer go_PrivilegesList) : M runtime_Object :=
  as_object ObjPrivilegesList (PrivilegesList_DeepCopy inp).
Definition User_DeepCopyObject (inp : pointer go_User) : M runtime_Object :=
  as_object ObjUser (User_DeepCopy inp).
Definition UserList_DeepCopyObject (inp : pointer go_UserList) : M runtime_Object :=
  as_object ObjUserList (UserList_DeepCopy inp).
End Code.
