(* ===== verification/DeepCopyProps.v ===== *)
(** * The deep copies are deep

    The values below the objects of [DeepCopy], and the theorems: every
    [DeepCopy] and [DeepCopyObject] makes an equal object that shares nothing
    with the original. *)

From S2P Require Import Prelude Api GoHeap DeepCopy.

(** ** Records with one or two fields that refer to memory *)

Section Records.
Context {cell R : Type}.

Definition deep1 {T V W} `{Deep cell T V} (get : R → T) (wrap : R → V → W) : Deep cell R W :=
  λ h r, match deep h (get r) with Some (v, X) => Some (wrap r v, X) | None => None end.

Definition deep2 {T1 V1 T2 V2 W} `{Deep cell T1 V1} `{Deep cell T2 V2} (get1 : R → T1) (get2 : R → T2)
    (wrap : R → V1 → V2 → W) : Deep cell R W :=
  λ h r,
    match deep h (get1 r), deep h (get2 r) with
    | Some (v1, X1), Some (v2, X2) => Some (wrap r v1 v2, X1 ∪ X2)
    | _, _ => None
    end.

Lemma deep1_laws {T V W} `{DeepLaws cell T V} get (wrap : R → V → W) :
  @DeepLaws cell R W (deep1 get wrap).
Proof.
  split; intros h; intros *; unfold deep at 1, deep1.
  - destruct (deep h (get x)) as [[u Y]|] eqn:E; [|done]. intros [= <- <-] Ha.
    unfold deep at 1. by rewrite (deep_frame _ _ _ _ _ E Ha).
  - destruct (deep h (get x)) as [[u Y]|] eqn:E; [|done]. intros [= <- <-]. exact (deep_dom _ _ _ _ E).
Qed.

Lemma deep2_laws {T1 V1 T2 V2 W} `{DeepLaws cell T1 V1} `{DeepLaws cell T2 V2} get1 get2
    (wrap : R → V1 → V2 → W) :
  @DeepLaws cell R W (deep2 get1 get2 wrap).
Proof.
  split; intros h; intros *; unfold deep at 1, deep2.
  - destruct (deep h (get1 x)) as [[u1 Y1]|] eqn:E1; [|done].
    destruct (deep h (get2 x)) as [[u2 Y2]|] eqn:E2; [|done]. intros [= <- <-] [Ha1 Ha2]%agree_union.
    unfold deep at 1. by rewrite (deep_frame _ _ _ _ _ E1 Ha1), (deep_frame _ _ _ _ _ E2 Ha2).
  - destruct (deep h (get1 x)) as [[u1 Y1]|] eqn:E1; [|done].
    destruct (deep h (get2 x)) as [[u2 Y2]|] eqn:E2; [|done]. intros [= <- <-].
    apply union_subseteq. split; [exact (deep_dom _ _ _ _ E1)|exact (deep_dom _ _ _ _ E2)].
Qed.

Lemma copies1 {T V W} `{DeepLaws cell T V} get (wrap : R → V → W) (f : T → M cell T) (set : R → T → R) :
  (∀ r y, get (set r y) = y) → (∀ r y, wrap (set r y) = wrap r) → copies f →
  @copies cell R W (deep1 get wrap) (λ r, let* y := f (get r) in mret (set r y)).
Proof.
  intros Hg Hw Hf h r v X. unfold deep at 1, deep1.
  destruct (deep h (get r)) as [[u Y]|] eqn:E; [|done]. intros [= <- <-].
  destruct (Hf h _ u Y E) as (y & h1 & Z & Hy & Hs & Hd & HZ).
  exists (set r y), h1, Z. split_and!; [|done| |done].
  - unfold mlet. by rewrite Hy.
  - unfold deep at 1. by rewrite Hg, Hd, Hw.
Qed.

Lemma copies2 {T1 V1 T2 V2 W} `{DeepLaws cell T1 V1} `{DeepLaws cell T2 V2} get1 get2
    (wrap : R → V1 → V2 → W) (f : T1 → M cell T1) (g : T2 → M cell T2) (set : R → T1 → T2 → R) :
  (∀ r y1 y2, get1 (set r y1 y2) = y1) → (∀ r y1 y2, get2 (set r y1 y2) = y2) →
  (∀ r y1 y2, wrap (set r y1 y2) = wrap r) → copies f → copies g →
  @copies cell R W (deep2 get1 get2 wrap)
    (λ r, let* y1 := f (get1 r) in let* y2 := g (get2 r) in mret (set r y1 y2)).
Proof.
  intros Hg1 Hg2 Hw Hf Hg h r v X. unfold deep at 1, deep2.
  destruct (deep h (get1 r)) as [[u1 Y1]|] eqn:E1; [|done].
  destruct (deep h (get2 r)) as [[u2 Y2]|] eqn:E2; [|done]. intros [= <- <-].
  destruct (copies_seq f g h _ _ u1 u2 Y1 Y2 Hf Hg E1 E2)
    as (y1 & y2 & h1 & h2 & Z1 & Z2 & Hy1 & Hy2 & Hs & Hd1 & Hd2 & HZ).
  exists (set r y1 y2), h2, (Z1 ∪ Z2). split_and!; [|done| |done].
  - unfold mlet. by rewrite Hy1, Hy2.
  - unfold deep at 1. by rewrite Hg1, Hg2, Hd1, Hd2, Hw.
Qed.
End Records.

(** ** The values of the objects *)

Section Values.
Context {om lm lib MV LV : Type} `{MetaCopyLaws om lm lib MV LV}.
Notation cell := (cell om lm lib).

#[export] Instance DatabaseRef_deep : Deep cell (go_DatabaseRef slice) (go_DatabaseRef values) :=
  deep1 goRef_Privileges (λ r, mk_go_DatabaseRef (goRef_Name r) (goRef_PasswordSecret r)
    (goRef_CreatedSecret r)).
#[export] Instance UserSpec_deep : Deep cell (go_UserSpec slice) (go_UserSpec values) :=
  deep1 goUserSpec_Databases (λ _, mk_go_UserSpec).
#[export] Instance User_deep : Deep cell (go_User slice om) (go_User values MV) :=
  deep2 goUser_ObjectMeta goUser_Spec (λ u m s, mk_go_User (goUser_TypeMeta u) m s (goUser_Status u)).
#[export] Instance UserList_deep : Deep cell (go_UserList slice om lm) (go_UserList values MV LV) :=
  deep2 goUserList_ListMeta goUserList_Items (λ u, mk_go_UserList (goUserList_TypeMeta u)).
#[export] Instance Privileges_deep : Deep cell (go_Privileges slice om) (go_Privileges values MV) :=
  deep2 goPrivileges_ObjectMeta goPrivileges_Privileges
    (λ p, mk_go_Privileges (goPrivileges_TypeMeta p)).
#[export] Instance PrivilegesList_deep :
    Deep cell (go_PrivilegesList slice om lm) (go_PrivilegesList values MV LV) :=
  deep2 goPrivilegesList_ListMeta goPrivilegesList_Items
    (λ p, mk_go_PrivilegesList (goPrivilegesList_TypeMeta p)).
#[export] Instance DatabaseSpec_deep : Deep cell (go_DatabaseSpec pointer) (go_DatabaseSpec option) :=
  deep2 goSpec_PostgreSQL goSpec_MySQL (λ s, mk_go_DatabaseSpec (goSpec_Type s)).
#[export] Instance Database_deep : Deep cell (go_Database pointer om) (go_Database option MV) :=
  deep2 goDatabase_ObjectMeta goDatabase_Spec (λ d, mk_go_Database (goDatabase_TypeMeta d)).
#[export] Instance DatabaseList_deep :
    Deep cell (go_DatabaseList slice pointer om lm) (go_DatabaseList values option MV LV) :=
  deep2 goDatabaseList_ListMeta goDatabaseList_Items
    (λ d, mk_go_DatabaseList (goDatabaseList_TypeMeta d)).

#[export] Instance DatabaseRef_laws : DeepLaws cell (go_DatabaseRef slice) (go_DatabaseRef values).
Proof. apply deep1_laws. Qed.
#[export] Instance UserSpec_laws : DeepLaws cell (go_UserSpec slice) (go_UserSpec values).
Proof. apply deep1_laws. Qed.
#[export] Instance User_laws : DeepLaws cell (go_User slice om) (go_User values MV).
Proof. apply deep2_laws. Qed.
#[export] Instance UserList_laws : DeepLaws cell (go_UserList slice om lm) (go_UserList values MV LV).
Proof. apply deep2_laws. Qed.
#[export] Instance Privileges_laws : DeepLaws cell (go_Privileges slice om) (go_Privileges values MV).
Proof. apply deep2_laws. Qed.
#[export] Instance PrivilegesList_laws :
  DeepLaws cell (go_PrivilegesList slice om lm) (go_PrivilegesList values MV LV).
Proof. apply deep2_laws. Qed.
#[export] Instance DatabaseSpec_laws : DeepLaws cell (go_DatabaseSpec pointer) (go_DatabaseSpec option).
Proof. apply deep2_laws. Qed.
#[export] Instance Database_laws : DeepLaws cell (go_Database pointer om) (go_Database option MV).
Proof. apply deep2_laws. Qed.
#[export] Instance DatabaseList_laws :
  DeepLaws cell (go_DatabaseList slice pointer om lm) (go_DatabaseList values option MV LV).
Proof. apply deep2_laws. Qed.

Lemma DatabaseRef_copies : copies (V:=go_DatabaseRef values) DatabaseRef_DeepCopyInto.
Proof.
  apply (copies1 goRef_Privileges _ _ (λ r, mk_go_DatabaseRef (goRef_Name r) (goRef_PasswordSecret r)
    (goRef_CreatedSecret r))); [done..|]. apply copy_flat_slice_copies.
Qed.

Lemma UserSpec_copies : copies (V:=go_UserSpec values) UserSpec_DeepCopyInto.
Proof.
  apply (copies1 goUserSpec_Databases _ _ (λ _, mk_go_UserSpec)); [done..|].
  apply copy_slice_copies, DatabaseRef_copies.
Qed.

Lemma User_copies : copies (V:=go_User values MV) User_DeepCopyInto.
Proof.
  apply (copies2 goUser_ObjectMeta goUser_Spec _ _ _
    (λ u m s, mk_go_User (goUser_TypeMeta u) m s (goUser_Status u))); [done..| |].
  - apply ObjectMeta_copies.
  - apply UserSpec_copies.
Qed.

Lemma UserList_copies : copies (V:=go_UserList values MV LV) UserList_DeepCopyInto.
Proof.
  apply (copies2 goUserList_ListMeta goUserList_Items _ _ _
    (λ u, mk_go_UserList (goUserList_TypeMeta u))); [done..| |].
  - apply ListMeta_copies.
  - apply copy_slice_copies, User_copies.
Qed.

Lemma Privileges_copies : copies (V:=go_Privileges values MV) Privileges_DeepCopyInto.
Proof.
  apply (copies2 goPrivileges_ObjectMeta goPrivileges_Privileges _ _ _
    (λ p, mk_go_Privileges (goPrivileges_TypeMeta p))); [done..| |].
  - apply ObjectMeta_copies.
  - apply copy_flat_slice_copies.
Qed.

Lemma PrivilegesList_copies : copies (V:=go_PrivilegesList values MV LV) PrivilegesList_DeepCopyInto.
Proof.
  apply (copies2 goPrivilegesList_ListMeta goPrivilegesList_Items _ _ _
    (λ p, mk_go_PrivilegesList (goPrivilegesList_TypeMeta p))); [done..| |].
  - apply ListMeta_copies.
  - apply copy_slice_copies, Privileges_copies.
Qed.

Lemma DatabaseSpec_copies : copies (V:=go_DatabaseSpec option) DatabaseSpec_DeepCopyInto.
Proof.
  apply (copies2 goSpec_PostgreSQL goSpec_MySQL _ _ _ (λ s, mk_go_DatabaseSpec (goSpec_Type s)));
    [done..| |]; apply copy_pointer_copies.
Qed.

Lemma Database_copies : copies (V:=go_Database option MV) Database_DeepCopyInto.
Proof.
  apply (copies2 goDatabase_ObjectMeta goDatabase_Spec _ _ _
    (λ d, mk_go_Database (goDatabase_TypeMeta d))); [done..| |].
  - apply ObjectMeta_copies.
  - apply DatabaseSpec_copies.
Qed.

Lemma DatabaseList_copies : copies (V:=go_DatabaseList values option MV LV) DatabaseList_DeepCopyInto.
Proof.
  apply (copies2 goDatabaseList_ListMeta goDatabaseList_Items _ _ _
    (λ d, mk_go_DatabaseList (goDatabaseList_TypeMeta d))); [done..| |].
  - apply ListMeta_copies.
  - apply copy_slice_copies, Database_copies.
Qed.

Lemma flat_isolated {T} `{Stored cell T} `{GoZero T} `{Flat T} (into : T → M cell T) :
  (∀ x h, into x h = Some (x, h)) → isolated (V:=T) (deep_copy into).
Proof. intros Hi. by apply deep_copy_isolated, flat_copies. Qed.

(** A [DeepCopyObject] that wraps the pointer of an isolated [DeepCopy]. *)
Definition copies_object {T V} `{Stored cell T} `{Deep cell T V}
    (wrap : pointer T → @runtime_Object om lm)
    (copy : pointer T → M cell (@runtime_Object om lm)) : Prop :=
  (∀ h, copy None h = Some (NilObject, h)) ∧
  ∀ h l (v : option V) X, deep h (Some l : pointer T) = Some (v, X) →
  ∃ l' h' Y, copy (Some l) h = Some (wrap (Some l'), h') ∧
    deep h' (Some l' : pointer T) = Some (v, Y) ∧ X ## Y ∧ h ⊆ h'.

Lemma as_object_copies {T V} `{Stored cell T} `{Deep cell T V} wrap (copy : pointer T → M cell (pointer T)) :
  isolated (V:=V) copy → copies_object (V:=V) wrap (λ p, as_object wrap (copy p)).
Proof.
  intros [Hn Hc]. split.
  - intros h. unfold as_object, mlet. by rewrite Hn.
  - intros h l v X Hd. destruct (Hc h l v X Hd) as (l' & h' & Y & Hcp & Hs & HX & Hd' & _).
    exists l', h', Y. split_and!; [|done..]. unfold as_object, mlet. by rewrite Hcp.
Qed.
End Values.

(** ** The theorems *)

(** C25: Every generated [DeepCopy] is a deep copy.  It returns nil for nil; for a
    pointer to a value, and for every way its slices and pointers share
    memory, it ends without a panic, changes nothing that was allocated
    before, and returns a pointer to an equal value in memory of its own: no
    change outside the copy's footprint changes the copy, and none outside the
    original's changes the original. *)
Theorem deep_copies_isolated {om lm lib MV LV : Type} `{MetaCopyLaws om lm lib MV LV} :
  (isolated (cell:=cell om lm lib) (V:=go_User values MV) User_DeepCopy ∧
   isolated (cell:=cell om lm lib) (V:=go_UserList values MV LV) UserList_DeepCopy ∧
   isolated (cell:=cell om lm lib) (V:=go_UserSpec values) UserSpec_DeepCopy ∧
   isolated (cell:=cell om lm lib) (V:=go_DatabaseRef values) DatabaseRef_DeepCopy ∧
   isolated (cell:=cell om lm lib) (V:=go_Privileges values MV) Privileges_DeepCopy ∧
   isolated (cell:=cell om lm lib) (V:=go_PrivilegesList values MV LV) PrivilegesList_DeepCopy ∧
   isolated (cell:=cell om lm lib) (V:=go_Database option MV) Database_DeepCopy ∧
   isolated (cell:=cell om lm lib) (V:=go_DatabaseList values option MV LV) DatabaseList_DeepCopy ∧
   isolated (cell:=cell om lm lib) (V:=go_DatabaseSpec option) DatabaseSpec_DeepCopy) ∧
  (isolated (cell:=cell om lm lib) (V:=MySQLConfig) MySQLConfig_DeepCopy ∧
   isolated (cell:=cell om lm lib) (V:=Name) Name_DeepCopy ∧
   isolated (cell:=cell om lm lib) (V:=NamespacedName) NamespacedName_DeepCopy ∧
   isolated (cell:=cell om lm lib) (V:=PostgreSQLConfig) PostgreSQLConfig_DeepCopy ∧
   isolated (cell:=cell om lm lib) (V:=PrivilegeSpec) PrivilegeSpec_DeepCopy ∧
   isolated (cell:=cell om lm lib) (V:=Secret) Secret_DeepCopy ∧
   isolated (cell:=cell om lm lib) (V:=StatusSummary) StatusSummary_DeepCopy ∧
   isolated (cell:=cell om lm lib) (V:=UserStatus) UserStatus_DeepCopy).
Proof.
  split; split_and!; try (by apply flat_isolated); apply deep_copy_isolated.
  - apply User_copies.
  - apply UserList_copies.
  - apply UserSpec_copies.
  - apply DatabaseRef_copies.
  - apply Privileges_copies.
  - apply PrivilegesList_copies.
  - apply Database_copies.
  - apply DatabaseList_copies.
  - apply DatabaseSpec_copies.
Qed.

(** Every generated [DeepCopyObject] returns the nil interface for a nil
    pointer, never an interface that holds one, and else an object of its type
    with a copy that shares no memory with the original. *)
Theorem deep_copy_objects {om lm lib MV LV : Type} `{MetaCopyLaws om lm lib MV LV} :
  copies_object (V:=go_User values MV) ObjUser User_DeepCopyObject ∧
  copies_object (V:=go_UserList values MV LV) ObjUserList UserList_DeepCopyObject ∧
  copies_object (V:=go_Privileges values MV) ObjPrivileges Privileges_DeepCopyObject ∧
  copies_object (V:=go_PrivilegesList values MV LV) ObjPrivilegesList PrivilegesList_DeepCopyObject ∧
  copies_object (V:=go_Database option MV) ObjDatabase Database_DeepCopyObject ∧
  copies_object (V:=go_DatabaseList values option MV LV) ObjDatabaseList DatabaseList_DeepCopyObject.
Proof.
  split_and!; apply as_object_copies, deep_copy_isolated.
  - apply User_copies.
  - apply UserList_copies.
  - apply Privileges_copies.
  - apply PrivilegesList_copies.
  - apply Database_copies.
  - apply DatabaseList_copies.
Qed.

(** ** A sample memory *)

(** Metadata with a slice of finalizers; the arrays of the library are those of
    strings. *)
Record sample_meta := mk_sample_meta { sample_Name : string; sample_Finalizers : slice string }.

#[export] Instance string_flat : Flat string := I.
#[export] Instance string_zero : GoZero string := "".
#[export] Instance string_stored {om lm} : Stored (cell om lm (list string)) string := {|
  to_cell := CellLibrary; of_cell c := match c with CellLibrary l => Some l | _ => None end;
  of_to_cell _ := eq_refl
|}.
#[export] Instance unit_flat : Flat () := I.

#[export] Instance sample_MetaCopy : MetaCopy sample_meta () (list string) := {|
  om_zero := mk_sample_meta "" None;
  lm_zero := ();
  ObjectMeta_DeepCopyInto m :=
    let* fs := copy_flat_slice (sample_Finalizers m) in mret (mk_sample_meta (sample_Name m) fs);
  ListMeta_DeepCopyInto := mret
|}.

Definition sample_deep {cell} `{Stored cell string} : Deep cell sample_meta (string * option (list string)) :=
  deep1 sample_Finalizers (λ m, pair (sample_Name m)).

#[export] Instance sample_MetaCopyLaws :
  MetaCopyLaws sample_meta () (list string) (string * option (list string)) ().
Proof.
  refine {| om_deep := sample_deep; lm_deep := deep_flat |}.
  - apply deep1_laws.
  - by apply (copies1 sample_Finalizers _ _ (λ m, mk_sample_meta (sample_Name m)));
      [..|apply copy_flat_slice_copies].
  - by apply flat_copies.
Defined.

Notation sample_cell := (cell sample_meta () (list string)).

(** A user at 3 with two references, at 2, that share their privileges, at 1. *)
Definition sample_memory : gmap positive sample_cell :=
  {[ 1%positive := CellName [mkName "read"; mkName "write"; mkName "admin"];
     2%positive := CellDatabaseRef
       [mk_go_DatabaseRef "pg" zero zero (Some (mkWindow 1 0 2));
        mk_go_DatabaseRef "my" zero zero (Some (mkWindow 1 1 2))];
     3%positive := CellUser
       [mk_go_User zero (mk_sample_meta "john" (Some (mkWindow 4 0 1)))
          (mk_go_UserSpec (Some (mkWindow 2 0 2))) zero];
     4%positive := CellLibrary ["finalizer"] ]}.

Definition sample_john : go_User values (string * option (list string)) :=
  mk_go_User zero ("john", Some ["finalizer"])
    (mk_go_UserSpec (Some [mk_go_DatabaseRef "pg" zero zero (Some [mkName "read"; mkName "write"]);
       mk_go_DatabaseRef "my" zero zero (Some [mkName "write"; mkName "admin"])])) zero.

Definition read_user (h : gmap positive sample_cell) (p : positive)
    : option (option (go_User values (string * option (list string)))) :=
  fst <$> deep h (Some p : pointer (go_User slice sample_meta)).

(** The copy is equal, and keeps its value when a shared privilege of the
    original is overwritten, which changes both references there. *)
Example sample_copy :
  match User_DeepCopy (Some 3%positive) sample_memory with
  | Some (Some p, h) =>
      let h2 := <[1%positive := CellName [mkName "read"; mkName "none"; mkName "admin"]]> h in
      read_user h p = Some (Some sample_john) ∧ read_user h2 p = Some (Some sample_john) ∧
      read_user h2 3%positive ≠ Some (Some sample_john)
  | _ => False
  end.
Proof. vm_compute. split_and!; [done..|discriminate]. Qed.

Lemma deep_copies_isolated_witness :
  isolated (cell:=sample_cell) (V:=go_User values (string * option (list string))) User_DeepCopy.
Proof. apply (deep_copies_isolated (om:=sample_meta) (lm:=()) (lib:=list string)). Defined.

Lemma deep_copy_objects_witness :
  copies_object (om:=sample_meta) (lm:=()) (V:=go_User values (string * option (list string)))
    ObjUser User_DeepCopyObject.
Proof. apply (deep_copy_objects (om:=sample_meta) (lm:=()) (lib:=list string)). Defined.
