(* ===== verification/Server.v ===== *)
(** * Database servers

    What the statements of the operator mean.  The servers are a parameter: the
    roles, accounts and privileges that can be observed through a connection,
    and laws that state the documented effect of the statements
    ([ServerLaws]).  Those for PostgreSQL are read with the lexical rules of
    [SqlLexer] and a parser of the four forms, those for MySQL with [MysqlSql].
    [db_step] lets the servers and the drivers' open handles answer the requests
    of a program. *)

From S2P Require Import Prelude GoStrings SqlLexer GoError Api Effects Logic StateLogic Connection.
From S2P Require Import PgUtils PgConfig Postgresql Mysql MysqlSql.

(** ** The statements of PostgreSQL *)

Inductive sql :=
| SCreateUser (name : list token) (password : option string)
| SDropUser (name : list token)
| SGrant (privilege object name : list token)
| SRevoke (privilege object name : list token).

Definition is_name_token (t : token) : bool :=
  match t with TIdent _ | TDot | TStar => true | _ => false end.

Definition upper_char (c : ascii) : ascii :=
  if in_range 97 122 c then ascii_of_nat (nat_of_ascii c - 32) else c.
Fixpoint upper (s : string) : string :=
  match s with EmptyString => "" | String c s' => String (upper_char c) (upper s') end.

(** Keywords that end the privilege of a GRANT or REVOKE. *)
Definition is_privilege_token (t : token) : bool :=
  match t with
  | TWord w => negb (bool_decide (upper w ∈ ["ON"; "TO"; "FROM"]))
  | _ => true
  end.

Fixpoint span {A} (f : A → bool) (l : list A) : list A * list A :=
  match l with
  | [] => ([], [])
  | x :: l' => if f x then prod_map (cons x) id (span f l') else ([], l)
  end.

(** Privilege, object and name of a GRANT or REVOKE, whose name follows [kw]. *)
Definition parse_privilege (kw : string) (ts : list token) : option (list token * list token * list token) :=
  let '(p, r) := span is_privilege_token ts in
  let '(o, r) := span (λ t, negb (bool_decide (t = TWord kw))) r in
  match r with
  | _ :: n => if forallb is_name_token n then Some (p, o, n) else None
  | [] => None
  end.

Definition sql_parse (ts : list token) : option sql :=
  match ts with
  | TWord kw :: ts' =>
      if bool_decide (kw = "GRANT") then
        (λ '(p, o, n), SGrant p o n) <$> parse_privilege "TO" ts'
      else if bool_decide (kw = "REVOKE") then
        (λ '(p, o, n), SRevoke p o n) <$> parse_privilege "FROM" ts'
      else
        match ts' with
        | TWord user :: ts'' =>
            let '(n, r) := span is_name_token ts'' in
            if bool_decide (user = "USER") then
              if bool_decide (kw = "CREATE") then
                match r with
                | [] => Some (SCreateUser n None)
                | [TWord w; TWord p; TString pw] =>
                    if bool_decide (w = "WITH") && bool_decide (p = "PASSWORD")
                    then Some (SCreateUser n (Some pw)) else None
                | _ => None
                end
              else if bool_decide (kw = "DROP") then
                match r with [] => Some (SDropUser n) | _ => None end
              else None
            else None
        | _ => None
        end
  | _ => None
  end.

Definition sql_read (q : string) : option sql := lex q ≫= sql_parse.

(** ** The operator's statements are read *)

Lemma span_app {A} (f : A → bool) l r :
  forallb f l = true → match r with x :: _ => f x = false | [] => True end → span f (l ++ r) = (l, r).
Proof.
  intros Hl Hr. induction l as [|x l IH]; simpl in *.
  - destruct r; simpl; [done|]. by rewrite Hr.
  - apply andb_true_iff in Hl as [-> Hl]. by rewrite IH.
Qed.

Lemma qualified_name s : forallb is_name_token (qualified s) = true.
Proof.
  unfold qualified. pose proof (strings_Split_ne s ".") as Hne. revert Hne.
  induction (strings_Split s ".") as [|p ps IH]; [done|]. intros _. simpl.
  assert (is_name_token (part_token p) = true) as Hp by (unfold part_token; by case_bool_decide).
  destruct ps as [|p' ps]; simpl in *; rewrite Hp; [done|]. by apply IH.
Qed.

Lemma privilege_object_tokens kw d on :
  kw ≠ "ON" → kw ≠ "DATABASE" →
  forallb (λ t, negb (bool_decide (t = TWord kw))) (privilege_object d on) = true.
Proof.
  intros H1 H2.
  assert (∀ s, forallb (λ t, negb (bool_decide (t = TWord kw))) (qualified s) = true) as Hq.
  { intros s. pose proof (qualified_name s) as Hn. rewrite forallb_forall in Hn |- *.
    intros t Ht. apply Hn in Ht. rewrite bool_decide_eq_false_2; [done|]. by intros ->. }
  unfold privilege_object. destruct (nonempty on); [|destruct (nonempty d); [|done]]; simpl;
    rewrite ?bool_decide_eq_false_2 by congruence; simpl; apply Hq.
Qed.

Lemma parse_privilege_ok kw ptoks d on u :
  kw = "TO" ∨ kw = "FROM" → forallb is_privilege_token ptoks = true →
  parse_privilege kw (ptoks ++ privilege_object d on ++ TWord kw :: qualified u) =
    Some (ptoks, privilege_object d on, qualified u).
Proof.
  intros Hkw Hp. unfold parse_privilege.
  rewrite (span_app is_privilege_token ptoks); [|done|].
  - rewrite span_app.
    + by rewrite qualified_name.
    + destruct Hkw as [-> | ->]; by apply privilege_object_tokens.
    + by rewrite bool_decide_eq_true_2.
  - unfold privilege_object. destruct (nonempty on); [done|]. destruct (nonempty d); [done|].
    by destruct Hkw as [-> | ->].
Qed.

Definition given (pw : string) : option string := if nonempty pw then Some pw else None.

Lemma createUserQuery_read u pw :
  str_free nul pw = true →
  sql_read (createUserQuery u pw).1 = Some (SCreateUser (qualified u) (given pw)).
Proof.
  intros Hpw. unfold sql_read. rewrite createUserQuery_lex by done. unfold given.
  pose proof (span_app is_name_token (qualified u)) as Hspan.
  destruct (nonempty pw); cbn [mbind option_bind app sql_parse];
    rewrite Hspan by (done || apply qualified_name); done.
Qed.

Lemma deleteUserQuery_read u : sql_read (deleteUserQuery u) = Some (SDropUser (qualified u)).
Proof.
  unfold sql_read. rewrite deleteUserQuery_lex. cbn [mbind option_bind app sql_parse].
  pose proof (span_app is_name_token (qualified u) [] (qualified_name u) I) as Hspan.
  rewrite app_nil_r in Hspan. by rewrite Hspan.
Qed.

(** The privilege is a list of words, without the keywords that would end it. *)
Definition plain_privilege (pv : string) : bool :=
  match lex (escapeLiteralWithoutQuotes pv) with
  | Some ts => forallb is_privilege_token ts
  | None => false
  end.

Definition privilege_tokens (pv : string) : list token :=
  default [] (lex (escapeLiteralWithoutQuotes pv)).

Lemma plain_privilege_spec pv :
  plain_privilege pv = true →
  lex (escapeLiteralWithoutQuotes pv) = Some (privilege_tokens pv) ∧
  forallb is_privilege_token (privilege_tokens pv) = true.
Proof. unfold plain_privilege, privilege_tokens. by destruct (lex _). Qed.

Lemma grant_read u d on pv :
  plain_privilege pv = true →
  sql_read (prepareStatementForPrivilege "GRANT" "TO" u d on pv) =
    Some (SGrant (privilege_tokens pv) (privilege_object d on) (qualified u)).
Proof.
  intros [Hl Hp]%plain_privilege_spec. unfold sql_read.
  rewrite (prepareStatementForPrivilege_lex _ _ _ _ _ _ _) by (done || exact Hl).
  cbn [mbind option_bind app sql_parse]. rewrite bool_decide_eq_true_2 by done.
  by rewrite parse_privilege_ok by auto.
Qed.

Lemma revoke_read u d on pv :
  plain_privilege pv = true →
  sql_read (prepareStatementForPrivilege "REVOKE" "FROM" u d on pv) =
    Some (SRevoke (privilege_tokens pv) (privilege_object d on) (qualified u)).
Proof.
  intros [Hl Hp]%plain_privilege_spec. unfold sql_read.
  rewrite (prepareStatementForPrivilege_lex _ _ _ _ _ _ _) by (done || exact Hl).
  cbn [mbind option_bind app sql_parse]. rewrite bool_decide_eq_false_2 by done.
  rewrite bool_decide_eq_true_2 by done. by rewrite parse_privilege_ok by auto.
Qed.

(** ** Memberships *)

Definition lower_char (c : ascii) : ascii :=
  if in_range 65 90 c then ascii_of_nat (nat_of_ascii c + 32) else c.
Fixpoint lower (s : string) : string :=
  match s with EmptyString => "" | String c s' => String (lower_char c) (lower s') end.

(** The token spells the name of a role: words are folded to lower case. *)
Definition names_role (n : list token) (t : token) : bool :=
  match t with
  | TWord w => bool_decide (n = [TIdent (lower w)])
  | _ => bool_decide (n = [t])
  end.

(** PostgreSQL: a privilege on no object is a membership in the roles it names. *)
Definition membership (n p o : list token) : bool := bool_decide (o = []) && existsb (names_role n) p.

(** MySQL: a privilege on no object is a role; it may be an account of the user
    unless it is a plain word other than its name. *)
Definition my_membership (u pv : string) (ob : my_object) : bool :=
  bool_decide (ob = MNoObject) && negb (str_forallb is_word_char pv && bool_decide (pv ≠ u)).

(** ** What a server is *)

(** A connection: driver and connection string. *)
Definition conn : Type := string * string.

(** What the drivers do: the meaning of a statement with arguments over a
    connection (the states before and after, and the answer), and the
    connection string that stands for an URL. *)
Class Drivers (S : Type) := {
  srv_exec : S → conn → string → list string → option error → S → Prop;
  gen_mysql : DburlURL → string * option error
}.

(** A connection of the PostgreSQL driver. *)
Definition is_pgx (c : conn) : Prop := c.1 = "pgx".

(** What can be observed of the servers. *)
Class Server (S : Type) := {
  (** PostgreSQL: the role of a name and its password, seen through a connection. *)
  srv_role : S → conn → list token → option (option string);
  (** PostgreSQL: the privilege on an object is granted to a name. *)
  srv_granted : S → conn → list token → list token → list token → Prop;
  (** MySQL: the password of an account. *)
  my_account : S → conn → account → option string;
  (** MySQL: the privilege on an object is granted to an account. *)
  my_granted : S → conn → string → my_object → account → Prop
}.

Definition is_mysql (c : conn) : Prop := c.1 = "mysql".

Section Observations.
Context {S : Type} {SO : Server S}.
Implicit Types (s : S) (c : conn) (n p o : list token) (a : account) (u : string).

(** Roles and accounts are the same. *)
Definition same_roles s s' : Prop :=
  (∀ c n, srv_role s' c n = srv_role s c n) ∧ (∀ c a, my_account s' c a = my_account s c a).

#[export] Instance same_roles_preorder : PreOrder same_roles.
Proof.
  split; [by split|]. intros s1 s2 s3 [R1 A1] [R2 A2].
  split; intros; [by rewrite R2, R1|by rewrite A2, A1].
Qed.

(** Roles and accounts stay, with their passwords, and privileges are only added. *)
Definition grown s s' : Prop :=
  (∀ c n r, srv_role s c n = Some r → srv_role s' c n = Some r) ∧
  (∀ c p o n, srv_granted s c p o n → srv_granted s' c p o n) ∧
  (∀ c a pw, my_account s c a = Some pw → my_account s' c a = Some pw) ∧
  (∀ c pv ob a, my_granted s c pv ob a → my_granted s' c pv ob a).

#[export] Instance grown_preorder : PreOrder grown.
Proof.
  split; [intros s; by split_and!|]. intros s1 s2 s3 (R1 & G1 & A1 & P1) (R2 & G2 & A2 & P2).
  split_and!; eauto.
Qed.

(** Only the role and the accounts of a user are removed. *)
Definition roles_without u s s' : Prop :=
  (∀ c n, srv_role s' c n = srv_role s c n ∨ n = qualified u ∧ srv_role s' c n = None) ∧
  (∀ c a, my_account s' c a = my_account s c a ∨ a.1 = u ∧ my_account s' c a = None).

#[export] Instance roles_without_preorder u : PreOrder (roles_without u).
Proof.
  split; [by split; left|]. intros s1 s2 s3 [R1 A1] [R2 A2]. split.
  - intros c n. destruct (R2 c n) as [->|]; [apply R1|by right].
  - intros c a. destruct (A2 c a) as [->|]; [apply A1|by right].
Qed.

Lemma same_roles_without u s s' : same_roles s s' → roles_without u s s'.
Proof. intros [R A]. split; intros; left; [apply R|apply A]. Qed.

Lemma roles_without_gone u s s' c n : roles_without u s s' → srv_role s c n = None → srv_role s' c n = None.
Proof. intros [H _] Hn. by destruct (H c n) as [->|[_ ->]]. Qed.

Lemma roles_without_absent u s s' c a :
  roles_without u s s' → my_account s c a = None → my_account s' c a = None.
Proof. intros [_ H] Hn. by destruct (H c a) as [->|[_ ->]]. Qed.

(** Users of other names keep roles, accounts, passwords and privileges, all but
    memberships in the role of the user. *)
Definition others_kept u s s' : Prop :=
  (∀ c n, n ≠ qualified u → srv_role s' c n = srv_role s c n ∧
     ∀ p o, membership (qualified u) p o = false → srv_granted s' c p o n ↔ srv_granted s c p o n) ∧
  (∀ c a, a.1 ≠ u → my_account s' c a = my_account s c a ∧
     ∀ pv ob, my_membership u pv ob = false → my_granted s' c pv ob a ↔ my_granted s c pv ob a).

#[export] Instance others_kept_preorder u : PreOrder (others_kept u).
Proof.
  split; [by split|]. intros s1 s2 s3 [H1 K1] [H2 K2]. split.
  - intros c n Hn. destruct (H1 c n Hn) as [R1 G1], (H2 c n Hn) as [R2 G2].
    split; [congruence|]. intros p o Hm. by rewrite G2, G1.
  - intros c a Ha. destruct (K1 c a Ha) as [R1 G1], (K2 c a Ha) as [R2 G2].
    split; [congruence|]. intros p o Hm. by rewrite G2, G1.
Qed.

(** Nothing at all is different. *)
Definition unchanged s s' : Prop :=
  same_roles s s' ∧ (∀ c p o n, srv_granted s' c p o n ↔ srv_granted s c p o n) ∧
  (∀ c pv ob a, my_granted s' c pv ob a ↔ my_granted s c pv ob a).

(** What the creation of a user, and what its deletion may do, whatever the
    outcome is. *)
Definition only_added u s s' : Prop := grown s s' ∧ others_kept u s s'.
Definition only_removed u s s' : Prop := roles_without u s s' ∧ others_kept u s s'.

#[export] Instance only_added_preorder u : PreOrder (only_added u).
Proof. split; [by split|]. intros s1 s2 s3 [??] [??]. split; by etransitivity. Qed.
Lemma unchanged_only_added u s s' : unchanged s s' → only_added u s s'.
Proof.
  intros ([R A] & G & M). split; split_and!.
  - intros c n r. by rewrite R.
  - intros c p o n. by rewrite G.
  - intros c a pw. by rewrite A.
  - intros c pv ob a. by rewrite M.
  - intros c n _. split; [apply R|done].
  - intros c a _. split; [apply A|done].
Qed.
#[export] Instance only_removed_preorder u : PreOrder (only_removed u).
Proof. split; [by split|]. intros s1 s2 s3 [??] [??]. split; by etransitivity. Qed.
End Observations.

(** The name a statement is about. *)
Definition sql_name (st : sql) : list token :=
  match st with
  | SCreateUser n _ | SDropUser n | SGrant _ _ n | SRevoke _ _ n => n
  end.

(** The documented effect of the statements.  Whatever the answer is, also when
    the connection breaks, a statement leaves users of other names alone, but
    for their memberships in the role it is about: dropping a role revokes them
    in both systems, and PostgreSQL may make the creator of a role a member of
    it.  [CREATE USER] and [GRANT] take nothing away, [DROP USER] removes only
    roles of its user, and [GRANT] and [REVOKE] change no role.  When it succeeds,
    [CREATE USER] made what did not exist, [DROP USER] removed it, and [GRANT]
    granted the privilege.

    PostgreSQL tells with the answers "duplicate object" and "undefined object"
    that the role exists or does not.  It takes a zero character as the end of the
    text: when this is inside a string literal, the statement is refused with
    another error, before anything is done.  In MySQL a statement changes no account
    but its own, [DROP USER] fails for an account that does not exist, and
    [GRANT] to an account that does not exist is refused (from 8.0 on it
    creates none). *)
Class ServerLaws (S : Type) {DR : Drivers S} {SO : Server S} := {
  exec_others (s : S) c q st u r s' :
    is_pgx c → sql_read q = Some st → sql_name st = qualified u → srv_exec s c q [] r s' →
    others_kept u s s';
  exec_nul (s : S) c q r s' :
    is_pgx c → nul_in_literal q = true → srv_exec s c q [] r s' →
    unchanged s s' ∧ ∃ e, r = Some e ∧ isAlreadyExists r = false ∧ isNotExists r = false;
  exec_create_grown (s : S) c q n pw r s' :
    is_pgx c → sql_read q = Some (SCreateUser n pw) → srv_exec s c q [] r s' → grown s s';
  exec_create (s : S) c q n pw s' :
    is_pgx c → sql_read q = Some (SCreateUser n pw) → srv_exec s c q [] None s' →
    srv_role s c n = None ∧ srv_role s' c n = Some pw;
  exec_create_duplicate (s : S) c q n pw e s' :
    is_pgx c → sql_read q = Some (SCreateUser n pw) → srv_exec s c q [] (Some e) s' →
    isAlreadyExists (Some e) = true → is_Some (srv_role s c n);
  exec_drop_roles (s : S) c q u r s' :
    is_pgx c → sql_read q = Some (SDropUser (qualified u)) → srv_exec s c q [] r s' →
    roles_without u s s';
  exec_drop (s : S) c q n s' :
    is_pgx c → sql_read q = Some (SDropUser n) → srv_exec s c q [] None s' → srv_role s' c n = None;
  exec_drop_undefined (s : S) c q n e s' :
    is_pgx c → sql_read q = Some (SDropUser n) → srv_exec s c q [] (Some e) s' →
    isNotExists (Some e) = true → srv_role s c n = None;
  exec_grant_grown (s : S) c q p o n r s' :
    is_pgx c → sql_read q = Some (SGrant p o n) → srv_exec s c q [] r s' → same_roles s s' ∧ grown s s';
  exec_grant (s : S) c q p o n s' :
    is_pgx c → sql_read q = Some (SGrant p o n) → srv_exec s c q [] None s' → srv_granted s' c p o n;
  exec_revoke (s : S) c q p o n r s' :
    is_pgx c → sql_read q = Some (SRevoke p o n) → srv_exec s c q [] r s' → same_roles s s';

  my_exec_others (s : S) c q args st r s' :
    is_mysql c → my_read q args = Some st → srv_exec s c q args r s' →
    others_kept (my_about st).1 s s' ∧
    ∀ c' a, a ≠ my_about st → my_account s' c' a = my_account s c' a;
  my_exec_create_grown (s : S) c q args a pw r s' :
    is_mysql c → my_read q args = Some (MCreateUser a pw) → srv_exec s c q args r s' → grown s s';
  my_exec_create (s : S) c q args a pw s' :
    is_mysql c → my_read q args = Some (MCreateUser a pw) → srv_exec s c q args None s' →
    my_account s c a = None ∧ my_account s' c a = Some pw;
  my_exec_drop_roles (s : S) c q args a r s' :
    is_mysql c → my_read q args = Some (MDropUser a) → srv_exec s c q args r s' →
    roles_without a.1 s s';
  my_exec_drop (s : S) c q args a s' :
    is_mysql c → my_read q args = Some (MDropUser a) → srv_exec s c q args None s' →
    is_Some (my_account s c a) ∧ my_account s' c a = None;
  my_exec_grant_grown (s : S) c q args p o a r s' :
    is_mysql c → my_read q args = Some (MGrant p o a) → srv_exec s c q args r s' →
    same_roles s s' ∧ grown s s';
  my_exec_grant (s : S) c q args p o a s' :
    is_mysql c → my_read q args = Some (MGrant p o a) → srv_exec s c q args None s' →
    my_granted s' c p o a ∧ is_Some (my_account s c a);
  my_exec_revoke (s : S) c q args p o a r s' :
    is_mysql c → my_read q args = Some (MRevoke p o a) → srv_exec s c q args r s' → same_roles s s'
}.

(** ** The requests they answer *)

(** The servers and the connections of the handles that [Connect] keeps; a
    connection that could not be made has none. *)
Definition db_state (S : Type) : Type := S * gmap nat conn.

Definition db_step {S} `{Drivers S} (w : db_state S) (e : event) (w' : db_state S) : Prop :=
  match e with
  | existT r x =>
      match r return resp r → Prop with
      | SqlConnect driver connString => λ x,
          match x.2 with
          | None => w.2 !! x.1 = None ∧ w' = (w.1, <[x.1 := (driver, connString)]> w.2)
          | Some _ => w' = w
          end
      | SqlExec h q args => λ x,
          match w.2 !! h with
          | Some c => srv_exec w.1 c q args x w'.1 ∧ w'.2 = w.2
          | None => w' = w
          end
      | SqlClose h => λ _, w' = (w.1, delete h w.2)
      | GenMysql u => λ x, x = gen_mysql u ∧ w' = w
      | _ => λ _, w' = w
      end x
  end.

(** Requests it has no part in. *)
Definition local_req (r : req) : Prop :=
  match r with SqlConnect _ _ | SqlExec _ _ _ | SqlClose _ => False | _ => True end.

Section Connector.
Context {S : Type} {DR : Drivers S}.
Implicit Types (w : db_state S) (d : DefaultConnector).
Notation swp := (swp db_step).

Lemma db_step_local w r x w' : local_req r → db_step w (ev r x) w' → w' = w.
Proof. destruct r; try done. by intros _ [_ ->]. Qed.

Lemma local_served {A} (q : prog A) w : only local_req q → swp w q (λ _ w', w' = w).
Proof. intros Hq. eapply swp_only; [exact Hq|]. intros r x w1 w2. apply db_step_local. Qed.

(** The connector's handle is open. *)
Definition open_as d (c : conn) w : Prop :=
  ∃ h, DefaultConnector_db d = Some h ∧ w.2 !! h = Some c.

Lemma open_as_same d c w w' : open_as d c w → w'.2 = w.2 → open_as d c w'.
Proof. intros (h & ? & ?) E. exists h. by rewrite E. Qed.

Lemma Exec_served d c l q args w :
  open_as d c w →
  swp w (Exec d l q args) (λ o w', w'.2 = w.2 ∧
    ∃ r, o = Returned r ∧ srv_exec w.1 c q args r w'.1).
Proof.
  intros (h & Hh & Hc). simpl. unfold DefaultConnector_Exec, DefaultConnector_infoLog. rewrite Hh.
  assert (∀ w1 x w2, w1 = w → db_step w1 (ev (SqlExec h q args) x) w2 →
    srv_exec w.1 c q args x w2.1 ∧ w2.2 = w.2) as Hx.
  { intros w1 x w2 -> Hs. hnf in Hs. by rewrite Hc in Hs. }
  case_bool_decide; simpl; [|intros _ w1 Hw1; hnf in Hw1];
    intros x w2 Hs; apply Hx in Hs as [? ?]; eauto.
Qed.

Lemma Connect_served d driver cs w :
  swp w (Connect d driver cs) (λ o w', w'.1 = w.1 ∧ ∃ d' err, o = Returned (d', err) ∧
    match err with
    | None => ∃ h, DefaultConnector_db d' = Some h ∧ w.2 !! h = None ∧ w'.2 = <[h := (driver, cs)]> w.2
    | Some _ => w'.2 = w.2
    end).
Proof.
  intros [h [e|]] w1 Hs; hnf in Hs; simpl in Hs.
  - subst. split; [done|]. by exists d, (Some e).
  - destruct Hs as [Hh ->]. intros x2 w2 Hs. hnf in Hs. subst. intros x3 w3 Hs. hnf in Hs. subst.
    simpl. split; [done|]. do 2 eexists. split; [done|]. simpl. eauto.
Qed.

Lemma Close_served d h w :
  DefaultConnector_db d = Some h →
  swp w (Close d) (λ o w', w' = (w.1, delete h w.2) ∧ ∃ e, o = Returned e).
Proof. intros Hh. simpl. unfold DefaultConnector_Close. rewrite Hh. intros x w1 Hs. split; [done|eauto]. Qed.
End Connector.
