(* ===== verification/ServerDb.v ===== *)
(** * What a client of a database object can rely on at the servers

    The interface of pkg/database/database.go once more, now with the effect of
    its methods on the servers: [ServedDatabase] has what a kind of database
    promises, [ServedDatabaseLaws] that it keeps it on every outcome.
    [ServerPg] and [ServerMysql] are the instances; [ServerRuns] proves the
    reconciler against the interface. *)

From S2P Require Import Prelude GoStrings SqlLexer GoError Api Effects Logic StateLogic.
From S2P Require Import Connection PgUtils Postgresql Mysql MysqlSql Database Server.

Class ServedDatabase (S D : Type) := {
  (** The connection of the object is open. *)
  sd_open : D → conn → db_state S → Prop;
  (** What holds between the states before and after a successful creation of
      a user with a password, the grant of privileges, and a deletion. *)
  sd_created : D → conn → string → string → S → S → Prop;
  sd_granted : D → conn → string → list PrivilegeSpec → S → S → Prop;
  sd_deleted : D → conn → string → S → S → Prop
}.

(** The privilege is a list of words that PostgreSQL reads as one. *)
Definition plain (pr : PrivilegeSpec) : bool := plain_privilege (Privilege pr).

Class ServedDatabaseLaws (S D : Type) {DR : Drivers S} {SO : Server S} {O : DatabaseOps D}
    {SD : ServedDatabase S D} := {
  sd_open_same (d : D) c (w w' : db_state S) : sd_open d c w → w'.2 = w.2 → sd_open d c w';
  sd_CreateUser (d : D) c u pw (w : db_state S) :
    sd_open d c w → swp db_step w (db_CreateUser d u pw) (λ o w', w'.2 = w.2 ∧
      only_added u w.1 w'.1 ∧ ∀ m, o = Returned (m, None) → sd_created d c u pw w.1 w'.1);
  sd_ApplyPrivileges (d : D) c u l (w : db_state S) :
    sd_open d c w → forallb plain l = true →
    swp db_step w (db_ApplyPrivileges d u l) (λ o w', w'.2 = w.2 ∧
      only_added u w.1 w'.1 ∧ (o = Returned None → sd_granted d c u l w.1 w'.1));
  sd_RevokePrivileges (d : D) c u l (w : db_state S) :
    sd_open d c w → forallb plain l = true →
    swp db_step w (db_RevokePrivileges d u l) (λ _ w', w'.2 = w.2 ∧
      same_roles w.1 w'.1 ∧ others_kept u w.1 w'.1);
  sd_DeleteUser (d : D) c u (w : db_state S) :
    sd_open d c w → swp db_step w (db_DeleteUser d u) (λ o w', w'.2 = w.2 ∧
      only_removed u w.1 w'.1 ∧ (o = Returned None → sd_deleted d c u w.1 w'.1));
  (** A deletion is that from any state with the same roles. *)
  sd_deleted_same (d : D) c u (s s1 s2 : S) :
    same_roles s s1 → sd_deleted d c u s1 s2 → sd_deleted d c u s s2
}.
