(* ===== verification/ServerPg.v ===== *)
(** * PostgreSQL database objects on a server

    What the functions of the PostgreSQL object do to a server with the laws of
    [ServerLaws], on success and on failure: the instance of
    [ServedDatabaseLaws]. *)

From S2P Require Import Prelude GoStrings SqlLexer GoError Api Effects Logic StateLogic Utils.
From S2P Require Import Connection PgUtils PgConfig Pem Postgresql Mysql MysqlSql Database.
From S2P Require Import Server ServerDb.

Section Pg.
Context {S : Type} {DR : Drivers S} {SO : Server S} {SL : ServerLaws S}.
Implicit Types (w : db_state S) (p : Postgresql DefaultConnector) (c : conn).
Notation swp := (swp db_step).

(** ** Creation *)

Lemma file_req_local r : file_req r → local_req r.
Proof. unfold local_req. by destruct r. Qed.
Lemma crypto_req_local r : crypto_req r → local_req r.
Proof. unfold local_req. by destruct r. Qed.

(** The role of the name after a confirmed creation: as it was, or new with the
    given password. *)
Definition created_role c (u pw : string) (s s' : S) : Prop :=
  srv_role s' c (qualified u) = Some (default (given pw) (srv_role s c (qualified u))).

Lemma create_statement (s s' : S) c u pw r :
  is_pgx c → srv_exec s c (createUserQuery u pw).1 [] r s' →
  only_added u s s' ∧ (ignoreAlreadyExists r = None → created_role c u pw s s').
Proof.
  intros Hp Hx. destruct (str_free nul pw) eqn:Hpw.
  2: { apply (createUserQuery_nul u) in Hpw. destruct (exec_nul _ _ _ _ _ Hp Hpw Hx) as (Hu & e & -> & He & _).
    split; [by apply unchanged_only_added|]. unfold ignoreAlreadyExists. by rewrite He. }
  pose proof (createUserQuery_read u pw Hpw) as Hq.
  pose proof (exec_create_grown _ _ _ _ _ _ _ Hp Hq Hx) as Hg.
  split; [split; [done|exact (exec_others _ _ _ _ u _ _ Hp Hq eq_refl Hx)]|].
  unfold created_role. intros Hi. destruct r as [e|].
  - unfold ignoreAlreadyExists in Hi. destruct (isAlreadyExists (Some e)) eqn:He; [|done].
    destruct (exec_create_duplicate _ _ _ _ _ _ _ Hp Hq Hx He) as [r Hr]. rewrite Hr. by apply Hg.
  - destruct (exec_create _ _ _ _ _ _ Hp Hq Hx) as [Hn ->]. by rewrite Hn.
Qed.

Lemma Postgresql_CreateUser_served p c u pw w :
  open_as (pg_db p) c w → is_pgx c →
  swp w (Postgresql_CreateUser p u pw) (λ o w', w'.2 = w.2 ∧ only_added u w.1 w'.1 ∧
    ∀ m, o = Returned (m, None) → created_role c u pw w.1 w'.1).
Proof.
  intros Hc Hp. unfold Postgresql_CreateUser. destruct (createUserQuery u pw) as [q l] eqn:Eq.
  assert (q = (createUserQuery u pw).1) as -> by (by rewrite Eq). clear Eq.
  eapply swp_seq; [exact (Exec_served _ _ l _ _ _ Hc)|by intros m w1 (_ & r & [=] & _)|].
  intros r w1 (H2 & r' & [= <-] & Hx). apply create_statement in Hx as [Ha Hr]; [|done].
  destruct (CreateCerts (pg_config p) && negb (isAlreadyExists r)).
  - eapply swp_seq.
    + apply local_served. eapply only_impl; [exact crypto_req_local|apply genPostgresCertFromCA_only].
    + intros m w2 ->. by split_and!.
    + intros [m [e|]] w2 ->; (split_and!; [done..|]); intros m' [= _ He]; auto.
  - split_and!; [done..|]. intros m [= _ He]. auto.
Qed.

(** ** Privileges *)

(** The connection string of a configuration: what [ConnString] returns in some
    run. *)
Definition connection_string (cfg : Config) (cs : string) : Prop :=
  ∃ t cfg', runs (ConnString cfg) t (Returned (cfg', (cs, None))).

(** The connection over which a privilege is granted: one to its own database
    for a privilege on an object, that of the database object otherwise. *)
Definition privilege_conn c (cfg : Config) (pr : PrivilegeSpec) (c' : conn) : Prop :=
  if nonempty (PrivilegeSpec_Database pr) && nonempty (On pr) then
    ∃ cs, c' = ("pgx", cs) ∧ connection_string (set_DatabaseName cfg (PrivilegeSpec_Database pr)) cs
  else c' = c.

(** The privilege is granted to the name, over its connection. *)
Definition granted_to (s : S) c (cfg : Config) (u : string) (pr : PrivilegeSpec) : Prop :=
  ∃ c', privilege_conn c cfg pr c' ∧
    srv_granted s c' (privilege_tokens (Privilege pr))
      (privilege_object (PrivilegeSpec_Database pr)
         (if nonempty (PrivilegeSpec_Database pr) then On pr else "")) (qualified u).

Lemma granted_to_grown (s s' : S) c cfg u pr :
  grown s s' → granted_to s c cfg u pr → granted_to s' c cfg u pr.
Proof. intros (_ & Hg & _) (c' & Hc & Hp). exists c'. split; [done|by apply Hg]. Qed.

Lemma privilege_conn_pgx c cfg pr c' : is_pgx c → privilege_conn c cfg pr c' → is_pgx c'.
Proof. unfold privilege_conn. case_match; [by intros _ (cs & -> & _)|by intros ? ->]. Qed.

Lemma ConnString_served cfg w :
  swp w (ConnString cfg) (λ o w', w' = w ∧ ∃ t, runs (ConnString cfg) t o).
Proof.
  apply swp_runs, local_served. eapply only_impl; [exact file_req_local|apply ConnString_only].
Qed.

(** A connection that was opened: its handle is new. *)
Lemma Postgresql_Connect_served p w :
  swp w (Postgresql_Connect p) (λ o w', w'.1 = w.1 ∧
    match o with
    | Returned (p', None) => ∃ h cs, DefaultConnector_db (pg_db p') = Some h ∧ w.2 !! h = None ∧
        w'.2 = <[h := ("pgx", cs)]> w.2 ∧
        ∃ t, runs (ConnString (pg_config p)) t (Returned (pg_config p', (cs, None)))
    | _ => w'.2 = w.2
    end).
Proof.
  unfold Postgresql_Connect.
  eapply swp_seq; [apply ConnString_served|by intros m w1 [-> _]|].
  intros [cfg [cs [e|]]] w1 [-> [t Hcs]]; [done|].
  eapply swp_seq; [apply Connect_served|by intros m w1 (_ & d & err & [=] & _)|].
  intros [d err] w1 (H1 & d' & err' & [= <- <-] & Hd). destruct err; [done|].
  destruct Hd as (h & Hh & Hn & H2). split; [done|]. exists h, cs. split_and!; [done..|by exists t].
Qed.

Lemma Postgresql_Close_served p h w :
  DefaultConnector_db (pg_db p) = Some h →
  swp w (Postgresql_Close p) (λ o w', w' = (w.1, delete h w.2) ∧ ∃ e, o = Returned e).
Proof.
  intros Hh. unfold Postgresql_Close. eapply swp_seq.
  - apply swp_runs, local_served. eapply only_impl; [exact file_req_local|apply Config_Close_only].
  - by intros m w1 (_ & t & [[=] _]%Config_Close_runs).
  - intros e w1 [-> _]. by apply Close_served.
Qed.

(** One privilege: one statement over the privilege's connection, or none and an
    error. Connections opened for it are closed. *)
Definition step_sent p c u st a pr w (o : outcome (option error)) (w' : db_state S) : Prop :=
  w'.2 = w.2 ∧
  (w'.1 = w.1 ∧ o ≠ Returned None ∨
   ∃ c' r, o = Returned r ∧ privilege_conn c (pg_config p) pr c' ∧
     srv_exec w.1 c' (privilege_query st a u pr) [] r w'.1).

Lemma inDatabasePrivilege_served p c u st a pr w :
  nonempty (PrivilegeSpec_Database pr) && nonempty (On pr) = true →
  swp w (inDatabasePrivilege p u (PrivilegeSpec_Database pr) (On pr) (Privilege pr) st a)
    (step_sent p c u st a pr w).
Proof.
  intros Ho. unfold inDatabasePrivilege, step_sent. apply swp_bind.
  eapply swp_seq; [apply Postgresql_Connect_served|by intros m w1 [H1 H2]; split; [|left]|].
  intros [p' [e|]] w1 [H1 H2]; [by split; [|left]|]. destruct H2 as (h & cs & Hh & Hn & H2 & t & Hcs).
  assert (open_as (pg_db p') ("pgx", cs) w1) as Hopen.
  { exists h. split; [done|]. by rewrite H2, lookup_insert_eq. }
  eapply swp_finally; [exact (Exec_served _ _ EnableLogger _ [] _ Hopen)|].
  intros o w2 (H2' & r & -> & Hx). rewrite H1 in Hx.
  assert (delete h w2.2 = w.2) as Hd by (rewrite H2', H2; by apply delete_insert_id).
  assert (∃ c' r', Returned r = Returned r' ∧ privilege_conn c (pg_config p) pr c' ∧
    srv_exec w.1 c' (privilege_query st a u pr) [] r' w2.1) as Hs.
  { exists ("pgx", cs), r. split; [done|]. split; [unfold privilege_conn; rewrite Ho; exists cs; split; [done|by exists t, (pg_config p')]|].
    unfold privilege_query. by apply andb_true_iff in Ho as [-> _]. }
  eapply swp_seq; [by apply Postgresql_Close_served| |]; intros x w3 [-> He].
  - by destruct He as [e [=]].
  - split; [exact Hd|by right].
Qed.
Lemma privilege_step_served p c u st a pr w :
  open_as (pg_db p) c w → swp w (privilege_step p u st a pr) (step_sent p c u st a pr w).
Proof.
  intros Hc. unfold privilege_step.
  destruct (nonempty (PrivilegeSpec_Database pr) && nonempty (On pr)) eqn:E;
    destruct (nonempty (Privilege pr)) eqn:Ep; cbn [andb]; rewrite ?andb_true_r, ?andb_false_r.
  - by apply inDatabasePrivilege_served.
  - by split; [|left].
  - assert (∀ db, db = PrivilegeSpec_Database pr →
      swp w (Exec (pg_db p) EnableLogger (prepareStatementForPrivilege st a u db "" (Privilege pr)) [])
        (step_sent p c u st a pr w)) as Hx.
    { intros db ->. eapply swp_mono; [exact (Exec_served _ _ EnableLogger _ [] _ Hc)|].
      intros o w' (H2 & r & -> & Hx). split; [done|]. right. exists c, r. split; [done|].
      unfold privilege_conn, privilege_query. rewrite E. split; [done|].
      destruct (nonempty (PrivilegeSpec_Database pr)); [|done].
      apply nonempty_false in E. by rewrite E. }
    destruct (nonempty (PrivilegeSpec_Database pr)) eqn:Ed; [by apply Hx|].
    apply Hx. symmetry. by apply nonempty_false.
  - by split; [|left].
Qed.

(** A loop over privileges: [R] is kept by every statement, whatever its
    answer is, and [I] reached by those that succeed. *)
Lemma privileges_served p c u st a (R : S → S → Prop) (I : list PrivilegeSpec → S → Prop) l w :
  PreOrder R → open_as (pg_db p) c w → is_pgx c → forallb plain l = true →
  (∀ pr s s' c' r, plain pr = true → is_pgx c' →
     srv_exec s c' (privilege_query st a u pr) [] r s' → R s s') →
  (∀ done pr s s' c', plain pr = true → is_pgx c' → privilege_conn c (pg_config p) pr c' →
     I done s → srv_exec s c' (privilege_query st a u pr) [] None s' → I (done ++ [pr]) s') →
  I [] w.1 →
  swp w (Postgresql_privilegesProcessor p u l st a)
    (λ o w', (w'.2 = w.2 ∧ R w.1 w'.1) ∧ (o = Returned None → I l w'.1)).
Proof.
  intros HR Hc Hp Hl HRstep HIstep H0. unfold Postgresql_privilegesProcessor.
  apply (swp_range_err db_step (privilege_step p u st a) (λ w', w'.2 = w.2 ∧ R w.1 w'.1)
    (λ done w', I done w'.1) (λ pr, plain pr = true)) with (done := []); [| |by split|done].
  - intros done pr w1 Hpl [H2 Hd] HI.
    eapply swp_mono; [by eapply privilege_step_served, open_as_same|].
    intros o w' [H2' [[H1 Hne]|(c' & r & -> & Hc' & Hx)]].
    + rewrite H1. split; [split; [congruence|done]|done].
    + pose proof (privilege_conn_pgx _ _ _ _ Hp Hc') as Hp'.
      split; [split; [congruence|]|intros [= ->]; by eapply HIstep].
      etransitivity; [exact Hd|by eapply HRstep].
  - by apply forallb_Forall.
Qed.

Lemma ApplyPrivileges_served p c u l w :
  open_as (pg_db p) c w → is_pgx c → forallb plain l = true →
  swp w (Postgresql_ApplyPrivileges p u l) (λ o w', (w'.2 = w.2 ∧ only_added u w.1 w'.1) ∧
    (o = Returned None → Forall (granted_to w'.1 c (pg_config p) u) l)).
Proof.
  intros Hc Hp Hl. eapply (privileges_served p c u "GRANT" "TO" (only_added u)
    (λ done s, Forall (granted_to s c (pg_config p) u) done)); try done; [apply _| |].
  - intros pr s s' c' r Hpl Hp' Hx. pose proof (grant_read u (PrivilegeSpec_Database pr)
      (if nonempty (PrivilegeSpec_Database pr) then On pr else "") _ Hpl) as Hq. split.
    + by eapply exec_grant_grown.
    + by eapply (exec_others _ _ _ _ u).
  - intros done pr s s' c' Hpl Hp' Hc' Hd Hx. pose proof (grant_read u (PrivilegeSpec_Database pr)
      (if nonempty (PrivilegeSpec_Database pr) then On pr else "") _ Hpl) as Hq.
    apply Forall_app. split.
    + eapply Forall_impl; [exact Hd|]. intros pr'. apply granted_to_grown. by eapply exec_grant_grown.
    + constructor; [|constructor]. exists c'. split; [done|]. by eapply exec_grant.
Qed.

(** ** Deletion *)

Lemma RevokePrivileges_served p c u l w :
  open_as (pg_db p) c w → is_pgx c → forallb plain l = true →
  swp w (Postgresql_RevokePrivileges p u l) (λ _ w', w'.2 = w.2 ∧
    same_roles w.1 w'.1 ∧ others_kept u w.1 w'.1).
Proof.
  intros Hc Hp Hl. unfold Postgresql_RevokePrivileges.
  eapply swp_seq with (P := λ _ w', w'.2 = w.2 ∧ same_roles w.1 w'.1 ∧ others_kept u w.1 w'.1);
    [|done|done].
  eapply swp_mono.
  - apply (privileges_served p c u "REVOKE" "FROM"
      (λ s s', same_roles s s' ∧ others_kept u s s') (λ _ _, True)); try done.
    + split; [by split|]. intros s1 s2 s3 [??] [??]. split; by etransitivity.
    + intros pr s s' c' r Hpl Hp' Hx. pose proof (revoke_read u (PrivilegeSpec_Database pr)
        (if nonempty (PrivilegeSpec_Database pr) then On pr else "") _ Hpl) as Hq. split.
      * by eapply exec_revoke.
      * by eapply (exec_others _ _ _ _ u).
  - by intros o w' [? _].
Qed.

Lemma DeleteUser_served p c u w :
  open_as (pg_db p) c w → is_pgx c →
  swp w (Postgresql_DeleteUser p u) (λ o w', w'.2 = w.2 ∧ only_removed u w.1 w'.1 ∧
    (o = Returned None → srv_role w'.1 c (qualified u) = None)).
Proof.
  intros Hc Hp. unfold Postgresql_DeleteUser.
  eapply swp_seq; [exact (Exec_served _ _ EnableLogger _ [] _ Hc)|by intros m w1 (_ & r & [=] & _)|].
  intros r w1 (H2 & r' & [= <-] & Hx). pose proof (deleteUserQuery_read u) as Hq.
  pose proof (exec_drop_roles _ _ _ _ _ _ Hp Hq Hx) as Hr.
  split_and!; [done|split; [done|by eapply (exec_others _ _ _ _ u)]|].
  intros [= Hi]. destruct r as [e|]; [|by eapply exec_drop].
  unfold ignoreNotExists in Hi. destruct (isNotExists (Some e)) eqn:He; [|done].
  eapply roles_without_gone; [exact Hr|]. by eapply exec_drop_undefined.
Qed.
End Pg.

(** ** The instance *)

Section Instance_.
Context {S : Type} {DR : Drivers S} {SO : Server S} {SL : ServerLaws S}.

#[local] Instance Postgresql_Served : ServedDatabase S (Postgresql DefaultConnector) := {
  sd_open p c w := open_as (pg_db p) c w ∧ is_pgx c;
  sd_created _ c u pw s s' := created_role c u pw s s';
  sd_granted p c u l _ s' := Forall (granted_to s' c (pg_config p) u) l;
  sd_deleted _ c u _ s' := srv_role s' c (qualified u) = None
}.

#[local] Instance Postgresql_ServedLaws : ServedDatabaseLaws S (Postgresql DefaultConnector).
Proof.
  split.
  - intros p c w w' [Ho Hp] E. split; [by eapply open_as_same|done].
  - intros p c u pw w [Ho Hp]. by apply (Postgresql_CreateUser_served p c).
  - intros p c u l w [Ho Hp] Hl.
    eapply swp_mono; [exact (ApplyPrivileges_served p c u l w Ho Hp Hl)|]. by intros o w' [[? ?] ?].
  - intros p c u l w [Ho Hp] Hl. by apply (RevokePrivileges_served p c).
  - intros p c u w [Ho Hp]. by apply (DeleteUser_served p c).
  - done.
Defined.
End Instance_.
