(* ===== verification/ServerMysql.v ===== *)
(** * MySQL database objects on a server

    What the functions of the MySQL object do to a server with the laws of
    [ServerLaws], on success and on failure: the instance of
    [ServedDatabaseLaws].  Creation and deletion are about the account of the
    user at the configured host name, privileges about its account at any
    host. *)

From S2P Require Import Prelude GoStrings GoError Api Effects Logic StateLogic.
From S2P Require Import Connection PgUtils Postgresql Mysql MysqlSql Database Server ServerDb.

Section Mysql.
Context {S : Type} {DR : Drivers S} {SO : Server S} {SL : ServerLaws S}.
Implicit Types (w : db_state S) (m : Mysql DefaultConnector) (c : conn).
Notation swp := (swp db_step).

(** ** The connection *)

(** The URL [MysqlConnString] asks the connection string of. *)
Definition mysql_url (c : MysqlConfig) : DburlURL :=
  mkDburlURL "mysql" (mcfg_Host c +:+ ":" +:+ fmt_d (mcfg_Port c))
    (if bool_decide (mcfg_Password c ≠ "") then url_UserPassword (mcfg_User c) (mcfg_Password c)
     else url_User (mcfg_User c))
    (mcfg_DatabaseName c) "interpolateParams=true" "tcp".

(** The connection of a configuration. *)
Definition mysql_conn (cfg : MysqlConfig) (c : conn) : Prop :=
  ∃ cs, c = ("mysql", cs) ∧ gen_mysql (mysql_url cfg) = (cs, None).

Lemma mysql_conn_is cfg c : mysql_conn cfg c → is_mysql c.
Proof. by intros (cs & -> & _). Qed.

(** A connection that was opened: its handle is new. *)
Lemma Mysql_Connect_served m w :
  swp w (Mysql_Connect m) (λ o w', w'.1 = w.1 ∧
    match o with
    | Returned (m', None) => ∃ h c, DefaultConnector_db (my_db m') = Some h ∧ w.2 !! h = None ∧
        w'.2 = <[h := c]> w.2 ∧ my_config m' = my_config m ∧ mysql_conn (my_config m) c
    | _ => w'.2 = w.2
    end).
Proof.
  unfold Mysql_Connect. change (MysqlConnString (my_config m)) with (call (GenMysql (mysql_url (my_config m)))).
  intros [cs err] w1 [Hx ->]. cbn [bind]. destruct err as [e|]; [done|].
  eapply swp_seq; [apply Connect_served|by intros m0 w1 (_ & d & err & [=] & _)|].
  intros [d err] w2 (H1 & d' & err' & [= <- <-] & Hd). destruct err; [done|].
  destruct Hd as (h & Hh & Hn & H2). split; [done|]. exists h, ("mysql", cs). split_and!; try done.
  by exists cs.
Qed.

Lemma Mysql_Close_served m h w :
  DefaultConnector_db (my_db m) = Some h →
  swp w (Mysql_Close m) (λ o w', w' = (w.1, delete h w.2) ∧ ∃ e, o = Returned e).
Proof. apply Close_served. Qed.

(** ** The accounts of a user *)

Definition created_account m (u : string) : account := (u, UsersHostname (my_config m)).
Definition granted_account (u : string) : account := (u, any_host).

(** Only this account may differ. *)
Definition accounts_but (a : account) (s s' : S) : Prop :=
  ∀ c b, b ≠ a → my_account s' c b = my_account s c b.

Definition my_created m c (u pw : string) (s s' : S) : Prop :=
  my_account s c (created_account m u) = None ∧ my_account s' c (created_account m u) = Some pw ∧
  accounts_but (created_account m u) s s'.

Definition my_granted_to (s : S) c (u : string) (pr : PrivilegeSpec) : Prop :=
  my_granted s c (Privilege pr) (object_of pr) (granted_account u).

(** The privileges are granted, and the account they are granted to was there. *)
Definition my_granted_all c (u : string) (l : list PrivilegeSpec) (s s' : S) : Prop :=
  Forall (my_granted_to s' c u) l ∧ (l ≠ [] → is_Some (my_account s c (granted_account u))).

Definition my_deleted m c (u : string) (s s' : S) : Prop :=
  is_Some (my_account s c (created_account m u)) ∧ my_account s' c (created_account m u) = None.

Lemma Mysql_CreateUser_served m c u pw w :
  open_as (my_db m) c w → is_mysql c →
  swp w (Mysql_CreateUser m u pw) (λ o w', w'.2 = w.2 ∧ only_added u w.1 w'.1 ∧
    ∀ r, o = Returned (r, None) → my_created m c u pw w.1 w'.1).
Proof.
  intros Hc Hm. unfold Mysql_CreateUser.
  eapply swp_seq; [exact (Exec_served _ _ DisableLogger _ _ _ Hc)|by intros p w1 (_ & r & [=] & _)|].
  intros r w1 (H2 & r' & [= <-] & Hx). pose proof (create_query_read u (UsersHostname (my_config m)) pw) as Hq.
  destruct (my_exec_others _ _ _ _ _ _ _ Hm Hq Hx) as [Ho Hb].
  split_and!; [done|split; [by eapply my_exec_create_grown|done]|].
  intros r0 [= _ ->]. destruct (my_exec_create _ _ _ _ _ _ _ Hm Hq Hx) as [Hn Hs].
  split_and!; [done..|]. exact Hb.
Qed.

Lemma Mysql_DeleteUser_served m c u w :
  open_as (my_db m) c w → is_mysql c →
  swp w (Mysql_DeleteUser m u) (λ o w', w'.2 = w.2 ∧ only_removed u w.1 w'.1 ∧
    (o = Returned None → my_deleted m c u w.1 w'.1)).
Proof.
  intros Hc Hm. unfold Mysql_DeleteUser.
  eapply swp_mono; [exact (Exec_served _ _ EnableLogger _ _ _ Hc)|].
  intros o w1 (H2 & r & -> & Hx). pose proof (drop_query_read u (UsersHostname (my_config m))) as Hq.
  destruct (my_exec_others _ _ _ _ _ _ _ Hm Hq Hx) as [Ho _].
  split_and!; [done|split; [by apply (my_exec_drop_roles _ _ _ _ _ _ _ Hm Hq Hx)|done]|].
  intros [= ->]. by apply (my_exec_drop _ _ _ _ _ _ Hm Hq Hx).
Qed.

(** ** Privileges *)

Lemma Mysql_privilege_step_served m c u st a pr w :
  open_as (my_db m) c w →
  swp w (Mysql_privilege_step m u st a pr) (λ o w', w'.2 = w.2 ∧ ∃ r, o = Returned r ∧
    srv_exec w.1 c (mysql_privilege_stmt st a u pr).1 (mysql_privilege_stmt st a u pr).2 r w'.1).
Proof.
  intros Hc. unfold Mysql_privilege_step, mysql_privilege_stmt.
  destruct (MysqlPrepareStatementForPrivilege _ _ _ _ _ _) as [q args].
  exact (Exec_served _ _ EnableLogger _ _ _ Hc).
Qed.

(** As for PostgreSQL: [R] is kept and [I] reached. *)
Lemma my_privileges_served m c u st a (R : S → S → Prop) (I : list PrivilegeSpec → S → Prop) l w :
  PreOrder R → open_as (my_db m) c w →
  (∀ pr s s' r, srv_exec s c (mysql_privilege_stmt st a u pr).1 (mysql_privilege_stmt st a u pr).2 r s' →
     R s s') →
  (∀ done pr s s', R w.1 s → I done s →
     srv_exec s c (mysql_privilege_stmt st a u pr).1 (mysql_privilege_stmt st a u pr).2 None s' →
     I (done ++ [pr]) s') →
  I [] w.1 →
  swp w (Mysql_privilegesProcessor m u l st a)
    (λ o w', (w'.2 = w.2 ∧ R w.1 w'.1) ∧ (o = Returned None → I l w'.1)).
Proof.
  intros HR Hc HRstep HIstep H0. unfold Mysql_privilegesProcessor.
  apply (swp_range_err db_step (Mysql_privilege_step m u st a) (λ w', w'.2 = w.2 ∧ R w.1 w'.1)
    (λ done w', I done w'.1) (λ _, True)) with (done := []); [| |by split|done].
  - intros done pr w1 _ [H2 Hd] HI.
    eapply swp_mono; [by eapply Mysql_privilege_step_served, open_as_same|].
    intros o w' (H2' & r & -> & Hx). split; [split; [congruence|]|].
    + etransitivity; [exact Hd|by eapply HRstep].
    + intros [= ->]. by eapply HIstep.
  - by apply Forall_true.
Qed.

Lemma grant_read_stmt u pr :
  my_read (mysql_privilege_stmt "GRANT" "TO" u pr).1 (mysql_privilege_stmt "GRANT" "TO" u pr).2 =
    Some (MGrant (Privilege pr) (object_of pr) (granted_account u)).
Proof. pose proof (grant_stmt_read u pr) as H. by destruct (mysql_privilege_stmt _ _ _ _). Qed.

Lemma revoke_read_stmt u pr :
  my_read (mysql_privilege_stmt "REVOKE" "FROM" u pr).1 (mysql_privilege_stmt "REVOKE" "FROM" u pr).2 =
    Some (MRevoke (Privilege pr) (object_of pr) (granted_account u)).
Proof. pose proof (revoke_stmt_read u pr) as H. by destruct (mysql_privilege_stmt _ _ _ _). Qed.

Lemma Mysql_ApplyPrivileges_served m c u l w :
  open_as (my_db m) c w → is_mysql c →
  swp w (Mysql_ApplyPrivileges m u l) (λ o w', w'.2 = w.2 ∧ only_added u w.1 w'.1 ∧
    (o = Returned None → my_granted_all c u l w.1 w'.1)).
Proof.
  intros Hc Hm. eapply swp_mono.
  - apply (my_privileges_served m c u "GRANT" "TO" (λ s s', same_roles s s' ∧ only_added u s s')
      (λ done s, my_granted_all c u done w.1 s)); [|done| | |by split].
    + split; [by split|]. intros s1 s2 s3 [??] [??]. split; by etransitivity.
    + intros pr s s' r Hx. destruct (my_exec_grant_grown _ _ _ _ _ _ _ _ _ Hm (grant_read_stmt u pr) Hx).
      split; [done|split; [done|]]. by apply (my_exec_others _ _ _ _ _ _ _ Hm (grant_read_stmt u pr) Hx).
    + intros done pr s s' [[_ Ha] _] [Hf _] Hx.
      destruct (my_exec_grant_grown _ _ _ _ _ _ _ _ _ Hm (grant_read_stmt u pr) Hx) as [_ (_ & _ & _ & Hg)].
      destruct (my_exec_grant _ _ _ _ _ _ _ _ Hm (grant_read_stmt u pr) Hx) as [Hp Hs].
      split; [|by rewrite <- Ha]. apply Forall_app. split; [|by repeat constructor].
      eapply Forall_impl; [exact Hf|]. intros pr' Hp'. by apply Hg.
  - by intros o w' [[? [_ ?]] ?].
Qed.

Lemma Mysql_RevokePrivileges_served m c u l w :
  open_as (my_db m) c w → is_mysql c →
  swp w (Mysql_RevokePrivileges m u l) (λ _ w', w'.2 = w.2 ∧
    same_roles w.1 w'.1 ∧ others_kept u w.1 w'.1).
Proof.
  intros Hc Hm. eapply swp_mono.
  - apply (my_privileges_served m c u "REVOKE" "FROM" (λ s s', same_roles s s' ∧ others_kept u s s')
      (λ _ _, True)); [|done| |done|done].
    + split; [by split|]. intros s1 s2 s3 [??] [??]. split; by etransitivity.
    + intros pr s s' r Hx. split; [by eapply my_exec_revoke; [|apply revoke_read_stmt|]|].
      by apply (my_exec_others _ _ _ _ _ _ _ Hm (revoke_read_stmt u pr) Hx).
  - by intros o w' [? _].
Qed.
End Mysql.

(** ** The instance *)

Section Instance_.
Context {S : Type} {DR : Drivers S} {SO : Server S} {SL : ServerLaws S}.

#[local] Instance Mysql_Served : ServedDatabase S (Mysql DefaultConnector) := {
  sd_open m c w := open_as (my_db m) c w ∧ is_mysql c;
  sd_created m c u pw s s' := my_created m c u pw s s';
  sd_granted _ c u l s s' := my_granted_all c u l s s';
  sd_deleted m c u s s' := my_deleted m c u s s'
}.

#[local] Instance Mysql_ServedLaws : ServedDatabaseLaws S (Mysql DefaultConnector).
Proof.
  split.
  - intros m c w w' [Ho Hm] E. split; [by eapply open_as_same|done].
  - intros m c u pw w [Ho Hm]. by apply (Mysql_CreateUser_served m c).
  - intros m c u l w [Ho Hm] _. by apply (Mysql_ApplyPrivileges_served m c).
  - intros m c u l w [Ho Hm] _. by apply (Mysql_RevokePrivileges_served m c).
  - intros m c u w [Ho Hm]. by apply (Mysql_DeleteUser_served m c).
  - intros m c u s s1 s2 [_ Ha] [Hs Hn]. split; [by rewrite <- Ha|done].
Defined.
End Instance_.
