(* ===== verification/ServerObjects.v ===== *)
(** * The database objects that [NewDatabase] makes

    An interface value keeps the promises of [ServedDatabaseLaws] when its
    dynamic type does; [NewDatabase] opens one connection, to the server of the
    specification, or none. *)

From S2P Require Import Prelude GoStrings SqlLexer GoError Api Effects Logic StateLogic Utils.
From S2P Require Import Connection PgUtils PgConfig Postgresql Mysql MysqlSql Database.
From S2P Require Import Server ServerDb ServerPg ServerMysql.

Section Objects.
Context {S : Type} {DR : Drivers S} {SO : Server S} {SL : ServerLaws S}.
Implicit Types (w : db_state S) (d : iface DefaultConnector) (k : conn).
Notation swp := (swp db_step).

#[local] Existing Instance Postgresql_Served.
#[local] Existing Instance Postgresql_ServedLaws.
#[local] Existing Instance Mysql_Served.
#[local] Existing Instance Mysql_ServedLaws.

(** ** The interface value *)

(** What is promised for a nil interface or a nil pointer is nothing. *)
Definition by_type (fp : Postgresql DefaultConnector → Prop) (fm : Mysql DefaultConnector → Prop) d
    : Prop :=
  match d with
  | IfacePostgresql (Some p) => fp p
  | IfaceMysql (Some m) => fm m
  | _ => False
  end.

#[local] Instance iface_Served : ServedDatabase S (iface DefaultConnector) := {
  sd_open d k w := by_type (λ p, sd_open p k w) (λ m, sd_open m k w) d;
  sd_created d k u pw s s' := by_type (λ p, sd_created p k u pw s s') (λ m, sd_created m k u pw s s') d;
  sd_granted d k u l s s' := by_type (λ p, sd_granted p k u l s s') (λ m, sd_granted m k u l s s') d;
  sd_deleted d k u s s' := by_type (λ p, sd_deleted p k u s s') (λ m, sd_deleted m k u s s') d
}.

#[local] Instance iface_ServedLaws : ServedDatabaseLaws S (iface DefaultConnector).
Proof.
  split; intros [|[p|]|[m|]]; try done.
  - exact (sd_open_same p).
  - exact (sd_open_same m).
  - exact (sd_CreateUser p).
  - exact (sd_CreateUser m).
  - exact (sd_ApplyPrivileges p).
  - exact (sd_ApplyPrivileges m).
  - exact (sd_RevokePrivileges p).
  - exact (sd_RevokePrivileges m).
  - exact (sd_DeleteUser p).
  - exact (sd_DeleteUser m).
  - exact (sd_deleted_same m).
Defined.

(** ** Opening *)

(** The configuration is the one of the specification. *)
Definition config_for (c : PostgreSQLConfig) (cfg : Config) : Prop :=
  cfg_Host cfg = Pg_Host c ∧ cfg_Port cfg = Pg_Port c ∧ cfg_User cfg = Pg_User c ∧
  cfg_DatabaseName cfg = Pg_DatabaseName c ∧ cfg_SSLMode cfg = Pg_SSLMode c.

(** A connection to the server of the specification. *)
Definition server_conn (c : PostgreSQLConfig) k : Prop :=
  ∃ cfg cs, k = ("pgx", cs) ∧ config_for c cfg ∧ connection_string cfg cs.

Definition my_config_for (c : MySQLConfig) (cfg : MysqlConfig) : Prop :=
  ∃ pw, cfg = MysqlNewConfig (My_Host c) (My_Port c) (My_User c) pw (My_DatabaseName c) (My_UsersHostname c).

(** The host name of the accounts of users. *)
Definition users_host (c : MySQLConfig) : string :=
  UsersHostname (MysqlNewConfig (My_Host c) (My_Port c) (My_User c) "" (My_DatabaseName c) (My_UsersHostname c)).

Lemma my_config_host (c : MySQLConfig) cfg : my_config_for c cfg → UsersHostname cfg = users_host c.
Proof. by intros [pw ->]. Qed.

Definition my_server_conn (c : MySQLConfig) k : Prop := ∃ cfg, my_config_for c cfg ∧ mysql_conn cfg k.

(** The object is one for the specification, over the connection. *)
Definition object_for (s : DatabaseSpec) d k : Prop :=
  by_type
    (λ p, DatabaseSpec_Type s = PostgreSQL ∧ ∃ c, DatabaseSpec_PostgreSQL s = Some c ∧
       config_for c (pg_config p) ∧ server_conn c k)
    (λ m, DatabaseSpec_Type s = MySQL ∧ ∃ c, DatabaseSpec_MySQL s = Some c ∧
       my_config_for c (my_config m) ∧ my_server_conn c k) d.

Definition has_handle d (h : nat) : Prop :=
  by_type (λ p, DefaultConnector_db (pg_db p) = Some h) (λ m, DefaultConnector_db (my_db m) = Some h) d.

(** The object over a new handle. *)
Definition fresh_object (s : DatabaseSpec) d k w w' : Prop :=
  object_for s d k ∧ ∃ h, has_handle d h ∧ w.2 !! h = None ∧ w' = (w.1, <[h := k]> w.2).

Lemma fresh_object_open s d k w w' : fresh_object s d k w w' → sd_open d k w'.
Proof.
  intros (Hk & h & Hh & Hn & ->).
  assert ((w.1, <[h := k]> w.2).2 !! h = Some k) as Hl by apply lookup_insert_eq.
  destruct d as [|[p|]|[m|]]; try done; (split; [by exists h|]).
  - by destruct Hk as (_ & c & _ & _ & cfg & cs & -> & _).
  - by destruct Hk as (_ & c & _ & _ & cfg & _ & cs & -> & _).
Qed.

Lemma secret_served {A} (q : prog A) w : only secret_req q → swp w q (λ _ w', w' = w).
Proof. intros Hq. apply local_served. eapply only_impl; [|exact Hq]. by intros []. Qed.

Lemma ConnString_config (c : PostgreSQLConfig) cfg t cfg' cs :
  config_for c cfg → runs (ConnString cfg) t (Returned (cfg', (cs, None))) → config_for c cfg'.
Proof.
  intros Hc Ht. apply ConnString_runs in Ht as (h1 & h2 & h3 & _ & H & _).
  destruct (H eq_refl) as (Ha & _). unfold after_ConnString in Ha. subst cfg'. by case_match.
Qed.

Lemma state_eq w w' : w'.1 = w.1 → w'.2 = w.2 → w' = w.
Proof. destruct w, w'. simpl. congruence. Qed.

(** A constructor opens the object's connection, or nothing when it fails. *)
Definition opens {D} (db : D → DefaultConnector) (for_ : D → conn → Prop) w
    (o : outcome (option D * option error)) w' : Prop :=
  match o with
  | Returned (Some p, None) => ∃ k h, for_ p k ∧ DefaultConnector_db (db p) = Some h ∧
      w.2 !! h = None ∧ w' = (w.1, <[h := k]> w.2)
  | Returned (None, None) => False
  | _ => w' = w
  end.

Lemma newPostgresql_served conn0 (c : option PostgreSQLConfig) w :
  swp w (newPostgresql conn0 c) (opens pg_db (λ p k, ∃ c', c = Some c' ∧
    config_for c' (pg_config p) ∧ server_conn c' k) w).
Proof.
  unfold newPostgresql. destruct c as [c|]; [|done].
  eapply swp_seq; [apply secret_served, readSSL_only|by intros m w1 ->|].
  intros [[d sslCAKey] [e|]] w1 ->; [done|].
  eapply swp_seq; [apply secret_served, passwordFromSecret_only|by intros m w1 ->|].
  intros [pw [e|]] w1 ->; [done|].
  eapply swp_seq; [apply Postgresql_Connect_served|by intros m w1 [? ?]; apply state_eq|].
  intros [p' [e|]] w1 [H1 Hp']; [by apply state_eq|]. destruct w1 as [s2 hs2]. simpl in H1, Hp'. subst.
  destruct Hp' as (h & cs & Hh & Hn & -> & t & Ht). exists ("pgx", cs), h. split_and!; try done.
  exists c. split; [done|]. split.
  - by eapply ConnString_config, Ht.
  - eexists _, cs. split; [done|]. split; [|exists t, (pg_config p'); exact Ht]. done.
Qed.

Lemma newMysql_served conn0 (c : option MySQLConfig) w :
  swp w (newMysql conn0 c) (opens my_db (λ m k, ∃ c', c = Some c' ∧
    my_config_for c' (my_config m) ∧ my_server_conn c' k) w).
Proof.
  unfold newMysql. destruct c as [c|]; [|done].
  eapply swp_seq; [apply secret_served, passwordFromSecret_only|by intros m w1 ->|].
  intros [pw [e|]] w1 ->; [done|].
  eapply swp_seq; [apply Mysql_Connect_served|by intros m w1 [? ?]; apply state_eq|].
  intros [m' [e|]] w1 [H1 Hm']; [by apply state_eq|]. destruct w1 as [s2 hs2]. simpl in H1, Hm'. subst.
  destruct Hm' as (h & k & Hh & Hn & -> & Hcfg & Hk). exists k, h. split_and!; try done.
  exists c. split; [done|]. rewrite Hcfg. split; [by exists pw|]. eexists. split; [|exact Hk]. by exists pw.
Qed.

Lemma NewDatabase_served s w :
  swp w (NewDatabase s) (λ o w', match o with
    | Returned (d, None) => ∃ k, fresh_object s d k w w'
    | _ => w' = w
    end).
Proof.
  unfold NewDatabase, newDatabase. case_bool_decide as Hp; [|case_bool_decide as Hm; [|done]].
  - eapply swp_seq; [apply newPostgresql_served|done|].
    intros [[p|] [e|]] w1 Ho; try done. destruct Ho as (k & h & Hk & Hh & Hn & ->).
    exists k. split; [done|]. by exists h.
  - eapply swp_seq; [apply newMysql_served|done|].
    intros [[m|] [e|]] w1 Ho; try done. destruct Ho as (k & h & Hk & Hh & Hn & ->).
    exists k. split; [done|]. by exists h.
Qed.

(** ** Closing *)

Lemma Close_fresh_served d h w :
  has_handle d h → swp w (db_Close d) (λ _ w', w' = (w.1, delete h w.2)).
Proof.
  intros Hh. destruct d as [|[p|]|[m|]]; try done.
  - eapply swp_mono; [exact (Postgresql_Close_served p h w Hh)|]. by intros o w' [-> _].
  - eapply swp_mono; [exact (Mysql_Close_served m h w Hh)|]. by intros o w' [-> _].
Qed.
End Objects.
