(* ===== verification/ServerRuns.v ===== *)
(** * The operator's programs on the servers

    The reconciler's work in one database, proved against the interface
    [ServedDatabase], the object that [NewDatabase] makes as an instance of it,
    and the loop over the databases of a user: what is on the servers when they
    succeed, and what they cannot do on any outcome.  [ServerProps] has the
    theorems. *)

From S2P Require Import Prelude GoStrings SqlLexer GoError Api Effects Logic StateLogic Utils.
From S2P Require Import Connection PgUtils PgConfig Pem Postgresql Mysql MysqlSql Database.
From S2P Require Import Server ServerDb ServerPg ServerMysql ServerObjects.
From S2P Require Import Controller ControllerFacts ControllerRuns.

(** ** The work in one database *)

Section Work.
Context {S : Type} {DR : Drivers S} {SO : Server S}.
Context {D : Type} {O : DatabaseOps D} {SD : ServedDatabase S D} {SDL : ServedDatabaseLaws S D}.
Implicit Types (w : db_state S) (d : D) (c : conn).
Notation swp := (swp db_step).

Lemma quiet_served {A} (q : prog A) w : only quiet_req q → swp w q (λ _ w', w' = w).
Proof. intros Hq. apply local_served. eapply only_impl; [|exact Hq]. by intros []. Qed.

Lemma local_run {A} (q : prog A) t o w w' :
  only quiet_req q → runs q t o → served db_step w t w' → w' = w.
Proof. intros Hq. by apply (swp_sound db_step q w (λ _ w', w' = w)), quiet_served. Qed.

(** On every outcome. *)
Lemma createUserInDatabase_adds d c u ref w :
  sd_open d c w → swp w (createUserInDatabase d u ref) (λ _ w', w'.2 = w.2 ∧
    only_added (User_Name u) w.1 w'.1).
Proof.
  intros Hc. unfold createUserInDatabase.
  eapply swp_seq; [apply quiet_served, userPassword_quiet|by intros m w1 ->|].
  intros [pw [e|]] w1 ->; [done|].
  eapply swp_seq; [by apply (sd_CreateUser d c)|by intros m w1 (? & ? & _)|].
  intros [m err] w1 (H2 & Ha & _). case_match; [done|].
  eapply swp_mono; [exact (quiet_served (secret_part u ref m) _ (secret_part_quiet u ref m))|].
  by intros o w2 ->.
Qed.

Lemma databaseUserApply_adds d c u ref l w :
  sd_open d c w → forallb plain l = true →
  swp w (databaseUserApply d u ref l) (λ _ w', w'.2 = w.2 ∧ only_added (User_Name u) w.1 w'.1).
Proof.
  intros Hc Hl. unfold databaseUserApply.
  eapply swp_seq; [by eapply createUserInDatabase_adds|done|].
  intros [e|] w1 [H2 Ha]; [done|].
  eapply swp_mono; [eapply (sd_ApplyPrivileges d c); [by eapply sd_open_same|done]|].
  intros o w2 (H2' & Ha' & _). split; [congruence|by etransitivity].
Qed.

(** The outcome of a deletion, also of one that fails. *)
Lemma databaseUserDelete_removes d c u ref l w :
  sd_open d c w → forallb plain l = true →
  swp w (databaseUserDelete d u ref l) (λ o w', w'.2 = w.2 ∧ only_removed (User_Name u) w.1 w'.1 ∧
    (o = Returned None → sd_deleted d c (User_Name u) w.1 w'.1)).
Proof.
  intros Hc Hl. unfold databaseUserDelete. eapply swp_finally.
  - eapply swp_seq with (P := λ _ w', w'.2 = w.2 ∧ same_roles w.1 w'.1 ∧ others_kept (User_Name u) w.1 w'.1);
      [by apply (sd_RevokePrivileges d c)| |].
    + intros m w1 (H2 & Hr & Ho). instantiate (1 := λ o w', w'.2 = w.2 ∧
        only_removed (User_Name u) w.1 w'.1 ∧ (o = Returned None → sd_deleted d c (User_Name u) w.1 w'.1)).
      split_and!; [done|split; [by apply same_roles_without|done]|done].
    + intros err w1 (H2 & Hr & Ho). assert (only_removed (User_Name u) w.1 w1.1) as Hrm
        by (split; [by apply same_roles_without|done]).
      destruct err as [e|]; [done|].
      eapply swp_mono; [by eapply (sd_DeleteUser d c), sd_open_same|].
      intros o w2 (H2' & Hd & Hs). split_and!; [congruence|by etransitivity|].
      intros E. by eapply sd_deleted_same, Hs.
  - intros o w1 Ho x w2 Hw. hnf in Hw. by subst.
Qed.

(** The outcome of a successful application, with the password that was read. *)
Definition applied_by d c (u : string) (ref : DatabaseRef) (l : list PrivilegeSpec) (t : list event)
    (s s' : S) : Prop :=
  ∃ pw tp s1, segment tp t ∧
    runs (userPassword (DatabaseRef_PasswordSecret ref)) tp (Returned (pw, None)) ∧
    sd_created d c u pw s s1 ∧ only_added u s1 s' ∧ sd_granted d c u l s1 s'.

Lemma createUserInDatabase_served d c u ref w t w' :
  sd_open d c w →
  runs (createUserInDatabase d u ref) t (Returned None) → served db_step w t w' →
  w'.2 = w.2 ∧ ∃ pw tp, segment tp t ∧
    runs (userPassword (DatabaseRef_PasswordSecret ref)) tp (Returned (pw, None)) ∧
    sd_created d c (User_Name u) pw w.1 w'.1.
Proof.
  intros Hc Ht Hs.
  apply createUserInDatabase_inv in Ht as [(e & [=] & _)|(pw & tp & t' & -> & Hp & Ht)].
  apply served_app_inv in Hs as (w1 & H1 & Hs).
  apply (local_run _ _ _ _ _ (userPassword_quiet _) Hp) in H1 as ->.
  destruct Ht as [(m & [=] & _)|(m & err & t1 & t2 & -> & Hcr & Ht)].
  apply served_app_inv in Hs as (w2 & H2 & Hs).
  pose proof (swp_sound db_step _ _ _ _ _ _ (sd_CreateUser d c (User_Name u) pw w Hc) Hcr H2) as (E2 & _ & Hd).
  assert (w' = w2 ∧ err = None) as [-> ->].
  { destruct Ht as [(_ & -> & [= <-])|(-> & _ & Ht)]; [by inversion Hs; subst|].
    split; [|done]. by apply (local_run _ _ _ _ _ (secret_part_quiet _ _ _) Ht) in Hs. }
  split; [done|]. exists pw, tp. split_and!; [apply segment_app_r, segment_refl|done|by eapply Hd].
Qed.

Lemma databaseUserApply_served d c u ref l w t w' :
  sd_open d c w → forallb plain l = true →
  runs (databaseUserApply d u ref l) t (Returned None) → served db_step w t w' →
  w'.2 = w.2 ∧ only_added (User_Name u) w.1 w'.1 ∧ applied_by d c (User_Name u) ref l t w.1 w'.1.
Proof.
  intros Hc Hl Ht Hs.
  destruct (swp_sound db_step _ _ _ _ _ _ (databaseUserApply_adds d c u ref l w Hc Hl) Ht Hs) as [H2 Ha].
  split; [done|]. split; [done|]. unfold databaseUserApply in Ht.
  apply runs_bind_inv in Ht as [(m & _ & [=])|([e|] & t1 & t2 & -> & H1 & Ht)]; [by destruct Ht|].
  apply served_app_inv in Hs as (w1 & Hs1 & Hs2).
  destruct (createUserInDatabase_served _ _ _ _ _ _ _ Hc H1 Hs1) as (E2 & pw & tp & Htp & Hp & Hcr).
  destruct (swp_sound db_step _ _ _ _ _ _ (sd_ApplyPrivileges d c (User_Name u) l w1
    (sd_open_same _ _ _ _ Hc E2) Hl) Ht Hs2) as (_ & Ha' & Hg).
  exists pw, tp, w1.1. split_and!; try done; [by apply segment_app_r|by apply Hg].
Qed.
End Work.

(** ** The reconciler in one database *)

(** What is read of privileges can be read by PostgreSQL. *)
Definition plain_reads (e : event) : Prop :=
  match e with
  | existT r x =>
      match r return resp r → Prop with
      | GetPrivileges _ => λ x, x.2 = None → forallb plain (Privileges_Privileges x.1) = true
      | _ => λ _, True
      end x
  end.

(** What is read, and answered to an update, is a user of this name. *)
Definition about_user (name : string) (e : event) : Prop :=
  match e with
  | existT r x =>
      match r return resp r → Prop with
      | GetUser _ | UpdateUser _ => λ x, x.2 = None → User_Name x.1 = name
      | _ => λ _, True
      end x
  end.

Section Reconciler.
Context {S : Type} {DR : Drivers S} {SO : Server S} {SL : ServerLaws S}.
Implicit Types (w : db_state S) (d : iface DefaultConnector) (k : conn).

#[local] Existing Instance iface_Served.
#[local] Existing Instance iface_ServedLaws.

Definition plain_step w (e : event) w' : Prop := db_step w e w' ∧ plain_reads e.

Lemma swp_plain {A} (p : prog A) w Q : swp db_step w p Q → swp plain_step w p Q.
Proof. apply swp_weaken. by intros w0 e w1 [? _]. Qed.

(** What an attempt may do to the servers, whatever its outcome is. *)
Definition kept (del : bool) (u : string) : S → S → Prop := if del then only_removed u else only_added u.

#[local] Instance kept_preorder del u : PreOrder (kept del u).
Proof. destruct del; apply _. Qed.

Lemma kept_others del u s s' : kept del u s s' → others_kept u s s'.
Proof. by destruct del; intros [_ ?]. Qed.

Lemma work_keeps (del : bool) d k u ref l w :
  sd_open d k w → forallb plain l = true →
  swp db_step w (work del d u ref l) (λ _ w', w'.2 = w.2 ∧ kept del (User_Name u) w.1 w'.1).
Proof.
  intros Hk Hl. destruct del; simpl.
  - eapply swp_mono; [by apply (databaseUserDelete_removes d k)|]. by intros o w' (? & ? & _).
  - by apply (databaseUserApply_adds d k).
Qed.

Lemma r_privileges_loop_served nns l w :
  forallb plain l = true →
  swp plain_step w (r_privileges_loop nns l) (λ o w', w' = w ∧
    match o with Returned (l', None) => forallb plain l' = true | _ => True end).
Proof.
  revert l. induction nns as [|nn nns IH]; intros l Hl; [done|].
  intros [p [e|]] w1 [Hw Hp]; hnf in Hw; subst; [done|]. cbn [bind]. apply IH.
  rewrite forallb_app, Hl. by apply Hp.
Qed.

(** Every attempt in a database closes what it opened and keeps what it has to,
    also when it fails or panics. *)
Lemma databaseReconciler_keeps (del : bool) u ref w :
  swp plain_step w (databaseReconciler NewDatabase u del ref)
    (λ _ w', w'.2 = w.2 ∧ kept del (User_Name u) w.1 w'.1).
Proof.
  unfold databaseReconciler. intros [dc [e|]] w1 [Hw _]; hnf in Hw; subst; [done|]. cbn [bind].
  eapply swp_seq; [by apply r_privileges_loop_served|by intros m w1 [-> _]|].
  intros [l [e|]] w1 [-> Hl]; [done|].
  eapply swp_seq; [apply swp_plain, NewDatabase_served|by intros m w1 ->|].
  intros [d [e|]] w1 Ho; [by subst|]. destruct Ho as [k Hf].
  pose proof (fresh_object_open _ _ _ _ _ Hf) as Hk. destruct Hf as (_ & h & Hh & Hn & ->).
  change (swp plain_step (w.1, <[h:=k]> w.2) (finally (work del d u ref l) (let! _err := db_Close d in Ret ()))
    (λ _ w', w'.2 = w.2 ∧ kept del (User_Name u) w.1 w'.1)).
  eapply swp_finally; [exact (swp_plain _ _ _ (work_keeps del d k u ref l _ Hk Hl))|].
  intros o w2 [H2 Hkept]. simpl in H2, Hkept.
  eapply swp_seq; [apply swp_plain, (Close_fresh_served _ _ _ Hh)| |].
  - intros m w3 ->. simpl. split; [rewrite H2; by apply delete_insert_id|done].
  - intros err w3 ->. simpl. split; [rewrite H2; by apply delete_insert_id|done].
Qed.

(** ** All the databases, and the whole reconciliation *)

Lemma databases_keep (del : bool) u refs w :
  swp plain_step w (range_err (databaseReconciler NewDatabase u del) refs)
    (λ _ w', w'.2 = w.2 ∧ kept del (User_Name u) w.1 w'.1).
Proof.
  eapply swp_mono.
  - apply (swp_range_err plain_step _ (λ w', w'.2 = w.2 ∧ kept del (User_Name u) w.1 w'.1)
      (λ _ _, True) (λ _, True)) with (done := []); [|by apply Forall_true|done|done].
    intros done ref w1 _ [H2 Hkept] _. eapply swp_mono; [apply databaseReconciler_keeps|].
    intros o w2 [H2' Hkept']. split; [|done]. split; [congruence|by etransitivity].
  - by intros o w' [H _].
Qed.

Context {U : Controllerutil}.

Definition user_step (name : string) w (e : event) w' : Prop := plain_step w e w' ∧ about_user name e.

Lemma swp_user {A} name (p : prog A) w Q : swp plain_step w p Q → swp (user_step name) w p Q.
Proof. apply swp_weaken. by intros w0 e w1 [? _]. Qed.

(** Only users of the name that was read are touched. *)
Definition for_others (name : string) w w' : Prop := w'.2 = w.2 ∧ others_kept name w.1 w'.1.

Lemma local_user {A} name (p : prog A) w : only local_req p → swp (user_step name) w p (λ _ w', w' = w).
Proof. intros Hp. by apply swp_user, swp_plain, local_served. Qed.

Lemma local_others {A} name (p : prog A) w w0 :
  only local_req p → for_others name w0 w → swp (user_step name) w p (λ _ w', for_others name w0 w').
Proof. intros Hp H0. eapply swp_mono; [by apply local_user|]. by intros o w' ->. Qed.

Lemma databases_others name (del : bool) u w :
  User_Name u = name →
  swp (user_step name) w (range_err (databaseReconciler NewDatabase u del) (User_Databases u))
    (λ _ w', for_others name w w').
Proof.
  intros <-. eapply swp_mono; [apply swp_user, databases_keep|].
  intros o w' [? ?%kept_others]. by split.
Qed.

Lemma reconcile_others name u w :
  User_Name u = name →
  swp (user_step name) w (reconcile_ NewDatabase u) (λ _ w', for_others name w w').
Proof.
  intros Hu. unfold reconcile_. destruct (Meta_DeletionTimestamp (User_Meta u)).
  - intros x w1 [[Hw _] _]. hnf in Hw. subst w1. cbn [bind]. case_match; [done|].
    eapply swp_seq; [by apply databases_others|done|].
    intros [e|] w1 H1; [done|].
      apply local_others; [solve_only|done].
  - eapply swp_seq with (P := λ o w', w' = w ∧
      match o with Returned (u', None) => User_Name u' = name | _ => True end).
    + case_match; [|done]. intros x w1 [[Hw _] _]. hnf in Hw. subst w1.
      intros [u' err] w1 [[Hw _] Hu']. hnf in Hw. subst w1. split; [done|]. destruct err; [done|by apply Hu'].
    + by intros m w1 [-> _].
    + intros [u' [e|]] w1 [-> Hu']; [done|].
      eapply swp_seq; [by apply databases_others|done|].
      intros [e|] w1 H1; [done|].
      apply local_others; [solve_only|done].
Qed.

Lemma Reconcile_others name nn w :
  swp (user_step name) w (OperatorReconcile nn) (λ _ w', for_others name w w').
Proof.
  unfold OperatorReconcile, Reconcile, r_user. intros [u err] w1 [[Hw _] Hu]. hnf in Hw. subst w1. cbn [bind].
  destruct err as [e|].
  { destruct (apierrors_IsNotFound e); (apply local_others; [solve_only|done]). }
  cbn [bind]. eapply swp_seq; [by apply reconcile_others, Hu|done|].
  intros [u' [deleting err]] w1 H1. apply local_others; [|done].
  destruct err as [e|]; [destruct deleting|]; solve_only.
Qed.
End Reconciler.
