(* ===== verification/ServerOutcome.v ===== *)
(** * What success means on the servers

    The state of the servers after a successful attempt in one database and in
    all the databases of a user, for PostgreSQL and MySQL alike. *)

From S2P Require Import Prelude GoStrings SqlLexer GoError Api Effects Logic StateLogic Utils.
From S2P Require Import Connection PgUtils PgConfig Postgresql Mysql MysqlSql Database.
From S2P Require Import Server ServerDb ServerPg ServerMysql ServerObjects ServerRuns.
From S2P Require Import Controller ControllerFacts ControllerRuns.

Section Outcome.
Context {S : Type} {DR : Drivers S} {SO : Server S} {SL : ServerLaws S}.
Implicit Types (w : db_state S) (s : S) (d : iface DefaultConnector) (k : conn).

#[local] Existing Instance iface_Served.
#[local] Existing Instance iface_ServedLaws.
#[local] Existing Instance kept_preorder.

Definition read_for ref (dc : Database) (ps : list Privileges) : list event :=
  ev (GetDatabase (mkTypesNN "" (DatabaseRef_Name ref))) (dc, None) ::
    privileges_read (DatabaseRef_Privileges ref) ps.

(** ** One database *)

Lemma served_local t w w' :
  Forall (λ e, local_req (projT1 e)) t → served db_step w t w' → w' = w.
Proof.
  intros Ht Hs. induction Hs as [|w e w1 t w2 He Hs IH]; [done|].
  apply Forall_cons in Ht as [Hr Ht]. destruct e as [r x]. apply db_step_local in He as ->; [|done].
  by apply IH.
Qed.

Lemma privileges_read_local nns ps : Forall (λ e, local_req (projT1 e)) (privileges_read nns ps).
Proof. unfold privileges_read. revert ps. induction nns; intros [|p ps]; repeat constructor; auto. Qed.

Lemma privileges_read_plain nns ps :
  length ps = length nns → Forall plain_reads (privileges_read nns ps) →
  forallb plain (concat (Privileges_Privileges <$> ps)) = true.
Proof.
  unfold privileges_read. revert nns. induction ps as [|p ps IH]; intros [|nn nns] Hl H; try done.
  simpl in *. apply Forall_cons in H as [Hp H]. rewrite forallb_app.
  rewrite (Hp eq_refl : forallb plain (Privileges_Privileges p) = true).
  apply (IH nns); [lia|done].
Qed.

(** The parts of a successful attempt, between opening the connection and
    closing it. *)
Lemma databaseReconciler_served (del : bool) u ref w t w' :
  runs (databaseReconciler NewDatabase u del ref) t (Returned None) → served db_step w t w' →
  Forall plain_reads t →
  ∃ dc ps d k tc tw td w1 w2, t = read_for ref dc ps ++ tc ++ tw ++ td ∧
    length ps = length (DatabaseRef_Privileges ref) ∧
    fresh_object (Database_Spec dc) d k w w1 ∧
    forallb plain (concat (Privileges_Privileges <$> ps)) = true ∧
    runs (work del d u ref (concat (Privileges_Privileges <$> ps))) tw (Returned None) ∧
    served db_step w1 tw w2 ∧ w' = (w2.1, w.2).
Proof.
  intros Ht Hs Hpl. apply databaseReconciler_ok in Ht as (dc & ps & db & tc & tw & td & err & -> & Hl & Hc & Hw & Hd).
  apply Forall_cons in Hpl as [_ [Hps _]%Forall_app]. apply (privileges_read_plain _ _ Hl) in Hps.
  inversion Hs as [|? ? w0 ? ? H0 Hs1]; subst. apply db_step_local in H0 as ->; [|done].
  apply served_app_inv in Hs1 as (w0 & Hp & Hs1). apply served_local in Hp as ->; [|apply privileges_read_local].
  apply served_app_inv in Hs1 as (w1 & Hs1 & Hs2). apply served_app_inv in Hs2 as (w2 & Hs2 & Hs3).
  destruct (swp_sound db_step _ _ _ _ _ _ (NewDatabase_served _ w) Hc Hs1) as [k Hf].
  exists dc, ps, db, k, tc, tw, td, w1, w2. split_and!; try done.
  pose proof (fresh_object_open _ _ _ _ _ Hf) as Hk. destruct Hf as (_ & h & Hh & Hn & ->).
  destruct (swp_sound db_step _ _ _ _ _ _ (work_keeps del db k u ref _ _ Hk Hps) Hw Hs2) as [E2 _].
  rewrite (swp_sound db_step _ _ _ _ _ _ (Close_fresh_served _ _ w2 Hh) Hd Hs3).
  rewrite E2. simpl. by rewrite delete_insert_id.
Qed.

(** The database is as the user asks for it: the role or account exists and has
    the privileges.  A MySQL account was made in between, with the password
    that was read; its privileges are those of the account at any host. *)
Inductive ready_db (spec : DatabaseSpec) (u pw : string) (l : list PrivilegeSpec) (s0 s1 : S) : Prop :=
| ready_pg c cfg k :
    DatabaseSpec_Type spec = PostgreSQL → DatabaseSpec_PostgreSQL spec = Some c →
    server_conn c k → config_for c cfg →
    is_Some (srv_role s1 k (qualified u)) → Forall (granted_to s1 k cfg u) l →
    ready_db spec u pw l s0 s1
| ready_my c k :
    DatabaseSpec_Type spec = MySQL → DatabaseSpec_MySQL spec = Some c →
    my_server_conn c k →
    my_account s0 k (u, users_host c) = None → my_account s1 k (u, users_host c) = Some pw →
    Forall (my_granted_to s1 k u) l → (l ≠ [] → is_Some (my_account s1 k (u, any_host))) →
    ready_db spec u pw l s0 s1.

(** There is no role or account of the user; a MySQL account was there before. *)
Inductive gone_db (spec : DatabaseSpec) (u : string) (s0 s1 : S) : Prop :=
| gone_pg c k :
    DatabaseSpec_Type spec = PostgreSQL → DatabaseSpec_PostgreSQL spec = Some c →
    server_conn c k → srv_role s1 k (qualified u) = None → gone_db spec u s0 s1
| gone_my c k :
    DatabaseSpec_Type spec = MySQL → DatabaseSpec_MySQL spec = Some c →
    my_server_conn c k →
    is_Some (my_account s0 k (u, users_host c)) → my_account s1 k (u, users_host c) = None →
    gone_db spec u s0 s1.

Lemma ready_db_mono spec u pw l s0 s1 s0' s1' :
  grown s0' s0 → grown s1 s1' → ready_db spec u pw l s0 s1 → ready_db spec u pw l s0' s1'.
Proof.
  intros (_ & _ & A0 & _) Hg1. pose proof Hg1 as (R1 & _ & A1 & G1).
  destruct 1 as [c cfg k Hty Hc Hk Hcfg [r Hr] Hl|c k Hty Hc Hk Hn Hp Hl Ha].
  - eapply ready_pg; eauto. eapply Forall_impl; [exact Hl|]. intros pr. by apply granted_to_grown.
  - eapply ready_my; eauto.
    + destruct (my_account s0' k _) eqn:E; [|done]. apply A0 in E. congruence.
    + eapply Forall_impl; [exact Hl|]. intros pr. apply G1.
    + intros Hne. destruct (Ha Hne) as [r Hr]. eauto.
Qed.

Lemma gone_db_mono spec u s0 s1 s0' s1' :
  roles_without u s0' s0 → roles_without u s1 s1' → gone_db spec u s0 s1 → gone_db spec u s0' s1'.
Proof.
  intros [_ H0] H1. destruct 1 as [c k Hty Hc Hk Hn|c k Hty Hc Hk [r Hr] Hn].
  - eapply gone_pg; eauto. by eapply roles_without_gone.
  - eapply gone_my; eauto; [|by eapply roles_without_absent].
    destruct (H0 k (u, users_host c)) as [E|[_ E]]; [rewrite <- E; eauto|congruence].
Qed.

(** ** The database of a reference *)

(** As [ready_db], for a database that was read in [t] with the privileges and
    the password of the user. *)
Definition ready_in u ref (t : list event) s0 s1 : Prop :=
  ∃ dc ps pw tp, segment (read_for ref dc ps) t ∧ length ps = length (DatabaseRef_Privileges ref) ∧
    segment tp t ∧ runs (userPassword (DatabaseRef_PasswordSecret ref)) tp (Returned (pw, None)) ∧
    ready_db (Database_Spec dc) (User_Name u) pw (concat (Privileges_Privileges <$> ps)) s0 s1.

Definition gone_in u ref (t : list event) s0 s1 : Prop :=
  ∃ dc, ev (GetDatabase (mkTypesNN "" (DatabaseRef_Name ref))) (dc, None) ∈ t ∧
    gone_db (Database_Spec dc) (User_Name u) s0 s1.

Lemma fresh_object_state spec d k w w1 : fresh_object spec d k w w1 → w1.1 = w.1.
Proof. by intros (_ & h & _ & _ & ->). Qed.

Lemma applied_by_ready spec d k u ref l t s0 s1 :
  object_for spec d k → applied_by d k u ref l t s0 s1 →
  ∃ pw tp, segment tp t ∧ runs (userPassword (DatabaseRef_PasswordSecret ref)) tp (Returned (pw, None)) ∧
    ready_db spec u pw l s0 s1.
Proof.
  intros Hk (pw & tp & s & Htp & Hpw & Hcr & [Hg _] & Hl). exists pw, tp. split; [done|]. split; [done|].
  destruct d as [|[p|]|[m|]]; try done; simpl in Hcr, Hl.
  - destruct Hk as (Hty & c & Hc & Hcfg & Hk). eapply ready_pg; eauto.
    destruct Hg as (Hr & _). eexists. by apply Hr.
  - destruct Hk as (Hty & c & Hc & Hcfg & Hk). destruct Hcr as (Hn & Hp & _).
    unfold created_account in Hn, Hp. rewrite (my_config_host _ _ Hcfg) in Hn, Hp.
    destruct Hg as (_ & _ & Ha & _). destruct Hl as [Hl Hany]. eapply ready_my; eauto.
    intros Hne. destruct (Hany Hne) as [r Hr]. eauto.
Qed.

Lemma attempt_applied u ref w t w' :
  runs (databaseReconciler NewDatabase u false ref) t (Returned None) → served db_step w t w' →
  Forall plain_reads t →
  w'.2 = w.2 ∧ grown w.1 w'.1 ∧
  ∃ dc ps d k t', t = read_for ref dc ps ++ t' ∧ length ps = length (DatabaseRef_Privileges ref) ∧
    object_for (Database_Spec dc) d k ∧
    applied_by d k (User_Name u) ref (concat (Privileges_Privileges <$> ps)) t w.1 w'.1.
Proof.
  intros Ht Hs Hpl.
  destruct (databaseReconciler_served false u ref w t w' Ht Hs Hpl)
    as (dc & ps & d & k & tc & tw & td & w1 & w2 & -> & Hl & Hf & Hps & Hw & Hsw & ->).
  destruct (databaseUserApply_served d k u ref _ _ _ _ (fresh_object_open _ _ _ _ _ Hf) Hps Hw Hsw)
    as (_ & [Hg _] & pw & tp & s & Htp & Ha).
  rewrite (fresh_object_state _ _ _ _ _ Hf) in Hg, Ha. destruct Hf as [Hk _].
  split; [done|]. split; [done|]. exists dc, ps, d, k, (tc ++ tw ++ td). split_and!; try done.
  exists pw, tp, s. split; [|done]. by apply segment_app_l, segment_app_l, segment_app_r.
Qed.

Lemma applied_in u ref w t w' :
  runs (databaseReconciler NewDatabase u false ref) t (Returned None) → served db_step w t w' →
  Forall plain_reads t → w'.2 = w.2 ∧ grown w.1 w'.1 ∧ ready_in u ref t w.1 w'.1.
Proof.
  intros Ht Hs Hpl.
  destruct (attempt_applied u ref w t w' Ht Hs Hpl) as (H2 & Hg & dc & ps & d & k & t' & -> & Hl & Hk & Ha).
  split; [done|]. split; [done|]. destruct (applied_by_ready _ _ _ _ _ _ _ _ _ Hk Ha) as (pw & tp & Htp & Hpw & Hr).
  exists dc, ps, pw, tp. split_and!; try done. apply segment_app_r, segment_refl.
Qed.

Lemma deleted_in u ref w t w' :
  runs (databaseReconciler NewDatabase u true ref) t (Returned None) → served db_step w t w' →
  Forall plain_reads t →
  w'.2 = w.2 ∧ roles_without (User_Name u) w.1 w'.1 ∧ gone_in u ref t w.1 w'.1.
Proof.
  intros Ht Hs Hpl.
  destruct (databaseReconciler_served true u ref w t w' Ht Hs Hpl)
    as (dc & ps & d & k & tc & tw & td & w1 & w2 & -> & Hl & Hf & Hps & Hw & Hsw & ->).
  destruct (swp_sound db_step _ _ _ _ _ _ (databaseUserDelete_removes d k u ref _ _
    (fresh_object_open _ _ _ _ _ Hf) Hps) Hw Hsw) as (_ & [Hr _] & Hd).
  specialize (Hd eq_refl). rewrite (fresh_object_state _ _ _ _ _ Hf) in Hr, Hd. destruct Hf as [Hk _].
  split; [done|]. split; [done|]. exists dc. split; [by left|].
  destruct d as [|[p|]|[m|]]; try done; destruct Hk as (Hty & c & Hc & Hcfg & Hk).
  - by eapply gone_pg.
  - destruct Hd as [Hs0 Hn]. unfold created_account in Hs0, Hn.
    rewrite (my_config_host _ _ Hcfg) in Hs0, Hn. by eapply gone_my.
Qed.

(** ** All the databases of a user *)

(** The loop over the references: [R] is what each round keeps and [P] what it
    reaches. *)
Lemma loop_served (del : bool) u (R : S → S → Prop) (P : DatabaseRef → list event → S → S → Prop) :
  PreOrder R →
  (∀ ref t t' s0 s1 s0' s1', segment t t' → R s0' s0 → R s1 s1' → P ref t s0 s1 → P ref t' s0' s1') →
  (∀ ref w t w', runs (databaseReconciler NewDatabase u del ref) t (Returned None) →
     served db_step w t w' → Forall plain_reads t → w'.2 = w.2 ∧ R w.1 w'.1 ∧ P ref t w.1 w'.1) →
  ∀ refs w t w', runs (range_err (databaseReconciler NewDatabase u del) refs) t (Returned None) →
  served db_step w t w' → Forall plain_reads t →
  w'.2 = w.2 ∧ R w.1 w'.1 ∧ Forall (λ ref, P ref t w.1 w'.1) refs.
Proof.
  intros HR Hmono Hone. induction refs as [|ref refs IH]; cbn [range_err]; intros w t w' Ht Hs Hpl.
  { destruct Ht as [-> _]. inversion Hs; subst. by split_and!. }
  apply runs_bind_inv in Ht as [(m & _ & [=])|([e|] & t1 & t2 & -> & H1 & Ht)]; [by destruct Ht|].
  apply served_app_inv in Hs as (w1 & Hs1 & Hs2). apply Forall_app in Hpl as [Hpl1 Hpl2].
  destruct (Hone _ _ _ _ H1 Hs1 Hpl1) as (E1 & R1 & P1).
  destruct (IH _ _ _ Ht Hs2 Hpl2) as (E2 & R2 & P2). split_and!; [congruence|by etransitivity|].
  constructor.
  - eapply Hmono; [|reflexivity|exact R2|exact P1]. apply segment_app_r, segment_refl.
  - eapply Forall_impl; [exact P2|]. intros r. apply Hmono; [|done|reflexivity].
    apply segment_app_l, segment_refl.
Qed.

Lemma ready_in_mono u ref t t' s0 s1 s0' s1' :
  segment t t' → grown s0' s0 → grown s1 s1' → ready_in u ref t s0 s1 → ready_in u ref t' s0' s1'.
Proof.
  intros Ht H0 H1 (dc & ps & pw & tp & Hr & Hl & Htp & Hpw & Hd). exists dc, ps, pw, tp.
  split_and!; try done; [by eapply segment_trans..|by eapply ready_db_mono].
Qed.

Lemma gone_in_mono u ref t t' s0 s1 s0' s1' :
  segment t t' → roles_without (User_Name u) s0' s0 → roles_without (User_Name u) s1 s1' →
  gone_in u ref t s0 s1 → gone_in u ref t' s0' s1'.
Proof.
  intros Ht H0 H1 (dc & Hr & Hd). exists dc. split; [by eapply segment_elem_of|by eapply gone_db_mono].
Qed.

Lemma loop_ready u w t w' :
  runs (range_err (databaseReconciler NewDatabase u false) (User_Databases u)) t (Returned None) →
  served db_step w t w' → Forall plain_reads t →
  w'.2 = w.2 ∧ grown w.1 w'.1 ∧ Forall (λ ref, ready_in u ref t w.1 w'.1) (User_Databases u).
Proof. apply (loop_served false u grown (ready_in u) _ (ready_in_mono u) (applied_in u)). Qed.

Lemma loop_gone u w t w' :
  runs (range_err (databaseReconciler NewDatabase u true) (User_Databases u)) t (Returned None) →
  served db_step w t w' → Forall plain_reads t →
  w'.2 = w.2 ∧ roles_without (User_Name u) w.1 w'.1 ∧
  Forall (λ ref, gone_in u ref t w.1 w'.1) (User_Databases u).
Proof. apply (loop_served true u _ (gone_in u) _ (gone_in_mono u) (deleted_in u)). Qed.

(** ** What others do *)

(** The role and the accounts of one user are the same, with their passwords. *)
Definition user_same (u : string) s s' : Prop :=
  (∀ k, srv_role s' k (qualified u) = srv_role s k (qualified u)) ∧
  (∀ k host, my_account s' k (u, host) = my_account s k (u, host)).

(** Names without NUL bytes, as all names of the API server, are told apart. *)
Lemma qualified_inj u v : str_free nul u = true → str_free nul v = true → qualified u = qualified v → u = v.
Proof.
  intros Hu Hv E. apply escapeLiteral_roundtrip in Hu, Hv. rewrite escapeLiteral_lex in Hu, Hv.
  simpl in Hu, Hv. congruence.
Qed.

Lemma others_kept_same u v s s' :
  str_free nul u = true → str_free nul v = true → v ≠ u → others_kept v s s' → user_same u s s'.
Proof.
  intros Hu Hv Hne [Hr Ha]. split.
  - intros k. apply Hr. intros E. by apply Hne, eq_sym, qualified_inj.
  - intros k h. apply Ha. simpl. congruence.
Qed.

(** The privilege may be a membership in a role of the user [v], on a server of
    this database. *)
Definition membership_in (spec : DatabaseSpec) (v : string) (pr : PrivilegeSpec) : bool :=
  if bool_decide (DatabaseSpec_Type spec = MySQL) then my_membership v (Privilege pr) (object_of pr)
  else membership (qualified v) (privilege_tokens (Privilege pr))
    (privilege_object (PrivilegeSpec_Database pr)
       (if nonempty (PrivilegeSpec_Database pr) then On pr else "")).

(** A user is as ready as it was after what was done for another one in whose
    roles it asks for no membership. *)
Lemma ready_db_others spec u v pw l s0 s1 s1' :
  str_free nul u = true → str_free nul v = true → v ≠ u → others_kept v s1 s1' →
  Forall (λ pr, membership_in spec v pr = false) l →
  ready_db spec u pw l s0 s1 → ready_db spec u pw l s0 s1'.
Proof.
  intros Hu Hv Hne Ho Hl. pose proof (others_kept_same _ _ _ _ Hu Hv Hne Ho) as [Hr Ha].
  destruct Ho as [Hro Hac]. destruct 1 as [c cfg k Hty Hc Hk Hcfg Hs Hg|c k Hty Hc Hk Hn Hp Hg Hs].
  - eapply ready_pg; eauto; [by rewrite Hr|].
    eapply Forall_impl; [exact (proj2 (Forall_and _ _) (conj Hl Hg))|]. intros pr [Hm (c' & Hc' & Hgr)].
    unfold membership_in in Hm. rewrite Hty in Hm. exists c'. split; [done|].
    apply (Hro c' (qualified u)); [|done..]. intros E. by apply Hne, eq_sym, qualified_inj.
  - eapply ready_my; eauto; [by rewrite Ha| |].
    + eapply Forall_impl; [exact (proj2 (Forall_and _ _) (conj Hl Hg))|]. intros pr [Hm Hgr].
      unfold membership_in in Hm. rewrite Hty in Hm. apply (Hac k (granted_account u)); [|done..].
      simpl. congruence.
    + intros H. destruct (Hs H) as [r Hs']. exists r. by rewrite Ha.
Qed.
End Outcome.
