(* ===== verification/ServerGuard.v ===== *)
(** * Which statements are sent where

    In a reconciliation of one user, from the first request to any later one:
    every statement goes over an open connection and is a [CREATE USER] or [DROP
    USER] of this user over a connection to the server of the database that was
    read last, or a [GRANT] or [REVOKE] for this user. *)

From S2P Require Import Prelude GoStrings SqlLexer GoError Api Effects Logic StateLogic Utils.
From S2P Require Import Connection PgUtils PgConfig Postgresql Mysql MysqlSql Database.
From S2P Require Import Server ServerDb ServerPg ServerMysql ServerObjects ServerRuns.
From S2P Require Import Controller ControllerFacts ControllerRuns Ledger.

Section Guard.
Context {S : Type} {DR : Drivers S}.
(** The specifications of the [Database] objects by name, and the user's name. *)
Variable dbs : string → DatabaseSpec.
Variable n : string.

(** The servers and handles, and the database that was read last. *)
Definition gstate : Type := db_state S * string.
Implicit Types (w : gstate) (k : conn) (d : iface DefaultConnector).

(** What is read of databases are these specifications. *)
Definition spec_reads (e : event) : Prop :=
  match e with
  | existT r x =>
      match r return resp r → Prop with
      | GetDatabase nn => λ x, x.2 = None → Database_Spec x.1 = dbs (Nn_Name nn)
      | _ => λ _, True
      end x
  end.

Definition good_reads (e : event) : Prop := plain_reads e ∧ about_user n e ∧ spec_reads e.

Definition gstep w (e : event) w' : Prop :=
  db_step w.1 e w'.1 ∧ w'.2 = default w.2 (database_of e) ∧ good_reads e.

(** The connection is one to the server of the database. *)
Definition pg_at (db : string) k : Prop :=
  DatabaseSpec_Type (dbs db) = PostgreSQL ∧
  ∃ c, DatabaseSpec_PostgreSQL (dbs db) = Some c ∧ server_conn c k.
Definition my_at (db host : string) k : Prop :=
  DatabaseSpec_Type (dbs db) = MySQL ∧
  ∃ c, DatabaseSpec_MySQL (dbs db) = Some c ∧ my_server_conn c k ∧ host = users_host c.

Inductive allowed (db : string) k : string → list string → Prop :=
| allow_create password : is_pgx k → pg_at db k → allowed db k (createUserQuery n password).1 []
| allow_drop : is_pgx k → pg_at db k → allowed db k (deleteUserQuery n) []
| allow_grant database on pv : is_pgx k → plain_privilege pv = true →
    allowed db k (prepareStatementForPrivilege "GRANT" "TO" n database on pv) []
| allow_revoke database on pv : is_pgx k → plain_privilege pv = true →
    allowed db k (prepareStatementForPrivilege "REVOKE" "FROM" n database on pv) []
| my_allow_create host password : is_mysql k → my_at db host k →
    allowed db k "CREATE USER ?@? IDENTIFIED BY ?" [n; host; password]
| my_allow_drop host : is_mysql k → my_at db host k → allowed db k "DROP USER ?@?" [n; host]
| my_allow_grant pr : is_mysql k →
    allowed db k (mysql_privilege_stmt "GRANT" "TO" n pr).1 (mysql_privilege_stmt "GRANT" "TO" n pr).2
| my_allow_revoke pr : is_mysql k →
    allowed db k (mysql_privilege_stmt "REVOKE" "FROM" n pr).1 (mysql_privilege_stmt "REVOKE" "FROM" n pr).2.

Definition permitted w (r : req) : Prop :=
  match r with
  | SqlExec h q args => ∃ k, w.1.2 !! h = Some k ∧ allowed w.2 k q args
  | FakeCall _ (FakeExec _ _) => False
  | _ => True
  end.

Notation gwp := (gwp gstep permitted).

(** ** Programs without statements *)

Definition calm_req (r : req) : Prop :=
  match r with SqlExec _ _ _ | GetDatabase _ | FakeCall _ (FakeExec _ _) => False | _ => True end.

Lemma calm_permitted r w : calm_req r → permitted w r.
Proof. by destruct r. Qed.

Lemma gwp_calm {A} (p : prog A) w Q :
  only calm_req p → swp db_step w.1 p Q → gwp w p (λ o w', Q o w'.1 ∧ w'.2 = w.2).
Proof.
  revert w. induction p as [a|m|r k IH]; simpl; intros w Hp Hq; [done..|]. destruct Hp as [Hr Hk].
  split; [by apply calm_permitted|]. intros x w1 (Hs & Hc & _).
  assert (w1.2 = w.2) as Hw by (rewrite Hc; by destruct r). rewrite <- Hw. by apply IH; [|apply Hq].
Qed.

(** The connections and the database are the same. *)
Definition same_place w w' : Prop := w'.1.2 = w.1.2 ∧ w'.2 = w.2.

Lemma gwp_local {A} (p : prog A) w :
  only calm_req p → only local_req p → gwp w p (λ _ w', w' = w).
Proof.
  intros Hc Hl. eapply gwp_mono; [exact (gwp_calm p w _ Hc (local_served p w.1 Hl))|].
  intros o [w1 c] [H1 H2]. simpl in *. subst. by destruct w.
Qed.

Lemma gwp_quiet {A} (P : req → Prop) (p : prog A) w :
  only P p → (∀ r, P r → calm_req r ∧ local_req r) → gwp w p (λ _ w', w' = w).
Proof. intros Hp HP. apply gwp_local; (eapply only_impl; [|exact Hp]); intros r ?; by apply HP. Qed.

Definition open_at (db : DefaultConnector) k w : Prop := open_as db k w.1.

Lemma open_at_same db k w w' : open_at db k w → same_place w w' → open_at db k w'.
Proof. intros Ho [H _]. by eapply open_as_same. Qed.

Lemma Exec_guarded db k l q args w :
  open_at db k w → allowed w.2 k q args →
  gwp w (Exec db l q args) (λ o w', same_place w w' ∧ ∃ r, o = Returned r).
Proof.
  intros (h & Hh & Hk) Ha. simpl. unfold DefaultConnector_Exec, DefaultConnector_infoLog. rewrite Hh.
  assert (∀ w0, w0 = w → permitted w0 (SqlExec h q args) ∧
    ∀ x w1, gstep w0 (ev (SqlExec h q args) x) w1 → same_place w w1) as Hx.
  { intros w0 ->. split; [by exists k|]. intros x w1 (Hs & Hc & _). hnf in Hs. rewrite Hk in Hs. by destruct Hs. }
  case_bool_decide; simpl.
  - destruct (Hx w eq_refl) as [? Hs]. split; [done|]. intros x w1 H1. split; eauto.
  - split; [done|]. intros u0 w0 (Hs & Hc & _). hnf in Hs. simpl in Hc.
    destruct (Hx w0) as [? Hs']; [destruct w, w0; simpl in *; congruence|].
    split; [done|]. intros x w1 H1. split; eauto.
Qed.

(** ** PostgreSQL *)

Section Pg.
Implicit Types (p : Postgresql DefaultConnector).

Lemma file_req_calm r : file_req r → calm_req r ∧ local_req r.
Proof. by destruct r. Qed.
Lemma crypto_req_calm r : crypto_req r → calm_req r ∧ local_req r.
Proof. by destruct r. Qed.
Lemma conn_calm {A} (q : prog A) : only conn_req q → only (sends_only (λ _, False)) q → only calm_req q.
Proof.
  induction q as [a|m|r k IH]; simpl; [done..|]. intros [Hr Hk] [Hs Hk']. split; [|auto].
  destruct r; try done. by destruct op.
Qed.

Lemma Postgresql_Connect_calm p : only calm_req (Postgresql_Connect p).
Proof.
  unfold Postgresql_Connect. apply only_bind.
  { eapply only_impl; [|apply ConnString_only]. intros r Hr. by apply file_req_calm. }
  intros (c & s & [e|]); [done|]. apply only_bind; [|by intros [db err]].
  apply conn_calm; [apply Connect_only|apply Connect_sends].
Qed.

Lemma Postgresql_Close_calm p : only calm_req (Postgresql_Close p).
Proof.
  apply only_bind; [eapply only_impl; [|apply Config_Close_only]; intros r Hr; by apply file_req_calm|].
  intros _. apply conn_calm; [apply Close_only|apply Close_sends].
Qed.

Lemma Postgresql_CreateUser_guarded p k pw w :
  open_at (pg_db p) k w → is_pgx k → pg_at w.2 k →
  gwp w (Postgresql_CreateUser p n pw) (λ _ w', same_place w w').
Proof.
  intros Ho Hp Hk. unfold Postgresql_CreateUser. destruct (createUserQuery n pw) as [q l] eqn:Eq.
  assert (q = (createUserQuery n pw).1) as -> by (by rewrite Eq). clear Eq.
  eapply gwp_seq; [apply (Exec_guarded _ k); [done|by apply allow_create]|by intros m w1 [? _]|].
  intros r w1 [Hw _]. destruct (CreateCerts (pg_config p) && negb (isAlreadyExists r)); [|done].
  eapply gwp_seq; [exact (gwp_quiet _ _ _ (genPostgresCertFromCA_only _ _) crypto_req_calm)|by intros m w2 ->|].
  by intros [m [e|]] w2 ->.
Qed.

Lemma Postgresql_DeleteUser_guarded p k w :
  open_at (pg_db p) k w → is_pgx k → pg_at w.2 k →
  gwp w (Postgresql_DeleteUser p n) (λ _ w', same_place w w').
Proof.
  intros Ho Hp Hk. unfold Postgresql_DeleteUser.
  eapply gwp_seq; [apply (Exec_guarded _ k); [done|by apply allow_drop]|by intros m w1 [? _]|].
  by intros r w1 [Hw _].
Qed.

(** One kind of privilege statement. *)
Variable st a : string.
Hypothesis Hst : ∀ db k database on pv, is_pgx k → plain_privilege pv = true →
  allowed db k (prepareStatementForPrivilege st a n database on pv) [].

Lemma inDatabasePrivilege_guarded p db on pv w :
  plain_privilege pv = true →
  gwp w (inDatabasePrivilege p n db on pv st a) (λ _ w', same_place w w').
Proof.
  intros Hpv. unfold inDatabasePrivilege. apply gwp_bind.
  eapply gwp_seq; [exact (gwp_calm _ _ _ (Postgresql_Connect_calm _) (Postgresql_Connect_served _ _))| |].
  { by intros m w1 [[? ?] ?]. }
  intros [p' [e|]] w1 [[H1 H2] Hc]; [done|]. destruct H2 as (h & cs & Hh & Hn & H2 & _).
  assert (open_at (pg_db p') ("pgx", cs) w1) as Ho.
  { exists h. split; [done|]. by rewrite H2, lookup_insert_eq. }
  eapply gwp_finally; [apply (Exec_guarded _ ("pgx", cs)); [exact Ho|by apply Hst]|].
  intros o w2 [[E2 Ec] _].
  assert (delete h w2.1.2 = w.1.2) as Hd by (rewrite E2, H2; by apply delete_insert_id).
  eapply gwp_seq; [exact (gwp_calm _ _ _ (Postgresql_Close_calm _) (Postgresql_Close_served _ _ _ Hh))| |];
    (intros x w3 [[Hw3 _] Hc3]; split; [by rewrite Hw3|congruence]).
Qed.

Lemma privilege_step_guarded p k pr w :
  open_at (pg_db p) k w → is_pgx k → plain pr = true →
  gwp w (privilege_step p n st a pr) (λ _ w', same_place w w').
Proof.
  intros Ho Hp Hpl. unfold privilege_step. case_match; [by apply inDatabasePrivilege_guarded|].
  unfold databasePrivilege, privilege_.
  repeat (case_match; [by eapply gwp_mono; [apply (Exec_guarded _ k); [done|by apply Hst]|intros o w' [? _]]|]).
  done.
Qed.

Lemma privilegesProcessor_guarded p k l w :
  open_at (pg_db p) k w → is_pgx k → forallb plain l = true →
  gwp w (Postgresql_privilegesProcessor p n l st a) (λ _ w', same_place w w').
Proof.
  intros Ho Hp Hl. unfold Postgresql_privilegesProcessor.
  apply (gwp_range_err _ _ _ (λ w', same_place w w') (λ pr, plain pr = true)); [|by apply forallb_Forall|done].
  intros pr w1 Hpl Hw. eapply gwp_mono; [eapply (privilege_step_guarded p k); [by eapply open_at_same|done..]|].
  intros o w2 [? ?]. destruct Hw. split; congruence.
Qed.
End Pg.

(** ** MySQL *)

Section Mysql.
Implicit Types (m : Mysql DefaultConnector).

Variable st a : string.
Hypothesis Hst : ∀ db k pr, is_mysql k →
  allowed db k (mysql_privilege_stmt st a n pr).1 (mysql_privilege_stmt st a n pr).2.

Lemma Mysql_privilegesProcessor_guarded m k l w :
  open_at (my_db m) k w → is_mysql k →
  gwp w (Mysql_privilegesProcessor m n l st a) (λ _ w', same_place w w').
Proof.
  intros Ho Hm. unfold Mysql_privilegesProcessor.
  apply (gwp_range_err _ _ _ (λ w', same_place w w') (λ _, True)); [|by apply Forall_true|done].
  intros pr w1 _ Hw. pose proof (Hst w1.2 k pr Hm) as Ha.
  unfold Mysql_privilege_step, mysql_privilege_stmt in *.
  destruct (MysqlPrepareStatementForPrivilege _ _ _ _ _ _) as [q args].
  eapply gwp_mono; [by apply (Exec_guarded _ k); [eapply open_at_same|]|].
  intros o w2 [[? ?] _]. destruct Hw. split; congruence.
Qed.
End Mysql.

(** ** The database object *)

(** It is open, for the database that was read last. *)
Definition object_at d k w : Prop :=
  by_type (λ p, open_at (pg_db p) k w ∧ is_pgx k ∧ pg_at w.2 k)
    (λ m, open_at (my_db m) k w ∧ is_mysql k ∧ my_at w.2 (UsersHostname (my_config m)) k) d.

Lemma object_at_same d k w w' : object_at d k w → same_place w w' → object_at d k w'.
Proof.
  intros Ho Hw. destruct d as [|[p|]|[m|]]; try done; destruct Ho as (Ho & ? & Hk); pose proof Hw as [_ Hc].
  - split_and!; [by eapply open_at_same|done|by rewrite Hc].
  - split_and!; [by eapply open_at_same|done|by rewrite Hc].
Qed.

Lemma same_place_trans w1 w2 w3 : same_place w1 w2 → same_place w2 w3 → same_place w1 w3.
Proof. intros [? ?] [? ?]. split; congruence. Qed.

Lemma db_CreateUser_guarded d k pw w :
  object_at d k w → gwp w (db_CreateUser d n pw) (λ _ w', same_place w w').
Proof.
  intros Ho. destruct d as [|[p|]|[m|]]; try done; destruct Ho as (Ho & Hk & Ha).
  - by apply (Postgresql_CreateUser_guarded p k).
  - eapply gwp_seq; [apply (Exec_guarded _ k); [exact Ho|by apply my_allow_create]|by intros x w1 [? _]|].
    by intros r w1 [? _].
Qed.

Lemma db_DeleteUser_guarded d k w :
  object_at d k w → gwp w (db_DeleteUser d n) (λ _ w', same_place w w').
Proof.
  intros Ho. destruct d as [|[p|]|[m|]]; try done; destruct Ho as (Ho & Hk & Ha).
  - by apply (Postgresql_DeleteUser_guarded p k).
  - eapply gwp_mono; [apply (Exec_guarded _ k); [exact Ho|by apply my_allow_drop]|]. by intros o w1 [? _].
Qed.

Lemma db_ApplyPrivileges_guarded d k l w :
  object_at d k w → forallb plain l = true → gwp w (db_ApplyPrivileges d n l) (λ _ w', same_place w w').
Proof.
  intros Ho Hl. destruct d as [|[p|]|[m|]]; try done; destruct Ho as (Ho & Hk & Ha).
  - exact (privilegesProcessor_guarded "GRANT" "TO" allow_grant p k l w Ho Hk Hl).
  - exact (Mysql_privilegesProcessor_guarded "GRANT" "TO" my_allow_grant m k l w Ho Hk).
Qed.

Lemma db_RevokePrivileges_guarded d k l w :
  object_at d k w → forallb plain l = true → gwp w (db_RevokePrivileges d n l) (λ _ w', same_place w w').
Proof.
  intros Ho Hl. destruct d as [|[p|]|[m|]]; try done; destruct Ho as (Ho & Hk & Ha).
  - eapply gwp_seq with (P := λ _ w', same_place w w'); [|done|done].
    exact (privilegesProcessor_guarded "REVOKE" "FROM" allow_revoke p k l w Ho Hk Hl).
  - exact (Mysql_privilegesProcessor_guarded "REVOKE" "FROM" my_allow_revoke m k l w Ho Hk).
Qed.

Lemma NewDatabase_calm s : only calm_req (NewDatabase s).
Proof.
  unfold NewDatabase, newDatabase, newPostgresql, newMysql.
  assert (∀ A (q : prog A), only secret_req q → only calm_req q) as Hsecret.
  { intros A q. apply only_impl. by intros []. }
  case_bool_decide; [|case_bool_decide; [|done]].
  - apply only_bind; [|by intros [p e]]. case_match; [|done].
    apply only_bind; [apply Hsecret, readSSL_only|]. intros [[d k] [e|]]; [done|].
    apply only_bind; [apply Hsecret, passwordFromSecret_only|]. intros [pw [e|]]; [done|].
    apply only_bind; [apply Postgresql_Connect_calm|]. by intros [? ?].
  - apply only_bind; [|by intros [p e]]. case_match; [|done].
    apply only_bind; [apply Hsecret, passwordFromSecret_only|]. intros [pw [e|]]; [done|].
    apply only_bind; [|by intros [? ?]]. apply only_bind; [done|]. intros [str [e|]]; [done|].
    apply only_bind; [|by intros [? ?]]. apply conn_calm; [apply Connect_only|apply Connect_sends].
Qed.

Lemma db_Close_calm d : only calm_req (db_Close d).
Proof.
  destruct d as [|[p|]|[m|]]; try done; [apply Postgresql_Close_calm|].
  apply conn_calm; [apply Close_only|apply Close_sends].
Qed.

Lemma fresh_object_at s d k w w' :
  fresh_object s d k w.1 w'.1 → s = dbs w.2 → w'.2 = w.2 → object_at d k w'.
Proof.
  intros (Hk & h & Hh & Hn & Hw) -> Hc. assert (w'.1.2 !! h = Some k) as Hl by (rewrite Hw; apply lookup_insert_eq).
  destruct d as [|[p|]|[m|]]; try done; destruct Hk as (Hty & c & Hs & Hcfg & Hk).
  - split; [by exists h|]. split; [by destruct Hk as (cfg & cs & -> & _)|]. rewrite Hc.
    split; [done|]. by exists c.
  - split; [by exists h|]. split; [by destruct Hk as (cfg & _ & cs & -> & _)|]. rewrite Hc.
    split; [done|]. exists c. split_and!; [done..|]. by apply my_config_host.
Qed.

(** ** The reconciler *)

Section Reconciler.
Implicit Types (u : User) (ref : DatabaseRef).

Lemma userPassword_guarded s w : gwp w (userPassword s) (λ _ w', w' = w).
Proof.
  apply (gwp_quiet (λ r, secret_req r ∨ match r with NewInvalid _ _ _ _ => True | _ => False end)).
  - unfold userPassword. case_match; [done|].
    apply only_bind; [eapply only_impl; [|apply DecodeSecretData_only]; by left|].
    intros [dt [e|]]; [done|]. case_match; [done|]. split; [by right|done].
  - intros []; simpl; tauto.
Qed.

Lemma secret_part_guarded u ref m w : gwp w (secret_part u ref m) (λ _ w', w' = w).
Proof. apply gwp_local; unfold secret_part, utils_Secret; solve_only. Qed.

Lemma createUserInDatabase_guarded d k u ref w :
  User_Name u = n → object_at d k w → gwp w (createUserInDatabase d u ref) (λ _ w', same_place w w').
Proof.
  intros Hn Ho. unfold createUserInDatabase. rewrite Hn.
  eapply gwp_seq; [apply userPassword_guarded|by intros m w1 ->|].
  intros [pw [e|]] w1 ->; [done|].
  eapply gwp_seq; [by apply (db_CreateUser_guarded d k)|done|].
  intros [m err] w1 Hw. case_match; [done|].
  eapply gwp_mono; [exact (secret_part_guarded u ref m w1)|]. by intros o w2 ->.
Qed.

Lemma databaseUserApply_guarded d k u ref l w :
  User_Name u = n → object_at d k w → forallb plain l = true →
  gwp w (databaseUserApply d u ref l) (λ _ w', same_place w w').
Proof.
  intros Hn Ho Hl. unfold databaseUserApply. rewrite Hn.
  eapply gwp_seq; [by apply (createUserInDatabase_guarded d k)|done|].
  intros [e|] w1 Hw; [done|].
  eapply gwp_mono; [by eapply (db_ApplyPrivileges_guarded d k); [eapply object_at_same|]|].
  intros o w2. by apply same_place_trans.
Qed.

Lemma databaseUserDelete_guarded d k u ref l w :
  User_Name u = n → object_at d k w → forallb plain l = true →
  gwp w (databaseUserDelete d u ref l) (λ _ w', same_place w w').
Proof.
  intros Hn Ho Hl. unfold databaseUserDelete. rewrite Hn.
  eapply gwp_finally with (P := λ _ w', same_place w w').
  - eapply gwp_seq; [by apply (db_RevokePrivileges_guarded d k)|done|].
    intros [e|] w1 Hw; [done|].
    eapply gwp_mono; [by eapply (db_DeleteUser_guarded d k), object_at_same|].
    intros o w2. by apply same_place_trans.
  - intros o w1 Hw. split; [done|]. intros x w2 (Hs & Hc & _). hnf in Hs. simpl in Hc.
    split; [rewrite Hs|rewrite Hc]; apply Hw.
Qed.

Lemma r_privileges_loop_guarded nns l w :
  forallb plain l = true →
  gwp w (r_privileges_loop nns l) (λ o w', w' = w ∧
    match o with Returned (l', None) => forallb plain l' = true | _ => True end).
Proof.
  revert l. induction nns as [|nm nns IH]; intros l Hl; [done|]. split; [done|].
  intros [p [e|]] w1 (Hw & Hc & Hp & _); hnf in Hw; simpl in Hc;
    (assert (w1 = w) as -> by (destruct w, w1; simpl in *; congruence)); [done|].
  cbn [bind]. apply IH. rewrite forallb_app, Hl. by apply Hp.
Qed.

Lemma databaseReconciler_guarded (del : bool) u ref w :
  User_Name u = n →
  gwp w (databaseReconciler NewDatabase u del ref) (λ _ w', w'.1.2 = w.1.2).
Proof.
  intros Hn. unfold databaseReconciler. split; [done|].
  intros [dc err] w1 (Hw & Hc & _ & _ & Hs). hnf in Hw. simpl in Hc.
  assert (w1.1.2 = w.1.2) as E1 by (by rewrite Hw). rewrite <- E1. clear Hw E1.
  destruct err as [e|]; [done|]. cbn [bind]. specialize (Hs eq_refl). simpl in Hs. rewrite <- Hc in Hs.
  eapply gwp_seq; [by apply r_privileges_loop_guarded|by intros m w2 [-> _]|].
  intros [l [e|]] w2 [-> Hl]; [done|].
  eapply gwp_seq; [exact (gwp_calm _ _ _ (NewDatabase_calm _) (NewDatabase_served _ _))| |].
  { intros m w2 [Hw2 _]. simpl in *. by rewrite Hw2. }
  intros [d [e|]] w2 [Ho Hc2]; [simpl in *; by rewrite Ho|]. destruct Ho as [k Hf].
  pose proof (fresh_object_at _ _ _ _ _ Hf Hs Hc2) as Hat. destruct Hf as (_ & h & Hh & Hnew & Hw2).
  assert (gwp w2 (work del d u ref l) (λ _ w', same_place w2 w')) as Hwork.
  { destruct del; [by apply (databaseUserDelete_guarded d k)|by apply (databaseUserApply_guarded d k)]. }
  change (gwp w2 (finally (work del d u ref l) (let! _err := db_Close d in Ret ())) (λ _ w', w'.1.2 = w1.1.2)).
  eapply gwp_finally; [exact Hwork|]. intros o w3 [E3 _].
  assert (delete h w3.1.2 = w1.1.2) as Hd by (rewrite E3, Hw2; by apply delete_insert_id).
  eapply gwp_seq; [exact (gwp_calm _ _ _ (db_Close_calm _) (Close_fresh_served _ _ _ Hh))| |];
    (intros x w4 [Hw4 _]; simpl in *; by rewrite Hw4).
Qed.

Lemma databases_guarded (del : bool) u w :
  User_Name u = n →
  gwp w (range_err (databaseReconciler NewDatabase u del) (User_Databases u)) (λ _ _, True).
Proof.
  intros Hn. apply (gwp_range_err _ _ _ (λ _, True) (λ _, True)); [|by apply Forall_true|done].
  intros ref w1 _ _. eapply gwp_mono; [by apply databaseReconciler_guarded|done].
Qed.

Context {U : Controllerutil}.

(** Any request but statements is permitted. *)
Lemma gwp_free {A} (p : prog A) w : only calm_req p → gwp w p (λ _ _, True).
Proof.
  revert w. induction p as [a|m|r k IH]; simpl; intros w Hp; [done..|]. destruct Hp as [Hr Hk].
  split; [by apply calm_permitted|]. auto.
Qed.

Lemma reconcile_guarded u w : User_Name u = n → gwp w (reconcile_ NewDatabase u) (λ _ _, True).
Proof.
  intros Hn. unfold reconcile_. destruct (Meta_DeletionTimestamp (User_Meta u)).
  - split; [done|]. intros x w1 _. cbn [bind]. case_match; [done|].
    eapply gwp_seq; [by apply databases_guarded|done|].
    intros [e|] w2 _; [done|]. apply gwp_free. solve_only.
  - eapply gwp_seq with (P := λ o _, match o with Returned (u', None) => User_Name u' = n | _ => True end).
    + case_match; [|done]. split; [done|]. intros x w1 _. split; [done|].
      intros [u' err] w2 (_ & _ & _ & Hu' & _). cbn [bind]. destruct err; [done|by apply Hu'].
    + done.
    + intros [u' [e|]] w1 Hu'; [done|].
      eapply gwp_seq; [by apply databases_guarded|done|].
      intros [e|] w2 _; [done|]. apply gwp_free. solve_only.
Qed.

(** From every state on, a reconciliation stays within what is permitted. *)
Lemma Reconcile_guarded nn w : gwp w (OperatorReconcile nn) (λ _ _, True).
Proof.
  unfold OperatorReconcile, Reconcile, r_user. split; [done|].
  intros [u err] w1 (_ & _ & _ & Hu & _). cbn [bind]. destruct err as [e|].
  { destruct (apierrors_IsNotFound e); apply gwp_free; solve_only. }
  cbn [bind]. eapply gwp_seq; [by apply reconcile_guarded, Hu|done|].
  intros [u' [deleting err]] w2 _. apply gwp_free. destruct err as [e|]; [destruct deleting|]; solve_only.
Qed.
End Reconciler.
End Guard.
