(* ===== verification/Orphans.v ===== *)
(** * The operator, the cluster and the servers as one system

    [Lifecycle] with the servers next to the ledger: every request of the operator
    is also a step of the servers.  A role or account of the user is always in a
    database that the ledger accounts for, as long as nobody else touches what
    belongs to the user, and a step touches nothing of other users. *)

From S2P Require Import Prelude GoStrings SqlLexer GoError Api Effects Logic StateLogic Utils.
From S2P Require Import Connection PgUtils PgConfig Postgresql Mysql MysqlSql Database.
From S2P Require Import Server ServerDb ServerPg ServerMysql ServerObjects ServerRuns ServerOutcome.
From S2P Require Import ServerGuard Controller ControllerFacts ControllerRuns ControllerTraces Ledger.
From S2P Require Import Lifecycle.

(** ** Where connections lead to *)

(** The server behind a connection: roles and accounts are those of the server,
    and a statement changes those of its server only.  All connections of a
    specification lead to one server. *)
Class ServerPlaces (S : Type) {DR : Drivers S} {SO : Server S} := {
  place : Type;
  place_eq_dec :: EqDecision place;
  place_of : conn → place;
  place_kind c c' : place_of c = place_of c' → is_pgx c → ¬ is_mysql c';
  place_roles (s : S) c c' nm : place_of c = place_of c' → srv_role s c nm = srv_role s c' nm;
  place_accounts (s : S) c c' a : place_of c = place_of c' → my_account s c a = my_account s c' a;
  place_exec (s : S) c q args r s' c' :
    srv_exec s c q args r s' → place_of c' ≠ place_of c →
    (∀ nm, srv_role s' c' nm = srv_role s c' nm) ∧ (∀ a, my_account s' c' a = my_account s c' a);
  place_server (c : PostgreSQLConfig) k k' : server_conn c k → server_conn c k' → place_of k = place_of k';
  place_my_server (c : MySQLConfig) k k' :
    my_server_conn c k → my_server_conn c k' → place_of k = place_of k'
}.

(** ** The ledger accounts for what is on the servers *)

Section Accounted.
Context {S : Type} {DR : Drivers S} {SO : Server S} {SL : ServerLaws S} {SP : ServerPlaces S}.
Variable dbs : string → DatabaseSpec.
Variable n : string.
Implicit Types (s : S) (k : conn) (l : gset string).

(** Every role of the user is on the server of a database in [l], and every
    account on one where it is the user's. *)
Definition accounted l s : Prop :=
  (∀ k, is_pgx k → is_Some (srv_role s k (qualified n)) →
     ∃ db k', db ∈ l ∧ pg_at dbs db k' ∧ place_of k' = place_of k) ∧
  (∀ k host, is_mysql k → is_Some (my_account s k (n, host)) →
     ∃ db k', db ∈ l ∧ my_at dbs db host k' ∧ place_of k' = place_of k).

Lemma accounted_mono l l' s s' :
  l ⊆ l' →
  (∀ k, is_pgx k → is_Some (srv_role s' k (qualified n)) → is_Some (srv_role s k (qualified n))) →
  (∀ k host, is_mysql k → is_Some (my_account s' k (n, host)) → is_Some (my_account s k (n, host))) →
  accounted l s → accounted l' s'.
Proof.
  intros Hl Hr Ha [Pr Pa]. split.
  - intros k Hk H. destruct (Pr k Hk (Hr _ Hk H)) as (db & k' & ? & ? & ?). exists db, k'. set_solver.
  - intros k h Hk H. destruct (Pa k h Hk (Ha _ _ Hk H)) as (db & k' & ? & ? & ?). exists db, k'. set_solver.
Qed.

Lemma accounted_same l l' s s' : l ⊆ l' → same_roles s s' → accounted l s → accounted l' s'.
Proof. intros Hl [Hr Ha]. apply accounted_mono; [done| |]; intros; by rewrite <- ?Hr, <- ?Ha. Qed.

Lemma accounted_removed l s s' : roles_without n s s' → accounted l s → accounted l s'.
Proof.
  intros [Hr Ha]. apply accounted_mono; [done| |].
  - intros k _ [r H]. destruct (Hr k (qualified n)) as [<-|[_ E]]; [by exists r|congruence].
  - intros k h _ [r H]. destruct (Ha k (n, h)) as [<-|[_ E]]; [by exists r|congruence].
Qed.

Lemma pg_not_my db host k k' : pg_at dbs db k → my_at dbs db host k' → False.
Proof. by intros [H1 _] [H2 _]; rewrite H1 in H2. Qed.

Lemma pg_at_place db k k' : pg_at dbs db k → pg_at dbs db k' → place_of k = place_of k'.
Proof. intros (_ & c & E & Hk) (_ & c' & E' & Hk'). assert (c' = c) as -> by congruence. by eapply place_server. Qed.

Lemma my_at_place db h h' k k' :
  my_at dbs db h k → my_at dbs db h' k' → place_of k = place_of k' ∧ h = h'.
Proof.
  intros (_ & c & E & Hk & ->) (_ & c' & E' & Hk' & ->). assert (c' = c) as -> by congruence.
  split; [by eapply place_my_server|done].
Qed.

Lemma kinds_apart k k' : is_pgx k → is_mysql k' → place_of k ≠ place_of k'.
Proof. intros Hk Hk' E. by eapply place_kind. Qed.

(** ** What each statement does to the account *)

(** A role of the user can only appear where the statement was sent. *)
Lemma accounted_pg_create l db s s' k q args r :
  is_pgx k → pg_at dbs db k → srv_exec s k q args r s' → accounted l s → accounted ({[db]} ∪ l) s'.
Proof.
  intros Hk Hat Hx [Pr Pa]. split.
  - intros k' Hk' H. destruct (decide (place_of k' = place_of k)) as [E|Hne].
    { exists db, k. set_solver. }
    destruct (place_exec _ _ _ _ _ _ _ Hx Hne) as [Hr _]. rewrite Hr in H.
    destruct (Pr k' Hk' H) as (db' & k2 & ? & ? & ?). exists db', k2. set_solver.
  - intros k' h Hk' H. assert (place_of k' ≠ place_of k) as Hne by (by apply not_eq_sym, kinds_apart).
    destruct (place_exec _ _ _ _ _ _ _ Hx Hne) as [_ Ha]. rewrite Ha in H.
    destruct (Pa k' h Hk' H) as (db' & k2 & ? & ? & ?). exists db', k2. set_solver.
Qed.

Lemma accounted_my_create l db host s s' k q args r :
  is_mysql k → my_at dbs db host k → srv_exec s k q args r s' →
  (∀ c' a, a ≠ (n, host) → my_account s' c' a = my_account s c' a) →
  accounted l s → accounted ({[db]} ∪ l) s'.
Proof.
  intros Hk Hat Hx Hb [Pr Pa]. split.
  - intros k' Hk' H. assert (place_of k' ≠ place_of k) as Hne by (by apply kinds_apart).
    destruct (place_exec _ _ _ _ _ _ _ Hx Hne) as [Hr _]. rewrite Hr in H.
    destruct (Pr k' Hk' H) as (db' & k2 & ? & ? & ?). exists db', k2. set_solver.
  - intros k' h Hk' H.
    assert ((place_of k' = place_of k ∧ h = host) ∨ my_account s' k' (n, h) = my_account s k' (n, h)) as [[E ->]|E].
    { destruct (decide (h = host)) as [->|Hh]; [|right; apply Hb; congruence].
      destruct (decide (place_of k' = place_of k)) as [E|Hne]; [by left|right].
      by destruct (place_exec _ _ _ _ _ _ _ Hx Hne) as [_ Ha]. }
    { exists db, k. set_solver. }
    rewrite E in H. destruct (Pa k' h Hk' H) as (db' & k2 & ? & ? & ?). exists db', k2. set_solver.
Qed.

(** After a drop no role is left where the statement was sent, so that its
    database can be taken out. *)
Lemma accounted_pg_drop l db s s' k :
  is_pgx k → pg_at dbs db k → roles_without n s s' → srv_role s' k (qualified n) = None →
  accounted l s → accounted (l ∖ {[db]}) s'.
Proof.
  intros Hk Hat Hw Hn Hl. destruct (accounted_removed _ _ _ Hw Hl) as [Pr Pa]. split.
  - intros k' Hk' H. destruct (Pr k' Hk' H) as (db' & k2 & ? & Hat' & E). exists db', k2.
    split_and!; [|done|done]. apply elem_of_difference. split; [done|]. intros ->%elem_of_singleton.
    rewrite (place_roles s' k' k), Hn in H; [by destruct H|]. rewrite <- E. by eapply pg_at_place.
  - intros k' h Hk' H. destruct (Pa k' h Hk' H) as (db' & k2 & ? & Hat' & E). exists db', k2.
    split_and!; [|done|done]. apply elem_of_difference. split; [done|]. intros ->%elem_of_singleton.
    by eapply pg_not_my.
Qed.

Lemma accounted_my_drop l db host s s' k :
  is_mysql k → my_at dbs db host k → roles_without n s s' → my_account s' k (n, host) = None →
  accounted l s → accounted (l ∖ {[db]}) s'.
Proof.
  intros Hk Hat Hw Hn Hl. destruct (accounted_removed _ _ _ Hw Hl) as [Pr Pa]. split.
  - intros k' Hk' H. destruct (Pr k' Hk' H) as (db' & k2 & ? & Hat' & E). exists db', k2.
    split_and!; [|done|done]. apply elem_of_difference. split; [done|]. intros ->%elem_of_singleton.
    by eapply pg_not_my.
  - intros k' h Hk' H. destruct (Pa k' h Hk' H) as (db' & k2 & ? & Hat' & E). exists db', k2.
    split_and!; [|done|done]. apply elem_of_difference. split; [done|]. intros ->%elem_of_singleton.
    destruct (my_at_place _ _ _ _ _ Hat Hat') as [E2 ->].
    rewrite (place_accounts s' k' k), Hn in H; [by destruct H|]. congruence.
Qed.

(** ** What the ledger makes of it *)

Lemma confirmed_pg q r :
  drop_confirmed n (q, [], r) = true → q = deleteUserQuery n ∧ ignoreNotExists r = None.
Proof.
  unfold drop_confirmed. rewrite orb_true_iff, !andb_true_iff, !bool_decide_eq_true.
  by intros [[[? _] ?]|[[[_ ?] _] _]].
Qed.

Lemma confirmed_my q a args r :
  drop_confirmed n (q, a :: args, r) = true → q = "DROP USER ?@?" ∧ length args = 1 ∧ r = None.
Proof.
  unfold drop_confirmed. rewrite orb_true_iff, !andb_true_iff, !bool_decide_eq_true.
  intros [[[_ ?] _]|[[[? _] Hl] ?]]; [done|]. simpl in Hl. split_and!; [done|lia|done].
Qed.

(** A statement that is not a drop leaves the ledger as it is, or adds to it. *)
Lemma ledger_grows db l st : drop_confirmed n st = false → l ⊆ l_touched (ledger_stmt n (mkLedger db l) st).
Proof. unfold ledger_stmt. intros ->. simpl. destruct (removal _); set_solver. Qed.

Lemma not_confirmed_pg q r st :
  sql_read q = st → st ≠ Some (SDropUser (qualified n)) → drop_confirmed n (q, [], r) = false.
Proof.
  intros Hq Hst. destruct (drop_confirmed n (q, [], r)) eqn:E; [|done].
  apply confirmed_pg in E as [-> _]. rewrite deleteUserQuery_read in Hq. congruence.
Qed.

Lemma create_not_confirmed password r : drop_confirmed n ((createUserQuery n password).1, [], r) = false.
Proof.
  destruct (str_free nul password) eqn:Hp.
  - by apply (not_confirmed_pg _ _ _ (createUserQuery_read n password Hp)).
  - apply (not_confirmed_pg _ _ None); [|done]. unfold sql_read.
    by rewrite nul_in_literal_bad by by apply createUserQuery_nul.
Qed.

Lemma not_confirmed_my q args r st :
  my_read q args = Some st → (∀ a, st ≠ MDropUser a) → args ≠ [] → drop_confirmed n (q, args, r) = false.
Proof.
  intros Hq Hst Hne. destruct (drop_confirmed n (q, args, r)) eqn:E; [|done].
  destruct args as [|a [|h [|]]]; try done; apply confirmed_my in E as (-> & Hl & _); try done.
  change (Some (MDropUser (a, h)) = Some st) in Hq. injection Hq as <-. by destruct (Hst (a, h)).
Qed.

Lemma create_not_removal password : removal (createUserQuery n password).1 = false.
Proof. unfold createUserQuery. by destruct (nonempty password). Qed.

(** A permitted statement touches nothing of other users. *)
Lemma allowed_others db s s' k q args r :
  allowed dbs n db k q args → srv_exec s k q args r s' → others_kept n s s'.
Proof.
  destruct 1 as [password Hk Hat|Hk Hat|database on pv Hk Hp|database on pv Hk Hp
    |host password Hk Hat|host Hk Hat|pr Hk|pr Hk].
  - intros Hx. by destruct (create_statement _ _ _ _ _ _ Hk Hx) as [[_ ?] _].
  - by apply (exec_others _ _ _ _ n _ _ Hk (deleteUserQuery_read n)).
  - by apply (exec_others _ _ _ _ n _ _ Hk (grant_read n database on pv Hp)).
  - by apply (exec_others _ _ _ _ n _ _ Hk (revoke_read n database on pv Hp)).
  - intros Hx. by apply (my_exec_others _ _ _ _ _ _ _ Hk (create_query_read n host password) Hx).
  - intros Hx. by apply (my_exec_others _ _ _ _ _ _ _ Hk (drop_query_read n host) Hx).
  - intros Hx. by apply (my_exec_others _ _ _ _ _ _ _ Hk (grant_read_stmt n pr) Hx).
  - intros Hx. by apply (my_exec_others _ _ _ _ _ _ _ Hk (revoke_read_stmt n pr) Hx).
Qed.

Lemma accounted_stmt l db s s' k q args r :
  allowed dbs n db k q args → srv_exec s k q args r s' → accounted l s →
  accounted (l_touched (ledger_stmt n (mkLedger db l) (q, args, r))) s'.
Proof.
  intros Ha Hx Hl.
  destruct Ha as [password Hk Hat|Hk Hat|database on pv Hk Hp|database on pv Hk Hp
    |host password Hk Hat|host Hk Hat|pr Hk|pr Hk].
  - unfold ledger_stmt. cbn [fst]. rewrite create_not_confirmed, create_not_removal.
    by eapply accounted_pg_create.
  - pose proof (deleteUserQuery_read n) as Hq. pose proof (exec_drop_roles _ _ _ _ _ _ Hk Hq Hx) as Hw.
    unfold ledger_stmt. cbn [fst]. rewrite delete_removal.
    destruct (drop_confirmed n (deleteUserQuery n, [], r)) eqn:E; [|by eapply accounted_removed].
    apply confirmed_pg in E as [_ E]. eapply accounted_pg_drop; try done.
    destruct r as [e|]; [|by eapply exec_drop]. unfold ignoreNotExists in E.
    destruct (isNotExists (Some e)) eqn:He; [|done]. eapply roles_without_gone; [exact Hw|].
    by eapply exec_drop_undefined.
  - pose proof (grant_read n database on pv Hp) as Hq.
    eapply accounted_same; [by eapply ledger_grows, not_confirmed_pg| |done]. by apply (exec_grant_grown _ _ _ _ _ _ _ _ Hk Hq Hx).
  - pose proof (revoke_read n database on pv Hp) as Hq.
    eapply accounted_same; [by eapply ledger_grows, not_confirmed_pg| |done]. by apply (exec_revoke _ _ _ _ _ _ _ _ Hk Hq Hx).
  - pose proof (create_query_read n host password) as Hq. unfold ledger_stmt. cbn [fst].
    rewrite (not_confirmed_my _ _ r _ Hq) by done.
    eapply accounted_my_create; [done|exact Hat|exact Hx| |done].
    by apply (my_exec_others _ _ _ _ _ _ _ Hk Hq Hx).
  - pose proof (drop_query_read n host) as Hq. pose proof (my_exec_drop_roles _ _ _ _ _ _ _ Hk Hq Hx) as Hw.
    unfold ledger_stmt. cbn [fst].
    destruct (drop_confirmed n ("DROP USER ?@?", [n; host], r)) eqn:E; [|by eapply accounted_removed].
    apply confirmed_my in E as (_ & _ & ->). eapply accounted_my_drop; try done. by apply (my_exec_drop _ _ _ _ _ _ Hk Hq Hx).
  - pose proof (grant_read_stmt n pr) as Hq. pose proof (mysql_stmt_args "GRANT" "TO" n pr) as Hne.
    eapply accounted_same; [by eapply ledger_grows, not_confirmed_my| |done]. by apply (my_exec_grant_grown _ _ _ _ _ _ _ _ _ Hk Hq Hx).
  - pose proof (revoke_read_stmt n pr) as Hq. pose proof (mysql_stmt_args "REVOKE" "FROM" n pr) as Hne.
    eapply accounted_same; [by eapply ledger_grows, not_confirmed_my| |done]. by apply (my_exec_revoke _ _ _ _ _ _ _ _ _ Hk Hq Hx).
Qed.
End Accounted.

(** ** The joint system *)

Section Joint.
Context {St : Type} {DR : Drivers St} {SO : Server St} {SL : ServerLaws St} {SP : ServerPlaces St}.
Context {U : Controllerutil} {UL : ControllerutilLaws U}.
Variable dbs : string → DatabaseSpec.
Variable nn : types_NamespacedName.
Implicit Types (S : sys) (w : db_state St).

Let n : string := Nn_Name nn.

(** The cluster, and the servers with the open connections. *)
Definition joint : Type := sys * db_state St.

(** A request of the operator is answered by the API server and by the servers;
    the [Database] objects do not change, and the privileges that are read can
    be read by PostgreSQL.  All other steps of [Lifecycle] leave the servers
    alone. *)
Inductive jstep : joint → joint → Prop :=
| j_request S S' w w' h r (x : resp r) k :
    s_run S = Some (h, Call r k) → api nn S (ev r x) S' → db_step w (ev r x) w' →
    plain_reads (ev r x) → spec_reads dbs (ev r x) →
    jstep (S, w) (with_run S' (ledger_event n (s_ledger S) (ev r x)) (Some (h ++ [ev r x], k x)), w')
| j_cluster S S' w :
    step NewDatabase nn S S' → s_run S' = s_run S ∨ s_run S = None ∨ s_run S' = None →
    jstep (S, w) (S', w).

(** It begins without the user. *)
Definition nothing_of (s : St) : Prop :=
  (∀ k, srv_role s k (qualified n) = None) ∧ (∀ k host, my_account s k (n, host) = None).

(** It is a step of [Lifecycle]. *)
Lemma jstep_cluster x x' : jstep x x' → step NewDatabase nn x.1 x'.1.
Proof. destruct 1; simpl; [by eapply op_call|done]. Qed.

(** ** Its invariant *)

(** What is permitted does not depend on the servers: any answer will do. *)
#[local] Instance any_Drivers : Drivers () := {
  srv_exec _ _ _ _ _ _ := True;
  gen_mysql := gen_mysql
}.

Definition handles_of w (l : ledger) : gstate (S := ()) := (((), w.2), l_current l).

Lemma db_step_any w e w' : db_step w e w' → db_step ((), w.2) e ((), w'.2).
Proof.
  destruct e as [r x]. destruct r; simpl; try (by intros ->).
  - destruct x as [h [e|]]; simpl; [by intros ->|]. by intros [? ->].
  - destruct (w.2 !! db); [|by intros ->]. by intros [_ ->].
  - by intros [? ->].
Qed.

Lemma allowed_any db k q args : allowed (S := ()) dbs n db k q args → allowed (S := St) dbs n db k q args.
Proof. by destruct 1; constructor. Qed.

(** The run in progress stays within what is permitted. *)
Definition run_guarded (x : joint) : Prop :=
  ∀ h p, s_run x.1 = Some (h, p) →
    gwp (gstep dbs n) (permitted dbs n) (handles_of x.2 (s_ledger x.1)) p (λ _ _, True).

Record jinv (x : joint) : Prop := {
  jinv_inv : inv NewDatabase nn x.1;
  jinv_accounted : accounted dbs n (l_touched (s_ledger x.1)) x.2.1;
  jinv_run : run_guarded x
}.

(** The answers of the API server are about the user. *)
Lemma api_about S S' h r (x : resp r) k :
  inv NewDatabase nn S → s_run S = Some (h, Call r k) → api nn S (ev r x) S' → about_user n (ev r x).
Proof.
  intros HI Hr Ha. destruct HI as [Hs Hrun]. destruct (Hrun _ _ Hr) as [Hp Hh].
  apply prefix_step with (x := x) in Hp. destruct (prefix_complete _ _ _ _ Hp) as (t & o & Ht).
  rewrite <- app_assoc in Ht. clear Hrun Hr Hp.
  assert (∀ u, u ∈ s_history S → User_Name u = n) as Hname.
  { intros u Hu. by eapply Forall_forall in Hu; [|apply (safe_names _ _ Hs)]. }
  revert Ht Ha. generalize (ev r x). clear r x k. intros e Ht Ha.
  assert (∀ u' u'' v, s_obj S = Some v → stored v u' u'' → e = ev (UpdateUser u') (u'', None) →
    User_Name u'' = n) as Hupd.
  { intros u' u'' v Hv (Hn & _) ->. rewrite Hn.
    destruct Hh as [->|([u err] & h' & -> & Hu)].
    { destruct Ht as (y & t' & E & _). by apply (f_equal (λ l, head l ≫= user_read)) in E. }
    destruct err as [err|].
    { pose proof (Reconcile_no_user NewDatabase nn _ _ _ _ Ht) as E.
      destruct (apierrors_IsNotFound err); destruct E as [E _]; by destruct h' as [|? [|]]. }
    destruct (Hu eq_refl) as (Hlast & _). apply list_elem_of_lookup_2, Hname in Hlast. simpl in Hlast.
    destruct (update_cases NewDatabase nn _ _ _ _ _ _ (s_ledger S) Ht Hlast) as [[_ ->]|(_ & -> & _)].
    - by rewrite (f_equal User_Name (AddFinalizer_frame u userFinalizer) : User_Name (AddFinalizer _ _) = _).
    - by rewrite (f_equal User_Name (RemoveFinalizer_frame u userFinalizer) : User_Name (RemoveFinalizer _ _) = _). }
  destruct Ha as [i u Hu Hi|nn' u e|v u' u'' Hv Erv Hf Hst|v u' u'' w e Hv Erv Hf Hst|u' w e
    |v u' u'' x Hv Erv Hf Hsu|u' w e|e He]; try done.
  - intros _. by eapply Hname, list_elem_of_lookup_2.
  - intros _. by eapply Hupd.
  - destruct e as [[] x]; try done; by destruct He.
Qed.

Lemma database_current l e : l_current (ledger_event n l e) = default (l_current l) (database_of e).
Proof. unfold ledger_event. destruct (database_of e); [done|]. by destruct (stmt_of e). Qed.

(** One request of a guarded run keeps the ledger an account of the servers. *)
Lemma accounted_event l w (e : event) w' :
  permitted dbs n (handles_of w l) (projT1 e) → db_step w e w' →
  accounted dbs n (l_touched l) w.1 → accounted dbs n (l_touched (ledger_event n l e)) w'.1.
Proof.
  intros Hp Hw Hl. destruct e as [r x].
  assert (w'.1 = w.1 → l_touched (ledger_event n l (existT r x)) = l_touched l →
    accounted dbs n (l_touched (ledger_event n l (existT r x))) w'.1) as Hsame by (intros -> ->; done).
  destruct r; try (apply Hsame; [by hnf in Hw; subst|done]).
  - destruct x as [h [e|]]; hnf in Hw; simpl in Hw; apply Hsame; try done; [by subst|].
    by destruct Hw as [_ ->].
  - destruct Hp as (k & Hk & Ha). simpl in Hk, Ha. hnf in Hw. rewrite Hk in Hw. destruct Hw as [Hx _].
    apply allowed_any in Ha. destruct l as [cur l]. by eapply accounted_stmt.
  - apply Hsame; [|done]. by destruct Hw as [_ ->].
  - destruct op; [|done]. apply Hsame; [by hnf in Hw; subst|done].
Qed.

Lemma jinv_init w : nothing_of w.1 → jinv (init, w).
Proof.
  intros [Hr Ha]. split; [apply inv_init| |done]. simpl. split.
  - intros k _ [r H]. by rewrite Hr in H.
  - intros k h _ [r H]. by rewrite Ha in H.
Qed.

(** The steps between the requests. *)
Lemma quiet_step S S' :
  step NewDatabase nn S S' → s_run S' = s_run S ∨ s_run S = None ∨ s_run S' = None →
  s_ledger S' = s_ledger S ∧
  (s_run S' = s_run S ∨ s_run S' = None ∨ s_run S' = Some ([], Reconcile NewDatabase nn)).
Proof.
  intros Hstep Hrun. destruct Hstep as [| | | |S S' h r x k Hr _|]; simpl in *; auto.
  destruct Hrun as [E|[E|E]]; try congruence. rewrite Hr in E. injection E as E _.
  apply (f_equal length) in E. rewrite length_app in E. simpl in E. lia.
Qed.

Lemma jinv_step x x' : jinv x → jstep x x' → jinv x'.
Proof.
  intros [HI Hl Hg] Hstep. destruct Hstep as [S S' w w' h r x k Hr Ha Hw Hp Hs|S S' w Hstep Hrun].
  - pose proof (api_about _ _ _ _ _ _ HI Hr Ha) as Hab. destruct (Hg _ _ Hr) as [Hperm Hk].
    split.
    + eapply (inv_step NewDatabase nn); [exact HI|by eapply op_call].
    + simpl. by eapply accounted_event.
    + intros h0 p0 [= <- <-]. apply Hk. split_and!; [by apply db_step_any|apply database_current|done..].
  - destruct (quiet_step _ _ Hstep Hrun) as [E Hr].
    split; simpl in *; [by eapply (inv_step NewDatabase nn)|by rewrite E|].
    intros h p Hh. simpl in *. rewrite E. destruct Hr as [Hr|[Hr|Hr]].
    + rewrite Hr in Hh. exact (Hg h p Hh).
    + congruence.
    + rewrite Hr in Hh. injection Hh as <- <-. apply Reconcile_guarded.
Qed.

(** What it relies on: nobody else touches what belongs to the user. *)
Lemma jinv_rely S w w' : user_same n w.1 w'.1 → w'.2 = w.2 → jinv (S, w) → jinv (S, w').
Proof.
  intros [Hr Ha] H2 [HI Hl Hg]. split; simpl in *; [done| |].
  - eapply accounted_mono; [done| | |exact Hl].
    + intros k _. by destruct (Hr k) as [-> _].
    + intros k h _. by destruct (Ha k h) as [-> _].
  - intros h p Hh. unfold handles_of. simpl. rewrite H2. exact (Hg h p Hh).
Qed.

(** What is on the servers is remembered by the stored object. *)
Lemma jinv_remembered S w :
  jinv (S, w) →
  (∀ k, is_pgx k → is_Some (srv_role w.1 k (qualified n)) →
     ∃ u db k', s_obj S = Some u ∧ has_finalizer u ∧ db ∈ databases u ∧
       pg_at dbs db k' ∧ place_of k' = place_of k) ∧
  (∀ k host, is_mysql k → is_Some (my_account w.1 k (n, host)) →
     ∃ u db k', s_obj S = Some u ∧ has_finalizer u ∧ db ∈ databases u ∧
       my_at dbs db host k' ∧ place_of k' = place_of k).
Proof.
  intros [[Hs _] [Hpg Hmy] _]. simpl in *. split.
  - intros k Hk H. destruct (Hpg k Hk H) as (db & k' & (u & ? & ? & ?)%(safe_touched nn) & ? & ?); [|done].
    by exists u, db, k'.
  - intros k h Hk H. destruct (Hmy k h Hk H) as (db & k' & (u & ? & ? & ?)%(safe_touched nn) & ? & ?); [|done].
    by exists u, db, k'.
Qed.

(** What it guarantees: a step touches nothing of other users. *)
Lemma jstep_others x x' : jinv x → jstep x x' → others_kept n x.2.1 x'.2.1.
Proof.
  intros [_ _ Hg] Hstep. destruct Hstep as [S S' w w' h r x k Hr _ Hw _ _|S S' w _ _]; [|reflexivity].
  destruct (Hg _ _ Hr) as [Hperm _]. simpl in *.
  assert (w'.1 = w.1 → others_kept n w.1 w'.1) as Hsame by (intros ->; reflexivity).
  destruct r; try (apply Hsame; by hnf in Hw; subst).
  - destruct x as [h1 [e|]]; hnf in Hw; simpl in Hw; apply Hsame; [by subst|]. by destruct Hw as [_ ->].
  - destruct Hperm as (c & Hc & Ha). simpl in Hc, Ha. hnf in Hw. rewrite Hc in Hw. destruct Hw as [Hx _].
    apply allowed_any in Ha. exact (allowed_others dbs n _ _ _ _ _ _ _ Ha Hx).
  - apply Hsame. hnf in Hw. by destruct Hw as [_ ->].
Qed.
End Joint.
