(* ===== verification/ServerDemo.v ===== *)
(** * A small database server

    One PostgreSQL server and one MySQL server behind all connection strings,
    which has the laws of [ServerLaws] and can be executed; the hypotheses of
    [ServerProps] are evaluated on it. *)

From S2P Require Import Prelude GoStrings SqlLexer GoError Api Effects Logic StateLogic.
From S2P Require Import Connection PgUtils Postgresql Mysql MysqlSql Server ServerDb ServerRuns.
From S2P Require Import World Samples.

Record DemoServer := mkDemoServer {
  demo_roles : list token → option (option string);
  demo_grants : conn → list token → list token → list token → bool;
  demo_accounts : account → option string;
  demo_my_grants : conn → string → my_object → account → bool
}.

Definition demo_empty : DemoServer :=
  mkDemoServer (λ _, None) (λ _ _ _ _, false) (λ _, None) (λ _ _ _ _, false).

Definition set_role (s : DemoServer) (n : list token) (r : option (option string)) : DemoServer :=
  mkDemoServer (λ m, if decide (m = n) then r else demo_roles s m) (demo_grants s)
    (demo_accounts s) (demo_my_grants s).

(** Without the role and all memberships in it. *)
Definition drop_role (s : DemoServer) (n : list token) : DemoServer :=
  mkDemoServer (λ m, if decide (m = n) then None else demo_roles s m)
    (λ k p o m, demo_grants s k p o m && negb (membership n p o))
    (demo_accounts s) (demo_my_grants s).

Definition set_grant (s : DemoServer) (k : conn) (p o n : list token) (b : bool) : DemoServer :=
  mkDemoServer (demo_roles s)
    (λ k' p' o' n', if decide ((k', p', o', n') = (k, p, o, n)) then b else demo_grants s k' p' o' n')
    (demo_accounts s) (demo_my_grants s).

Definition set_account (s : DemoServer) (a : account) (pw : option string) : DemoServer :=
  mkDemoServer (demo_roles s) (demo_grants s)
    (λ b, if decide (b = a) then pw else demo_accounts s b) (demo_my_grants s).

(** Without the account and where it was granted as a role. *)
Definition drop_account (s : DemoServer) (a : account) : DemoServer :=
  mkDemoServer (demo_roles s) (demo_grants s)
    (λ b, if decide (b = a) then None else demo_accounts s b)
    (λ k p o b, demo_my_grants s k p o b && negb (bool_decide (o = MNoObject) && bool_decide (p = a.1))).

Definition set_my_grant (s : DemoServer) (k : conn) (p : string) (o : my_object) (a : account) (b : bool)
    : DemoServer :=
  mkDemoServer (demo_roles s) (demo_grants s) (demo_accounts s)
    (λ k' p' o' a', if decide ((k', p', o', a') = (k, p, o, a)) then b else demo_my_grants s k' p' o' a').

Definition demo_pg (s : DemoServer) (k : conn) (q : string) : option error * DemoServer :=
  match sql_read q with
  | Some (SCreateUser n pw) =>
      match demo_roles s n with
      | Some _ => (Some duplicate, s)
      | None => (None, set_role s n (Some pw))
      end
  | Some (SDropUser n) =>
      match demo_roles s n with
      | Some _ => (None, drop_role s n)
      | None => (Some undefined, s)
      end
  | Some (SGrant p o n) =>
      match demo_roles s n with
      | Some _ => (None, set_grant s k p o n true)
      | None => (Some undefined, s)
      end
  | Some (SRevoke p o n) => (None, set_grant s k p o n false)
  | None => (Some refused, s)
  end.

Definition my_failed : error := ErrorString "Error 1396 (HY000): Operation failed".

Definition demo_my (s : DemoServer) (k : conn) (q : string) (args : list string)
    : option error * DemoServer :=
  match my_read q args with
  | Some (MCreateUser a pw) =>
      match demo_accounts s a with
      | Some _ => (Some my_failed, s)
      | None => (None, set_account s a (Some pw))
      end
  | Some (MDropUser a) =>
      match demo_accounts s a with
      | Some _ => (None, drop_account s a)
      | None => (Some my_failed, s)
      end
  | Some (MGrant p o a) =>
      match demo_accounts s a with
      | Some _ => (None, set_my_grant s k p o a true)
      | None => (Some my_failed, s)
      end
  | Some (MRevoke p o a) => (None, set_my_grant s k p o a false)
  | None => (Some my_failed, s)
  end.

Definition demo_exec (s : DemoServer) (k : conn) (q : string) (args : list string)
    : option error * DemoServer :=
  if bool_decide (k.1 = "mysql") then demo_my s k q args else demo_pg s k q.

#[export] Instance demo_Drivers : Drivers DemoServer := {
  srv_exec s k q args r s' := demo_exec s k q args = (r, s');
  gen_mysql u := (world_dsn u, None)
}.

#[export] Instance demo_Server : Server DemoServer := {
  srv_role s k n := if bool_decide (k.1 = "mysql") then None else demo_roles s n;
  srv_granted s k p o n := demo_grants s k p o n = true;
  my_account s k a := if bool_decide (k.1 = "mysql") then demo_accounts s a else None;
  my_granted s k p o a := demo_my_grants s k p o a = true
}.

Lemma demo_exec_pg (s : DemoServer) k q args : is_pgx k → demo_exec s k q args = demo_pg s k q.
Proof. unfold is_pgx, demo_exec. by intros ->. Qed.
Lemma demo_exec_my (s : DemoServer) k q args : is_mysql k → demo_exec s k q args = demo_my s k q args.
Proof. unfold is_mysql, demo_exec. by intros ->. Qed.

Lemma srv_role_pg (s : DemoServer) k n : is_pgx k → srv_role s k n = demo_roles s n.
Proof. unfold is_pgx. simpl. by intros ->. Qed.
Lemma my_account_my (s : DemoServer) k a : is_mysql k → my_account s k a = demo_accounts s a.
Proof. unfold is_mysql. simpl. by intros ->. Qed.

(** The updates, as changes of what is observed. *)
(** [cbn] and a case analysis on all conditions. *)
Ltac demo_cases := intros; simpl in *; repeat case_match; try congruence; auto.

Lemma set_role_grown (s : DemoServer) n r : demo_roles s n = None → grown s (set_role s n r).
Proof. intros Hn. split_and!; try done. demo_cases. Qed.
Lemma set_account_grown (s : DemoServer) a pw : demo_accounts s a = None → grown s (set_account s a pw).
Proof. intros Hn. split_and!; try done. demo_cases. Qed.
Lemma set_grant_grown (s : DemoServer) k p o n : grown s (set_grant s k p o n true).
Proof. split_and!; try done. demo_cases. Qed.
Lemma set_my_grant_grown (s : DemoServer) k p o a : grown s (set_my_grant s k p o a true).
Proof. split_and!; try done. demo_cases. Qed.

Lemma drop_role_others (s : DemoServer) u : others_kept u s (drop_role s (qualified u)).
Proof.
  split; [|done]. intros c m Hm. split; [demo_cases|]. intros p o H. simpl. by rewrite H, andb_true_r.
Qed.
Lemma drop_account_others (s : DemoServer) a : others_kept a.1 s (drop_account s a).
Proof.
  split; [done|]. intros c b Hb. split; [demo_cases|]. intros p o H. simpl.
  destruct (bool_decide (o = MNoObject) && bool_decide (p = a.1)) eqn:E; [|by rewrite andb_true_r].
  apply andb_true_iff in E as [->%bool_decide_eq_true ->%bool_decide_eq_true]. exfalso. revert H.
  unfold my_membership. rewrite (bool_decide_eq_false_2 (a.1 ≠ a.1)) by (by intros []). by rewrite andb_false_r.
Qed.
Lemma set_role_others (s : DemoServer) u r : others_kept u s (set_role s (qualified u) r).
Proof. split; [|done]. intros c m Hm. split; [demo_cases|done]. Qed.
Lemma set_account_others (s : DemoServer) a pw : others_kept a.1 s (set_account s a pw).
Proof. split; [done|]. intros c b Hb. split; [demo_cases|done]. Qed.
Lemma set_grant_others (s : DemoServer) k p o u b : others_kept u s (set_grant s k p o (qualified u) b).
Proof. split; [|done]. intros c m Hm. split; [done|]. intros p' o'. simpl. rewrite decide_False; [done|congruence]. Qed.
Lemma set_my_grant_others (s : DemoServer) k p o a b : others_kept a.1 s (set_my_grant s k p o a b).
Proof. split; [done|]. intros c m Hm. split; [done|]. intros p' o'. simpl. rewrite decide_False; [done|congruence]. Qed.

Lemma drop_role_without (s : DemoServer) u : roles_without u s (drop_role s (qualified u)).
Proof. split; [|by left]. intros c m. demo_cases. Qed.
Lemma drop_account_without (s : DemoServer) a : roles_without a.1 s (drop_account s a).
Proof. split; [by left|]. intros c b. demo_cases. right. split; congruence. Qed.

(** One case of a statement: what it is, and the answer. *)
Ltac demo_case :=
  intros Hk Hq; try rewrite !(srv_role_pg _ _ _ Hk); try rewrite !(my_account_my _ _ _ Hk); simpl;
  first [rewrite (demo_exec_pg _ _ _ _ Hk)|rewrite (demo_exec_my _ _ _ _ Hk)];
  unfold demo_pg, demo_my; rewrite Hq; try case_match; intros [= <- <-] || intros [= <-] || intros [=].

#[export] Instance demo_ServerLaws : ServerLaws DemoServer.
Proof.
  split; intros s k q.
  - intros st u r s' Hk Hq. revert Hk Hq. intros Hk Hq Hn. simpl. rewrite (demo_exec_pg _ _ _ _ Hk).
    unfold demo_pg. rewrite Hq. destruct st; simpl in Hn; subst; try case_match; intros [= <- <-];
      eauto using set_role_others, drop_role_others, set_grant_others; reflexivity.
  - intros r s' Hk Hq. simpl. rewrite (demo_exec_pg _ _ _ _ Hk). unfold demo_pg.
    apply nul_in_literal_bad in Hq. unfold sql_read. rewrite Hq. intros [= <- <-]. split; [done|by exists refused].
  - intros n pw r s'. demo_case; [reflexivity|by apply set_role_grown].
  - intros n pw s'. demo_case. split; [done|]. simpl. by rewrite decide_True.
  - intros n pw e s'. demo_case. intros _. simpl. eauto.
  - intros u r s'. demo_case; [apply drop_role_without|reflexivity].
  - intros n s'. demo_case. simpl. by rewrite decide_True.
  - intros n e s'. demo_case. by intros _.
  - intros p o n r s'. demo_case; (split; [done|]); [apply set_grant_grown|reflexivity].
  - intros p o n s'. demo_case. simpl. by rewrite decide_True.
  - intros p o n r s'. by demo_case.
  - intros args st r s' Hk Hq. simpl. rewrite (demo_exec_my _ _ _ _ Hk). unfold demo_my. rewrite Hq.
    assert (∀ a pw c' b, b ≠ a → my_account (set_account s a pw) c' b = my_account s c' b ∧
      my_account (drop_account s a) c' b = my_account s c' b) as Hb.
    { intros a pw c' b Hb. split; simpl; by rewrite decide_False. }
    destruct st; try case_match; intros [= <- <-];
      (split; [|intros c' b Hne; first [done|exact (proj1 (Hb _ _ c' b Hne))|exact (proj2 (Hb _ None c' b Hne))]]); eauto using set_account_others, drop_account_others, set_my_grant_others; reflexivity.
  - intros args a pw r s'. demo_case; [reflexivity|by apply set_account_grown].
  - intros args a pw s'. demo_case. simpl. by rewrite decide_True.
  - intros args a r s'. demo_case; [apply drop_account_without|reflexivity].
  - intros args a s'. demo_case. simpl. rewrite decide_True by done. by eauto.
  - intros args p o a r s'. demo_case; (split; [done|]); [apply set_my_grant_grown|reflexivity].
  - intros args p o a s'. demo_case. simpl. rewrite decide_True by done. by eauto.
  - intros args p o a r s'. by demo_case.
Qed.

(** ** Runs on it *)

(** The world answers as this server, replaying what it executed. *)
Definition conn_for (q : string * list string) : conn :=
  match my_read q.1 q.2 with Some _ => ("mysql", "") | None => ("pgx", "") end.
Definition demo_replay (s : DemoServer) (hist : list (string * list string)) : DemoServer :=
  foldl (λ s q, (demo_exec s (conn_for q) q.1 q.2).2) s hist.
Definition reply_demo (s : DemoServer) (hist : list (string * list string))
    (q : string * list string) : option error :=
  (demo_exec (demo_replay s hist) (conn_for q) q.1 q.2).1.

(** [db_step] as a function. *)
Definition demo_step (w : db_state DemoServer) (e : event) : option (db_state DemoServer) :=
  match e with
  | existT r x =>
      match r return resp r → option (db_state DemoServer) with
      | SqlConnect driver connString => λ x,
          match x.2, w.2 !! x.1 with
          | None, None => Some (w.1, <[x.1 := (driver, connString)]> w.2)
          | None, Some _ => None
          | Some _, _ => Some w
          end
      | SqlExec h q args => λ x,
          match w.2 !! h with
          | Some k =>
              let '(r, s') := demo_exec w.1 k q args in
              if bool_decide (r = x) then Some (s', w.2) else None
          | None => Some w
          end
      | SqlClose h => λ _, Some (w.1, delete h w.2)
      | GenMysql u => λ x, if bool_decide (x = (world_dsn u, None)) then Some w else None
      | _ => λ _, Some w
      end x
  end.

Fixpoint demo_run (w : db_state DemoServer) (t : list event) : option (db_state DemoServer) :=
  match t with
  | [] => Some w
  | e :: t' => w1 ← demo_step w e; demo_run w1 t'
  end.

Lemma demo_step_sound w e w' : demo_step w e = Some w' → db_step w e w'.
Proof.
  destruct e as [r x]. destruct r; simpl; try (by intros [= <-]).
  - destruct x as [h [e|]]; simpl; [by intros [= <-]|].
    destruct (w.2 !! h) eqn:E; [done|]. by intros [= <-].
  - destruct (w.2 !! db); [|by intros [= <-]]. destruct (demo_exec w.1 c query args) as [r s'].
    case_bool_decide as E; [|done]. intros [= <-]. by subst.
  - case_bool_decide as E; [|done]. by intros [= <-].
Qed.

Lemma demo_run_served w t w' : demo_run w t = Some w' → served db_step w t w'.
Proof.
  revert w. induction t as [|e t IH]; simpl; intros w; [intros [= <-]; constructor|].
  destruct (demo_step w e) as [w1|] eqn:E; simpl; [|done]. intros Ht.
  econstructor; [by apply demo_step_sound|auto].
Qed.

Definition demo_accepts (w : db_state DemoServer) (t : list event) : bool :=
  match demo_run w t with Some _ => true | None => false end.
Definition demo_final (w : db_state DemoServer) (t : list event) : db_state DemoServer :=
  default w (demo_run w t).

Lemma demo_final_served w t : demo_accepts w t = true → served db_step w t (demo_final w t).
Proof.
  unfold demo_accepts, demo_final. destruct (demo_run w t) as [w'|] eqn:E; [|done].
  intros _. by apply demo_run_served.
Qed.

(** Whether what is read is as [plain_reads] and [about_user] say can be
    evaluated. *)
Definition plain_readsb (e : event) : bool :=
  match e with
  | existT r x =>
      match r return resp r → bool with
      | GetPrivileges _ => λ x, forallb plain (Privileges_Privileges x.1)
      | _ => λ _, true
      end x
  end.

Lemma plain_readsb_spec t : forallb plain_readsb t = true → Forall plain_reads t.
Proof.
  induction t as [|[r x] t IH]; simpl; [constructor|]. intros [Hx Ht]%andb_true_iff.
  constructor; [|auto]. destruct r; try exact I; by intros _.
Qed.

Definition about_userb (name : string) (e : event) : bool :=
  match e with
  | existT r x =>
      match r return resp r → bool with
      | GetUser _ | UpdateUser _ => λ x, bool_decide (User_Name x.1 = name)
      | _ => λ _, true
      end x
  end.

Lemma about_userb_spec name t : forallb (about_userb name) t = true → Forall (about_user name) t.
Proof.
  induction t as [|[r x] t IH]; simpl; [constructor|]. intros [Hx Ht]%andb_true_iff.
  constructor; [|auto]. destruct r; try exact I; simpl in *; intros _; by apply bool_decide_eq_true in Hx.
Qed.

(** ** Sample states *)

(** A server where john exists, with another password. *)
Definition demo_john : DemoServer := set_role demo_empty (qualified "john") (Some (Some "old")).

(** One where an administrator made john at any host on MySQL. *)
Definition demo_any : DemoServer := set_account demo_empty ("john", any_host) (Some "admin").

Definition demo_world (s : DemoServer) (u : User) : World :=
  sample_world SSLModeVERIFYFULL u (reply_demo s).
Definition demo_state (s : DemoServer) : db_state DemoServer := (s, ∅).

