(* ===== verification/ServerProps.v ===== *)
(** * What the operator does to the servers

    The roles, accounts and privileges on PostgreSQL and MySQL servers after a
    reconciliation, for all servers with the laws of [ServerLaws]. *)

From S2P Require Import Prelude GoStrings SqlLexer GoError Api Effects Logic StateLogic Utils.
From S2P Require Import Connection PgUtils PgConfig Postgresql Mysql MysqlSql Database.
From S2P Require Import Server ServerDb ServerPg ServerMysql ServerObjects ServerRuns ServerOutcome.
From S2P Require Import Controller ControllerFacts ControllerRuns ControllerTraces World Samples ServerDemo.

Section Theorems.
Context {S : Type} {DR : Drivers S} {SO : Server S} {SL : ServerLaws S}.
Implicit Types (w : db_state S).

#[local] Existing Instance iface_Served.
#[local] Existing Instance iface_ServedLaws.

(** ** One database *)

(** C30: A reconciled PostgreSQL database is as the user asks for it.  When the
    work in it succeeds, then on its server, over a connection to the host, port
    and database of the specification: the role of the user exists, and a new one
    has the password that was read; every privilege of the referenced
    [Privileges] objects is granted to it, those on an object over a connection
    to their own database; and every connection that was opened is closed. *)
Theorem applied_on_server u ref w t w' :
  runs (databaseReconciler NewDatabase u false ref) t (Returned None) → served db_step w t w' →
  Forall plain_reads t →
  ∃ dc ps t', t = read_for ref dc ps ++ t' ∧ length ps = length (DatabaseRef_Privileges ref) ∧
    let l := concat (Privileges_Privileges <$> ps) in
    (DatabaseSpec_Type (Database_Spec dc) = PostgreSQL →
     ∃ c k cfg pw tp, DatabaseSpec_PostgreSQL (Database_Spec dc) = Some c ∧
       server_conn c k ∧ config_for c cfg ∧
       segment tp t ∧ runs (userPassword (DatabaseRef_PasswordSecret ref)) tp (Returned (pw, None)) ∧
       srv_role w'.1 k (qualified (User_Name u)) =
         Some (default (given pw) (srv_role w.1 k (qualified (User_Name u)))) ∧
       Forall (granted_to w'.1 k cfg (User_Name u)) l ∧ w'.2 = w.2).
Proof.
  intros Ht Hs Hpl.
  destruct (attempt_applied u ref w t w' Ht Hs Hpl)
    as (H2 & _ & dc & ps & d & k & t' & E & Hl & Hk & pw & tp & s & Htp & Hpw & Hcr & [(Hr & _) _] & Hg).
  exists dc, ps, t'. split; [done|]. split; [done|]. intros l Hty.
  destruct d as [|[p|]|[m|]]; try done; destruct Hk as (Hty' & c & Hc & Hcfg & Hk);
    [|by rewrite Hty in Hty'].
  exists c, k, (pg_config p), pw, tp. split_and!; try done. by apply Hr.
Qed.

(** C9: A reconciled MySQL database is as the user asks for it, with two accounts.
    When the work in it succeeds, then the account of the user at the configured
    host name did not exist before and has the password that was read, and the
    privileges are granted to the account of the user at any host, which is not
    the same unless that host name is ["%"]: with privileges it must have been
    there before. *)
Theorem mysql_applied_on_server u ref w t w' :
  runs (databaseReconciler NewDatabase u false ref) t (Returned None) → served db_step w t w' →
  Forall plain_reads t →
  ∃ dc ps t', t = read_for ref dc ps ++ t' ∧ length ps = length (DatabaseRef_Privileges ref) ∧
    let l := concat (Privileges_Privileges <$> ps) in
    (DatabaseSpec_Type (Database_Spec dc) = MySQL →
     ∃ c k pw tp, DatabaseSpec_MySQL (Database_Spec dc) = Some c ∧ my_server_conn c k ∧
       segment tp t ∧ runs (userPassword (DatabaseRef_PasswordSecret ref)) tp (Returned (pw, None)) ∧
       my_account w.1 k (User_Name u, users_host c) = None ∧
       my_account w'.1 k (User_Name u, users_host c) = Some pw ∧
       Forall (my_granted_to w'.1 k (User_Name u)) l ∧
       (l ≠ [] → users_host c ≠ any_host → is_Some (my_account w.1 k (User_Name u, any_host))) ∧
       w'.2 = w.2).
Proof.
  intros Ht Hs Hpl.
  destruct (attempt_applied u ref w t w' Ht Hs Hpl)
    as (H2 & _ & dc & ps & d & k & t' & E & Hl & Hk & pw & tp & s & Htp & Hpw & Hcr & [(_ & _ & Ha & _) _] & Hg).
  exists dc, ps, t'. split; [done|]. split; [done|]. intros l Hty.
  destruct d as [|[p|]|[m|]]; try done; destruct Hk as (Hty' & c & Hc & Hcfg & Hk);
    [by rewrite Hty in Hty'|].
  destruct Hcr as (Hn & Hp & Hb), Hg as [Hg Hany].
  unfold created_account in Hn, Hp, Hb. rewrite (my_config_host _ _ Hcfg) in Hn, Hp, Hb.
  exists c, k, pw, tp. split_and!; try done; [by apply Ha|]. intros Hne Hh.
  rewrite <- (Hb k); [by apply Hany|]. unfold any_host in *. congruence.
Qed.

(** C31: Applying a user only adds, on every outcome: roles and accounts that exist
    keep their passwords, whatever password the user has now, no privilege is
    taken away, also when it is not listed any more, and connections that were
    made are closed. *)
Theorem apply_only_adds u ref w t o w' :
  runs (databaseReconciler NewDatabase u false ref) t o → served db_step w t w' →
  Forall plain_reads t →
  w'.2 = w.2 ∧
  (∀ k n password, srv_role w.1 k n = Some password → srv_role w'.1 k n = Some password) ∧
  (∀ k pv ob n, srv_granted w.1 k pv ob n → srv_granted w'.1 k pv ob n) ∧
  (∀ k a password, my_account w.1 k a = Some password → my_account w'.1 k a = Some password) ∧
  (∀ k pv ob a, my_granted w.1 k pv ob a → my_granted w'.1 k pv ob a).
Proof.
  intros Ht Hs Hpl.
  destruct (swp_sound plain_step _ _ _ _ _ _ (databaseReconciler_keeps false u ref w) Ht
    (served_and _ _ _ _ _ Hs Hpl)) as [H2 [Hg _]]. by split.
Qed.

(** ** Whole reconciliations *)

Context {U : Controllerutil} {UL : ControllerutilLaws U}.

Lemma ready_run nn t o u' x t1 t2 w w' :
  runs (OperatorReconcile nn) t o → t = t1 ++ ev (UpdateUserStatus u') x :: t2 →
  User_Ready u' = true → Forall plain_reads t1 → served db_step w t1 w' →
  Forall (λ ref, ready_in u' ref t1 w.1 w'.1) (User_Databases u') ∧ grown w.1 w'.1 ∧ w'.2 = w.2.
Proof.
  intros Ht E Hready Hpl Hs.
  destruct (Reconcile_status _ _ _ _ _ _ _ _ Ht E Hready) as (u & pre & u1 & tl & _ & Hp & Hl & -> & ->).
  clear Ht E.
  assert (ev (GetUser nn) (u, None) :: (pre ++ tl ++ [log_success]) ++ [success u1] =
    (ev (GetUser nn) (u, None) :: pre) ++ tl ++ [log_success; success u1]) as E by (by rewrite <- !app_assoc).
  rewrite E in *. clear E.
  apply served_app_inv in Hs as (w0 & H0 & Hs). apply served_app_inv in Hs as (w1 & H1 & H2).
  apply served_local in H0 as ->; [|by destruct Hp as [(_ & -> & _)|(_ & ->)]; repeat constructor].
  apply served_local in H2 as ->; [|by repeat constructor].
  apply Forall_app in Hpl as [_ [Hpl _]%Forall_app].
  destruct (loop_ready u1 _ _ _ Hl H1 Hpl) as (E2 & Hg & Hf).
  split_and!; [|done|done]. eapply Forall_impl; [exact Hf|]. intros ref Hr.
  eapply (ready_in_mono u1); [|reflexivity|reflexivity|exact Hr].
  apply segment_app_l, segment_app_r, segment_refl.
Qed.

Lemma released_loop nn u tl w w' :
  let t1 := ev (GetUser nn) (u, None) :: log_deletion :: tl ++ [log_deleted] in
  runs (range_err (databaseReconciler NewDatabase u true) (User_Databases u)) tl (Returned None) →
  Forall plain_reads t1 → served db_step w t1 w' →
  Forall (λ ref, gone_in u ref t1 w.1 w'.1) (User_Databases u) ∧
  roles_without (User_Name u) w.1 w'.1 ∧ w'.2 = w.2.
Proof.
  intros t1 Hl Hpl Hs.
  change (served db_step w ([ev (GetUser nn) (u, None); log_deletion] ++ tl ++ [log_deleted]) w') in Hs.
  apply served_app_inv in Hs as (w0 & H0 & Hs). apply served_local in H0 as ->; [|by repeat constructor].
  apply served_app_inv in Hs as (w1 & H1 & H2). apply served_local in H2 as ->; [|by repeat constructor].
  apply Forall_cons in Hpl as [_ [_ [Hpl _]%Forall_app]%Forall_cons].
  destruct (loop_gone u _ _ _ Hl H1 Hpl) as (E2 & Hg & Hf).
  split_and!; [|done|done]. eapply Forall_impl; [exact Hf|]. intros ref Hr.
  eapply (gone_in_mono u); [|reflexivity|reflexivity|exact Hr].
  apply (segment_app_l _ _ [ev (GetUser nn) (u, None); log_deletion]), segment_app_r, segment_refl.
Qed.

(** C5: A user that is reported ready is ready on all its servers.  When the
    operator sets a ready status, then at that moment, for every database
    reference, the database, the privileges and the password were read and: on a
    PostgreSQL server the role exists and has all of these privileges; on a MySQL
    server the account of the user was made by this reconciliation, with the
    password, and the account at any host has the privileges.  No role, account,
    password or privilege was removed, and no connection is left open. *)
Theorem ready_on_server nn t o u' x t1 t2 w w' :
  runs (OperatorReconcile nn) t o → t = t1 ++ ev (UpdateUserStatus u') x :: t2 →
  User_Ready u' = true → Forall plain_reads t1 → served db_step w t1 w' →
  Forall (λ ref, ready_in u' ref t1 w.1 w'.1) (User_Databases u') ∧ grown w.1 w'.1 ∧ w'.2 = w.2.
Proof. apply ready_run. Qed.

(** C6: A user that is released is gone from all its servers.  When the operator
    removes the finalizer, then at that moment no server of a referenced database
    has a role of the user or its account at the configured host; a MySQL account
    was there when the reconciliation began; roles and accounts of other names
    are as they were, and no connection is left open. *)
Theorem released_on_server nn t o u' x t1 t2 w w' :
  runs (OperatorReconcile nn) t o → t = t1 ++ ev (UpdateUser u') x :: t2 →
  userFinalizer ∉ Finalizers u' → Forall plain_reads t1 → served db_step w t1 w' →
  Forall (λ ref, gone_in u' ref t1 w.1 w'.1) (User_Databases u') ∧
  roles_without (User_Name u') w.1 w'.1 ∧ w'.2 = w.2.
Proof.
  intros Ht E Hfin Hpl Hs.
  destruct (Reconcile_update _ _ _ _ _ _ _ _ Ht E) as [u [(tl & _ & -> & -> & _ & Hl)|(_ & -> & _)]];
    [|by destruct Hfin; apply AddFinalizer_spec; left].
  pose proof (RemoveFinalizer_frame u userFinalizer) as Hframe.
  assert (User_Databases (RemoveFinalizer u userFinalizer) = User_Databases u) as Edb
    by exact (f_equal User_Databases Hframe).
  assert (User_Name (RemoveFinalizer u userFinalizer) = User_Name u) as En
    by exact (f_equal User_Name Hframe).
  unfold gone_in. rewrite Edb, En. by apply (released_loop nn u tl).
Qed.
End Theorems.

(** ** The hypotheses hold of concrete runs *)

Definition live_on (db : string) : User := sample_user [] None false [db].

(** One attempt in the database, from a server on. *)
Definition attempt (db : string) (s : DemoServer) : list event :=
  trace (databaseReconciler NewDatabase (live_on db) false (ref db)) (demo_world s (live_on db)).
Definition after_attempt (db : string) (s : DemoServer) : db_state DemoServer :=
  demo_final (demo_state s) (attempt db s).

Lemma applied_on_server_witness :
  ∃ dc ps t', attempt "pg" demo_empty = read_for (ref "pg") dc ps ++ t' ∧ length ps = 1 ∧
    let l := concat (Privileges_Privileges <$> ps) in
    (DatabaseSpec_Type (Database_Spec dc) = PostgreSQL →
     ∃ c k cfg pw tp, DatabaseSpec_PostgreSQL (Database_Spec dc) = Some c ∧
       server_conn c k ∧ config_for c cfg ∧
       segment tp (attempt "pg" demo_empty) ∧
       runs (userPassword (DatabaseRef_PasswordSecret (ref "pg"))) tp (Returned (pw, None)) ∧
       srv_role (after_attempt "pg" demo_empty).1 k (qualified "john") =
         Some (default (given pw) (srv_role demo_empty k (qualified "john"))) ∧
       Forall (granted_to (after_attempt "pg" demo_empty).1 k cfg "john") l ∧
       (after_attempt "pg" demo_empty).2 = ∅).
Proof.
  apply (applied_on_server (live_on "pg") (ref "pg") (demo_state demo_empty) (attempt "pg" demo_empty)
    (after_attempt "pg" demo_empty)).
  - apply (exec_runs _ (demo_world demo_empty (live_on "pg"))). by vm_compute.
  - apply demo_final_served. by vm_compute.
  - apply plain_readsb_spec. by vm_compute.
Defined.

Lemma mysql_applied_on_server_witness :
  ∃ dc ps t', attempt "my" demo_any = read_for (ref "my") dc ps ++ t' ∧ length ps = 1 ∧
    let l := concat (Privileges_Privileges <$> ps) in
    (DatabaseSpec_Type (Database_Spec dc) = MySQL →
     ∃ c k pw tp, DatabaseSpec_MySQL (Database_Spec dc) = Some c ∧ my_server_conn c k ∧
       segment tp (attempt "my" demo_any) ∧
       runs (userPassword (DatabaseRef_PasswordSecret (ref "my"))) tp (Returned (pw, None)) ∧
       my_account demo_any k ("john", users_host c) = None ∧
       my_account (after_attempt "my" demo_any).1 k ("john", users_host c) = Some pw ∧
       Forall (my_granted_to (after_attempt "my" demo_any).1 k "john") l ∧
       (l ≠ [] → users_host c ≠ any_host → is_Some (my_account demo_any k ("john", any_host))) ∧
       (after_attempt "my" demo_any).2 = ∅).
Proof.
  apply (mysql_applied_on_server (live_on "my") (ref "my") (demo_state demo_any) (attempt "my" demo_any)
    (after_attempt "my" demo_any)).
  - apply (exec_runs _ (demo_world demo_any (live_on "my"))). by vm_compute.
  - apply demo_final_served. by vm_compute.
  - apply plain_readsb_spec. by vm_compute.
Defined.

(** The server's john keeps the old password. *)
Lemma apply_only_adds_witness :
  srv_role (after_attempt "pg" demo_john).1 ("pgx", "") (qualified "john") = Some (Some "old").
Proof.
  apply (apply_only_adds (live_on "pg") (ref "pg") (demo_state demo_john) (attempt "pg" demo_john)
    (Returned None) (after_attempt "pg" demo_john)).
  - apply (exec_runs _ (demo_world demo_john (live_on "pg"))). by vm_compute.
  - apply demo_final_served. by vm_compute.
  - apply plain_readsb_spec. by vm_compute.
  - by vm_compute.
Defined.

(** A user of both kinds of databases. *)
Definition run_ready : list event := trace (OperatorReconcile john) (demo_world demo_any new_user).
Definition ready_at : nat := length run_ready - 1.
Definition final_ready : db_state DemoServer := demo_final (demo_state demo_any) (take ready_at run_ready).
Definition user_ready : User :=
  set_User_Status (sample_user [userFinalizer] None false ["pg"; "my"])
    (mkUserStatus (mkStatusSummary true successMsg)).

Lemma ready_on_server_witness :
  Forall (λ r, ready_in user_ready r (take ready_at run_ready) demo_any final_ready.1) [ref "pg"; ref "my"] ∧
  grown demo_any final_ready.1 ∧ final_ready.2 = ∅.
Proof.
  apply (ready_on_server john run_ready (Returned (Result_zero, None)) user_ready (user_ready, None)
    (take ready_at run_ready) [] (demo_state demo_any) final_ready).
  - apply (exec_runs _ (demo_world demo_any new_user)). by vm_compute.
  - by vm_compute.
  - reflexivity.
  - apply plain_readsb_spec. by vm_compute.
  - apply demo_final_served. by vm_compute.
Defined.

(** As that leaves it. *)
Definition demo_both : DemoServer :=
  set_account (set_role demo_any (qualified "john") (Some (Some "old"))) ("john", "*") (Some "old").
Definition run_released : list event := trace (OperatorReconcile john) (demo_world demo_both deleted_user).
Definition released_at : nat := length run_released - 1.
Definition final_released : db_state DemoServer :=
  demo_final (demo_state demo_both) (take released_at run_released).
Definition user_released : User := sample_user [] (Some "now") true ["pg"; "my"].

Lemma released_on_server_witness :
  Forall (λ r, gone_in user_released r (take released_at run_released) demo_both final_released.1)
    [ref "pg"; ref "my"] ∧
  roles_without "john" demo_both final_released.1 ∧ final_released.2 = ∅.
Proof.
  apply (released_on_server john run_released (Returned (Result_zero, None)) user_released
    (user_released, None) (take released_at run_released) [] (demo_state demo_both) final_released).
  - apply (exec_runs _ (demo_world demo_both deleted_user)). by vm_compute.
  - by vm_compute.
  - by apply (bool_decide_unpack _).
  - apply plain_readsb_spec. by vm_compute.
  - apply demo_final_served. by vm_compute.
Defined.
