(* ===== verification/ServerUsers.v ===== *)
(** * Users side by side, and reconciliations in a row

    A reconciliation touches nothing of other users, so that what holds of a
    ready user lasts while others are reconciled; and what earlier
    reconciliations of the same user leave behind can keep MySQL users from
    becoming ready or from being released. *)

From S2P Require Import Prelude GoStrings SqlLexer GoError Api Effects Logic StateLogic Utils.
From S2P Require Import Connection PgUtils PgConfig Postgresql Mysql MysqlSql Database.
From S2P Require Import Server ServerDb ServerPg ServerMysql ServerObjects ServerRuns ServerOutcome.
From S2P Require Import Controller ControllerFacts ControllerRuns ControllerTraces World Samples.
From S2P Require Import ServerDemo ServerProps.

(** What is read of the database of a reference is this object. *)
Definition reads_db (ref : DatabaseRef) (dc : Database) (e : event) : Prop :=
  match e with
  | existT r x =>
      match r return resp r → Prop with
      | GetDatabase nn => λ x, nn = mkTypesNN "" (DatabaseRef_Name ref) → x.2 = None → x.1 = dc
      | _ => λ _, True
      end x
  end.

Section Theorems.
Context {S : Type} {DR : Drivers S} {SO : Server S} {SL : ServerLaws S}.
Context {U : Controllerutil} {UL : ControllerutilLaws U}.
Implicit Types (w : db_state S).

(** A whole reconciliation of a user of the given name, with any outcome. *)
Definition reconciliation (name : string) w w' : Prop :=
  ∃ nn t o, runs (OperatorReconcile nn) t o ∧ served db_step w t w' ∧
    Forall plain_reads t ∧ Forall (about_user name) t.

(** One of a user with another name, in whose role or accounts none of the
    privileges is a membership. *)
Definition of_another (spec : DatabaseSpec) (u : string) (l : list PrivilegeSpec) w w' : Prop :=
  ∃ v, v ≠ u ∧ str_free nul v = true ∧ Forall (λ pr, membership_in spec v pr = false) l ∧
    reconciliation v w w'.

Lemma reconciliation_for_others name w w' : reconciliation name w w' → for_others name w w'.
Proof.
  intros (nn & t & o & Ht & Hs & Hp & Ha).
  eapply (swp_sound (user_step name) _ _ _ _ _ _ (Reconcile_others name nn w) Ht).
  exact (served_and _ _ _ _ _ (served_and _ _ _ _ _ Hs Hp) Ha).
Qed.

(** C7: A reconciliation touches only its own user.  Whatever its outcome is, a
    success, an error or a panic, roles, accounts and passwords of all other
    names are as they were, and so are their privileges but for memberships in
    the role of the user, which a server revokes when it drops the role; and no
    connection that was made is left open. *)
Theorem reconciliation_isolated name nn t o w w' :
  runs (OperatorReconcile nn) t o → served db_step w t w' →
  Forall plain_reads t → Forall (about_user name) t →
  (∀ k n, n ≠ qualified name → srv_role w'.1 k n = srv_role w.1 k n ∧
     ∀ pv ob, membership (qualified name) pv ob = false →
       srv_granted w'.1 k pv ob n ↔ srv_granted w.1 k pv ob n) ∧
  (∀ k a, a.1 ≠ name → my_account w'.1 k a = my_account w.1 k a ∧
     ∀ pv ob, my_membership name pv ob = false →
       my_granted w'.1 k pv ob a ↔ my_granted w.1 k pv ob a) ∧
  w'.2 = w.2.
Proof.
  intros Ht Hs Hp Ha.
  destruct (reconciliation_for_others name w w') as [H2 [Hr Hm]]; [by exists nn, t, o|done].
Qed.

(** C8: A user that is ready stays ready on all its servers while users of other
    names are reconciled, created, changed or deleted, any number of times and
    with any outcomes, as long as none of its privileges is a membership in the
    roles of these users. *)
Theorem ready_user_undisturbed spec u password l s0 w w' :
  rtc (of_another spec u l) w w' → str_free nul u = true →
  ready_db spec u password l s0 w.1 → ready_db spec u password l s0 w'.1.
Proof.
  intros Hw Hu. induction Hw as [w|w w1 w' (v & Hne & Hv & Hl & Hr) _ IH]; [done|]. intros H.
  apply IH. destruct (reconciliation_for_others _ _ _ Hr) as [_ Ho].
  exact (ready_db_others _ _ _ _ _ _ _ _ Hu Hv Hne Ho Hl H).
Qed.

(** C11: A MySQL user can become ready only once.  While the account of the user
    exists on the server of one of its MySQL databases, no reconciliation sets a
    ready status: the one that made the account was the last that could. *)
Theorem mysql_account_blocks_ready nn t o ref dc (c : MySQLConfig) w w' u' x :
  runs (OperatorReconcile nn) t o → served db_step w t w' → Forall plain_reads t →
  Forall (reads_db ref dc) t → DatabaseSpec_Type (Database_Spec dc) = MySQL →
  DatabaseSpec_MySQL (Database_Spec dc) = Some c →
  ev (UpdateUserStatus u') x ∈ t → ref ∈ User_Databases u' →
  (∀ k, my_server_conn c k → is_Some (my_account w.1 k (User_Name u', users_host c))) →
  User_Ready u' = false.
Proof.
  intros Ht Hs Hp Hdb Hty Hc (t1 & t2 & E)%list_elem_of_split Href Hex.
  destruct (User_Ready u') eqn:Hready; [|done]. exfalso. subst t.
  apply served_app_inv in Hs as (w1 & H1 & _).
  apply Forall_app in Hp as [Hp _]. apply Forall_app in Hdb as [Hdb _].
  destruct (ready_run _ _ _ _ _ _ _ _ _ Ht eq_refl Hready Hp H1) as [Hr _].
  rewrite Forall_forall in Hr. destruct (Hr _ Href) as (dc' & ps & pw & tp & Hseg & _ & _ & _ & Hd).
  rewrite Forall_forall in Hdb. assert (dc' = dc) as ->.
  { apply (Hdb (ev (GetDatabase (mkTypesNN "" (DatabaseRef_Name ref))) (dc', None))); [|done..].
    eapply segment_elem_of; [exact Hseg|]. by left. }
  destruct Hd as [c' cfg k Hty' | c' k _ Hc' Hk Hn]; [by rewrite Hty in Hty'|].
  rewrite Hc in Hc'. injection Hc' as <-. destruct (Hex k Hk) as [pw' E']. congruence.
Qed.

(** C10: A deletion is not repeated in MySQL.  When the account of a deleted user is
    missing on the server of one of its MySQL databases, a reconciliation does
    not update the user object, so that the finalizer stays: an attempt that
    dropped the account and failed later leaves a user that is never released. *)
Theorem mysql_missing_account_blocks_release nn u t o ref dc (c : MySQLConfig) w w' :
  runs (OperatorReconcile nn) (ev (GetUser nn) (u, None) :: t) o →
  served db_step w (ev (GetUser nn) (u, None) :: t) w' → Forall plain_reads t →
  deleting u → ref ∈ User_Databases u →
  Forall (reads_db ref dc) t → DatabaseSpec_Type (Database_Spec dc) = MySQL →
  DatabaseSpec_MySQL (Database_Spec dc) = Some c →
  (∀ k, my_server_conn c k → my_account w.1 k (User_Name u, users_host c) = None) →
  ∀ u' x, ev (UpdateUser u') x ∉ t.
Proof.
  intros Ht Hs Hp Hdel Href Hdb Hty Hc Hex u' x (t1 & t2 & ->)%list_elem_of_split.
  destruct (Reconcile_update _ _ _ _ u' x (ev (GetUser nn) (u, None) :: t1) t2 Ht eq_refl) as [u0 [(tl & _ & _ & E & _ & Hl)|(Hnd & _ & E)]];
    [|by apply (f_equal (λ h, h ≫= user_read)) in E; simplify_eq/=].
  assert (u0 = u) as -> by (apply (f_equal (λ l, head l ≫= user_read)) in E; by simplify_eq/=).
  rewrite app_comm_cons in Hs. apply served_app_inv in Hs as (w1 & H1 & _). rewrite E in H1.
  assert (Forall plain_reads (ev (GetUser nn) (u, None) :: t1)) as Hp1
    by (constructor; [done|by apply Forall_app in Hp as [? _]]).
  assert (Forall (reads_db ref dc) (ev (GetUser nn) (u, None) :: t1)) as Hdb1
    by (constructor; [done|by apply Forall_app in Hdb as [? _]]).
  rewrite E in Hp1, Hdb1. destruct (released_loop nn u tl w w1 Hl Hp1 H1) as [Hr _].
  rewrite Forall_forall in Hr. destruct (Hr _ Href) as (dc' & Hread & Hd).
  rewrite Forall_forall in Hdb1. assert (dc' = dc) as -> by (by apply (Hdb1 _ Hread)).
  destruct Hd as [c' k Hty' | c' k _ Hc' Hk [r Hn]]; [by rewrite Hty in Hty'|].
  rewrite Hc in Hc'. injection Hc' as <-. rewrite (Hex k Hk) in Hn. done.
Qed.
End Theorems.

(** ** The hypotheses hold of concrete runs *)

Definition reads_dbb (ref : DatabaseRef) (dc : Database) (e : event) : bool :=
  match e with
  | existT r x =>
      match r return resp r → bool with
      | GetDatabase nn => λ x,
          negb (bool_decide (nn = mkTypesNN "" (DatabaseRef_Name ref))) || bool_decide (x.1 = dc)
      | _ => λ _, true
      end x
  end.

Lemma reads_dbb_spec ref dc t : forallb (reads_dbb ref dc) t = true → Forall (reads_db ref dc) t.
Proof.
  induction t as [|[r x] t IH]; simpl; [constructor|]. intros [Hx Ht]%andb_true_iff.
  constructor; [|auto]. destruct r; try exact I; simpl in *. intros -> _.
  rewrite bool_decide_eq_true_2 in Hx by done. by apply bool_decide_eq_true in Hx.
Qed.

Definition my_dsn : string := world_dsn (mysql_url (MysqlNewConfig "test-mysql" 3306 "test-user" "my-secret" "app" "")).

(** john is deleted while jane has MySQL accounts with privileges, and a role with
    a membership in the role of john. *)
Definition jane_privileges : list PrivilegeSpec :=
  [mkPrivilegeSpec "SELECT" "table" "app"; mkPrivilegeSpec "rolename" "" ""].
Definition demo_member : DemoServer :=
  set_grant (set_role demo_both (qualified "jane") (Some (Some "secret")))
    ("pgx", "") (privilege_tokens "john") [] (qualified "jane") true.
Definition demo_jane : DemoServer :=
  foldl (λ s pr, set_my_grant s ("mysql", my_dsn) (Privilege pr) (object_of pr) ("jane", any_host) true)
    (set_account (set_account demo_member ("jane", "*") (Some "secret")) ("jane", any_host) (Some "secret"))
    jane_privileges.
Definition run_john : list event := trace (OperatorReconcile john) (demo_world demo_jane deleted_user).
Definition after_john : db_state DemoServer := demo_final (demo_state demo_jane) run_john.

Lemma run_john_runs : runs (OperatorReconcile john) run_john (Returned (Result_zero, None)).
Proof. apply (exec_runs _ (demo_world demo_jane deleted_user)). by vm_compute. Qed.
Lemma run_john_served : served db_step (demo_state demo_jane) run_john after_john.
Proof. apply demo_final_served. by vm_compute. Qed.

Lemma reconciliation_isolated_witness :
  my_account after_john.1 ("mysql", "") ("jane", "*") = Some "secret" ∧ after_john.2 = ∅.
Proof.
  destruct (reconciliation_isolated "john" john run_john (Returned (Result_zero, None))
    (demo_state demo_jane) after_john) as (_ & H & H2).
  - exact run_john_runs.
  - exact run_john_served.
  - apply plain_readsb_spec. by vm_compute.
  - apply about_userb_spec. by vm_compute.
  - split; [|exact H2]. destruct (H ("mysql", "") ("jane", "*")) as [-> _]; [done|reflexivity].
Defined.

Lemma ready_user_undisturbed_witness :
  ready_db (Database_Spec my_database) "jane" "secret" jane_privileges demo_both after_john.1.
Proof.
  apply (ready_user_undisturbed (Database_Spec my_database) "jane" "secret" jane_privileges demo_both
    (demo_state demo_jane) after_john).
  - apply rtc_once. exists "john". split; [done|]. split; [reflexivity|]. split; [by repeat constructor|].
    exists john, run_john, (Returned (Result_zero, None)). split_and!.
    + exact run_john_runs.
    + exact run_john_served.
    + apply plain_readsb_spec. by vm_compute.
    + apply about_userb_spec. by vm_compute.
  - reflexivity.
  - apply ready_my with my_spec ("mysql", my_dsn); try reflexivity.
    + exists (MysqlNewConfig "test-mysql" 3306 "test-user" "my-secret" "app" "").
      split; [by exists "my-secret"|by exists my_dsn].
    + by repeat constructor; vm_compute.
    + intros _. exists "secret". by vm_compute.
Defined.

(** A membership in the role of john does not outlive john: jane loses it when he
    is deleted, and stays ready until she is reconciled again. *)
Example membership_revoked :
  reconciliation "john" (demo_state demo_jane) after_john ∧
  srv_granted demo_jane ("pgx", "") (privilege_tokens "john") [] (qualified "jane") ∧
  ¬ srv_granted after_john.1 ("pgx", "") (privilege_tokens "john") [] (qualified "jane").
Proof.
  split; [|by vm_compute]. exists john, run_john, (Returned (Result_zero, None)). split_and!.
  - exact run_john_runs.
  - exact run_john_served.
  - apply plain_readsb_spec. by vm_compute.
  - apply about_userb_spec. by vm_compute.
Qed.

(** The account of john is there already. *)
Definition run_blocked : list event := trace (OperatorReconcile john) (demo_world demo_both (live_on "my")).
Definition user_blocked : User :=
  set_User_Status (sample_user [userFinalizer] None false ["my"])
    (mkUserStatus (mkStatusSummary false (Error my_failed))).

Lemma mysql_account_blocks_ready_witness : User_Ready user_blocked = false.
Proof.
  apply (mysql_account_blocks_ready john run_blocked (Returned (Result_zero, None)) (ref "my") my_database
    my_spec (demo_state demo_both) (demo_final (demo_state demo_both) run_blocked) user_blocked
    (user_blocked, None)).
  - apply (exec_runs _ (demo_world demo_both (live_on "my"))). by vm_compute.
  - apply demo_final_served. by vm_compute.
  - apply plain_readsb_spec. by vm_compute.
  - apply reads_dbb_spec. by vm_compute.
  - reflexivity.
  - reflexivity.
  - apply (list_elem_of_lookup_2 _ (length run_blocked - 1)). by vm_compute.
  - by left.
  - intros k (cfg & _ & Hk). exists "old". by rewrite (my_account_my _ _ _ (mysql_conn_is _ _ Hk)).
Defined.

(** The account of john is gone already. *)
Definition deleted_my : User := sample_user [userFinalizer] (Some "now") true ["my"].
Definition run_stuck : list event := trace (OperatorReconcile john) (demo_world demo_empty deleted_my).

Lemma mysql_missing_account_blocks_release_witness :
  let released := RemoveFinalizer deleted_my userFinalizer in
  ev (UpdateUser released) (released, None) ∉ tail run_stuck.
Proof.
  intros released. apply (mysql_missing_account_blocks_release john deleted_my (tail run_stuck)
    (Returned (Result_zero, Some my_failed)) (ref "my") my_database my_spec (demo_state demo_empty)
    (demo_final (demo_state demo_empty) run_stuck)).
  - apply (exec_runs_head _ (demo_world demo_empty deleted_my)); by vm_compute.
  - apply demo_final_served. by vm_compute.
  - apply plain_readsb_spec. by vm_compute.
  - by exists "now".
  - by left.
  - apply reads_dbb_spec. by vm_compute.
  - reflexivity.
  - reflexivity.
  - intros k (cfg & _ & Hk). by rewrite (my_account_my _ _ _ (mysql_conn_is _ _ Hk)).
Defined.
