(* ===== verification/ManyUsers.v ===== *)
(** * Many users at once

    The users that one operator reconciles, each with its object in the cluster,
    its run and its open connections, on the same servers; the requests of
    different users come in any order.  What a user relies on in [Orphans] is
    what the steps of the others guarantee. *)

From stdpp Require Import functions.
From S2P Require Import Prelude GoStrings SqlLexer GoError Api Effects Logic StateLogic Utils.
From S2P Require Import Connection PgUtils PgConfig Postgresql Mysql MysqlSql Database.
From S2P Require Import Server ServerDb ServerObjects ServerRuns ServerOutcome ServerGuard.
From S2P Require Import Controller Ledger Lifecycle Orphans.

(** [User] is a cluster-scoped resource. *)
Definition user_nn (n : string) : types_NamespacedName := mkTypesNN "" n.

Section Many.
Context {St : Type} {DR : Drivers St} {SO : Server St} {SL : ServerLaws St} {SP : ServerPlaces St}.
Context {U : Controllerutil} {UL : ControllerutilLaws U}.
Variable dbs : string → DatabaseSpec.
(** The names of users. *)
Variable managed : string → Prop.
Hypothesis managed_free : ∀ n, managed n → str_free nul n = true.

(** A user in the cluster with the connections its run has opened; connections
    are never shared. *)
Definition user_state : Type := sys * gmap nat conn.

Record many := mkMany { m_users : string → user_state; m_servers : St }.
Implicit Types (m : many).

(** The system that one user sees. *)
Definition seen_by (n : string) m : sys * db_state St :=
  ((m_users m n).1, (m_servers m, (m_users m n).2)).

(** A step of one user, or of anyone else who leaves the managed users alone. *)
Inductive mstep m : many → Prop :=
| m_user n S w :
    managed n → jstep dbs (user_nn n) (seen_by n m) (S, w) →
    mstep m (mkMany (<[n := (S, w.2)]> (m_users m)) w.1)
| m_servers_change s :
    (∀ n, managed n → user_same n (m_servers m) s) → mstep m (mkMany (m_users m) s).

(** It begins with servers that have nothing of the users. *)
Definition m_init (s : St) : many := mkMany (λ _, (init, ∅)) s.

Definition m_reachable m : Prop :=
  ∃ s, (∀ n, managed n → nothing_of (user_nn n) s) ∧ rtc mstep (m_init s) m.

(** Every user has the invariant of its own system. *)
Definition minv m : Prop := ∀ n, managed n → jinv dbs (user_nn n) (seen_by n m).

Lemma minv_step m m' : minv m → mstep m m' → minv m'.
Proof.
  intros HI Hstep n Hn. destruct Hstep as [v S w Hv Hstep|s Hs].
  - pose proof (jinv_step _ _ _ _ (HI v Hv) Hstep) as HI'. unfold seen_by. simpl.
    destruct (decide (n = v)) as [->|Hne].
    { rewrite fn_lookup_insert. simpl. by destruct w. }
    rewrite fn_lookup_insert_ne by done.
    apply (jinv_rely dbs (user_nn n) _ (seen_by n m).2); [|done|exact (HI n Hn)].
    apply (others_kept_same n v); [by apply managed_free..|done|].
    exact (jstep_others _ _ _ _ (HI v Hv) Hstep).
  - apply (jinv_rely dbs (user_nn n) _ (seen_by n m).2); [by apply Hs|done|exact (HI n Hn)].
Qed.

Lemma minv_reachable m : m_reachable m → minv m.
Proof.
  intros (s & Hs & Hm). assert (∀ m1 m2, rtc mstep m1 m2 → minv m1 → minv m2) as Hi.
  - induction 1 as [|m1 m2 m3 Hstep _ IH]; [done|]. intros HI. by eapply IH, minv_step.
  - apply (Hi _ _ Hm). intros n Hn. by apply jinv_init, Hs.
Qed.

(** Steps of the system that one user sees are steps of all. *)
Lemma user_steps n m x :
  managed n → rtc (jstep dbs (user_nn n)) (seen_by n m) x →
  ∃ m', rtc mstep m m' ∧ seen_by n m' = x.
Proof.
  intros Hn Hx. remember (seen_by n m) as y eqn:Ey. revert m Ey.
  induction Hx as [y|y [S w] z Hstep _ IH]; intros m ->; [by exists m|].
  set (m1 := mkMany (<[n := (S, w.2)]> (m_users m)) w.1).
  assert (seen_by n m1 = (S, w)) as E1.
  { unfold seen_by, m1. simpl. rewrite fn_lookup_insert. by destruct w. }
  destruct (IH m1 (eq_sym E1)) as (m' & Hm & E). exists m'. split; [|done].
  eapply rtc_l; [by apply m_user|done].
Qed.

(** What is reached from a reachable state is reachable. *)
Lemma m_reachable_rtc m m' : m_reachable m → rtc mstep m m' → m_reachable m'.
Proof. intros (s & Hs & Hm) H. exists s. split; [done|]. by etransitivity. Qed.
(** Each user is in a reachable state of [Lifecycle]. *)
Lemma user_reachable m n : m_reachable m → managed n → reachable NewDatabase (user_nn n) (m_users m n).1.
Proof.
  intros (s & _ & Hm) Hn.
  assert (∀ m1 m2, rtc mstep m1 m2 → rtc (step NewDatabase (user_nn n)) (m_users m1 n).1 (m_users m2 n).1) as H;
    [|exact (H _ _ Hm)].
  induction 1 as [|m1 m2 m3 Hstep _ IH]; [done|]. etransitivity; [|exact IH].
  destruct Hstep as [v S w _ Hj|s' _]; [|done]. simpl. destruct (decide (n = v)) as [->|Hne].
  - rewrite fn_lookup_insert. apply rtc_once. exact (jstep_cluster _ _ _ _ Hj).
  - by rewrite fn_lookup_insert_ne.
Qed.
End Many.
