(* ===== verification/OrphansProps.v ===== *)
(** * Nothing of a user is left on a server unnoticed

    The invariant of [ManyUsers] in terms of the servers, and a run of two users
    on the sample cluster and servers on which it can be seen. *)

From stdpp Require Import functions.
From S2P Require Import Prelude GoStrings SqlLexer GoError Api Effects Connection PgUtils PgConfig.
From S2P Require Import Postgresql Mysql MysqlSql Database Server.
From S2P Require Import ServerDb ServerPg ServerMysql ServerObjects ServerRuns ServerGuard Orphans.
From S2P Require Import Controller Ledger World Samples Lifecycle LifecycleProps ServerDemo ManyUsers.

(** C1: Nothing of a user is left on a server that its object does not remember.
    The operator reconciles any number of users on the same servers, beginning
    without any of them, and the requests of different users come in any order.
    In every reachable state: wherever a role of a user exists on a PostgreSQL
    server, or an account of it at some host on a MySQL server, the [User] object
    is stored, carries the finalizer and refers to a database of that server
    (and of that host name).  Statements may fail, with or without effect; the
    operator may be stopped between any two requests; the cache may lag behind;
    other clients change the objects without taking out references, and change
    what belongs to none of the users on the servers. *)
Theorem no_orphaned_roles {St : Type} {DR : Drivers St} {SO : Server St} {SL : ServerLaws St}
    {SP : ServerPlaces St} {U : Controllerutil} {UL : ControllerutilLaws U}
    (dbs : string → DatabaseSpec) (managed : string → Prop) (m : many) (n : string) :
  (∀ v, managed v → str_free nul v = true) → m_reachable dbs managed m → managed n →
  (∀ k, is_pgx k → is_Some (srv_role (m_servers m) k (qualified n)) →
     ∃ u db k', s_obj (m_users m n).1 = Some u ∧ has_finalizer u ∧ db ∈ databases u ∧
       pg_at dbs db k' ∧ place_of k' = place_of k) ∧
  (∀ k host, is_mysql k → is_Some (my_account (m_servers m) k (n, host)) →
     ∃ u db k', s_obj (m_users m n).1 = Some u ∧ has_finalizer u ∧ db ∈ databases u ∧
       my_at dbs db host k' ∧ place_of k' = place_of k).
Proof.
  intros Hfree Hm Hn.
  exact (jinv_remembered dbs (user_nn n) _ _ (minv_reachable dbs managed Hfree m Hm n Hn)).
Qed.

(** ** A run of two users *)

(** The sample servers: the one behind PostgreSQL connections and the one behind
    MySQL connections. *)
#[export] Program Instance demo_Places : ServerPlaces DemoServer := {
  place := bool;
  place_of k := bool_decide (k.1 = "mysql")
}.
Next Obligation. unfold is_pgx, is_mysql. intros c c' E H1 H2. by rewrite H1, H2 in E. Qed.
Next Obligation. intros s c c' nm E. simpl. by rewrite E. Qed.
Next Obligation. intros s c c' a E. simpl. by rewrite E. Qed.
Next Obligation.
  intros s c q args r s' c'. simpl. unfold demo_exec, demo_pg, demo_my. intros Hx Hne.
  repeat case_bool_decide; try done; repeat case_match; by simplify_eq.
Qed.
Next Obligation. by intros c k k' (? & ? & -> & _) (? & ? & -> & _). Qed.
Next Obligation. by intros c k k' (? & _ & ? & -> & _) (? & _ & ? & -> & _). Qed.

(** Which [Database] an object is read from can be evaluated. *)
Definition spec_readsb (dbs : string → DatabaseSpec) (e : event) : bool :=
  match e with
  | existT r x =>
      match r return resp r → bool with
      | GetDatabase nn => λ x,
          match x.2 with None => bool_decide (Database_Spec x.1 = dbs (Nn_Name nn)) | Some _ => true end
      | _ => λ _, true
      end x
  end.

Lemma plain_readsb_event e : plain_readsb e = true → plain_reads e.
Proof. destruct e as [r x]. destruct r; try (intros _; exact I). by intros Hx _. Qed.

Lemma spec_readsb_event dbs e : spec_readsb dbs e = true → spec_reads dbs e.
Proof.
  destruct e as [r x]. destruct r; try (intros _; exact I). simpl. intros H E. rewrite E in H.
  by apply bool_decide_eq_true in H.
Qed.

Definition sample_dbs (db : string) : DatabaseSpec :=
  if bool_decide (db = "my") then Database_Spec my_database else Database_Spec (pg_database SSLModeVERIFYFULL).

(** The users with all that is around them. *)
Record whole := mkWhole { wh_many : many (St := DemoServer); wh_world : World }.
Implicit Types (a b : whole) (n : string).

Definition set_user (m : many (St := DemoServer)) n (S : sys) (h : gmap nat conn) (s : DemoServer) : many :=
  mkMany (<[n := (S, h)]> (m_users m)) s.

(** One request of a user, the start or the end of a reconciliation. *)
Definition micro dbs n a : option whole :=
  let m := wh_many a in
  let S := (m_users m n).1 in
  let h := (m_users m n).2 in
  match s_run S with
  | None =>
      let p := Reconcile NewDatabase (user_nn n) in
      Some (mkWhole (set_user m n (with_run S (s_ledger S) (Some ([], p))) h (m_servers m)) (wh_world a))
  | Some (_, Ret _) | Some (_, Panic _) =>
      Some (mkWhole (set_user m n (with_run S (s_ledger S) None) h (m_servers m)) (wh_world a))
  | Some (t, Call r k) =>
      let '(x, S', w') := answer 0 (user_nn n) r S (wh_world a) in
      if plain_readsb (ev r x) && spec_readsb dbs (ev r x) then
        v ← demo_step (m_servers m, h) (ev r x);
        Some (mkWhole (set_user m n
          (with_run S' (ledger_event n (s_ledger S) (ev r x)) (Some (t ++ [ev r x], k x))) v.2 v.1) w')
      else None
  end.

(** The steps of the users in the order of a schedule. *)
Definition schedule dbs (l : list string) a : option whole := foldl (λ o n, o ≫= micro dbs n) (Some a) l.

Definition family (n : string) : Prop := n ∈ ["john"; "jane"].

Lemma family_free n : family n → str_free nul n = true.
Proof. by intros [->|[->|[]%elem_of_nil]%elem_of_cons]%elem_of_cons. Qed.

Lemma micro_mstep dbs n a b : family n → micro dbs n a = Some b → mstep dbs family (wh_many a) (wh_many b).
Proof.
  intros Hn. unfold micro. remember (m_users (wh_many a) n) as v eqn:E. destruct v as [S h].
  assert (∀ S1 v, jstep dbs (user_nn n) (S, (m_servers (wh_many a), h)) (S1, v) →
    mstep dbs family (wh_many a) (set_user (wh_many a) n S1 v.2 v.1)) as Hstep.
  { intros S1 v Hj. apply m_user; [done|]. unfold seen_by. by rewrite <- E. }
  cbn [fst snd].
  destruct (s_run S) as [[t [o|e|r k]]|] eqn:Hr.
  - intros [= <-]. apply (Hstep _ (_, _)), j_cluster; [by eapply op_stop|by right; right].
  - intros [= <-]. apply (Hstep _ (_, _)), j_cluster; [by eapply op_stop|by right; right].
  - pose proof (answer_api 0 (user_nn n) r S (wh_world a)) as Ha.
    destruct (answer 0 (user_nn n) r S (wh_world a)) as [[x S'] w'].
    destruct (plain_readsb _ && _) eqn:Ec; [|done]. apply andb_true_iff in Ec as [E1 E2].
    destruct (demo_step _ (ev r x)) as [v|] eqn:Ev; [|done]. intros [= <-]. apply Hstep.
    eapply (j_request _ (user_nn n)); [exact Hr|exact Ha|by apply demo_step_sound| |].
    + by apply plain_readsb_event.
    + by apply spec_readsb_event.
  - intros [= <-]. apply (Hstep _ (_, _)), j_cluster; [by apply op_start|by right; left].
Qed.

Lemma schedule_msteps dbs l a b :
  Forall family l → schedule dbs l a = Some b → rtc (mstep dbs family) (wh_many a) (wh_many b).
Proof.
  intros Hl. revert a. unfold schedule. induction Hl as [|n l Hn _ IH]; intros a; simpl; [by intros [= ->]|].
  destruct (micro dbs n a) as [a1|] eqn:E.
  - intros Hb. eapply rtc_l; [by eapply micro_mstep|by apply IH].
  - assert (foldl (λ o n, o ≫= micro dbs n) None l = None) as ->; [|done]. clear. by induction l.
Qed.

(** Two users are created. *)
Definition created (refs : list string) (n : string) : user_state :=
  (store init (mkUser (mkObjectMeta n "" "0" [] None) (mkUserSpec (ref <$> refs)) (User_Status new_user)), ∅).
Definition both_created (refs : list string) : whole :=
  mkWhole (mkMany (<["jane" := created refs "jane"]> (<["john" := created refs "john"]> (λ _, (init, ∅)))) demo_empty)
    (demo_world demo_empty new_user).
Definition two_created : whole := both_created ["pg"; "my"].

Lemma created_jstep dbs refs n s :
  jstep dbs (user_nn n) (init, (s, ∅)) ((created refs n).1, (s, ∅)).
Proof.
  apply j_cluster; [|by left].
  by apply env_create; [|apply not_elem_of_nil|intros Hf%elem_of_nil|].
Qed.

Lemma both_created_reachable dbs refs : m_reachable dbs family (wh_many (both_created refs)).
Proof.
  exists demo_empty. split; [by intros n _; split; intros; simpl; case_match|].
  eapply rtc_l; [|apply rtc_once].
  - apply (m_user _ _ (m_init demo_empty) "john" (created refs "john").1 (demo_empty, ∅)); [by left|].
    apply created_jstep.
  - apply (m_user _ _ (mkMany _ _) "jane" (created refs "jane").1 (demo_empty, ∅)); [by right; left|].
    unfold seen_by. simpl. apply created_jstep.
Qed.

(** Their reconciliations, request by request in turn. *)
Definition in_turn (k : nat) : list string := concat (replicate k ["john"; "jane"]).
Definition go (k : nat) a : whole := default a (schedule sample_dbs (in_turn k) a).
Definition two_served : whole := go 70 two_created.

(** John is deleted, and they go on. *)
Definition delete_john a : whole :=
  let m := wh_many a in
  mkWhole (mkMany (<["john" := (ask_deletion (m_users m "john").1, (m_users m "john").2)]> (m_users m))
    (m_servers m)) (wh_world a).
Definition john_gone : whole := go 150 (delete_john (go 10 two_served)).

(** The finalizers, the length of the run in progress, the role, the account. *)
Definition view_of (n : string) a :
    option (list string) * option nat * option (option string) * option string :=
  let m := wh_many a in
  (Finalizers <$> s_obj (m_users m n).1, length ∘ fst <$> s_run (m_users m n).1,
   srv_role (m_servers m) ("pgx", "") (qualified n), my_account (m_servers m) ("mysql", "") (n, "*")).

Example family_views :
  let pw := Some "mysupersecretpass" in
  (view_of "john" two_created, view_of "jane" two_created)
    = ((Some [], None, None, None), (Some [], None, None, None)) ∧
  (view_of "john" two_served, view_of "jane" two_served)
    = ((Some [userFinalizer], Some 69, Some pw, pw), (Some [userFinalizer], Some 27, Some pw, None)) ∧
  (view_of "john" john_gone).1.1.1 = None ∧
  ((view_of "john" john_gone).1.2, (view_of "john" john_gone).2) = (None, None) ∧
  ((view_of "jane" john_gone).1.2, (view_of "jane" john_gone).2) = (Some pw, pw).
Proof. by vm_compute. Qed.

Lemma in_turn_family k : Forall family (in_turn k).
Proof.
  apply Forall_concat, Forall_replicate.
  constructor; [by left|]. constructor; [by right; left|constructor].
Qed.

Lemma default_some {A} (x : A) o : (if o is Some _ then true else false) = true → o = Some (default x o).
Proof. by destruct o. Qed.

Lemma two_served_reachable : m_reachable sample_dbs family (wh_many two_served).
Proof.
  destruct (both_created_reachable sample_dbs ["pg"; "my"]) as (s & Hs & Hm). exists s. split; [done|]. etransitivity; [exact Hm|].
  apply (schedule_msteps sample_dbs (in_turn 70)); [apply in_turn_family|].
  apply default_some. vm_compute. reflexivity.
Qed.

(** Both servers have something of john, whose run is still in progress. *)
Lemma no_orphaned_roles_witness :
  let S := (m_users (wh_many two_served) "john").1 in
  (∃ u db k', s_obj S = Some u ∧ has_finalizer u ∧ db ∈ databases u ∧
     pg_at sample_dbs db k' ∧ place_of k' = place_of ("pgx", "")) ∧
  (∃ u db k', s_obj S = Some u ∧ has_finalizer u ∧ db ∈ databases u ∧
     my_at sample_dbs db "*" k' ∧ place_of k' = place_of ("mysql", "")).
Proof.
  intros S. destruct (no_orphaned_roles sample_dbs family (wh_many two_served) "john"
    family_free two_served_reachable) as [Hpg Hmy]; [by left|].
  split.
  - apply (Hpg ("pgx", "")); [reflexivity|]. exists (Some "mysupersecretpass"). by vm_compute.
  - apply (Hmy ("mysql", "")); [reflexivity|]. exists "mysupersecretpass". by vm_compute.
Defined.
