(* ===== verification/ServerConvergence.v ===== *)
(** * A deletion that is completed reaches the servers

    The attempts of [Convergence] in the system of [ManyUsers]: when a deletion
    is completed, no server has anything of the user, whatever earlier attempts
    left there and whatever the other users are doing; and when the servers
    answer, it can be completed. *)

From S2P Require Import Prelude GoStrings SqlLexer GoError Api Effects Logic StateLogic Connection.
From S2P Require Import PgUtils PgConfig Postgresql Mysql MysqlSql Database.
From S2P Require Import Server ServerDb ServerPg ServerMysql ServerObjects ServerRuns ServerOutcome.
From S2P Require Import ServerGuard Orphans.
From S2P Require Import Controller ControllerFacts ControllerTraces Ledger World Samples Healthy.
From S2P Require Import Lifecycle LifecycleProps HealthyProps Convergence ServerDemo ManyUsers OrphansProps.

Section Released.
Context {St : Type} {DR : Drivers St} {SO : Server St} {SL : ServerLaws St} {SP : ServerPlaces St}.
Context {U : Controllerutil} {UL : ControllerutilLaws U}.
Variable dbs : string → DatabaseSpec.
Variable managed : string → Prop.
Hypothesis managed_free : ∀ n, managed n → str_free nul n = true.
Implicit Types (m : many (St := St)) (n : string).

(** What a run reads is as in [Orphans]. *)
Definition reads_ok (e : event) : Prop := plain_reads e ∧ spec_reads dbs e.

(** A whole run whose requests the cluster and the servers answer in turn. *)
Lemma joint_steps nn p h t o S S' l w w' :
  runs p t o → served (api nn) S t S' → served db_step w t w' → Forall reads_ok t →
  rtc (jstep dbs nn) (with_run S l (Some (h, p)), w)
    (with_run S' (ledger_after (Nn_Name nn) l t) None, w').
Proof.
  revert h t S l w. induction p as [a|e|r k IH]; simpl; intros h t S l w Hr Hs Hw Ht.
  1, 2: destruct Hr as [-> _]; inversion Hs; inversion Hw; subst; apply rtc_once, j_cluster;
    [by eapply (op_stop NewDatabase nn (with_run _ _ _))|by right; right].
  destruct Hr as (x & t' & -> & Hr). apply Forall_cons in Ht as [[Hp Hq] Ht].
  inversion Hs as [|? ? S1 ? ? Ha Hs']; inversion Hw as [|? ? w1 ? ? Hw1 Hw']; subst.
  eapply rtc_l; [|by apply (IH x (h ++ [ev r x]) t' S1 _ w1)].
  by apply (j_request _ nn (with_run S l (Some (h, Call r k))) (with_run S1 l (Some (h, Call r k))));
    [|apply api_with_run| | |].
Qed.

Lemma attempt_steps n m c t S' w' :
  managed n → s_run (m_users m n).1 = None →
  undisturbed (user_nn n) c (m_users m n).1 t S' →
  served db_step (seen_by n m).2 t w' → Forall reads_ok t →
  ∃ m', rtc (mstep dbs managed) m m' ∧
    seen_by n m' = (with_run S' (ledger_after n (s_ledger (m_users m n).1) t) None, w').
Proof.
  intros Hn Hr (u & t' & o & _ & -> & [_ Ht] & Hc) Hw Hq. apply user_steps; [done|].
  eapply rtc_l; [apply j_cluster; [by apply op_start|by right; left]|].
  by eapply (joint_steps (user_nn n)).
Qed.

(** C15: A deletion that is completed reaches the servers.  Take any reachable
    state of all users, whatever crashed or failed attempts left, in which a
    user is being deleted and none of its attempts is in progress.  When what it
    refers to exists and is valid, an attempt that nobody disturbs at its object
    and whose requests are answered without errors (PostgreSQL may say that a
    role, a privilege or the user is gone already) ends with the finalizer gone
    and with no role and no account of the user, at any host, on any server. *)
Theorem deletion_reaches_servers c m n u t S' w' :
  m_reachable dbs managed m → managed n → s_run (m_users m n).1 = None →
  s_obj (m_users m n).1 = Some u → deleting u → has_finalizer u → user_ok c u = true →
  undisturbed (user_nn n) c (m_users m n).1 t S' →
  served db_step (seen_by n m).2 t w' → Forall reads_ok t →
  (∀ v, s_obj S' = Some v → ¬ has_finalizer v) ∧
  (∀ k, is_pgx k → srv_role w'.1 k (qualified n) = None) ∧
  (∀ k host, is_mysql k → my_account w'.1 k (n, host) = None).
Proof.
  intros Hm Hn Hr Hu Hd Hf Hok Ha Hw Hq.
  assert (∀ v, s_obj S' = Some v → ¬ has_finalizer v) as Hv by exact (undisturbed_deleted _ c _ t S' u Hu Hd Hf Hok Ha).
  destruct (attempt_steps n m c t S' w' Hn Hr Ha Hw Hq) as (m' & Hs & E).
  pose proof (minv_reachable dbs managed managed_free m' (m_reachable_rtc _ _ _ _ Hm Hs) n Hn) as HI.
  rewrite E in HI. destruct (jinv_remembered _ _ _ _ HI) as [Hpg Hmy]. simpl in Hpg, Hmy.
  split; [done|]. split.
  - intros k Hk. apply eq_None_not_Some. intros H. destruct (Hpg k Hk H) as (v & ? & ? & ? & Hvf & _). by eapply Hv.
  - intros k h Hk. apply eq_None_not_Some. intros H. destruct (Hmy k h Hk H) as (v & ? & ? & ? & Hvf & _). by eapply Hv.
Qed.

(** ** A live user *)

(** C17: A live user becomes ready on its servers.  From every state of the cluster
    and the servers in which a user is stored that is not being deleted: when what
    it refers to exists and is valid ([user_ok]), an attempt that nobody disturbs
    at its object and whose requests are answered without errors (PostgreSQL may
    say that the role exists already) ends with a stored user that carries the
    finalizer and is ready, and then, for every database reference, the user is as
    the reference asks on its server, also when it was ready before; nothing was
    taken away there, and no connection is left open. *)
Theorem live_reaches_servers nn c S u t S' (w w' : db_state St) :
  s_obj S = Some u → ¬ deleting u → user_ok c u = true →
  undisturbed nn c S t S' → served db_step w t w' → Forall plain_reads t →
  (∃ v, s_obj S' = Some v ∧ has_finalizer v ∧ User_Ready v = true) ∧
  Forall (λ ref, ready_in u ref t w.1 w'.1) (User_Databases u) ∧
  grown w.1 w'.1 ∧ w'.2 = w.2.
Proof.
  intros Hu Hd Hok Ha Hw Hq. split; [exact (undisturbed_live nn c S t S' u Hu Hd Hok Ha)|].
  destruct Ha as (u0 & t' & o & Hu0 & -> & Hr & _). assert (u0 = u) as -> by congruence.
  destruct (healthy_live_shape c nn u t' o Hd Hok Hr) as (_ & pre & u1 & tl & tail & -> & Hp & Hh & Hl & Ht).
  destruct (finalized_healthy c u pre u1 Hh Hp) as (_ & _ & Edb & _).
  assert (User_Name u1 = User_Name u) as En.
  { destruct Hp as [(_ & _ & ->)|(_ & ->)]; [done|]. apply Forall_cons in Hh as [_ [[v [= ->]] _]%Forall_cons].
    exact (f_equal User_Name (AddFinalizer_frame u userFinalizer)). }
  assert (ev (GetUser nn) (u, None) :: (pre ++ tl ++ [log_success]) ++ tail =
    (ev (GetUser nn) (u, None) :: pre) ++ tl ++ (log_success :: tail)) as E by (by rewrite <- !app_assoc).
  rewrite E in *. clear E.
  apply served_app_inv in Hw as (w0 & H0 & Hw). apply served_app_inv in Hw as (w1 & H1 & H2).
  apply served_local in H0 as ->; [|by destruct Hp as [(_ & -> & _)|(_ & ->)]; repeat constructor].
  apply served_local in H2 as ->; [|by destruct Ht as [(_ & ->)|(_ & v & ->)]; repeat constructor].
  apply Forall_app in Hq as [_ [Hq _]%Forall_app].
  destruct (loop_ready u1 _ _ _ Hl H1 Hq) as (E2 & Hg & Hf). rewrite Edb in Hf.
  split_and!; [|done|done]. eapply Forall_impl; [exact Hf|]. intros ref Hrd.
  unfold ready_in in Hrd |- *. rewrite En in Hrd.
  destruct Hrd as (dc & ps & pw & tp & Hs1 & Hlen & Hs2 & Hpw & Hdb). exists dc, ps, pw, tp.
  split_and!; try done; by apply segment_app_l, segment_app_r.
Qed.

(** ** An attempt at a deletion exists *)

Variable c : cluster.
(** The cluster has the specifications, and privileges that PostgreSQL can read. *)
Hypothesis c_specs : ∀ nn d, c_databases c !! nn = Some d → Database_Spec d = dbs (Nn_Name nn).
Hypothesis c_plain : ∀ nn p, c_privileges c !! nn = Some p → forallb plain (Privileges_Privileges p) = true.

(** The servers have an answer to what is sent to delete the user, and it is no
    fault; connection strings can be made. *)
Definition removals_answered n : Prop :=
  (∀ s db k q args, allowed dbs n db k q args → removal q = true →
     ∃ r s', srv_exec (S := St) s k q args r s' ∧ harmless q args r) ∧
  ∀ u, (gen_mysql (S := St) u).2 = None.

Definition deletion_req (r : req) : Prop := removal_req r ∧ loop_req r.

Lemma deletion_loop_only u :
  only deletion_req (range_err (databaseReconciler NewDatabase u true) (User_Databases u)).
Proof.
  apply runs_only. intros t o Ht.
  pose proof (loop_removal NewDatabase _ _ _ _ Ht) as H1. pose proof (loop_events NewDatabase _ _ _ _ _ Ht) as H2.
  clear Ht. induction H1 as [|e t He _ IH]; [constructor|]. apply Forall_cons in H2 as [? ?].
  constructor; [by split|by apply IH].
Qed.

(** A request that leaves the servers alone has a good answer. *)
Lemma local_answer n (w : gstate (S := St)) (r : req) (x : resp r) :
  (∀ w', db_step w.1 (ev r x) w' ↔ w' = w.1) → good_reads dbs n (ev r x) → healthy c (ev r x) →
  ∃ x w', gstep dbs n w (ev r x) w' ∧ healthy c (ev r x).
Proof.
  intros Hw Hg Hh. exists x, (w.1, default w.2 (database_of (ev r x))). split; [|done].
  split_and!; [by apply Hw|done|done].
Qed.

Lemma removal_answer n (w : gstate (S := St)) (r : req) :
  removals_answered n → permitted dbs n w r → deletion_req r →
  ∃ x w', gstep dbs n w (ev r x) w' ∧ healthy c (ev r x).
Proof.
  intros [Hx Hdsn] Hp [Hrem Hloop].
  assert (∀ x : resp r, (∀ w', db_step w.1 (ev r x) w' ↔ w' = w.1) → good_reads dbs n (ev r x) →
    healthy c (ev r x) → ∃ x w', gstep dbs n w (ev r x) w' ∧ healthy c (ev r x)) as Hlocal by apply local_answer.
  destruct (healthy_answer c r) as [x Hh]. pose proof (loop_req_not_user _ Hloop) as Hu.
  destruct r; try (by destruct Hu); try (by apply (Hlocal x)); clear Hlocal.
  - destruct (c_databases c !! nn) as [d|] eqn:E.
    + apply (local_answer n w _ ((d, None) : resp (GetDatabase nn))); [done| |by simpl; rewrite E].
      split_and!; [done|done|]. intros _. by apply c_specs.
    + apply (local_answer n w _ ((database0, Some not_found) : resp (GetDatabase nn))); [done|done|by simpl; rewrite E].
  - destruct (c_privileges c !! nn) as [p|] eqn:E.
    + apply (local_answer n w _ ((p, None) : resp (GetPrivileges nn))); [done| |by simpl; rewrite E].
      split_and!; [|done|done]. intros _. by eapply c_plain.
    + apply (local_answer n w _ ((privileges0, Some not_found) : resp (GetPrivileges nn))); [done|done|by simpl; rewrite E].
  - destruct (exist_fresh (dom w.1.2)) as [h Hn].
    exists ((h, None) : resp (SqlConnect driver connString)), ((w.1.1, <[h := (driver, connString)]> w.1.2), w.2).
    split; [|done]. split_and!; try done. split; [|done]. by apply not_elem_of_dom.
  - exists x, ((w.1.1, delete db w.1.2), w.2). by split.
  - destruct Hp as (k & Hk & Ha). simpl in Hrem.
    destruct (Hx w.1.1 w.2 k query args Ha Hrem) as (a & s' & Hs & Ha').
    exists (a : resp (SqlExec db query args)), ((s', w.1.2), w.2). split; [|done]. split_and!; try done.
    simpl. rewrite Hk. by split.
  - exists (gen_mysql u), w. split; [|apply Hdsn]. by split_and!.
Qed.

Lemma gstep_served n (w w' : gstate (S := St)) t :
  served (gstep dbs n) w t w' → served db_step w.1 t w'.1 ∧ Forall reads_ok t.
Proof.
  induction 1 as [|w e w1 t w2 (Hs & _ & Hp & _ & Hq) _ [IH1 IH2]]; [by repeat constructor|].
  split; [by econstructor|]. constructor; [by split|done].
Qed.

Lemma deletion_loop_exists n (w : db_state St) u :
  removals_answered n → User_Name u = n → user_ok c u = true →
  ∃ tl w', runs (range_err (databaseReconciler NewDatabase u true) (User_Databases u)) tl (Returned None) ∧
    served db_step w tl w' ∧ Forall reads_ok tl ∧ Forall (healthy c) tl.
Proof.
  intros Hx Hn Hok.
  destruct (gwp_run (gstep dbs n) (permitted dbs n) (healthy c) deletion_req _ (w, "") _
    (databases_guarded dbs n true u (w, "") Hn) (deletion_loop_only u))
    as (tl & o & w' & Hl & Hs & Hh); [by intros; apply removal_answer|].
  apply gstep_served in Hs as [Hs Hr]. assert (o = Returned None) as -> by exact (loop_healthy c true u tl o Hok Hh Hl).
  by exists tl, w'.1.
Qed.

(** C16: A deletion can always be completed at the servers.  Under the conditions
    of [deletion_reaches_servers], when moreover the cluster agrees with the
    specifications and the servers answer what is sent to delete the user (with
    or without what it removes being there; this is PostgreSQL's), an attempt as
    that theorem asks for exists from every reachable state of all users. *)
Theorem deletion_attempt_exists m n u :
  m_reachable dbs managed m → managed n → s_obj (m_users m n).1 = Some u →
  deleting u → has_finalizer u → user_ok c u = true → removals_answered n →
  ∃ t S' w', undisturbed (user_nn n) c (m_users m n).1 t S' ∧
    served db_step (seen_by n m).2 t w' ∧ Forall reads_ok t.
Proof.
  intros Hm Hn Hu Hd Hf Hok Hx.
  pose proof (user_reachable _ _ _ _ Hm Hn) as Hr.
  assert (User_Name u = n) as Hname.
  { destruct (inv_safe _ _ _ (inv_reachable NewDatabase _ _ Hr)) as [_ Hall Ho _ _].
    destruct (Ho u Hu) as (Hl & _). apply last_Some_elem_of in Hl. by eapply Forall_forall in Hl; [|exact Hall]. }
  destruct (deletion_loop_exists n (seen_by n m).2 u Hx Hname Hok) as (tl & w' & Hl & Hs & Hq & Hh).
  destruct (deletion_attempt (user_nn n) c _ u tl Hr Hu Hd Hf Hl Hh) as (v & S' & Ha).
  rewrite <- app_comm_cons, <- app_assoc in Ha. eexists _, S', w'. split; [exact Ha|]. split.
  - do 2 (econstructor; [reflexivity|]). eapply served_app; [exact Hs|].
    do 2 (econstructor; [reflexivity|]). constructor.
  - do 2 (apply Forall_cons_2; [done|]). apply Forall_app_2; [done|]. by repeat constructor.
Qed.
End Released.

(** ** The hypotheses hold of a concrete attempt *)

(** [healthy] can be evaluated. *)
Section Decide.
Variable c : cluster.

Definition answersb {A} `{EqDecision A} (a : option A) (x : A * option error) : bool :=
  match a with Some a => bool_decide (x = (a, None)) | None => true end.
Definition no_errorb {A} (x : A * option error) : bool := bool_decide (x.2 = None).
Definition update_acceptedb (u : User) (x : User * option error) : bool :=
  bool_decide (x = (with_rv u (rv x.1), None)).
Definition harmlessb (q : string) (args : list string) (x : option error) : bool :=
  bool_decide (x = None) || bool_decide (args = []) && done_before q x.

Definition healthyb (e : event) : bool :=
  match e with
  | existT r x =>
      match r return resp r → bool with
      | GetDatabase nn => answersb (c_databases c !! nn)
      | GetPrivileges nn => answersb (c_privileges c !! nn)
      | GetSecret nn => answersb (c_secrets c !! nn)
      | UpdateUser u | UpdateUserStatus u => update_acceptedb u
      | SetControllerReference _ _ | SqlConnect _ _ | GenMysql _ | ParsePKCS1PrivateKey _
      | ParseCertificate _ | GenerateKey _ | CreateCertificate _ _ _ _ => no_errorb
      | CreateSecret _ | MkdirAll _ _ | WriteFile _ _ _ => λ x, bool_decide (x = None)
      | SqlExec _ q args => harmlessb q args
      | _ => λ _, true
      end x
  end.

Lemma answersb_spec {A} `{EqDecision A} (a : option A) x : answersb a x = true → answers a x.
Proof. destruct a; simpl; [|done]. apply bool_decide_eq_true. Qed.
Lemma update_acceptedb_spec u x : update_acceptedb u x = true → accepted u x.
Proof. intros H%bool_decide_eq_true. by eexists. Qed.
Lemma harmlessb_spec q args x : harmlessb q args x = true → harmless q args x.
Proof.
  intros [H%bool_decide_eq_true|[H%bool_decide_eq_true ?]%andb_true_iff]%orb_true_iff; [by left|by right].
Qed.

Lemma healthyb_event e : healthyb e = true → healthy c e.
Proof.
  destruct e as [r x]; destruct r; simpl; try (intros _; exact I);
    first [apply answersb_spec|apply update_acceptedb_spec|apply harmlessb_spec|apply bool_decide_eq_true].
Qed.
End Decide.

(** A run of john against the sample cluster and servers: the trace, the outcome
    and what they are after it. *)
Fixpoint attempt_run (p : prog (Result * option error)) (S : sys) (w : World) (v : db_state DemoServer)
    : option (list event * outcome (Result * option error) * sys * db_state DemoServer) :=
  match p with
  | Ret a => Some ([], Returned a, S, v)
  | Panic e => Some ([], Panicked e, S, v)
  | Call r k =>
      let '(x, S1, w1) := answer 0 (user_nn "john") r S w in
      if plain_readsb (ev r x) && spec_readsb sample_dbs (ev r x) && healthyb sample_cluster (ev r x) then
        v1 ← demo_step v (ev r x);
        '(t, o, S2, v2) ← attempt_run (k x) S1 w1 v1;
        Some (ev r x :: t, o, S2, v2)
      else None
  end.

Lemma attempt_run_sound p S w v t o S' v' :
  attempt_run p S w v = Some (t, o, S', v') →
  runs p t o ∧ served (api (user_nn "john")) S t S' ∧ served db_step v t v' ∧
  Forall (reads_ok sample_dbs) t ∧ Forall (healthy sample_cluster) t.
Proof.
  revert S w v t. induction p as [a|e|r k IH]; intros S w v t; cbn [attempt_run].
  - intros [= <- <- <- <-]. repeat split; constructor.
  - intros [= <- <- <- <-]. repeat split; constructor.
  - pose proof (answer_api 0 (user_nn "john") r S w) as Ha. destruct (answer 0 (user_nn "john") r S w) as [[x S1] w1].
    destruct (_ && healthyb _ _) eqn:E; [|done].
    apply andb_true_iff in E as [[E1 E2]%andb_true_iff E3].
    destruct (demo_step v (ev r x)) as [v1|] eqn:Ev; [|done]. simpl.
    destruct (attempt_run (k x) S1 w1 v1) as [[[[t1 o1] S2] v2]|] eqn:Et; [|done]. simpl.
    intros [= <- <- <- <-]. destruct (IH x _ _ _ _ Et) as (Hr & Hs & Hw & Hq & Hh).
    split_and!.
    + simpl. eauto.
    + by econstructor.
    + econstructor; [by apply demo_step_sound|done].
    + constructor; [|done]. split; [by apply plain_readsb_event|by apply spec_readsb_event].
    + constructor; [by apply healthyb_event|done].
Qed.

(** John is deleted between two of his attempts, while one of jane's is in
    progress. *)
Definition before_deletion : whole := go 76 two_created.
Definition deletion_asked : whole := delete_john before_deletion.
#[local] Notation john_now := (m_users (wh_many deletion_asked) "john").1.
Definition john_user : User := default user0 (s_obj john_now).
#[local] Notation servers_now := (seen_by "john" (wh_many deletion_asked)).2.
Definition john_attempt :=
  default ([], Returned (Result_zero, None), john_now, servers_now)
    (attempt_run (OperatorReconcile (user_nn "john")) john_now (wh_world deletion_asked) servers_now).

Lemma delete_john_mstep dbs a :
  bool_decide ("9" ∉ rv <$> s_history (m_users (wh_many a) "john").1) &&
    bool_decide (is_Some (s_obj (m_users (wh_many a) "john").1)) = true →
  mstep dbs family (wh_many a) (wh_many (delete_john a)).
Proof.
  intros [Hf%bool_decide_eq_true [u Hu]%bool_decide_eq_true]%andb_true_iff.
  destruct a as [[us s] w]. simpl in *.
  apply (m_user _ _ (mkMany us s) "john" (ask_deletion (us "john").1) (s, (us "john").2)); [by left|].
  unfold ask_deletion. rewrite Hu. apply j_cluster; [|by left]. simpl.
  by apply (env_change NewDatabase (user_nn "john") _ u); [| |apply deletion_requested].
Qed.

Lemma before_deletion_reachable : m_reachable sample_dbs family (wh_many before_deletion).
Proof.
  eapply m_reachable_rtc; [exact (both_created_reachable sample_dbs ["pg"; "my"])|].
  apply (schedule_msteps sample_dbs (in_turn 76)); [apply in_turn_family|]. apply default_some. vm_compute. reflexivity.
Qed.

Lemma deletion_asked_reachable : m_reachable sample_dbs family (wh_many deletion_asked).
Proof.
  apply (m_reachable_rtc _ _ (wh_many before_deletion)); [exact before_deletion_reachable|].
  apply rtc_once, (delete_john_mstep sample_dbs before_deletion). vm_compute. reflexivity.
Qed.

(** What the theorem asks of an attempt that reads the user [u]. *)
Lemma attempt_run_ok p S w v u d x :
  s_obj S = Some u →
  match attempt_run p S w v with
  | Some (ev0 :: _, _, _, _) => bool_decide (user_read ev0 = Some (u, None))
  | _ => false
  end = true →
  p = OperatorReconcile (user_nn "john") → x = default d (attempt_run p S w v) →
  undisturbed (user_nn "john") sample_cluster S x.1.1.1 x.1.2 ∧ served db_step v x.1.1.1 x.2 ∧
  Forall (reads_ok sample_dbs) x.1.1.1.
Proof.
  intros Hu Hread -> ->. destruct (attempt_run _ S w v) as [[[[t o] S'] w']|] eqn:E; [|done].
  apply attempt_run_sound in E as (Hr & Hs & Hw & Hq & Hh). simpl. split_and!; [|done|done].
  destruct t as [|e t]; [done|]. apply Forall_cons in Hh as [_ Hh].
  destruct Hr as (y & t' & [= -> ->] & Hr). simpl in Hread. apply bool_decide_eq_true in Hread as [= ->].
  exists u, t', o. split_and!; [done|done| |done]. split; [done|]. exists (u, None), t'. by split.
Qed.

Example deletion_views :
  view_of "john" deletion_asked =
    (Some [userFinalizer], None, Some (Some "mysupersecretpass"), Some "mysupersecretpass") ∧
  (view_of "jane" deletion_asked).1.1 = (Some [userFinalizer], Some 33).
Proof. by vm_compute. Qed.

Lemma deletion_reaches_servers_witness :
  srv_role john_attempt.2.1 ("pgx", "") (qualified "john") = None ∧
  my_account john_attempt.2.1 ("mysql", "") ("john", "*") = None.
Proof.
  assert (s_obj john_now = Some john_user) as Hu by (vm_compute; reflexivity).
  destruct (attempt_run_ok (OperatorReconcile (user_nn "john")) john_now (wh_world deletion_asked) servers_now john_user
    ([], Returned (Result_zero, None), john_now, servers_now) john_attempt Hu) as (Hw & Hs & Hq);
    [vm_compute; reflexivity|reflexivity|reflexivity|].
  destruct (deletion_reaches_servers sample_dbs family family_free sample_cluster (wh_many deletion_asked)
    "john" john_user john_attempt.1.1.1 john_attempt.1.2 john_attempt.2) as (_ & Hpg & Hmy).
  - exact deletion_asked_reachable.
  - by left.
  - vm_compute. reflexivity.
  - exact Hu.
  - apply (bool_decide_unpack _). vm_compute. exact I.
  - apply (bool_decide_unpack _). vm_compute. exact I.
  - vm_compute. reflexivity.
  - exact Hw.
  - exact Hs.
  - exact Hq.
  - split; [by apply Hpg|by apply Hmy].
Defined.

(** John has just been created, and an administrator made his MySQL account at any
    host. *)
Definition live_attempt :=
  default ([], Returned (Result_zero, None), john_created, demo_state demo_any)
    (attempt_run (OperatorReconcile (user_nn "john")) john_created (demo_world demo_any new_user) (demo_state demo_any)).

Lemma live_reaches_servers_witness :
  (∃ v, s_obj live_attempt.1.2 = Some v ∧ has_finalizer v ∧ User_Ready v = true) ∧
  Forall (λ r, ready_in new_user r live_attempt.1.1.1 demo_any live_attempt.2.1) [ref "pg"; ref "my"] ∧
  grown demo_any live_attempt.2.1 ∧ live_attempt.2.2 = ∅.
Proof.
  assert (s_obj john_created = Some (with_rv new_user "0")) as Hu by (vm_compute; reflexivity).
  destruct (attempt_run_ok (OperatorReconcile (user_nn "john")) john_created (demo_world demo_any new_user)
    (demo_state demo_any) (with_rv new_user "0")
    ([], Returned (Result_zero, None), john_created, demo_state demo_any) live_attempt Hu) as (Hw & Hs & Hq);
    [vm_compute; reflexivity|reflexivity|reflexivity|].
  apply (live_reaches_servers (user_nn "john") sample_cluster john_created (with_rv new_user "0")
    live_attempt.1.1.1 live_attempt.1.2 (demo_state demo_any) live_attempt.2).
  - exact Hu.
  - by intros [? [=]].
  - vm_compute. reflexivity.
  - exact Hw.
  - exact Hs.
  - eapply Forall_impl; [exact Hq|]. by intros e [? _].
Defined.

(** ** PostgreSQL alone: the sample servers answer every deletion *)

Definition pg_dbs (db : string) : DatabaseSpec := Database_Spec (pg_database SSLModeVERIFYFULL).
Definition pg_cluster : cluster :=
  mkCluster {[mkTypesNN "" "pg" := pg_database SSLModeVERIFYFULL]}
    {[mkTypesNN "" "privileges" := sample_privileges_object]} (c_secrets sample_cluster).

Lemma grant_not_removal a u dbname on pv :
  removal (prepareStatementForPrivilege "GRANT" a u dbname on pv) = false.
Proof. unfold prepareStatementForPrivilege. by destruct (nonempty on), (nonempty dbname). Qed.

Lemma mysql_grant_not_removal a u pr : removal (mysql_privilege_stmt "GRANT" a u pr).1 = false.
Proof.
  unfold mysql_privilege_stmt, MysqlPrepareStatementForPrivilege.
  by destruct (bool_decide (On pr ≠ "")), (bool_decide (PrivilegeSpec_Database pr ≠ "")).
Qed.

Lemma demo_removals_answered n : removals_answered (St := DemoServer) pg_dbs n.
Proof.
  split; [|done]. intros s db k q args Ha. simpl.
  destruct Ha as [password Hk Hat|Hk Hat|database on pv Hk Hp|database on pv Hk Hp
    |host password Hk Hat|host Hk [Hty _]|pr Hk|pr Hk]; intros Hrem.
  - by rewrite create_not_removal in Hrem.
  - rewrite demo_exec_pg by done. unfold demo_pg. rewrite deleteUserQuery_read.
    case_match; (eexists _, _; split; [reflexivity|]); [by left|]. right. split; [done|].
    unfold done_before. by rewrite Hrem, orb_true_r.
  - by rewrite grant_not_removal in Hrem.
  - rewrite demo_exec_pg by done. unfold demo_pg. rewrite (revoke_read n database on pv Hp).
    eexists _, _. split; [reflexivity|by left].
  - done.
  - done.
  - by rewrite mysql_grant_not_removal in Hrem.
  - rewrite demo_exec_my by done. unfold demo_my. rewrite revoke_read_stmt.
    eexists _, _. split; [reflexivity|by left].
Qed.

(** John and jane on PostgreSQL; john is deleted when his first attempt is over. *)
Definition pg_before : whole :=
  default (both_created ["pg"]) (schedule pg_dbs (in_turn 65) (both_created ["pg"])).
Definition pg_asked : whole := delete_john pg_before.
Definition pg_john : User := default user0 (s_obj (m_users (wh_many pg_asked) "john").1).

Lemma pg_asked_reachable : m_reachable pg_dbs family (wh_many pg_asked).
Proof.
  assert (m_reachable pg_dbs family (wh_many pg_before)) as Hb.
  { eapply m_reachable_rtc; [exact (both_created_reachable pg_dbs ["pg"])|].
    apply (schedule_msteps pg_dbs (in_turn 65)); [apply in_turn_family|]. apply default_some. vm_compute. reflexivity. }
  apply (m_reachable_rtc _ _ (wh_many pg_before)); [exact Hb|].
  apply rtc_once, (delete_john_mstep pg_dbs pg_before). vm_compute. reflexivity.
Qed.

Lemma deletion_attempt_exists_witness :
  ∃ t S' w', undisturbed (user_nn "john") pg_cluster (m_users (wh_many pg_asked) "john").1 t S' ∧
    served db_step (seen_by "john" (wh_many pg_asked)).2 t w' ∧ Forall (reads_ok pg_dbs) t.
Proof.
  apply (deletion_attempt_exists pg_dbs family pg_cluster) with (u := pg_john).
  - intros nn d Hd. unfold pg_cluster in Hd. cbn [c_databases] in Hd. by apply lookup_singleton_Some in Hd as [_ <-].
  - intros nn p Hp. unfold pg_cluster in Hp. cbn [c_privileges] in Hp. apply lookup_singleton_Some in Hp as [_ <-]. vm_compute. reflexivity.
  - exact pg_asked_reachable.
  - by left.
  - vm_compute. reflexivity.
  - apply (bool_decide_unpack _). vm_compute. exact I.
  - apply (bool_decide_unpack _). vm_compute. exact I.
  - vm_compute. reflexivity.
  - apply demo_removals_answered.
Defined.
