(* ===== verification/Credits.v ===== *)
(** * A logic of credits

    Upper bounds on what a run does, by an amortised argument: a request costs
    credits, an answer can earn some.  [yields n p Q]: with [n] credits [p] can
    pay for all its requests, and it has [Q a] left when it returns [a].  Credits
    that are not mentioned are kept, also by a panic: the frame is part of the
    definition, so that a deferred call can pay with what was put aside for it. *)

From S2P Require Import Prelude GoError Api Effects.

Section Credits.
Context (cost : req → nat) (earned : event → nat).

Fixpoint affords {A} (n : nat) (p : prog A) (Q : outcome A → nat → Prop) : Prop :=
  match p with
  | Ret a => Q (Returned a) n
  | Panic msg => Q (Panicked msg) n
  | Call r k => cost r ≤ n ∧ ∀ x, affords (n - cost r + earned (ev r x)) (k x) Q
  end.

(** The credits promised after an outcome. *)
Definition left_after {A} (Q : A → nat) (o : outcome A) : nat :=
  match o with Returned a => Q a | Panicked _ => 0 end.

Definition yields {A} (n : nat) (p : prog A) (Q : A → nat) : Prop :=
  ∀ m, affords (n + m) p (λ o k, m + left_after Q o ≤ k).

(** What a trace costs and earns. *)
Definition spent (t : list event) : nat := sum_list_with (λ e, cost (projT1 e)) t.
Definition income (t : list event) : nat := sum_list_with earned t.

Lemma affords_runs {A} (p : prog A) n Q t o : affords n p Q → runs p t o → spent t ≤ n + income t.
Proof.
  revert n t. induction p as [a|m|r k IH]; simpl; intros n t Hp Ht.
  - destruct Ht as [-> _]. unfold spent. simpl. lia.
  - destruct Ht as [-> _]. unfold spent. simpl. lia.
  - destruct Ht as (x & t' & -> & Ht). destruct Hp as [Hr Hp]. specialize (IH x _ _ (Hp x) Ht).
    unfold spent, income in *. simpl. lia.
Qed.

(** Soundness: the cost of a run is at most the credits and what was earned. *)
Lemma yields_runs {A} (p : prog A) n Q t o : yields n p Q → runs p t o → spent t ≤ n + income t.
Proof. intros Hp. specialize (Hp 0). rewrite Nat.add_0_r in Hp. by apply affords_runs with (1 := Hp). Qed.

Lemma affords_mono {A} (p : prog A) n (Q Q' : outcome A → nat → Prop) :
  affords n p Q → (∀ o k, Q o k → Q' o k) → affords n p Q'.
Proof.
  revert n. induction p as [a|m|r k IH]; simpl; intros n Hp HQ; auto. destruct Hp. split; auto.
Qed.

Lemma affords_bind {A B} (p : prog A) (f : A → prog B) n Q :
  affords n p (λ o k, match o with Returned a => affords k (f a) Q | Panicked m => Q (Panicked m) k end) →
  affords n (bind p f) Q.
Proof. revert n. induction p as [a|m|r k IH]; simpl; intros n Hp; auto. destruct Hp. split; auto. Qed.

(** ** Rules *)

Lemma yields_ret {A} (a : A) n Q : Q a ≤ n → yields n (Ret a) Q.
Proof. intros HQ m. simpl. lia. Qed.

Lemma yields_panic {A} msg n Q : yields n (@Panic A msg) Q.
Proof. intros m. simpl. lia. Qed.

Lemma yields_call {A} r (k : resp r → prog A) n Q :
  cost r ≤ n → (∀ x, yields (n - cost r + earned (ev r x)) (k x) Q) → yields n (Call r k) Q.
Proof.
  intros Hr Hk m. split; [lia|]. intros x. specialize (Hk x m).
  by replace (n + m - cost r + earned (ev r x)) with (n - cost r + earned (ev r x) + m) by lia.
Qed.

Lemma yields_bind {A B} (p : prog A) (f : A → prog B) n P Q :
  yields n p P → (∀ a, yields (P a) (f a) Q) → yields n (bind p f) Q.
Proof.
  intros Hp Hf m. apply affords_bind. eapply affords_mono; [apply Hp|].
  intros [a|msg] k Hk; simpl in Hk; [|simpl; lia].
  specialize (Hf a (k - P a)). replace (P a + (k - P a)) with k in Hf by lia.
  eapply affords_mono; [exact Hf|]. intros o j Hj. simpl in *. lia.
Qed.

Lemma yields_weaken {A} (p : prog A) n n' Q Q' :
  yields n p Q → n ≤ n' → (∀ a, Q' a ≤ Q a + (n' - n)) → yields n' p Q'.
Proof.
  intros Hp Hn HQ m. replace (n' + m) with (n + (n' - n + m)) by lia.
  eapply affords_mono; [apply Hp|]. intros [a|msg] k Hk; simpl in *; [specialize (HQ a)|]; lia.
Qed.

(** The frame rule. *)
Lemma yields_frame {A} (p : prog A) n j : yields n p (λ _, 0) → yields (n + j) p (λ _, j).
Proof. intros Hp. eapply yields_weaken; [exact Hp|lia|]. intros a. simpl. lia. Qed.

(** A deferred call pays with what was put aside. *)
Lemma yields_finally {A} (p : prog A) fin n j :
  yields n p (λ _, 0) → yields j fin (λ _, 0) → yields (n + j) (finally p fin) (λ _, 0).
Proof.
  intros Hp Hf m.
  assert (∀ i (q : prog A), affords i q (λ _ k, j + m ≤ k) →
    affords i (finally q fin) (λ o k, m + left_after (λ _, 0) o ≤ k)) as Hfin.
  { clear Hp n p. intros i q. revert i.
    assert (∀ k (q' : prog A), (∃ a, q' = Ret a) ∨ (∃ msg, q' = Panic msg) → j + m ≤ k →
      affords k (bind fin (λ _, q')) (λ o k, m + left_after (λ _, 0) o ≤ k)) as Hend.
    { intros k q' Hq Hk. apply affords_bind. specialize (Hf (k - j)).
      replace (j + (k - j)) with k in Hf by lia. eapply affords_mono; [exact Hf|].
      intros [[]|msg] i Hi; simpl in Hi; [|simpl; lia].
      destruct Hq as [[a ->]|[msg ->]]; simpl; lia. }
    induction q as [a|msg|r k IH]; simpl; intros i Hq; [apply Hend; eauto..|].
    destruct Hq as [Hr Hq]. split; auto. }
  apply Hfin. rewrite <- Nat.add_assoc. eapply affords_mono; [exact (Hp (j + m))|].
  intros o k Hk. simpl in Hk. lia.
Qed.

Lemma yields_range_err {A} (f : A → prog (option error)) (w : A → nat) xs :
  (∀ x, yields (w x) (f x) (λ _, 0)) → yields (sum_list_with w xs) (range_err f xs) (λ _, 0).
Proof.
  intros Hf. induction xs as [|x xs IH]; [apply yields_ret; lia|].
  cbn [range_err sum_list_with]. apply yields_bind with (P := λ _, sum_list_with w xs).
  - by apply yields_frame.
  - intros [e|]; [apply yields_ret; lia|exact IH].
Qed.

End Credits.
