(* ===== verification/Bounds.v ===== *)
(** * How much a reconciliation does

    The requests of a reconciliation are paid for by what it reads: the
    references of the user object, the [Database] objects and the privileges.
    Nothing is retried and no loop runs longer than what was read.  The price of
    a request and the surcharge of a statement are parameters, so that one
    argument bounds both the statements and all requests. *)

From S2P Require Import Prelude GoStrings GoError Api Effects Credits Utils Connection PgUtils.
From S2P Require Import PgConfig Postgresql Mysql Database Controller World Samples.

(** ** What is read *)

(** The answers of a run that carry work: one summand of each measure. *)
Definition read_by (user : User → nat) (database : Database → nat) (privileges : Privileges → nat)
    (e : event) : nat :=
  match e with
  | existT r x =>
      match r return resp r → nat with
      | GetUser _ | UpdateUser _ => λ x, match x.2 with None => user x.1 | Some _ => 0 end
      | GetDatabase _ => λ x, match x.2 with None => database x.1 | Some _ => 0 end
      | GetPrivileges _ => λ x, match x.2 with None => privileges x.1 | Some _ => 0 end
      | _ => λ _, 0
      end x
  end.

Definition none_of {A} (_ : A) : nat := 0.
Definition one_of {A} (_ : A) : nat := 1.

(** A reference to a database, with its references to privileges. *)
Definition ref_size (ref : DatabaseRef) : nat := S (length (DatabaseRef_Privileges ref)).
Definition user_size (u : User) : nat := sum_list_with ref_size (User_Databases u).

Definition references_read : list event → nat := income (read_by user_size none_of none_of).
Definition databases_read : list event → nat := income (read_by none_of one_of none_of).
Definition privileges_read : list event → nat :=
  income (read_by none_of none_of (λ p, length (Privileges_Privileges p))).

(** ** Prices *)

Section Prices.
Variables a s : nat.

(** A request costs [a], a statement [s] more. *)
Definition price (r : req) : nat :=
  match r with SqlExec _ _ _ | FakeCall _ (FakeExec _ _) => s + a | _ => a end.

Definition wage : event → nat :=
  read_by (λ u, a * user_size u) (λ _, s + 35 * a)
    (λ p, (s + 18 * a) * length (Privileges_Privileges p)).

Notation costs n p := (yields price wage n p (λ _, 0)).

Lemma costs_le {A} (p : prog A) n n' : costs n p → n ≤ n' → costs n' p.
Proof. intros Hp Hn. eapply yields_weaken; [exact Hp|done|]. intros x. simpl. lia. Qed.

Lemma costs_bind {A B} (p : prog A) (f : A → prog B) n m :
  costs n p → (∀ x, costs m (f x)) → costs (n + m) (bind p f).
Proof. intros Hp Hf. apply yields_bind with (P := λ _, m); [by apply yields_frame|exact Hf]. Qed.

(** A call with the sum for it at hand, and a call that does not end the rest. *)
Lemma costs_call {A} r (k : resp r → prog A) n :
  price r ≤ n → (∀ x, costs (n - price r) (k x)) → costs n (Call r k).
Proof.
  intros Hr Hk. apply yields_call; [done|]. intros x. eapply costs_le; [apply Hk|]. lia.
Qed.

Ltac costs :=
  repeat first
    [ progress intros
    | match goal with x : _ * _ |- _ => destruct x end
    | match goal with |- yields _ _ _ (match ?x with _ => _ end) _ => destruct x end
    | match goal with |- yields _ _ _ (bind (match ?x with _ => _ end) _) _ => destruct x; simpl end
    | apply yields_ret; lia | apply yields_panic
    | apply costs_call; [simpl; lia|] ].

(** ** The connection and PostgreSQL *)

Implicit Types (d : DefaultConnector) (p : Postgresql DefaultConnector) (m : Mysql DefaultConnector).

Lemma Exec_costs d l q args : costs (s + 2 * a) (Exec d l q args).
Proof.
  simpl. unfold DefaultConnector_Exec, DefaultConnector_infoLog.
  destruct (bool_decide _), (DefaultConnector_db d); simpl; costs.
Qed.

Lemma Connect_costs d driver str : costs (3 * a) (Connect d driver str).
Proof. simpl. unfold DefaultConnector_Connect. simpl. costs. Qed.

Lemma Close_costs d : costs a (Close d).
Proof. simpl. unfold DefaultConnector_Close. costs. Qed.

Lemma connSlice_cert_costs x f k l : costs (2 * a) (connSlice_cert x f k l).
Proof. unfold connSlice_cert, createCertFile. simpl. costs. Qed.

Lemma ConnString_costs c : costs (9 * a) (ConnString c).
Proof.
  unfold ConnString, PathFromHome, ConnString_certs. simpl.
  do 3 (apply costs_call; [simpl; lia|]; intros).
  eapply costs_le; [apply costs_bind; [apply connSlice_cert_costs|]|].
  - intros [l1 [e|]]; [costs|]. apply costs_bind; [apply connSlice_cert_costs|].
    intros [l2 [e|]]; [costs|]. apply costs_bind with (m := 0); [apply connSlice_cert_costs|]. costs.
  - simpl. lia.
Qed.

Lemma Postgresql_Connect_costs p : costs (12 * a) (Postgresql_Connect p).
Proof.
  eapply costs_le; [apply costs_bind with (m := 3 * a); [apply ConnString_costs|]|lia].
  intros [c [str [e|]]]; [costs|]. eapply costs_le; [apply costs_bind with (m := 0)|].
  - apply Connect_costs.
  - costs.
  - lia.
Qed.

Lemma Config_Close_costs c : costs (3 * a) (Config_Close c).
Proof. simpl. costs. Qed.

Lemma Postgresql_Close_costs p : costs (4 * a) (Postgresql_Close p).
Proof.
  eapply costs_le; [apply costs_bind; [apply Config_Close_costs|intros _; apply Close_costs]|lia].
Qed.

Lemma genPostgresCertFromCA_costs p u : costs (9 * a) (genPostgresCertFromCA p u).
Proof. unfold genPostgresCertFromCA. simpl. costs. Qed.

Lemma Postgresql_CreateUser_costs p u pw : costs (s + 11 * a) (Postgresql_CreateUser p u pw).
Proof.
  unfold Postgresql_CreateUser. destruct (createUserQuery u pw) as [q l].
  eapply costs_le; [apply costs_bind with (m := 9 * a); [apply Exec_costs|]|lia].
  intros err. case_match; [|costs].
  eapply costs_le; [apply costs_bind with (m := 0); [apply genPostgresCertFromCA_costs|costs]|lia].
Qed.

Lemma Postgresql_DeleteUser_costs p u : costs (s + 2 * a) (Postgresql_DeleteUser p u).
Proof.
  eapply costs_le; [apply costs_bind with (m := 0); [apply Exec_costs|costs]|lia].
Qed.

Lemma privilege_step_costs p u st arg pr : costs (s + 18 * a) (privilege_step p u st arg pr).
Proof.
  assert (∀ q, costs (s + 18 * a) (Exec (pg_db p) EnableLogger q [])) as Hexec.
  { intros q. eapply costs_le; [apply Exec_costs|lia]. }
  unfold privilege_step. case_match; [|case_match; [apply Hexec|case_match; [apply Hexec|costs]]].
  unfold inDatabasePrivilege. change (s + 18 * a) with (0 + (s + 18 * a)).
  apply costs_bind; [apply yields_ret; lia|]. intros conn.
  eapply costs_le; [apply costs_bind with (m := s + 6 * a); [apply Postgresql_Connect_costs|]|lia].
  intros [p' [e|]]; [costs|]. eapply costs_le; [apply yields_finally|].
  - apply Exec_costs.
  - apply costs_bind with (m := 0); [apply Postgresql_Close_costs|costs].
  - lia.
Qed.

(** A statement for each privilege. *)
Lemma range_costs {B} (f : B → prog (option error)) (xs : list B) n :
  (∀ x, costs n (f x)) → costs (n * length xs) (range_err f xs).
Proof.
  intros Hf. eapply costs_le; [apply (yields_range_err _ _ f (λ _, n)); exact Hf|].
  induction xs as [|x xs IH]; simpl; lia.
Qed.

Lemma Postgresql_privileges_costs p u l st arg :
  costs ((s + 18 * a) * length l) (Postgresql_privilegesProcessor p u l st arg).
Proof. apply range_costs. intros. apply privilege_step_costs. Qed.

Lemma Mysql_privileges_costs m u l st arg :
  costs ((s + 18 * a) * length l) (Mysql_privilegesProcessor m u l st arg).
Proof.
  apply range_costs. intros pr. unfold Mysql_privilege_step.
  destruct (MysqlPrepareStatementForPrivilege _ _ _ _ _ _).
  eapply costs_le; [apply Exec_costs|lia].
Qed.

(** ** The database object *)

Implicit Types (db : iface DefaultConnector).

Lemma db_Close_costs db : costs (4 * a) (db_Close db).
Proof.
  destruct db as [|[p|]|[m|]]; try apply yields_panic; [apply Postgresql_Close_costs|].
  eapply costs_le; [apply Close_costs|lia].
Qed.

Lemma db_CreateUser_costs db u pw : costs (s + 11 * a) (db_CreateUser db u pw).
Proof.
  destruct db as [|[p|]|[m|]]; try apply yields_panic; [apply Postgresql_CreateUser_costs|].
  eapply costs_le; [apply costs_bind with (m := 0); [apply Exec_costs|costs]|lia].
Qed.

Lemma db_DeleteUser_costs db u : costs (s + 2 * a) (db_DeleteUser db u).
Proof.
  destruct db as [|[p|]|[m|]]; try apply yields_panic; [apply Postgresql_DeleteUser_costs|].
  apply Exec_costs.
Qed.

Lemma nil_privileges_costs l n :
  costs n (nil_Postgresql_privileges l) ∧ costs n (nil_Mysql_privileges l).
Proof. destruct l; simpl; split; costs. Qed.

Lemma db_ApplyPrivileges_costs db u l : costs ((s + 18 * a) * length l) (db_ApplyPrivileges db u l).
Proof.
  destruct db as [|[p|]|[m|]].
  - apply yields_panic.
  - exact (Postgresql_privileges_costs p u l "GRANT" "TO").
  - exact (proj1 (nil_privileges_costs l _)).
  - exact (Mysql_privileges_costs m u l "GRANT" "TO").
  - exact (proj2 (nil_privileges_costs l _)).
Qed.

Lemma db_RevokePrivileges_costs db u l : costs ((s + 18 * a) * length l) (db_RevokePrivileges db u l).
Proof.
  destruct db as [|[p|]|[m|]].
  - apply yields_panic.
  - assert (costs ((s + 18 * a) * length l) (Postgresql_RevokePrivileges p u l)) as Hp; [|exact Hp].
    eapply costs_le; [apply costs_bind with (m := 0)|].
    + exact (Postgresql_privileges_costs p u l "REVOKE" "FROM").
    + costs.
    + lia.
  - exact (proj1 (nil_privileges_costs l _)).
  - exact (Mysql_privileges_costs m u l "REVOKE" "FROM").
  - exact (proj2 (nil_privileges_costs l _)).
Qed.

(** ** The creation of the object *)

Lemma passwordFromSecret_costs x : costs a (passwordFromSecret x).
Proof. unfold passwordFromSecret. case_match; [|costs]. simpl. costs. Qed.

Lemma readSSL_costs c : costs (2 * a) (readSSL c).
Proof. unfold readSSL. case_match; [|costs]. simpl. costs. all: simpl; costs. Qed.

Lemma NewDatabase_costs spec : costs (15 * a) (NewDatabase spec).
Proof.
  unfold NewDatabase, newDatabase. case_bool_decide; [|case_bool_decide; [|costs]].
  - eapply costs_le; [apply costs_bind with (m := 0) (n := 15 * a)|lia]; [|by intros []; costs].
    unfold newPostgresql. case_match; [|apply yields_panic].
    eapply costs_le; [apply costs_bind with (m := 13 * a); [apply readSSL_costs|]|lia].
    intros [[dt k] [e|]]; [costs|].
    eapply costs_le; [apply costs_bind with (m := 12 * a); [apply passwordFromSecret_costs|]|lia].
    intros [pw [e|]]; [costs|].
    eapply costs_le; [apply costs_bind with (m := 0); [apply Postgresql_Connect_costs|costs]|lia].
  - eapply costs_le; [apply costs_bind with (m := 0) (n := 5 * a)|lia]; [|by intros []; costs].
    unfold newMysql. case_match; [|apply yields_panic].
    eapply costs_le; [apply costs_bind with (m := 4 * a); [apply passwordFromSecret_costs|]|lia].
    intros [pw [e|]]; [costs|]. unfold Mysql_Connect.
    eapply costs_le; [apply costs_bind with (m := 0) (n := 4 * a)|lia]; [|costs].
    eapply costs_le; [apply costs_bind with (n := a) (m := 3 * a)|lia]; [simpl; costs|].
    intros [str [e|]]; [costs|].
    eapply costs_le; [apply costs_bind with (m := 0); [apply Connect_costs|costs]|lia].
Qed.

(** ** The reconciler *)

Lemma userPassword_costs x : costs (2 * a) (userPassword x).
Proof. unfold userPassword. case_match; [costs|]. simpl. costs. all: case_match; simpl; costs. Qed.

Lemma createUserInDatabase_costs db u ref : costs (s + 16 * a) (createUserInDatabase db u ref).
Proof.
  unfold createUserInDatabase.
  eapply costs_le; [apply costs_bind with (m := s + 14 * a); [apply userPassword_costs|]|lia].
  intros [pw [e|]]; [costs|].
  eapply costs_le; [apply costs_bind with (m := 3 * a); [apply db_CreateUser_costs|]|lia].
  intros [m err]. case_match; [costs|]. simpl. costs.
Qed.

(** Reading the privileges earns what it takes to apply or revoke them. *)
Lemma r_privileges_loop_costs l acc n :
  yields price wage (n + a * length l + (s + 18 * a) * length acc) (r_privileges_loop l acc)
    (λ x, match x.2 with None => n + (s + 18 * a) * length x.1 | Some _ => n end).
Proof.
  revert acc. induction l as [|nm l IH]; intros acc; simpl; [apply yields_ret; simpl; lia|].
  apply yields_call; [simpl; lia|]. intros [p [e|]]; simpl.
  - apply yields_ret. simpl. lia.
  - eapply yields_weaken; [apply IH| |]; rewrite ?length_app; [lia|]. intros x. simpl. lia.
Qed.

Lemma r_privileges_costs l n :
  yields price wage (n + a * length l) (r_privileges l)
    (λ x, match x.2 with None => n + (s + 18 * a) * length x.1 | Some _ => n end).
Proof.
  eapply yields_weaken; [apply (r_privileges_loop_costs l [] n)|simpl; lia|]. intros x. simpl. lia.
Qed.

Lemma work_costs (del : bool) db u ref l :
  costs (s + 16 * a + (s + 18 * a) * length l)
    ((if del then databaseUserDelete else databaseUserApply) db u ref l).
Proof.
  destruct del.
  - eapply costs_le; [apply yields_finally with (j := a)|].
    + apply costs_bind with (m := s + 2 * a); [apply db_RevokePrivileges_costs|].
      intros [e|]; [costs|apply db_DeleteUser_costs].
    + simpl. costs.
    + lia.
  - eapply costs_le; [apply costs_bind; [apply createUserInDatabase_costs|]|].
    + intros [e|]; [costs|apply db_ApplyPrivileges_costs].
    + lia.
Qed.

Lemma databaseReconciler_costs u (del : bool) ref :
  costs (a * ref_size ref) (databaseReconciler NewDatabase u del ref).
Proof.
  unfold databaseReconciler, ref_size. set (n := length _).
  apply yields_bind with (P := λ x,
    match x.2 with None => (s + 35 * a) + a * n | Some _ => 0 end).
  { unfold r_database. apply yields_call; [simpl; lia|].
    intros [db [e|]]; apply yields_ret; simpl; lia. }
  intros [[cfg|] [e|]]; [costs| |costs|apply yields_panic]. cbn [snd].
  eapply yields_bind; [apply (r_privileges_costs _ (s + 35 * a))|].
  intros [l [e|]]; [costs|]. cbn [fst snd].
  eapply costs_le; [apply costs_bind with (m := s + 20 * a + (s + 18 * a) * length l);
    [apply NewDatabase_costs|]|lia].
  intros [db [e|]]; [costs|]. eapply costs_le; [apply yields_finally|].
  - apply work_costs.
  - apply costs_bind with (m := 0); [apply db_Close_costs|costs].
  - lia.
Qed.

Lemma loop_costs u (del : bool) refs :
  costs (a * sum_list_with ref_size refs) (range_err (databaseReconciler NewDatabase u del) refs).
Proof.
  eapply costs_le; [apply (yields_range_err _ _ _ (λ ref, a * ref_size ref))|].
  - intros ref. apply databaseReconciler_costs.
  - induction refs as [|ref refs IH]; cbn [sum_list_with]; rewrite ?Nat.mul_add_distr_l; [lia|]. lia.
Qed.

Context {U : Controllerutil}.

Lemma reconcile_costs u : costs (3 * a + a * user_size u) (reconcile_ NewDatabase u).
Proof.
  unfold reconcile_. destruct (Meta_DeletionTimestamp (User_Meta u)) as [ts|].
  - apply costs_call; [simpl; lia|]. intros []. cbn [bind].
    destruct (ContainsFinalizer u userFinalizer); simpl negb; cbv iota; [|costs].
    eapply costs_le; [apply costs_bind with (m := 2 * a); [apply loop_costs|]|simpl; unfold user_size; lia].
    intros [e|]; [costs|]. simpl. costs.
  - apply yields_bind with (P := λ x, match x.2 with None => a + a * user_size x.1 | Some _ => 0 end).
    { destruct (ContainsFinalizer u userFinalizer); simpl; [apply yields_ret; simpl; lia|].
      apply yields_call; [simpl; lia|]. intros [].
      apply yields_call; [simpl; lia|]. intros [u' [e|]]; apply yields_ret; simpl; lia. }
    intros [u' [e|]]; [costs|]. cbn [fst snd].
    eapply costs_le; [apply costs_bind with (m := a); [apply loop_costs|]|unfold user_size; lia].
    intros [e|]; [costs|]. simpl. costs.
Qed.

Lemma Reconcile_costs nn : costs (7 * a) (OperatorReconcile nn).
Proof.
  unfold OperatorReconcile, Reconcile.
  apply yields_bind with (P := λ x, match x with (Some u, None) => 6 * a + a * user_size u | _ => 0 end).
  { unfold r_user. apply yields_call; [simpl; lia|]. intros [u [e|]]; simpl.
    - destruct (apierrors_IsNotFound e); simpl;
        (apply yields_call; [simpl; lia|]; intros []; apply yields_ret; simpl; lia).
    - apply yields_ret. simpl. lia. }
  intros [[u|] [e|]]; [costs| |costs..].
  eapply costs_le; [apply costs_bind with (m := 3 * a); [apply reconcile_costs|]|lia].
  intros [u' [del [e|]]].
  - destruct del; simpl; costs.
  - destruct (negb (User_Ready u') && negb del); simpl; costs.
Qed.
End Prices.

(** ** Statements and requests of a run *)

Lemma price_statements t : length (statements t) ≤ spent (price 0 1) t.
Proof.
  induction t as [|[r x] t IH]; [done|]. unfold spent in *. simpl.
  change (length (match stmt_of (ev r x) with Some s => s :: statements t | None => statements t end)
    ≤ price 0 1 r + sum_list_with (λ e, price 0 1 (projT1 e)) t).
  destruct r; simpl in *; try lia. destruct op; simpl; [lia|]. destruct x; simpl; lia.
Qed.

Lemma price_requests t : spent (price 1 0) t = length t.
Proof.
  induction t as [|[r x] t IH]; [done|]. unfold spent in *. simpl. rewrite IH.
  destruct r; try done. by destruct op.
Qed.

(** The income of a run, by what was read. *)
Lemma wage_income a s t :
  income (wage a s) t =
    a * references_read t + (s + 35 * a) * databases_read t + (s + 18 * a) * privileges_read t.
Proof.
  unfold references_read, databases_read, privileges_read, income.
  induction t as [|[r x] t IH]; simpl; [lia|]. simpl in IH. rewrite IH.
  destruct r; simpl; try lia; destruct x as [? [?|]]; simpl; unfold none_of, one_of; lia.
Qed.

(** C28: The number of statements that a reconciliation sends is at most one for
    each [Database] object it read and one for each privilege it read, whatever
    is answered and however it ends; the sample cluster reaches the bound. *)
Theorem statements_bounded {U : Controllerutil} nn t o :
  runs (OperatorReconcile nn) t o →
  length (statements t) ≤ databases_read t + privileges_read t.
Proof.
  intros Ht. apply (yields_runs _ _ _ _ _ _ _ (Reconcile_costs 0 1 nn)) in Ht.
  rewrite wage_income in Ht. etransitivity; [apply price_statements|]. lia.
Qed.

(** C27: A reconciliation ends after a number of requests that what it reads
    determines: 7 of its own, one for each reference of the user object to a
    database or to a [Privileges] object, 35 for each [Database] object and 18
    for each privilege.  So no answer of the cluster, of a server or of the file
    system makes it go on retrying. *)
Theorem requests_bounded {U : Controllerutil} nn t o :
  runs (OperatorReconcile nn) t o →
  length t ≤ 7 + references_read t + 35 * databases_read t + 18 * privileges_read t.
Proof.
  intros Ht. apply (yields_runs _ _ _ _ _ _ _ (Reconcile_costs 1 0 nn)) in Ht.
  rewrite wage_income, price_requests in Ht. lia.
Qed.

(** On the sample cluster the first bound is reached: eight statements. *)
Lemma statements_bounded_witness :
  runs (OperatorReconcile john) (trace (OperatorReconcile john) (world_of new_user))
    (result (OperatorReconcile john) (world_of new_user)) ∧
  length (statements (trace (OperatorReconcile john) (world_of new_user))) ≤ 8 ∧
  databases_read (trace (OperatorReconcile john) (world_of new_user)) = 2 ∧
  privileges_read (trace (OperatorReconcile john) (world_of new_user)) = 6.
Proof.
  assert (runs (OperatorReconcile john) (trace (OperatorReconcile john) (world_of new_user))
    (result (OperatorReconcile john) (world_of new_user))) as Hr by by apply exec_runs.
  split; [exact Hr|]. split; [|split; by vm_compute].
  exact (statements_bounded john _ _ Hr).
Defined.

Lemma requests_bounded_witness :
  let t := trace (OperatorReconcile john) (world_refusing "GRANT" new_user) in
  runs (OperatorReconcile john) t (result (OperatorReconcile john) (world_refusing "GRANT" new_user)) ∧
  length t ≤ 7 + 8 + 35 * 1 + 18 * 3.
Proof.
  assert (runs (OperatorReconcile john) (trace (OperatorReconcile john) (world_refusing "GRANT" new_user))
    (result (OperatorReconcile john) (world_refusing "GRANT" new_user))) as Hr by by apply exec_runs.
  split; [exact Hr|]. exact (requests_bounded john _ _ Hr).
Defined.
