(* ===== verification/TestDouble.v ===== *)
(** * The test double and the real connection

    The tests of the controller run it with [FakeDatabase].  Seen from outside,
    a reconciliation over the double and one over the real connection are alike
    as long as the server accepts what it is sent: a logical relation between
    the two connections, carried through the database objects and the
    controller. *)

From S2P Require Import Prelude GoStrings GoError Api Effects Utils Connection PgUtils PgConfig.
From S2P Require Import Postgresql Mysql Database Controller World Samples.

(** ** What is seen of a run *)

(** Connections and statements, of the double or of the server, and every other
    request with its answer; the information messages, the sizes of the pool
    and the closing of the handles have no counterpart in the double. *)
Inductive seen :=
| Opened (driver connString : string)
| Executed (query : string) (args : list string)
| Other (e : event).

Definition see (e : event) : option seen :=
  match projT1 e with
  | SqlConnect d s | FakeCall _ (FakeConnect d s) => Some (Opened d s)
  | SqlExec _ q args | FakeCall _ (FakeExec q args) => Some (Executed q args)
  | SqlSetMaxIdleConns _ _ | SqlSetMaxOpenConns _ _ | SqlClose _ | LoggerInfo _ => None
  | _ => Some (Other e)
  end.

(** The server is there and executes every statement; the double does not
    panic.  Everything else may fail. *)
Definition accepted (e : event) : Prop :=
  match e with
  | existT r x =>
      match r return resp r → Prop with
      | SqlConnect _ _ => λ x, x.2 = None
      | SqlExec _ _ _ => λ x, x = None
      | FakeCall _ _ => λ x, x = None
      | _ => λ _, True
      end x
  end.

(** [shows p w o]: [p] can end with [o], seen as [w]. *)
Definition shows {A} (p : prog A) (w : list seen) (o : outcome A) : Prop :=
  ∃ t, Forall accepted t ∧ runs p t o ∧ omap see t = w.

(** Outcomes with related results. *)
Definition outcome_rel {A B} (R : A → B → Prop) (o : outcome A) (o' : outcome B) : Prop :=
  match o, o' with
  | Returned a, Returned b => R a b
  | Panicked m, Panicked m' => m = m'
  | _, _ => False
  end.

Definition simulates {A B} (R : A → B → Prop) (p : prog A) (q : prog B) : Prop :=
  ∀ w o, shows p w o → ∃ o', outcome_rel R o o' ∧ shows q w o'.

Definition alike {A B} (R : A → B → Prop) (p : prog A) (q : prog B) : Prop :=
  simulates R p q ∧ simulates (flip R) q p.

(** ** Laws of [shows] *)

Lemma shows_ret {A} (a : A) w o : shows (Ret a) w o ↔ w = [] ∧ o = Returned a.
Proof.
  split; [by intros (t & _ & [-> ->] & <-)|]. intros [-> ->]. exists []. split_and!; done.
Qed.

Lemma shows_panic {A} m w (o : outcome A) : shows (Panic m) w o ↔ w = [] ∧ o = Panicked m.
Proof.
  split; [by intros (t & _ & [-> ->] & <-)|]. intros [-> ->]. exists []. split_and!; done.
Qed.

Lemma shows_call {A} r (k : resp r → prog A) w o :
  shows (Call r k) w o ↔
  ∃ x w', accepted (ev r x) ∧ shows (k x) w' o ∧
    w = match see (ev r x) with Some s => s :: w' | None => w' end.
Proof.
  split.
  - intros (t & Ht & (x & t' & -> & Hr) & <-). apply Forall_cons in Ht as [Hx Ht].
    exists x, (omap see t'). split_and!; [done|by exists t'|done].
  - intros (x & w' & Hx & (t & Ht & Hr & <-) & ->). exists (ev r x :: t).
    split_and!; [by constructor|by exists x, t|done].
Qed.

Lemma shows_bind {A B} (p : prog A) (f : A → prog B) w o :
  shows (bind p f) w o ↔
  (∃ m, shows p w (Panicked m) ∧ o = Panicked m) ∨
  (∃ a w1 w2, w = w1 ++ w2 ∧ shows p w1 (Returned a) ∧ shows (f a) w2 o).
Proof.
  split.
  - intros (t & Ht & [(m & Hr & ->)|(a & t1 & t2 & -> & H1 & H2)]%runs_bind_inv & <-).
    + left. exists m. split; [by exists t|done].
    + right. apply Forall_app in Ht as [Ht1 Ht2]. exists a, (omap see t1), (omap see t2).
      split_and!; [apply omap_app|by exists t1|by exists t2].
  - intros [(m & (t & Ht & Hr & <-) & ->)|(a & w1 & w2 & -> & (t1 & Ht1 & H1 & <-) & (t2 & Ht2 & H2 & <-))].
    + exists t. split_and!; [done|by apply runs_bind_panic|done].
    + exists (t1 ++ t2). split_and!; [by apply Forall_app|by eapply runs_bind_ret|apply omap_app].
Qed.

(** ** Laws of [alike] *)

Section Laws.
Context {A B : Type} (R : A → B → Prop).

Lemma alike_ret a b : R a b → alike R (Ret a) (Ret b).
Proof.
  intros HR. split; intros w o [-> ->]%shows_ret; eexists (Returned _); (split; [exact HR|]);
    by apply shows_ret.
Qed.

Lemma alike_panic m : alike R (Panic m) (Panic m).
Proof.
  split; intros w o [-> ->]%shows_panic; exists (Panicked m); (split; [done|]); by apply shows_panic.
Qed.

End Laws.

Lemma simulates_bind {A B A' B'} (R : A → B → Prop) (S : A' → B' → Prop) p q f g :
  simulates R p q → (∀ a b, R a b → simulates S (f a) (g b)) → simulates S (bind p f) (bind q g).
Proof.
  intros Hp Hf w o [(m & Hs & ->)|(a & w1 & w2 & -> & H1 & H2)]%shows_bind.
  - destruct (Hp _ _ Hs) as ([b|m'] & Ho & Hs'); [done|]. simpl in Ho. subst m'.
    exists (Panicked m). split; [done|]. apply shows_bind. eauto.
  - destruct (Hp _ _ H1) as ([b|m'] & Ho & Hs'); [|done].
    destruct (Hf _ _ Ho _ _ H2) as (o' & Ho' & Hs''). exists o'. split; [done|].
    apply shows_bind. right. eauto 8.
Qed.

Lemma alike_bind {A B A' B'} (R : A → B → Prop) (S : A' → B' → Prop) p q f g :
  alike R p q → (∀ a b, R a b → alike S (f a) (g b)) → alike S (bind p f) (bind q g).
Proof.
  intros [H1 H2] Hf. split.
  - eapply simulates_bind; [exact H1|]. intros a b Hab. by apply Hf.
  - eapply simulates_bind; [exact H2|]. intros b a Hab. by apply Hf.
Qed.

Lemma alike_refl {A} (p : prog A) : alike eq p p.
Proof. by split; intros w o Hs; exists o; (split; [destruct o|]). Qed.

Lemma runs_finally_panic {A} (p : prog A) (fin : prog unit) t1 t2 o m :
  runs p t1 o → runs fin t2 (Panicked m) → runs (finally p fin) (t1 ++ t2) (Panicked m).
Proof.
  revert t1. induction p as [a|msg|r k IH]; simpl; intros t1.
  - intros [-> ->] H. by apply runs_bind_panic.
  - intros [-> ->] H. by apply runs_bind_panic.
  - intros (x & t' & -> & Hk) Hf. exists x, (t' ++ t2). eauto.
Qed.

Lemma shows_finally {A} (p : prog A) fin w o :
  shows (finally p fin) w o ↔
  ∃ o1 w1 w2, w = w1 ++ w2 ∧ shows p w1 o1 ∧
    (shows fin w2 (Returned ()) ∧ o = o1 ∨ ∃ m, shows fin w2 (Panicked m) ∧ o = Panicked m).
Proof.
  split.
  - intros (t & Ht & (o1 & t1 & t2 & -> & H1 & H2)%runs_finally_inv & <-).
    apply Forall_app in Ht as [Ht1 Ht2]. exists o1, (omap see t1), (omap see t2).
    split_and!; [apply omap_app|by exists t1|].
    destruct H2 as [[H2 ->]|(m & H2 & ->)]; [left|right; exists m]; (split; [by exists t2|done]).
  - intros (o1 & w1 & w2 & -> & (t1 & Ht1 & H1 & <-) & H2).
    destruct H2 as [[(t2 & Ht2 & H2 & <-) ->]|(m & (t2 & Ht2 & H2 & <-) & ->)]; exists (t1 ++ t2);
      (split_and!; [by apply Forall_app| |apply omap_app]).
    + by apply runs_finally.
    + by eapply runs_finally_panic.
Qed.

Lemma simulates_finally {A B} (R : A → B → Prop) p q fin fin' :
  simulates R p q → simulates eq fin fin' → simulates R (finally p fin) (finally q fin').
Proof.
  intros Hp Hf w o (o1 & w1 & w2 & -> & H1 & H2)%shows_finally.
  destruct (Hp _ _ H1) as (o1' & Ho & H1').
  destruct H2 as [[H2 ->]|(m & H2 & ->)]; destruct (Hf _ _ H2) as ([[]|m'] & Hm & H2'); try done.
  - exists o1'. split; [done|]. apply shows_finally. eauto 10.
  - simpl in Hm. subst m'. exists (Panicked m). split; [done|]. apply shows_finally. eauto 10.
Qed.

Lemma alike_finally {A B} (R : A → B → Prop) p q fin fin' :
  alike R p q → alike eq fin fin' → alike R (finally p fin) (finally q fin').
Proof.
  intros [H1 H2] [F1 F2]. split; apply simulates_finally; try done.
  intros w o Hs. destruct (F2 _ _ Hs) as (o' & Ho & Hs'). exists o'. split; [|done].
  destruct o, o'; simpl in *; auto.
Qed.

Lemma alike_range_err {B} (f g : B → prog (option error)) xs :
  (∀ x, alike eq (f x) (g x)) → alike eq (range_err f xs) (range_err g xs).
Proof.
  intros Hf. induction xs as [|x xs IH]; [by apply alike_ret|].
  apply alike_bind with (1 := Hf x). intros e e' <-. destruct e; [by apply alike_ret|exact IH].
Qed.

(** ** The connections *)

Definition open (d : DefaultConnector) : Prop := is_Some (DefaultConnector_db d).

Lemma fake_call_shows f op w o :
  shows (fake_call f op) w o ↔
  o = Returned None ∧
  w = [match op with FakeConnect d s => Opened d s | FakeExec q args => Executed q args end].
Proof.
  unfold fake_call. simpl. rewrite shows_call. split.
  - intros (x & w' & Hx & Hs & ->). simpl in Hx. subst x. apply shows_ret in Hs as [-> ->].
    by destruct op.
  - intros [-> ->]. exists None, []. split_and!; [done|by apply shows_ret|by destruct op].
Qed.

Lemma Exec_shows d l q args w o :
  open d → shows (Exec d l q args) w o ↔ o = Returned None ∧ w = [Executed q args].
Proof.
  intros [h Hh]. simpl. unfold DefaultConnector_Exec, DefaultConnector_infoLog. rewrite Hh.
  assert (∀ w o, shows (call (SqlExec h q args)) w o ↔ o = Returned None ∧ w = [Executed q args]) as Hexec.
  { intros w' o'. unfold call. rewrite shows_call. split.
    - intros (x & w'' & Hx & [-> ->]%shows_ret & ->). simpl in Hx. by subst x.
    - intros [-> ->]. exists None, []. by rewrite shows_ret. }
  case_bool_decide; simpl; [apply Hexec|]. rewrite shows_call, <- Hexec. split.
  - by intros ([] & w' & _ & Hs & ->).
  - intros Hs. by exists (), w.
Qed.

Lemma Exec_alike f d l q args : open d → alike eq (Exec (C := FakePtr) f l q args) (Exec d l q args).
Proof.
  intros Hd. split; intros w o Hs; exists o; (split; [by destruct o|]); revert Hs.
  - intros Hs%fake_call_shows. by apply Exec_shows.
  - intros Hs%Exec_shows; [|done]. by apply fake_call_shows.
Qed.

Lemma Close_alike f d : open d → alike (λ _ _, True) (Close (C := FakePtr) f) (Close d).
Proof.
  intros [h Hh]. simpl. unfold DefaultConnector_Close, FakeConnection_Close. rewrite Hh. split; intros w o Hs.
  - apply shows_ret in Hs as [-> ->]. exists (Returned None). split; [done|]. apply shows_call.
    exists None, []. by rewrite shows_ret.
  - apply shows_call in Hs as (x & w' & _ & [-> ->]%shows_ret & ->). exists (Returned None).
    split; [done|]. by apply shows_ret.
Qed.

Lemma Connect_alike f d driver str :
  alike (λ x y, x.2 = None ∧ y.2 = None ∧ open y.1)
    (Connect (C := FakePtr) f driver str) (Connect d driver str).
Proof.
  split; intros w o Hs.
  - apply shows_bind in Hs as [(m & [[=] _]%fake_call_shows & _)|(e & w1 & w2 & -> & Hc & Hs)].
    apply fake_call_shows in Hc as [[= ->] ->]. apply shows_ret in Hs as [-> ->].
    exists (Returned (mkDefaultConnector (Some 0), None)). split; [by split_and!; [..|eexists]|].
    apply shows_call. exists (0, None), []. split_and!; [done| |done]. simpl.
    apply shows_call. exists (), []. split_and!; [done| |done].
    apply shows_call. exists (), []. by rewrite shows_ret.
  - apply shows_call in Hs as ([h e] & w' & He & Hs & ->). simpl in He. subst e. simpl in Hs.
    apply shows_call in Hs as ([] & w1 & _ & Hs & ->).
    apply shows_call in Hs as ([] & w2 & _ & [-> ->]%shows_ret & ->).
    exists (Returned (f, None)). split; [by split_and!; [..|eexists]|].
    apply shows_bind. right. exists None, [Opened driver str], []. rewrite shows_ret.
    split_and!; [done|by apply fake_call_shows|done|done].
Qed.

(** ** The database objects *)

(** Equal errors, and related results when there is none. *)
Definition result_rel {A B E} (R : A → B → Prop) (x : A * option E) (y : B * option E) : Prop :=
  x.2 = y.2 ∧ (x.2 = None → R x.1 y.1).

Definition pg_alike (p : Postgresql FakePtr) (q : Postgresql DefaultConnector) : Prop :=
  pg_config p = pg_config q ∧ open (pg_db q).
Definition my_alike (m : Mysql FakePtr) (n : Mysql DefaultConnector) : Prop :=
  my_config m = my_config n ∧ open (my_db n).

(** One step of two programs: both bind the same request or related calls. *)
Lemma alike_same {A B C} (S : B → C → Prop) (p : prog A) f g :
  (∀ a, alike S (f a) (g a)) → alike S (bind p f) (bind p g).
Proof. intros Hf. eapply alike_bind; [apply alike_refl|]. by intros a ? <-. Qed.

Section Postgresql.
Context (p : Postgresql FakePtr) (q : Postgresql DefaultConnector).

Lemma Postgresql_Connect_alike :
  pg_config p = pg_config q → alike (result_rel pg_alike) (Postgresql_Connect p) (Postgresql_Connect q).
Proof.
  intros Hc. unfold Postgresql_Connect. rewrite <- Hc. apply alike_same. intros (c & str & [e|]).
  { by apply alike_ret. }
  eapply alike_bind; [apply Connect_alike|]. intros [f e] [d e'] (He & He' & Hd). simpl in *.
  subst e e'. by apply alike_ret.
Qed.

Context (Hpq : pg_alike p q).

Lemma pg_Exec_alike l str args : alike eq (Exec (pg_db p) l str args) (Exec (pg_db q) l str args).
Proof. apply Exec_alike, Hpq. Qed.

Lemma Postgresql_Close_alike : alike (λ _ _, True) (Postgresql_Close p) (Postgresql_Close q).
Proof.
  destruct Hpq as [Hc Hd]. unfold Postgresql_Close. rewrite <- Hc. apply alike_same. intros _.
  by apply Close_alike.
Qed.

Lemma Postgresql_CreateUser_alike u pw :
  alike eq (Postgresql_CreateUser p u pw) (Postgresql_CreateUser q u pw).
Proof.
  unfold Postgresql_CreateUser. destruct (createUserQuery u pw) as [str l].
  eapply alike_bind; [apply pg_Exec_alike|]. intros err ? <-.
  unfold genPostgresCertFromCA. rewrite (proj1 Hpq). apply alike_refl.
Qed.

Lemma Postgresql_DeleteUser_alike u : alike eq (Postgresql_DeleteUser p u) (Postgresql_DeleteUser q u).
Proof.
  eapply alike_bind; [apply pg_Exec_alike|]. intros err ? <-. apply alike_refl.
Qed.
End Postgresql.

Lemma deferred_alike {A B} (p : prog A) (q : prog B) :
  alike (λ _ _, True) p q → alike eq (bind p (λ _, Ret ())) (bind q (λ _, Ret ())).
Proof. intros Hpq. eapply alike_bind; [exact Hpq|]. intros a b _. by apply alike_ret. Qed.

Lemma inDatabasePrivilege_alike p q u d on pr st arg :
  pg_alike p q →
  alike eq (inDatabasePrivilege p u d on pr st arg) (inDatabasePrivilege q u d on pr st arg).
Proof.
  intros [Hc Hd]. unfold inDatabasePrivilege.
  eapply alike_bind with (R := λ _ _, True); [by apply alike_ret|]. intros f g _. cbv zeta.
  eapply alike_bind; [apply Postgresql_Connect_alike; simpl; by rewrite Hc|].
  intros [p' e] [q' e'] [He Hr]. simpl in He, Hr. subst e'. destruct e as [e|]; [by apply alike_ret|].
  apply alike_finally; [by apply Exec_alike, Hr|]. apply deferred_alike.
  by apply Postgresql_Close_alike, Hr.
Qed.

Lemma privilege_step_alike p q u st arg pr :
  pg_alike p q → alike eq (privilege_step p u st arg pr) (privilege_step q u st arg pr).
Proof.
  intros Hpq. unfold privilege_step, databasePrivilege, privilege_.
  case_match; [by apply inDatabasePrivilege_alike|].
  repeat (case_match; [by apply pg_Exec_alike|]). by apply alike_ret.
Qed.

Lemma Postgresql_privileges_alike p q u l st arg :
  pg_alike p q →
  alike eq (Postgresql_privilegesProcessor p u l st arg) (Postgresql_privilegesProcessor q u l st arg).
Proof. intros Hpq. apply alike_range_err. intros pr. by apply privilege_step_alike. Qed.

Lemma Mysql_privileges_alike m n u l st arg :
  my_alike m n →
  alike eq (Mysql_privilegesProcessor m u l st arg) (Mysql_privilegesProcessor n u l st arg).
Proof.
  intros [Hc Hd]. apply alike_range_err. intros pr. unfold Mysql_privilege_step.
  destruct (MysqlPrepareStatementForPrivilege _ _ _ _ _ _). by apply Exec_alike.
Qed.

Definition iface_alike (x : iface FakePtr) (y : iface DefaultConnector) : Prop :=
  match x, y with
  | IfacePostgresql (Some p), IfacePostgresql (Some q) => pg_alike p q
  | IfaceMysql (Some m), IfaceMysql (Some n) => my_alike m n
  | _, _ => False
  end.

Lemma newDatabase_alike f d spec :
  alike (result_rel iface_alike) (newDatabase (C := FakePtr) f spec) (newDatabase d spec).
Proof.
  unfold newDatabase. case_bool_decide; [|case_bool_decide; [|by apply alike_ret]].
  - eapply alike_bind with (R := result_rel (λ x y, iface_alike (IfacePostgresql x) (IfacePostgresql y)));
      [|by intros [x e] [y e'] Hxy; apply alike_ret].
    unfold newPostgresql. case_match; [|apply alike_panic].
    apply alike_same. intros [[dt k] [e|]]; [by apply alike_ret|].
    apply alike_same. intros [pw [e|]]; [by apply alike_ret|].
    eapply alike_bind; [by apply Postgresql_Connect_alike|]. intros [x e] [y e'] Hxy. by apply alike_ret.
  - eapply alike_bind with (R := result_rel (λ x y, iface_alike (IfaceMysql x) (IfaceMysql y)));
      [|by intros [x e] [y e'] Hxy; apply alike_ret].
    unfold newMysql. case_match; [|apply alike_panic].
    apply alike_same. intros [pw [e|]]; [by apply alike_ret|].
    eapply alike_bind with (R := result_rel my_alike); [|by intros [x e] [y e'] Hxy; apply alike_ret].
    unfold Mysql_Connect. apply alike_same. intros [str [e|]]; [by apply alike_ret|].
    eapply alike_bind; [apply Connect_alike|]. intros [f' e] [d' e'] (He & He' & Hd). simpl in *.
    subst e e'. by apply alike_ret.
Qed.

Section Object.
Context (x : iface FakePtr) (y : iface DefaultConnector) (Hxy : iface_alike x y).

Lemma db_Close_alike : alike (λ _ _, True) (db_Close x) (db_Close y).
Proof.
  destruct x as [|[p|]|[m|]], y as [|[q|]|[n|]]; try done.
  - by apply Postgresql_Close_alike.
  - exact (Close_alike (my_db m) (my_db n) (proj2 Hxy)).
Qed.

Lemma db_CreateUser_alike u pw : alike eq (db_CreateUser x u pw) (db_CreateUser y u pw).
Proof.
  destruct x as [|[p|]|[m|]], y as [|[q|]|[n|]]; try done.
  - exact (Postgresql_CreateUser_alike p q Hxy u pw).
  - destruct Hxy as [Hc Hd].
    assert (alike eq (Mysql_CreateUser m u pw) (Mysql_CreateUser n u pw)) as Hu; [|exact Hu].
    unfold Mysql_CreateUser. rewrite Hc. eapply alike_bind; [by apply Exec_alike|].
    intros e ? <-. apply alike_refl.
Qed.

Lemma db_DeleteUser_alike u : alike eq (db_DeleteUser x u) (db_DeleteUser y u).
Proof.
  destruct x as [|[p|]|[m|]], y as [|[q|]|[n|]]; try done.
  - exact (Postgresql_DeleteUser_alike p q Hxy u).
  - destruct Hxy as [Hc Hd].
    assert (alike eq (Mysql_DeleteUser m u) (Mysql_DeleteUser n u)) as Hu; [|exact Hu].
    unfold Mysql_DeleteUser. rewrite Hc. by apply Exec_alike.
Qed.

Lemma db_ApplyPrivileges_alike u l :
  alike eq (db_ApplyPrivileges x u l) (db_ApplyPrivileges y u l).
Proof.
  destruct x as [|[p|]|[m|]], y as [|[q|]|[n|]]; try done.
  - exact (Postgresql_privileges_alike p q u l "GRANT" "TO" Hxy).
  - exact (Mysql_privileges_alike m n u l "GRANT" "TO" Hxy).
Qed.

Lemma db_RevokePrivileges_alike u l :
  alike eq (db_RevokePrivileges x u l) (db_RevokePrivileges y u l).
Proof.
  destruct x as [|[p|]|[m|]], y as [|[q|]|[n|]]; try done.
  - assert (alike eq (Postgresql_RevokePrivileges p u l) (Postgresql_RevokePrivileges q u l)) as Hr;
      [|exact Hr].
    eapply alike_bind; [exact (Postgresql_privileges_alike p q u l "REVOKE" "FROM" Hxy)|].
    intros e ? <-. apply alike_refl.
  - exact (Mysql_privileges_alike m n u l "REVOKE" "FROM" Hxy).
Qed.

(** ** The controller *)

Lemma createUserInDatabase_alike u ref :
  alike eq (createUserInDatabase x u ref) (createUserInDatabase y u ref).
Proof.
  apply alike_same. intros [pw [e|]]; [apply alike_refl|].
  eapply alike_bind; [apply db_CreateUser_alike|]. intros r ? <-. apply alike_refl.
Qed.

Lemma work_alike (del : bool) u ref l :
  alike eq ((if del then databaseUserDelete else databaseUserApply) x u ref l)
    ((if del then databaseUserDelete else databaseUserApply) y u ref l).
Proof.
  destruct del.
  - apply alike_finally; [|apply alike_refl].
    eapply alike_bind; [apply db_RevokePrivileges_alike|].
    intros [e|] ? <-; [by apply alike_ret|apply db_DeleteUser_alike].
  - eapply alike_bind; [apply createUserInDatabase_alike|].
    intros [e|] ? <-; [by apply alike_ret|apply db_ApplyPrivileges_alike].
Qed.
End Object.

Lemma databaseReconciler_alike f u (del : bool) ref :
  alike eq (databaseReconciler (DatabaseCreatorFunc f) u del ref) (databaseReconciler NewDatabase u del ref).
Proof.
  unfold databaseReconciler. apply alike_same. intros [[cfg|] [e|]]; try apply alike_refl.
  apply alike_same. intros [l [e|]]; [apply alike_refl|].
  eapply alike_bind; [apply newDatabase_alike|].
  intros [x e] [y e'] [He Hxy]. simpl in He, Hxy. subst e'. destruct e as [e|]; [by apply alike_ret|].
  specialize (Hxy eq_refl). apply alike_finally; [by apply work_alike|].
  by apply deferred_alike, db_Close_alike.
Qed.

Section Controller.
Context {U : Controllerutil} (f : FakeDatabase).

Lemma loop_alike u (del : bool) refs :
  alike eq (range_err (databaseReconciler (DatabaseCreatorFunc f) u del) refs)
    (range_err (databaseReconciler NewDatabase u del) refs).
Proof. apply alike_range_err. intros ref. apply databaseReconciler_alike. Qed.

Lemma reconcile_alike u :
  alike eq (reconcile_ (DatabaseCreatorFunc f) u) (reconcile_ NewDatabase u).
Proof.
  unfold reconcile_. destruct (Meta_DeletionTimestamp (User_Meta u)).
  - apply alike_same. intros []. case_match; [apply alike_refl|].
    eapply alike_bind; [apply loop_alike|]. intros err ? <-. apply alike_refl.
  - apply alike_same. intros [u' [e|]]; [apply alike_refl|].
    eapply alike_bind; [apply loop_alike|]. intros err ? <-. apply alike_refl.
Qed.

Lemma Reconcile_alike nn : alike eq (Reconcile (DatabaseCreatorFunc f) nn) (OperatorReconcile nn).
Proof.
  apply alike_same. intros [[u|] [e|]]; try apply alike_refl.
  eapply alike_bind; [apply reconcile_alike|]. intros r ? <-. apply alike_refl.
Qed.

(** C24: The controller over the test double does what the operator does.  When
    the server is reachable and executes every statement, a reconciliation over
    [FakeDatabase] can end with a result after the connections, the statements
    and the requests [w], if and only if the operator can: the same driver and
    connection string, the same statements with the same arguments, the same
    reads and writes in the cluster and the file system, in the same order.  So
    what the tests see through the double is what the operator would do. *)
Theorem test_double_equivalent nn w o :
  shows (Reconcile (DatabaseCreatorFunc f) nn) w o ↔ shows (OperatorReconcile nn) w o.
Proof.
  destruct (Reconcile_alike nn) as [H1 H2]. split; intros Hs.
  - destruct (H1 _ _ Hs) as (o' & Ho & Hs'). destruct o, o'; simpl in Ho; by subst.
  - destruct (H2 _ _ Hs) as (o' & Ho & Hs'). destruct o, o'; simpl in Ho; by subst.
Qed.
End Controller.

(** Such runs exist, over the double and over the connection: on the sample
    cluster both connect twice for the user and once for the object in another
    database, and send eight statements. *)
Definition acceptedb (e : event) : bool :=
  match e with
  | existT r x =>
      match r return resp r → bool with
      | SqlConnect _ _ => λ x, bool_decide (x.2 = None)
      | SqlExec _ _ _ => λ x, bool_decide (x = None)
      | FakeCall _ _ => λ x, bool_decide (x = None)
      | _ => λ _, true
      end x
  end.

Lemma acceptedb_spec t : forallb acceptedb t = true → Forall accepted t.
Proof.
  induction t as [|[r x] t IH]; simpl; [constructor|]. intros [Hx Ht]%andb_true_iff.
  constructor; [|auto]. destruct r; simpl in *; try exact I; by apply bool_decide_eq_true in Hx.
Qed.

Definition double_reconciler : prog (Result * option error) :=
  Reconcile (DatabaseCreatorFunc (NewFakeDatabase (mkFakePtr 0))) john.

Lemma exec_shows {A} (p : prog A) w :
  forallb acceptedb (trace p w) = true → shows p (omap see (trace p w)) (result p w).
Proof.
  intros Ht. exists (trace p w). split_and!; [by apply acceptedb_spec|by apply exec_runs|done].
Qed.

Example sample_double :
  let w := omap see (trace double_reconciler (world_of new_user)) in
  shows double_reconciler w (Returned (Result_zero, None)) ∧
  shows (OperatorReconcile john) w (Returned (Result_zero, None)) ∧
  length (omap (λ s, match s with Executed q _ => Some q | _ => None end) w) = 8 ∧
  length (omap (λ s, match s with Opened d _ => Some d | _ => None end) w) = 3.
Proof.
  split_and!; [..|by vm_compute|by vm_compute].
  - assert (result double_reconciler (world_of new_user) = Returned (Result_zero, None)) as <-
      by by vm_compute.
    apply exec_shows. by vm_compute.
  - assert (result (OperatorReconcile john) (world_of new_user) = Returned (Result_zero, None)) as <-
      by by vm_compute.
    assert (omap see (trace double_reconciler (world_of new_user)) = omap see (trace (OperatorReconcile john) (world_of new_user))) as -> by by vm_compute.
    apply exec_shows. by vm_compute.
Qed.
